(* ===== verification/_CoqProject ===== *)
-Q . S2P
Prelude.v
GoBinary.v
Config.v
GoOs.v
Filepath.v
WalLib.v
WalModel.v
Record.v
BTreeLib.v
Index.v
Indexer.v
Watch.v
Ring.v
Store.v
Batch.v
DB.v
Open.v
View.v
BatchSpec.v
CommitSpec.v
Recovery.v
OpenSpec.v
DBSpec.v
Instances.v
DBProps.v
WatchDB.v
Transactions.v
Traverse.v
Expire.v
Iterator.v
Merge.v
MergeSpec.v
MergeLoop.v
MergeOpen.v
MergeProps.v
Strs.v
Flags.v
Examples.v
ExamplesProps.v
Json.v
Http.v
Urls.v
Replication.v
Server.v
AdminPage.v
Failover.v
Proxy.v
Cmd.v
ServerSpec.v
ServerProps.v
ProxySpec.v
ProxyProps.v
Migration.v
Cluster.v
ClusterProps.v
Takeover.v
