(* ===== verification/Prelude.v ===== *)
(** * RoseDB and its servers: a verification development

    The repository is a key-value store in Go, a log on disk with an index in
    memory (the root package), an HTTP server around it with replication to slaves
    and failover ([server/]), a proxy that spreads keys over servers
    ([cmd/proxy], [sharding/]), two command lines ([cmd/server], [cmd/cli]) and
    example programs ([examples/]).
    This library is a shallow embedding of that code and the theorems about it.

    ** The program and its model

    A write goes through a [Batch]: the batch collects records, [Commit] appends
    them and an end mark to the write-ahead log in one segment, then updates the
    index.  [Open] rebuilds the index from the log and the hint file; [Merge]
    copies the live records to a second directory, which [Open] or [Merge] itself
    takes over.  The server calls the database once per request and starts a
    goroutine per slave for a write; a slave asks its master for its health and
    takes over after three failures; the proxy sends a request to the node of its
    key and moves keys when a node is added.

    Below, the files in the order they build on each other, with what they model.

    Go and its standard library: [Prelude.v] (bytes, 64-bit wrap-around, the
    result type [outcome] -- a value, a panic, or blocked for ever -- and the state
    monad [GoM] with its notations), [GoBinary.v] (slices, varints), [GoOs.v]
    (files and directories, and [fs_denies]: which calls of the operating system
    fail, and how), [Filepath.v], [Strs.v] (strings, URL escapes, query
    strings), [Flags.v] ([flag.Parse] and [strconv.ParseInt]), [Json.v] (JSON and base64), [Http.v] (requests, forms, response
    writers, URLs, clients), [Urls.v] (what text passes through URLs unchanged).

    Code outside the repository, as classes of operations with their laws:
    [WalLib.v] ([github.com/rosedblabs/wal]; [WalModel.v] is a log that meets the
    laws), [BTreeLib.v] ([github.com/google/btree], with an instance by sorted
    lists), [Snowflake] and [MemHashLib] in [Store.v] (batch ids, the hash of the
    Go runtime), [Regexp] in [DB.v], [MultipartLib] and [Network] in [Http.v].
    [Instances.v] has the instances the witnesses run on.

    The database.
    - [Record.v]: [record.go], records and their encodings.
    - [Config.v]: [options.go], [errors.go], [checkOptions].
    - [Index.v]: [index/btree.go] and [NewIndexer] over [BTreeLib].  [Indexer.v]:
      the interfaces of [index/index.go] as classes of operations, without laws,
      the B-tree as their instance, and its iterator under any calls.
    - [Watch.v]: [watch.go], the ring of events and the goroutine that sends
      them, as the step relation [watch_step].  [WatchDB.v] runs that goroutine
      beside the calls of the database.
    - [Store.v]: the structs [DB] and [Batch]; [Store] is a database with the disk
      it is on.  A method of [DB] is a [DbM] computation.  The lock is
      [sync.RWMutex]: a writer that waits for readers is announced and holds back
      new ones, and who unlocks hands over to those who wait.
    - [Batch.v]: [batch.go].  [DB.v]: [db.go] but for opening -- the calls, the
      traversals, [DeleteExpiredKeys].  [Open.v]: [Open] and what of [merge.go]
      runs on opening.  [Merge.v]: [Merge] and [doMerge].  [Iterator.v]:
      [iterator.go].

    The servers.
    - [Server.v]: [server/server.go] and the handler of [server/admin.go], whose
      page is in [AdminPage.v] (the theorems hold of any page).  The record
      [Server] has the database, the role, the replicator, and [sv_tasks], the
      replication goroutines started; handlers are [ServerM] computations,
      composed by [mux] and [ServeHTTP] as in [NewServer].
    - [Replication.v]: [server/replication.go].  [broadcast] gives the goroutines
      of a write, [sync_goroutine] is the body of one.
    - [Failover.v]: [server/failover.go].  [heartbeat_tick] is one round of the
      goroutine, [heartbeat_run] its rounds with what happens between them.
    - [Ring.v]: [sharding/consistent_hash.go] with [crc32.ChecksumIEEE].
    - [Proxy.v]: [cmd/proxy/main.go].  [Cmd.v]: [cmd/server/main.go],
      [cmd/cli/main.go] and the arguments of the proxy, from [os.Args] on.

    The examples.  [Examples.v]: the six [examples/*/main.go] and
    [utils/rand_kv.go], each a [program] on the lines printed, the readings of the
    clock, the random numbers drawn and the store, between [DB_Open] and [DB_Close]
    ([with_db]).

    ** What is promised

    [View.v] is the specification of a database: a map [vmap] from keys to values
    with an expiry time, compared by [live_eq t], which forgets what has expired by
    [t].  [db_view] is the map a database shows, [db_inv] and [batch_inv] the
    invariants.
    [BatchSpec.v], [CommitSpec.v], [Recovery.v], [OpenSpec.v], [DBSpec.v] refine the
    operations to that map; [MergeSpec.v], [MergeLoop.v], [MergeOpen.v] do so for a
    merge with other goroutines running.  [ServerSpec.v] has the server as a map
    behind its paths ([serve_spec]) and the refinement [ServeHTTP_spec];
    [ProxySpec.v] what the proxy sends on; [Migration.v] the interface [KVNodes] of
    the nodes a migration needs, and [CutNodes] for connections that break off while
    a value is answered; [Cluster.v] a network of servers that loses requests and
    answers, which discharges it.

    Where a theorem lets a write fail, it says how: [refused_as] and [refused_op] are
    the log giving the error reported to the very chunks of that write, the index,
    the watcher and the map shown unchanged; [open_error] is an error of the log
    library or one [fs_denies] has; [merge_failed] is the database after a merge that
    ended with an error, [refused_call] a call the log refuses on the store of that
    very merge.

    The theorems are at the ends of the component files and in the [Props] files.
    - [DBProps.v]: histories of calls are histories of a map; opening the directory
      again, after a crash or after [Close], shows the same map; a batch is atomic; an unfinished batch is
      ignored; guards and errors; what [TTL], a second [Commit] and an expired
      record of a torn batch do.
    - [Transactions.v]: the batches of many goroutines, in any schedule, are serial
      transactions, with exactly the waiting that the lock causes.
    - [Traverse.v], [Iterator.v]: exactly the live keys, in order.  [Expire.v]: when
      [DeleteExpiredKeys] ends, and that it may not.
    - [WatchDB.v]: whatever the interleaving of calls and the sending goroutine, the
      consumer of [Watch] sees the writes in order, and all of them while the queue
      is large enough.  [Indexer.v]: the iterator of the index after any
      sequence of [Next], [Rewind] and [Seek].
    - [ExamplesProps.v]: what the examples print on a new directory.  [Flags.v],
      [Cmd.v]: flags written as arguments, in one or two, parse back, and each [main]
      gets what it is given.
    - [MergeProps.v]: a merge keeps every live key, in memory and on disk; a rename
      that fails loses a segment, and the code reports success; examples of other
      losses (another segment size, an overflowed expiry, an interrupted merge, an
      end mark that cannot be opened).
    - [Record.v], [Index.v], [Watch.v], [Ring.v]: round trips; the index is a map;
      the queue keeps the last events and delivers
      them in order; routing is the clockwise successor and moves few keys.
    - [ServerProps.v]: histories of requests are histories of a map; a sync
      goroutine sends at most three times; failover exactly after three failures.
    - [ProxyProps.v]: routing to listed nodes only, under any schedule of requests,
      additions of nodes interleaved between their two sections of the lock; a request through the proxy is
      served as if sent to the node; what a malformed address does.
    - [ClusterProps.v]: an accepted write reaches the slave; nothing orders two of
      them; a migration loses no key; the client stores the arguments of its
      process; examples of what a migration does to odd keys and values, to a node
      added again, to a newer write and to an answer that breaks off.
    - [Takeover.v]: an acknowledged and replicated write outlives its master, from
      the client's put to its get on the slave that has taken over.

    ** Conventions and bounds

    Integers are [Z], wrapped to 64 bits ([i64]) where the code can overflow; the
    theorems that need no overflow say so.  The readings of a clock are arguments.
    A mutex is part of the state: a [Lock] that has to wait is [Blocked], an [Unlock]
    of a free one is [Panic]; [Batch_lock_waits] is the state a goroutine that waits
    leaves.  Requests and calls are atomic, as the database lock makes
    them; where goroutines interleave (batches, the watch, the rounds of a merge,
    ticks, additions of nodes, the keys of a migration, replication), the others are the rest of a
    schedule, steps of a relation, or an argument run at every point where the lock
    is free.

    Fuel: the loops over a log reader take at most [fuel] rounds and are [Blocked]
    beyond; the theorems on [Open] and [Merge] hold for every fuel above the number
    of chunks ([open_fuel], [mg_fuel]), so they include that the loops end.
    [DeleteExpiredKeys] is shown to end with enough fuel when it ends, and to use up
    any fuel when it does not.  The parsers of JSON and strings recurse on fuel
    linear in the text, enough since each round reads a byte ([json_fuel]).  The
    replication loop has [maxRetries] rounds and the migration recurses on lists.
    The iterators of [Examples.v] get one round more than the index has entries,
    and [iterate_prints_in_order] includes that they end.

    ** What is not modelled

    - The laws of the write-ahead log take its corruption checks as given: a torn
      write loses a whole batch or a suffix of its chunks.
    - Failures of the operating system may depend on the call and its paths, not on
      the moment: [fs_denies] is the same during a run.  [Stat] of a file and of a
      directory, opening and reading the end mark of a merge, [Rename], [Remove],
      [RemoveAll] and [MkdirAll] may fail; the files of the log fail inside the log
      library, by its laws.
    - When [Merge] fails to open the log again, the code leaves [db.dataFiles] nil and
      the next call panics; the model keeps the log that has been closed.
    - The lock of a batch itself (a batch is used by one goroutine), the lock file
      (its answer is an argument), the cron scheduler.
    - Of [net/http]: the cleaning of paths with a redirect, redirects followed by a
      client, the text of its errors, content sniffing, IPv6 zones; multipart
      bodies are a parameter.  A client reads what has arrived of a body ([rp_Body]) and
      the error it breaks off with ([rp_BodyErr]); that a server whose handler wrote
      less than the Content-Length it copied closes the connection is left out.
    - Logging (but for [loggingMiddleware]), the messages of a flag that does not
      parse, timers and sleeps, signals, the listening socket; [html/template] beyond a text without actions.
    - [utils/hash.go] (it calls the hash of the runtime, the class [MemHashLib]);
      the generator behind the random values (the class [Rand]) and the sleep of
      the watch example; [benchmark/] and the tests. *)
From Stdlib Require Export ZArith Lia Strings.Byte.
From Stdlib Require Export Sorted.
From stdpp Require Export base list gmap strings sorting.

Open Scope Z_scope.

(** [lia] also solves goals with [/] and [mod]. *)
Ltac Zify.zify_post_hook ::= Z.to_euclidean_division_equations.

(** ** Bytes and Go strings

    A Go [[]byte] and a Go [string] are both sequences of bytes. *)
Abbreviation byte := Byte.byte.
Abbreviation bytes := (list Byte.byte).

Declare Scope go_scope.
Delimit Scope go_scope with go.
(** [$ s] is the Go string literal [s]. *)
Notation "$ s" := (String.list_byte_of_string s%string)
  (at level 1, s at level 0, only parsing) : go_scope.
Open Scope go_scope.

(** The numeric value of a byte, and the conversion [byte(z)] of Go, which
    keeps the low eight bits. *)
Definition byte_val (b : byte) : Z := Z.of_N (Byte.to_N b).

Definition to_byte (z : Z) : byte :=
  match Byte.of_N (Z.to_N (z mod 256)) with Some b => b | None => x00 end.

Lemma byte_val_range b : 0 <= byte_val b < 256.
Proof. unfold byte_val. pose proof (Byte.to_N_bounded b). lia. Qed.

Lemma byte_val_to_byte z : byte_val (to_byte z) = z mod 256.
Proof.
  unfold byte_val, to_byte.
  pose proof (Z.mod_pos_bound z 256 ltac:(lia)) as Hz.
  destruct (Byte.of_N (Z.to_N (z mod 256))) as [b|] eqn:E.
  - apply Byte.to_of_N in E. rewrite E. lia.
  - apply Byte.of_N_None_iff in E. lia.
Qed.

Lemma to_byte_val b : to_byte (byte_val b) = b.
Proof.
  unfold to_byte. rewrite Z.mod_small by apply byte_val_range.
  unfold byte_val. by rewrite N2Z.id, Byte.of_to_N.
Qed.

Lemma byte_val_inj b1 b2 : byte_val b1 = byte_val b2 -> b1 = b2.
Proof. intros E. by rewrite <- (to_byte_val b1), <- (to_byte_val b2), E. Qed.

#[export] Instance byte_eq_dec : EqDecision byte := Byte.byte_eq_dec.
#[export] Instance byte_countable : Countable byte :=
  inj_countable' byte_val to_byte to_byte_val.

(** ** [bytes.Compare]: lexicographic order on byte slices *)
Fixpoint bytes_cmp (a b : bytes) : comparison :=
  match a, b with
  | [], [] => Eq
  | [], _ :: _ => Lt
  | _ :: _, [] => Gt
  | x :: a', y :: b' =>
      match byte_val x ?= byte_val y with Eq => bytes_cmp a' b' | c => c end
  end.

Definition bytes_lt (a b : bytes) : Prop := bytes_cmp a b = Lt.

Lemma bytes_cmp_eq a b : bytes_cmp a b = Eq <-> a = b.
Proof.
  revert b. induction a as [|x a IH]; intros [|y b]; simpl; try done.
  destruct (Z.compare_spec (byte_val x) (byte_val y)) as [E|E|E].
  - apply byte_val_inj in E as ->. rewrite IH. split; [by intros ->|by intros [=]].
  - split; [done|]. intros [= -> ->]; lia.
  - split; [done|]. intros [= -> ->]; lia.
Qed.

Lemma bytes_cmp_antisym a b : bytes_cmp b a = CompOpp (bytes_cmp a b).
Proof.
  revert b. induction a as [|x a IH]; intros [|y b]; simpl; try done.
  rewrite (Z.compare_antisym (byte_val x) (byte_val y)).
  destruct (byte_val x ?= byte_val y); simpl; auto.
Qed.

Lemma bytes_lt_trans a b c : bytes_lt a b -> bytes_lt b c -> bytes_lt a c.
Proof.
  unfold bytes_lt. revert b c.
  induction a as [|x a IH]; intros [|y b] [|z c]; simpl; try done.
  destruct (Z.compare_spec (byte_val x) (byte_val y)) as [E1|E1|E1]; try done;
  destruct (Z.compare_spec (byte_val y) (byte_val z)) as [E2|E2|E2]; try done;
  destruct (Z.compare_spec (byte_val x) (byte_val z)) as [E3|E3|E3]; try done;
  try lia; eauto.
Qed.

Lemma bytes_lt_irrefl a : ~ bytes_lt a a.
Proof. unfold bytes_lt. by rewrite (proj2 (bytes_cmp_eq a a) eq_refl). Qed.

Lemma bytes_lt_total a b : bytes_lt a b \/ a = b \/ bytes_lt b a.
Proof.
  unfold bytes_lt. rewrite (bytes_cmp_antisym a b), <- bytes_cmp_eq.
  destruct (bytes_cmp a b); simpl; auto.
Qed.

#[export] Instance bytes_lt_dec a b : Decision (bytes_lt a b).
Proof. unfold bytes_lt. solve_decision. Defined.

Definition bytes_le (a b : bytes) : Prop := ~ bytes_lt b a.
#[export] Instance bytes_le_dec a b : Decision (bytes_le a b).
Proof. unfold bytes_le. solve_decision. Defined.

#[export] Instance bytes_le_total : Total bytes_le.
Proof.
  intros a b. unfold bytes_le. destruct (bytes_lt_total a b) as [H|[->|H]].
  - left. intros H'. by apply (bytes_lt_irrefl a), (bytes_lt_trans _ b).
  - left. apply bytes_lt_irrefl.
  - right. intros H'. by apply (bytes_lt_irrefl a), (bytes_lt_trans _ b).
Qed.

#[export] Instance bytes_le_trans : Transitive bytes_le.
Proof.
  unfold bytes_le. intros a b c H1 H2 H3. destruct (bytes_lt_total a b) as [H|[->|H]]; [|done..].
  by apply H2, (bytes_lt_trans _ a).
Qed.

#[export] Instance bytes_le_antisymm : AntiSymm (=) bytes_le.
Proof. intros a b H1 H2. by destruct (bytes_lt_total a b) as [?|[?|?]]. Qed.

(** ** Machine integers: the wrap-around of Go's fixed-width types *)
Definition u32 (z : Z) : Z := z mod 2 ^ 32.
Definition u64 (z : Z) : Z := z mod 2 ^ 64.
Definition i64 (z : Z) : Z := (z + 2 ^ 63) mod 2 ^ 64 - 2 ^ 63.

Lemma u32_small z : 0 <= z < 2 ^ 32 -> u32 z = z.
Proof. apply Z.mod_small. Qed.
Lemma u64_small z : 0 <= z < 2 ^ 64 -> u64 z = z.
Proof. apply Z.mod_small. Qed.
Lemma u64_range z : 0 <= u64 z < 2 ^ 64.
Proof. apply Z.mod_pos_bound. lia. Qed.
Lemma i64_small z : - 2 ^ 63 <= z < 2 ^ 63 -> i64 z = z.
Proof. intros. unfold i64. rewrite Z.mod_small by lia. lia. Qed.
Lemma i64_range z : - 2 ^ 63 <= i64 z < 2 ^ 63.
Proof. unfold i64. pose proof (Z.mod_pos_bound (z + 2 ^ 63) (2 ^ 64)). lia. Qed.

(** [len] of a slice, as a Go [int]. *)
Definition len {A} (l : list A) : Z := Z.of_nat (length l).

(** ** Outcomes

    A Go computation returns a value, panics (an index out of range, an explicit
    [panic], the fatal error of unlocking a free mutex), or blocks for ever on a
    lock no one will release.  A Go [error] is an ordinary value. *)
Inductive outcome (A : Type) : Type :=
| Ret (a : A)
| Panic
| Blocked.
Arguments Ret {A} a.
Arguments Panic {A}.
Arguments Blocked {A}.

#[export] Instance outcome_ret : MRet outcome := fun A a => Ret a.
#[export] Instance outcome_bind : MBind outcome := fun A B f m =>
  match m with Ret a => f a | Panic => Panic | Blocked => Blocked end.

Lemma outcome_bind_ret {A B} (f : A -> outcome B) a : (Ret a ≫= f) = f a.
Proof. done. Qed.

Lemma outcome_bind_Ret_inv {A B} (m : outcome A) (f : A -> outcome B) b :
  (m ≫= f) = Ret b -> exists a, m = Ret a /\ f a = Ret b.
Proof. destruct m; simpl; intros; try done. eauto. Qed.

(** State-passing computations over a state [S]: the state an [error] return
    leaves is kept, as in Go. *)
Definition GoM (S A : Type) : Type := S -> outcome (A * S).

Definition gret {S A} (a : A) : GoM S A := fun s => Ret (a, s).
Definition gbind {S A B} (m : GoM S A) (f : A -> GoM S B) : GoM S B := fun s =>
  match m s with Ret (a, s') => f a s' | Panic => Panic | Blocked => Blocked end.
Definition gget {S} : GoM S S := fun s => Ret (s, s).
Definition gput {S} (s : S) : GoM S unit := fun _ => Ret (tt, s).
Definition gmodify {S} (f : S -> S) : GoM S unit := fun s => Ret (tt, f s).
Definition glift {S A} (o : outcome A) : GoM S A := fun s =>
  match o with Ret a => Ret (a, s) | Panic => Panic | Blocked => Blocked end.

Declare Scope gom_scope.
Delimit Scope gom_scope with gom.
Notation "'let!' x ':=' m 'in' k" := (gbind m (fun x => k))
  (at level 10, x binder, m at level 100, k at level 200) : gom_scope.
Notation "m ';;;' k" := (gbind m (fun _ => k))
  (at level 100, k at level 200, right associativity) : gom_scope.
Open Scope gom_scope.

Lemma gbind_Ret {S A B} (m : GoM S A) (f : A -> GoM S B) s a s' :
  m s = Ret (a, s') -> gbind m f s = f a s'.
Proof. unfold gbind. by intros ->. Qed.

(** ** Lists *)

Lemma filter_fmap_list {A B} (f : A -> B) (P : B -> Prop) `{!forall y, Decision (P y)} (l : list A) :
  filter P (f <$> l) = f <$> filter (fun x => P (f x)) l.
Proof.
  induction l as [|x l IH]; [done|]. rewrite fmap_cons, !filter_cons.
  repeat case_decide; try done. by rewrite fmap_cons, IH.
Qed.

Lemma filter_all {A} (P : A -> Prop) `{!forall x, Decision (P x)} (l : list A) :
  (forall x, x ∈ l -> P x) -> filter P l = l.
Proof.
  induction l as [|x l IH]; intros HP; [done|].
  rewrite filter_cons_True by (apply HP; left). f_equal. apply IH. intros. apply HP. by right.
Qed.

Lemma filter_none {A} (P : A -> Prop) `{!forall x, Decision (P x)} (l : list A) :
  (forall x, x ∈ l -> ~ P x) -> filter P l = [].
Proof.
  induction l as [|x l IH]; intros HP; [done|].
  rewrite filter_cons_False by (apply HP; left). apply IH. intros. apply HP. by right.
Qed.

Lemma NoDup_fmap_pair {A B C} (f : A -> C) (l : list (A * B)) a b b' :
  NoDup (f ∘ fst <$> l) -> (a, b) ∈ l -> (a, b') ∈ l -> b = b'.
Proof.
  intros Hnd [i Hi]%list_elem_of_lookup [j Hj]%list_elem_of_lookup.
  assert (i = j) as <-; [|congruence].
  apply (NoDup_lookup _ i j (f a) Hnd); rewrite list_lookup_fmap; [by rewrite Hi|by rewrite Hj].
Qed.

Lemma list_find_pair {A B} `{EqDecision A} (l : list (A * B)) a b :
  (a, b) ∈ l -> (forall b', (a, b') ∈ l -> b' = b) ->
  exists i, list_find (fun x => x.1 = a) l = Some (i, (a, b)).
Proof.
  intros Hin Hu. destruct (list_find (fun x => x.1 = a) l) as [[i [a' b']]|] eqn:E.
  - apply list_find_Some in E as (Hi & Ha & _). simpl in Ha. subst a'.
    apply list_elem_of_lookup_2 in Hi. rewrite (Hu b' Hi). eauto.
  - apply list_find_None in E. rewrite Forall_forall in E. by destruct (E _ Hin).
Qed.

(** Strictly sorted lists of integers. *)
Lemma StronglySorted_lt_NoDup (l : list Z) : StronglySorted Z.lt l -> NoDup l.
Proof.
  induction 1 as [|x l _ IH Hx]; constructor; [|done]. intros Hin.
  rewrite Forall_forall in Hx. specialize (Hx x Hin). lia.
Qed.

Lemma StronglySorted_lt_unique (l1 l2 : list Z) :
  StronglySorted Z.lt l1 -> StronglySorted Z.lt l2 -> (forall x, x ∈ l1 <-> x ∈ l2) -> l1 = l2.
Proof.
  assert (Hle : forall l, StronglySorted Z.lt l -> StronglySorted Z.le l).
  { induction 1 as [|x l _ IH Hx]; constructor; [done|].
    eapply Forall_impl; [exact Hx|]. intros; simpl in *; lia. }
  intros H1 H2 H. apply (StronglySorted_unique Z.le); [auto|auto|].
  apply NoDup_Permutation; auto using StronglySorted_lt_NoDup.
Qed.

(** Pairs in the order of their keys are known by their elements. *)
Lemma sorted_pairs_unique {A} (l l' : list (bytes * A)) :
  StronglySorted (fun a b => bytes_lt a.1 b.1) l -> StronglySorted (fun a b => bytes_lt a.1 b.1) l' ->
  (forall x, x ∈ l <-> x ∈ l') -> l = l'.
Proof.
  intros Hl. revert l'. induction Hl as [|x l _ IH Hx]; intros l' Hl' He.
  { destruct l' as [|y l']; [done|]. destruct (not_elem_of_nil y). apply He. left. }
  destruct Hl' as [|y l' Hl' Hy]; [destruct (not_elem_of_nil x); apply He; left|].
  rewrite Forall_forall in Hx, Hy.
  assert (x = y) as ->.
  { destruct (proj1 (elem_of_cons _ _ _) (proj1 (He x) ltac:(left))) as [|H1]; [done|].
    destruct (proj1 (elem_of_cons _ _ _) (proj2 (He y) ltac:(left))) as [|H2]; [done|].
    destruct (bytes_lt_irrefl x.1). eapply bytes_lt_trans; [by apply Hx|by apply Hy]. }
  f_equal. apply IH; [done|]. intros z. pose proof (He z) as Hz. rewrite !elem_of_cons in Hz. split; intros H.
  - destruct (proj1 Hz (or_intror H)) as [->|]; [|done]. by destruct (bytes_lt_irrefl y.1); apply Hx.
  - destruct (proj2 Hz (or_intror H)) as [->|]; [|done]. by destruct (bytes_lt_irrefl y.1); apply Hy.
Qed.

Lemma StronglySorted_keys {A} (l : list (bytes * A)) :
  StronglySorted bytes_lt l.*1 -> StronglySorted (fun a b => bytes_lt a.1 b.1) l.
Proof.
  induction l as [|x l IH]; [constructor|]. intros H. inversion H as [|? ? Hl Hx]; subst. constructor; [auto|].
  by rewrite Forall_fmap in Hx.
Qed.

Lemma filter_snd_fmap {A B} (l : list (A * B)) (P : B -> Prop) `{!forall y, Decision (P y)} :
  (filter (fun x => P x.2) l).*2 = filter P l.*2.
Proof. by rewrite filter_fmap_list. Qed.

Lemma Forall2_snoc_inv_l {A A'} (R : A -> A' -> Prop) l x l' :
  Forall2 R (l ++ [x]) l' -> exists l1 y, l' = l1 ++ [y] /\ Forall2 R l l1 /\ R x y.
Proof.
  intros H. apply Forall2_app_inv_l in H as (k & k' & H1 & H2 & ->).
  apply Forall2_cons_inv_l in H2 as (y & k'' & Hy & Hn & ->).
  apply Forall2_nil_inv_l in Hn as ->. by exists k, y.
Qed.
