(* ===== verification/GoBinary.v ===== *)
(** * Go's slices and [encoding/binary]

    The part of the Go language and standard library the record codec uses:
    bounds-checked indexing and slicing, [make] and [copy], the varints of
    [encoding/binary] and the little-endian 32-bit words. *)
From S2P Require Import Prelude.
From Stdlib Require Import ZArith Lia Strings.Byte.
From stdpp Require Import base list.
Open Scope Z_scope.

(** ** Slices *)

(** [s[lo:hi]]; the capacity of the slices used here is their length. *)
Definition go_slice (s : bytes) (lo hi : Z) : outcome bytes :=
  if decide (0 <= lo <= hi /\ hi <= len s)
  then Ret (take (Z.to_nat (hi - lo)) (drop (Z.to_nat lo) s)) else Panic.

(** [s[lo:]] *)
Definition go_from (s : bytes) (lo : Z) : outcome bytes := go_slice s lo (len s).

(** [s[i] = b] *)
Definition go_set (s : bytes) (i : Z) (b : byte) : outcome bytes :=
  if decide (0 <= i < len s) then Ret (<[Z.to_nat i := b]> s) else Panic.

(** [make([]byte, n)] *)
Definition go_make (n : Z) : outcome bytes :=
  if decide (0 <= n < 2 ^ 47) then Ret (replicate (Z.to_nat n) x00) else Panic.

(** [copy(dst, src)] *)
Definition go_copy (dst src : bytes) : bytes :=
  take (length dst) src ++ drop (length src) dst.

(** ** Unsigned varints *)

(** The bytes of a varint; a 64-bit value takes at most ten. *)
Fixpoint uvarint_bytes (fuel : nat) (x : Z) : bytes :=
  match fuel with
  | O => []
  | S f => if x <? 128 then [to_byte x]
           else to_byte (Z.lor (byte_val (to_byte x)) 128) :: uvarint_bytes f (Z.shiftr x 7)
  end.

Definition MaxVarintLen32 : Z := 5.
Definition MaxVarintLen64 : Z := 10.

(** [for x >= 0x80 { buf[i] = byte(x) | 0x80; x >>= 7; i++ }; buf[i] = byte(x)] *)
Fixpoint PutUvarint_loop (fuel : nat) (buf : bytes) (i x : Z) : outcome (bytes * Z) :=
  match fuel with
  | O => Panic
  | S f =>
      if 128 <=? x then
        buf ← go_set buf i (to_byte (Z.lor (byte_val (to_byte x)) 128));
        PutUvarint_loop f buf (i + 1) (Z.shiftr x 7)
      else
        buf ← go_set buf i (to_byte x);
        Ret (buf, i + 1)
  end.

(** [binary.PutUvarint(buf[at:], x)]: the updated buffer and the byte count. *)
Definition PutUvarint (buf : bytes) (at_ x : Z) : outcome (bytes * Z) :=
  '(buf, i) ← PutUvarint_loop 10 buf at_ (u64 x);
  Ret (buf, i - at_).

Fixpoint Uvarint_loop (buf : bytes) (i x s : Z) : Z * Z :=
  match buf with
  | [] => (0, 0)
  | b :: buf' =>
      if i =? MaxVarintLen64 then (0, - (i + 1))
      else if byte_val b <? 128 then
        if (i =? MaxVarintLen64 - 1) && (1 <? byte_val b) then (0, - (i + 1))
        else (Z.lor x (u64 (Z.shiftl (byte_val b) s)), i + 1)
      else Uvarint_loop buf' (i + 1)
             (Z.lor x (u64 (Z.shiftl (Z.land (byte_val b) 127) s))) (s + 7)
  end.

(** [binary.Uvarint(buf)]: the value and the byte count, 0 or negative on
    malformed input. *)
Definition Uvarint (buf : bytes) : Z * Z := Uvarint_loop buf 0 0 0.

(** ** Signed varints: zig-zag *)
Definition zigzag (x : Z) : Z :=
  let ux := u64 (Z.shiftl x 1) in if x <? 0 then u64 (Z.lnot ux) else ux.

Definition PutVarint (buf : bytes) (at_ x : Z) : outcome (bytes * Z) :=
  PutUvarint buf at_ (zigzag x).

Definition Varint (buf : bytes) : Z * Z :=
  let '(ux, n) := Uvarint buf in
  let x := i64 (Z.shiftr ux 1) in
  (if Z.testbit ux 0 then Z.lnot x else x, n).

(** ** Little-endian 32-bit words *)
Definition LittleEndian_PutUint32 (v : Z) : bytes :=
  [to_byte v; to_byte (Z.shiftr v 8); to_byte (Z.shiftr v 16); to_byte (Z.shiftr v 24)].

Definition LittleEndian_Uint32 (b : bytes) : outcome Z :=
  match b with
  | b0 :: b1 :: b2 :: b3 :: _ =>
      Ret (Z.lor (byte_val b0) (Z.lor (Z.shiftl (byte_val b1) 8)
            (Z.lor (Z.shiftl (byte_val b2) 16) (Z.shiftl (byte_val b3) 24))))
  | _ => Panic
  end.

(** * Lemmas *)

Lemma len_app {A} (l k : list A) : len (l ++ k) = len l + len k.
Proof. unfold len. rewrite length_app. lia. Qed.
Lemma len_nonneg {A} (l : list A) : 0 <= len l.
Proof. unfold len. lia. Qed.
Lemma len_nil {A} : len (@nil A) = 0.
Proof. done. Qed.
Lemma len_cons {A} (x : A) l : len (x :: l) = 1 + len l.
Proof. unfold len. simpl. lia. Qed.
Create Rewrite HintDb golen.
#[export] Hint Rewrite @len_app @len_nil @len_cons @length_app : golen.

Lemma go_slice_mid (a b c : bytes) :
  go_slice (a ++ b ++ c) (len a) (len a + len b) = Ret b.
Proof.
  unfold go_slice. rewrite decide_True; cycle 1.
  { autorewrite with golen. pose proof (len_nonneg a); pose proof (len_nonneg b);
    pose proof (len_nonneg c). lia. }
  f_equal. replace (Z.to_nat (len a)) with (length a) by (unfold len; lia).
  replace (Z.to_nat _) with (length b) by (unfold len; lia).
  by rewrite drop_app_length, take_app_length.
Qed.

Lemma go_slice_at (s a b c : bytes) lo hi :
  s = a ++ b ++ c -> lo = len a -> hi = len a + len b -> go_slice s lo hi = Ret b.
Proof. intros -> -> ->. apply go_slice_mid. Qed.

Lemma go_from_at (s a b : bytes) lo :
  s = a ++ b -> lo = len a -> go_from s lo = Ret b.
Proof.
  intros -> ->. unfold go_from. apply (go_slice_at _ a b []).
  - by rewrite app_nil_r.
  - done.
  - apply len_app.
Qed.

Lemma go_copy_full (dst src : bytes) : length dst = length src -> go_copy dst src = src.
Proof.
  intros E. unfold go_copy. rewrite E, take_ge, drop_ge by lia. apply app_nil_r.
Qed.

(** ** Bit arithmetic *)

(** A fact about a byte's value is checked on the 256 bytes. *)
Ltac by_bytes := let b := fresh in intros b; destruct b; reflexivity.

Lemma byte_lor_128 : forall b, Z.lor (byte_val b) 128 = byte_val b mod 128 + 128.
Proof. by_bytes. Qed.

Lemma byte_land_127 b : Z.land (byte_val b) 127 = byte_val b mod 128.
Proof. change 127 with (Z.ones 7). by rewrite Z.land_ones by lia. Qed.

Lemma low7_or128 x : byte_val (to_byte (Z.lor (byte_val (to_byte x)) 128)) = x mod 128 + 128.
Proof.
  rewrite byte_val_to_byte, byte_lor_128, byte_val_to_byte.
  replace (x mod 256 mod 128) with (x mod 128); [|lia].
  apply Z.mod_small. lia.
Qed.

(** Bits that do not overlap: [lor] is addition. *)
Lemma lor_shiftl_add a b n :
  0 <= n -> 0 <= a < 2 ^ n -> 0 <= b -> Z.lor a (Z.shiftl b n) = a + b * 2 ^ n.
Proof.
  intros Hn Ha Hb. rewrite <- Z.shiftl_mul_pow2 by lia.
  rewrite <- Z.lxor_lor; [symmetry; apply Z.add_nocarry_lxor|];
  (apply Z.bits_inj'; intros i Hi; rewrite Z.land_spec, Z.bits_0;
   destruct (decide (i < n));
   [ by rewrite Z.shiftl_spec_low, andb_false_r by lia
   | rewrite (Z.testbit_eqb a), Z.div_small, Z.mod_0_l by
       (try lia; assert (2 ^ n <= 2 ^ i) by (apply Z.pow_le_mono_r; lia); lia); done ]).
Qed.

(** * Varint round trips *)

Lemma uvarint_bytes_length fuel x k :
  (0 < k <= fuel)%nat -> 0 <= x < 2 ^ (7 * Z.of_nat k) ->
  (1 <= length (uvarint_bytes fuel x) <= k)%nat.
Proof.
  revert x k. induction fuel as [|f IH]; intros x k Hk Hx; [lia|]. cbn [uvarint_bytes].
  destruct (Z.ltb_spec x 128); simpl; [lia|].
  destruct k as [|[|k]]; [lia|change (2 ^ (7 * Z.of_nat 1)) with 128 in Hx; lia|].
  enough (1 <= length (uvarint_bytes f (Z.shiftr x 7)) <= S k)%nat by lia.
  apply IH; [lia|]. rewrite Z.shiftr_div_pow2 by lia.
  replace (7 * Z.of_nat (S (S k))) with (7 * Z.of_nat (S k) + 7) in Hx by lia.
  rewrite Z.pow_add_r in Hx by lia. lia.
Qed.

Lemma Uvarint_loop_bytes f v rest i acc :
  i + Z.of_nat f = 10 -> 0 <= i <= 9 -> 0 <= v < 2 ^ (64 - 7 * i) -> 0 <= acc < 2 ^ (7 * i) ->
  Uvarint_loop (uvarint_bytes f v ++ rest) i acc (7 * i)
    = (acc + v * 2 ^ (7 * i), i + len (uvarint_bytes f v)).
Proof.
  revert v i acc. induction f as [|f IH]; intros v i acc Hf Hi Hv Hacc; [lia|].
  assert (Hp : 0 < 2 ^ (7 * i)) by (apply Z.pow_pos_nonneg; lia).
  assert (H64 : 2 ^ (64 - 7 * i) * 2 ^ (7 * i) = 2 ^ 64)
    by (rewrite <- Z.pow_add_r by lia; f_equal; lia).
  cbn [uvarint_bytes]. destruct (Z.ltb_spec v 128) as [Hlt|Hge]; cbn [app Uvarint_loop].
  - rewrite byte_val_to_byte, Z.mod_small by lia.
    unfold MaxVarintLen64. rewrite (proj2 (Z.eqb_neq i 10)) by lia.
    rewrite (proj2 (Z.ltb_lt v 128)) by lia.
    replace (i =? 10 - 1) with (i =? 9) by done.
    assert (Hov : (i =? 9) && (1 <? v) = false).
    { destruct (Z.eqb_spec i 9) as [->|]; [|done]. change (2 ^ (64 - 7 * 9)) with 2 in Hv.
      apply Z.ltb_ge. lia. }
    rewrite Hov. f_equal. rewrite u64_small.
    + apply lor_shiftl_add; lia.
    + rewrite Z.shiftl_mul_pow2 by lia. nia.
  - rewrite low7_or128. unfold MaxVarintLen64.
    rewrite (proj2 (Z.eqb_neq i 10)) by lia.
    rewrite (proj2 (Z.ltb_ge _ 128)) by lia.
    rewrite <- (low7_or128 v), byte_land_127, low7_or128.
    replace ((v mod 128 + 128) mod 128) with (v mod 128) by lia.
    assert (i <> 9). { intros ->. change (2 ^ (64 - 7 * 9)) with 2 in Hv. lia. }
    assert (H7 : 2 ^ (7 * (i + 1)) = 2 ^ (7 * i) * 128)
      by (replace (7 * (i + 1)) with (7 * i + 7) by lia; rewrite Z.pow_add_r by lia; done).
    assert (Hq : 2 ^ (64 - 7 * i) = 2 ^ (64 - 7 * (i + 1)) * 128)
      by (replace (64 - 7 * i) with (64 - 7 * (i + 1) + 7) by lia; rewrite Z.pow_add_r by lia; done).
    rewrite (u64_small (Z.shiftl _ _))
      by (rewrite Z.shiftl_mul_pow2 by lia; nia).
    rewrite lor_shiftl_add by lia.
    replace (7 * i + 7) with (7 * (i + 1)) by lia.
    rewrite Z.shiftr_div_pow2 by lia. change (2 ^ 7) with 128.
    rewrite IH by (try lia; nia).
    f_equal; [|autorewrite with golen; lia].
    rewrite H7, (Z.div_mod v 128) at 1 by lia. nia.
Qed.

(** Reading back a 64-bit varint gives the value and consumes its bytes. *)
Lemma Uvarint_bytes v rest :
  0 <= v < 2 ^ 64 ->
  Uvarint (uvarint_bytes 10 v ++ rest) = (v, len (uvarint_bytes 10 v)).
Proof.
  intros Hv. unfold Uvarint.
  etransitivity; [apply (Uvarint_loop_bytes 10 v rest 0 0); lia|].
  f_equal. rewrite Z.pow_0_r. lia.
Qed.

Lemma zigzag_eq x : - 2 ^ 63 <= x < 2 ^ 63 -> zigzag x = if x <? 0 then - 2 * x - 1 else 2 * x.
Proof.
  intros Hx. unfold zigzag. rewrite Z.shiftl_mul_pow2 by lia. change (2 ^ 1) with 2.
  destruct (Z.ltb_spec x 0).
  - unfold u64, Z.lnot. replace ((x * 2) mod 2 ^ 64) with (x * 2 + 2 ^ 64).
    + replace (Z.pred (- (x * 2 + 2 ^ 64))) with ((- 2 * x - 1) + (-1) * 2 ^ 64) by lia.
      rewrite Z.mod_add by lia. apply Z.mod_small. lia.
    + symmetry. rewrite <- (Z.mod_add _ 1) by lia. apply Z.mod_small. lia.
  - rewrite u64_small; lia.
Qed.

Lemma zigzag_range x : - 2 ^ 63 <= x < 2 ^ 63 -> 0 <= zigzag x < 2 ^ 64.
Proof. intros Hx. rewrite zigzag_eq by done. destruct (Z.ltb_spec x 0); lia. Qed.

Lemma Varint_bytes v rest :
  - 2 ^ 63 <= v < 2 ^ 63 ->
  Varint (uvarint_bytes 10 (zigzag v) ++ rest) = (v, len (uvarint_bytes 10 (zigzag v))).
Proof.
  intros Hv. unfold Varint. rewrite Uvarint_bytes by (by apply zigzag_range).
  rewrite zigzag_eq by done. rewrite Z.shiftr_div_pow2 by lia. change (2 ^ 1) with 2. f_equal.
  destruct (Z.ltb_spec v 0).
  - replace (- 2 * v - 1) with (2 * (- v - 1) + 1) by lia.
    rewrite Z.testbit_odd_0. replace ((2 * (- v - 1) + 1) / 2) with (- v - 1) by lia.
    rewrite i64_small by lia. unfold Z.lnot. lia.
  - rewrite Z.testbit_even_0. replace (2 * v / 2) with v by lia. apply i64_small. lia.
Qed.

(** The same with the encoded bytes under a name, as the decoders use it. *)
Lemma Uvarint_read u v :
  u = uvarint_bytes 10 v -> 0 <= v < 2 ^ 64 -> forall rest, Uvarint (u ++ rest) = (v, len u).
Proof. intros -> Hv rest. by apply Uvarint_bytes. Qed.

Lemma Varint_read u v :
  u = uvarint_bytes 10 (zigzag v) -> - 2 ^ 63 <= v < 2 ^ 63 ->
  forall rest, Varint (u ++ rest) = (v, len u).
Proof. intros -> Hv rest. by apply Varint_bytes. Qed.

(** ** Writing a varint into a buffer *)

Lemma go_set_at (a c : bytes) (x b : byte) i :
  i = len a -> go_set (a ++ x :: c) i b = Ret (a ++ b :: c).
Proof.
  intros ->. unfold go_set. rewrite decide_True by
    (autorewrite with golen; pose proof (len_nonneg a); pose proof (len_nonneg c); lia).
  f_equal. unfold len. rewrite Nat2Z.id. by rewrite insert_app_r_alt, Nat.sub_diag by lia.
Qed.

Lemma go_set_head (c : bytes) (x b : byte) : go_set (x :: c) 0 b = Ret (b :: c).
Proof. by apply (go_set_at []). Qed.

Lemma PutUvarint_loop_spec f x a mid c i :
  i = len a -> (length (uvarint_bytes f x) = length mid)%nat ->
  (0 < length (uvarint_bytes f x))%nat ->
  0 <= x < 2 ^ (7 * Z.of_nat f) ->
  PutUvarint_loop f (a ++ mid ++ c) i x
    = Ret (a ++ uvarint_bytes f x ++ c, i + len (uvarint_bytes f x)).
Proof.
  revert x a mid i. induction f as [|f IH]; intros x a mid i Hi Hlen Hpos Hx; [simpl in *; lia|].
  cbn [uvarint_bytes PutUvarint_loop] in *.
  rewrite Z.leb_antisym. destruct (Z.ltb_spec x 128); cbn [negb].
  - destruct mid as [|m [|]]; try done. cbn [app].
    rewrite (go_set_at a c m) by done. cbn. by rewrite len_cons, len_nil.
  - destruct mid as [|m mid]; [done|]. cbn [length app] in *.
    rewrite (go_set_at a (mid ++ c) m) by done.
    replace (2 ^ (7 * Z.of_nat (S f))) with (128 * 2 ^ (7 * Z.of_nat f)) in Hx
      by (rewrite <- (Z.pow_add_r 2 7) by lia; f_equal; lia).
    assert (0 < Z.of_nat f). { destruct f; [simpl in Hx|]; lia. }
    assert (0 <= Z.shiftr x 7 < 2 ^ (7 * Z.of_nat f)) by (rewrite Z.shiftr_div_pow2 by lia; lia).
    set (b := to_byte (Z.lor _ 128)).
    change (a ++ b :: mid ++ c) with (a ++ [b] ++ mid ++ c).
    rewrite (app_assoc a [b]), outcome_bind_ret, IH.
    + autorewrite with golen. rewrite <- app_assoc. do 2 f_equal. lia.
    + autorewrite with golen. lia.
    + lia.
    + pose proof (uvarint_bytes_length f (Z.shiftr x 7) f ltac:(lia) ltac:(lia)). lia.
    + lia.
Qed.

Lemma PutUvarint_spec x a mid c i :
  i = len a -> length mid = length (uvarint_bytes 10 x) -> 0 <= x < 2 ^ 64 ->
  PutUvarint (a ++ mid ++ c) i x
    = Ret (a ++ uvarint_bytes 10 x ++ c, len (uvarint_bytes 10 x)).
Proof.
  intros Hi Hm Hx. unfold PutUvarint. rewrite u64_small by done.
  pose proof (uvarint_bytes_length 10 x 10 ltac:(lia) ltac:(change (7 * Z.of_nat 10) with 70; lia)).
  rewrite (PutUvarint_loop_spec 10 x a mid c i); [|done|lia|lia|change (7 * Z.of_nat 10) with 70; lia].
  cbn. do 2 f_equal. lia.
Qed.

(** Writing after a filled prefix, when the varint fits in what is left. *)
Lemma PutUvarint_app pre rest i x :
  0 <= x < 2 ^ 64 -> i = len pre -> len (uvarint_bytes 10 x) <= len rest ->
  exists rest', PutUvarint (pre ++ rest) i x
    = Ret ((pre ++ uvarint_bytes 10 x) ++ rest', len (uvarint_bytes 10 x))
    /\ len rest' = len rest - len (uvarint_bytes 10 x).
Proof.
  intros Hx Hi Hfit. set (u := uvarint_bytes 10 x) in *.
  exists (drop (length u) rest). unfold len in *. split; [|rewrite length_drop; lia].
  rewrite <- (take_drop (length u) rest) at 1.
  rewrite PutUvarint_spec; [by rewrite <- app_assoc|done|rewrite length_take; fold u; lia|done].
Qed.

Lemma PutVarint_app pre rest i x :
  - 2 ^ 63 <= x < 2 ^ 63 -> i = len pre -> len (uvarint_bytes 10 (zigzag x)) <= len rest ->
  exists rest', PutVarint (pre ++ rest) i x
    = Ret ((pre ++ uvarint_bytes 10 (zigzag x)) ++ rest', len (uvarint_bytes 10 (zigzag x)))
    /\ len rest' = len rest - len (uvarint_bytes 10 (zigzag x)).
Proof. intros Hx. apply PutUvarint_app. by apply zigzag_range. Qed.

(** The number of bytes a varint takes. *)
Lemma uvarint_bytes_len k x :
  (0 < k <= 10)%nat -> 0 <= x < 2 ^ (7 * Z.of_nat k) -> 1 <= len (uvarint_bytes 10 x) <= Z.of_nat k.
Proof. intros Hk Hx. pose proof (uvarint_bytes_length 10 x k Hk Hx). unfold len. lia. Qed.

(** ** Little-endian words *)
Lemma LittleEndian_roundtrip v rest :
  0 <= v < 2 ^ 32 -> LittleEndian_Uint32 (LittleEndian_PutUint32 v ++ rest) = Ret v.
Proof.
  intros Hv. unfold LittleEndian_Uint32, LittleEndian_PutUint32. cbn [app]. f_equal.
  rewrite !byte_val_to_byte, !Z.shiftr_div_pow2 by lia.
  change (2 ^ 8) with 256; change (2 ^ 16) with 65536; change (2 ^ 24) with 16777216.
  set (b0 := v mod 256). set (b1 := (v / 256) mod 256). set (b2 := (v / 65536) mod 256).
  set (b3 := (v / 16777216) mod 256).
  assert (0 <= b0 < 256 /\ 0 <= b1 < 256 /\ 0 <= b2 < 256 /\ 0 <= b3 < 256) by (subst b0 b1 b2 b3; lia).
  rewrite !Z.lor_assoc, !lor_shiftl_add by
    (rewrite ?lor_shiftl_add; rewrite ?lor_shiftl_add; change (2 ^ 8) with 256;
     change (2 ^ 16) with 65536; change (2 ^ 24) with 16777216; lia).
  subst b0 b1 b2 b3. change (2 ^ 8) with 256; change (2 ^ 16) with 65536;
  change (2 ^ 24) with 16777216. lia.
Qed.
