(* ===== verification/Config.v ===== *)
(** * Options and errors

    [options.go], [errors.go] and the option check of [db.go]. *)
From S2P Require Import Prelude.
From Stdlib Require Import ZArith Strings.Byte.
From stdpp Require Import base list strings.
Open Scope Z_scope.

(** The error values of [errors.go]; [ErrNew] is an [errors.New] or
    [fmt.Errorf] value made on the spot, [io_EOF] is [io.EOF]. *)
Inductive error : Type :=
| ErrKeyIsEmpty
| ErrKeyNotFound
| ErrDatabaseIsUsing
| ErrReadOnlyBatch
| ErrBatchCommitted
| ErrBatchRollbacked
| ErrDBClosed
| ErrMergeRunning
| ErrWatchDisabled
| ErrNew (msg : bytes)
| io_EOF.

#[export] Instance error_eq_dec : EqDecision error.
Proof. solve_decision. Defined.

(** The text of an error, [err.Error()]. *)
Definition error_Error (e : error) : bytes :=
  match e with
  | ErrKeyIsEmpty => $"the key is empty"
  | ErrKeyNotFound => $"key not found in database"
  | ErrDatabaseIsUsing => $"the database directory is used by another process"
  | ErrReadOnlyBatch => $"the batch is read only"
  | ErrBatchCommitted => $"the batch is committed"
  | ErrBatchRollbacked => $"the batch is rollbacked"
  | ErrDBClosed => $"the database is closed"
  | ErrMergeRunning => $"the merge operation is running"
  | ErrWatchDisabled => $"the watch is disabled"
  | ErrNew msg => msg
  | io_EOF => $"EOF"
  end.

Record Options : Type := MkOptions {
  o_DirPath : bytes;
  o_SegmentSize : Z;            (* int64 *)
  o_Sync : bool;
  o_BytesPerSync : Z;           (* uint32 *)
  o_WatchQueueSize : Z;         (* uint64 *)
  o_AutoMergeCronExpr : bytes;
}.

Record BatchOptions : Type := MkBatchOptions {
  bo_Sync : bool;
  bo_ReadOnly : bool;
}.

Record IteratorOptions : Type := MkIteratorOptions {
  io_Prefix : bytes;
  io_Reverse : bool;
  io_ContinueOnError : bool;
}.

Definition KB : Z := 1024.
Definition MB : Z := 1024 * KB.
Definition GB : Z := 1024 * MB.

(** [DefaultOptions]; the temporary directory is drawn at random. *)
Definition DefaultOptions (tempDBDir : bytes) : Options :=
  MkOptions tempDBDir (1 * GB) false 0 0 [].

Definition DefaultBatchOptions : BatchOptions := MkBatchOptions true false.

Definition DefaultIteratorOptions : IteratorOptions := MkIteratorOptions [] false false.

(** [checkOptions]; [cron_Parse] is the parser of the cron library. *)
Definition checkOptions (cron_Parse : bytes -> option error) (options : Options) : option error :=
  if decide (o_DirPath options = []) then Some (ErrNew ($"database dir path is empty"))
  else if decide (o_SegmentSize options <= 0)
  then Some (ErrNew ($"database data file size must be greater than 0"))
  else if decide (0 < len (o_AutoMergeCronExpr options)) then
    match cron_Parse (o_AutoMergeCronExpr options) with
    | Some err =>
        Some (ErrNew ($"database auto merge cron expression is invalid, err: " ++ error_Error err))
    | None => None
    end
  else None.
