(* ===== verification/GoOs.v ===== *)
(** * The file system, as the [os] package shows it

    A path is a directory and a file name.  Only the directories the database
    names and the regular files in them are modelled.  An operation can fail for
    a reason of the system's own (permissions, a device, a mount): which ones do,
    and with which error, is the field [fs_denies] of the file system, and no
    theorem assumes it empty without saying so. *)
From S2P Require Import Prelude GoBinary Config.
From Stdlib Require Import ZArith Lia Strings.Byte.
From stdpp Require Import base list gmap.
Open Scope Z_scope.

Abbreviation path := (bytes * bytes)%type.

(** The calls the system may refuse. *)
Inductive os_call : Type :=
| OsStatDir (d : bytes)
| OsStat (p : path)
| OsOpen (p : path)
| OsRead (p : path)
| OsRename (src dst : path)
| OsRemove (p : path)
| OsRemoveAll (d : bytes)
| OsMkdirAll (d : bytes).

#[export] Instance os_call_eq_dec : EqDecision os_call.
Proof. solve_decision. Defined.

Record FileSys : Type := MkFileSys {
  fs_dirs : gset bytes;
  fs_files : gmap path bytes;
  fs_denies : os_call -> option error;
}.

Definition fs_empty : FileSys := MkFileSys ∅ ∅ (fun _ => None).

(** The system refuses nothing. *)
Definition os_works (fs : FileSys) : Prop := forall c, fs_denies fs c = None.

(** An error of the system. *)
Definition os_error (fs : FileSys) (e : error) : Prop := exists c, fs_denies fs c = Some e.

(** The same disk on a system that refuses [c] with [e], and nothing else. *)
Definition fs_deny (c : os_call) (e : error) (fs : FileSys) : FileSys :=
  MkFileSys (fs_dirs fs) (fs_files fs) (fun c' => if decide (c' = c) then Some e else None).

(** ** What is there *)
Definition os_dir_exists (fs : FileSys) (d : bytes) : bool := bool_decide (d ∈ fs_dirs fs).

(** The answer of [os.Stat]: there, [os.IsNotExist], or another error. *)
Inductive os_stat (A : Type) : Type :=
| StatOk (a : A)
| StatNotExist
| StatError (e : error).
Arguments StatOk {A}.
Arguments StatNotExist {A}.
Arguments StatError {A}.

(** [os.Stat] on a directory, and on a file with its size. *)
Definition os_StatDir (fs : FileSys) (d : bytes) : os_stat unit :=
  match fs_denies fs (OsStatDir d) with
  | Some err => StatError err
  | None => if os_dir_exists fs d then StatOk tt else StatNotExist
  end.

Definition os_Stat (fs : FileSys) (p : path) : os_stat Z :=
  match fs_denies fs (OsStat p) with
  | Some err => StatError err
  | None => match fs_files fs !! p with Some c => StatOk (len c) | None => StatNotExist end
  end.

(** [os.Open]: the contents of the file, or an error. *)
Definition os_ErrNotExist : error := ErrNew ($"file does not exist").

Definition os_Open (fs : FileSys) (p : path) : error + bytes :=
  match fs_denies fs (OsOpen p) with
  | Some err => inl err
  | None => match fs_files fs !! p with Some c => inr c | None => inl os_ErrNotExist end
  end.

(** [f.ReadAt(buf, off)] with a buffer of [n] bytes: [io.EOF] when fewer bytes
    are there. *)
Definition os_ReadAt (c : bytes) (off n : Z) : option bytes :=
  if decide (0 <= off /\ off + n <= len c)
  then Some (take (Z.to_nat n) (drop (Z.to_nat off) c)) else None.

(** ** Changes *)
Definition fs_mkdir (fs : FileSys) (d : bytes) : FileSys :=
  MkFileSys ({[d]} ∪ fs_dirs fs) (fs_files fs) (fs_denies fs).

Definition os_MkdirAll (fs : FileSys) (d : bytes) : option error * FileSys :=
  match fs_denies fs (OsMkdirAll d) with
  | Some err => (Some err, fs)
  | None => (None, fs_mkdir fs d)
  end.

Definition os_WriteFile (fs : FileSys) (p : path) (c : bytes) : FileSys :=
  MkFileSys (fs_dirs fs) (<[p := c]> (fs_files fs)) (fs_denies fs).

Definition os_Remove (fs : FileSys) (p : path) : option error * FileSys :=
  match fs_denies fs (OsRemove p) with
  | Some err => (Some err, fs)
  | None =>
      match fs_files fs !! p with
      | None => (Some os_ErrNotExist, fs)
      | Some _ => (None, MkFileSys (fs_dirs fs) (delete p (fs_files fs)) (fs_denies fs))
      end
  end.

(** [os.Rename(src, dst)] replaces the destination; with no source it fails and
    changes nothing. *)
Definition os_Rename (fs : FileSys) (src dst : path) : option error * FileSys :=
  match fs_denies fs (OsRename src dst) with
  | Some err => (Some err, fs)
  | None =>
      match fs_files fs !! src with
      | None => (Some os_ErrNotExist, fs)
      | Some c => (None, MkFileSys (fs_dirs fs) (<[dst := c]> (delete src (fs_files fs))) (fs_denies fs))
      end
  end.

(** [os.RemoveAll] of a directory: the directory and every file in it.  It
    removes what it can: when it fails, the files that may not be removed stay. *)
Definition os_RemoveAll (fs : FileSys) (d : bytes) : option error * FileSys :=
  match fs_denies fs (OsRemoveAll d) with
  | None => (None, MkFileSys (fs_dirs fs ∖ {[d]}) (filter (fun kv => kv.1.1 <> d) (fs_files fs)) (fs_denies fs))
  | Some err =>
      (Some err, MkFileSys (fs_dirs fs)
         (filter (fun kv => kv.1.1 <> d \/ fs_denies fs (OsRemove kv.1) <> None) (fs_files fs)) (fs_denies fs))
  end.

(** ** What a change leaves *)
Lemma os_RemoveAll_outside fs d p : p.1 <> d -> fs_files (os_RemoveAll fs d).2 !! p = fs_files fs !! p.
Proof.
  intros Hp. unfold os_RemoveAll. destruct (fs_denies fs _); simpl; destruct (fs_files fs !! p) eqn:E;
    first [apply map_lookup_filter_Some_2; [done|by try left]|apply map_lookup_filter_None_2; by left].
Qed.

Lemma os_RemoveAll_denies fs d : fs_denies (os_RemoveAll fs d).2 = fs_denies fs.
Proof. unfold os_RemoveAll. by destruct (fs_denies fs _). Qed.

Lemma os_RemoveAll_dirs fs d d' : d' <> d -> d' ∈ fs_dirs (os_RemoveAll fs d).2 <-> d' ∈ fs_dirs fs.
Proof. intros H. unfold os_RemoveAll. destruct (fs_denies fs _); simpl; set_solver. Qed.
