(* ===== verification/Filepath.v ===== *)
(** * File paths

    The functions of Go's [path/filepath] (on Unix) that [merge.go] uses, and
    [mergeDirPath]. *)
From S2P Require Import Prelude.
Open Scope Z_scope.

Definition slash : byte := x2f.
Definition dot : bytes := $".".
Definition dotdot : bytes := $"..".

(** Split at the slashes. *)
Fixpoint split_path (p : bytes) : list bytes :=
  match p with
  | [] => [[]]
  | c :: p =>
      if decide (c = slash) then [] :: split_path p
      else match split_path p with [] => [[c]] | x :: xs => (c :: x) :: xs end
  end.

Fixpoint join_path (xs : list bytes) : bytes :=
  match xs with
  | [] => []
  | [x] => x
  | x :: xs => x ++ slash :: join_path xs
  end.

Definition rooted (p : bytes) : bool := bool_decide (head p = Some slash).

(** The elements left by [filepath.Clean], the last first. *)
Definition clean_step (root : bool) (acc : list bytes) (x : bytes) : list bytes :=
  if decide (x = []) then acc
  else if decide (x = dot) then acc
  else if decide (x = dotdot) then
    match acc with
    | [] => if root then [] else [dotdot]
    | y :: acc' => if decide (y = dotdot) then dotdot :: acc else acc'
    end
  else x :: acc.

Definition filepath_Clean (p : bytes) : bytes :=
  let root := rooted p in
  let r := (if root then [slash] else []) ++ join_path (rev (fold_left (clean_step root) (split_path p) [])) in
  if decide (r = []) then dot else r.

(** [filepath.Dir]: all but the last element, cleaned. *)
Definition filepath_Dir (p : bytes) : bytes :=
  match rev (split_path p) with
  | _ :: [] | [] => filepath_Clean []
  | _ :: dir => filepath_Clean (join_path (rev dir) ++ [slash])
  end.

(** [filepath.Base]: the last element, trailing slashes removed. *)
Definition filepath_Base (p : bytes) : bytes :=
  if decide (p = []) then dot else
  match filter (fun x => x <> []) (rev (split_path p)) with
  | [] => [slash]
  | x :: _ => x
  end.

Definition filepath_Join (xs : list bytes) : bytes :=
  match filter (fun x => x <> []) xs with
  | [] => []
  | xs => filepath_Clean (join_path xs)
  end.

(** ** [mergeDirPath] of [merge.go] *)
Definition mergeDirSuffixName : bytes := $"-merge".

Definition mergeDirPath (dirPath : bytes) : bytes :=
  let dir := filepath_Dir (filepath_Clean dirPath) in
  let base := filepath_Base dirPath in
  filepath_Join [dir; base ++ mergeDirSuffixName].

Example mergeDirPath_abs : mergeDirPath ($"/tmp/rosedb") = $"/tmp/rosedb-merge".
Proof. vm_compute. reflexivity. Qed.
Example mergeDirPath_slash : mergeDirPath ($"/tmp//data/../rosedb/") = $"/tmp/rosedb-merge".
Proof. vm_compute. reflexivity. Qed.
Example mergeDirPath_rel : mergeDirPath ($"data") = $"data-merge".
Proof. vm_compute. reflexivity. Qed.
Example mergeDirPath_up : mergeDirPath ($"../data") = $"../data-merge".
Proof. vm_compute. reflexivity. Qed.
