(* ===== verification/WalLib.v ===== *)
(** * The write-ahead log library (interface)

    [github.com/rosedblabs/wal] is not part of the repository: the model takes
    its operations as the parameters of the class [WalLib], over the file system
    of [GoOs].  The class [WalLaws] states what the database relies on: the log
    a handle shows is a list of segments, each a list of chunks with their
    positions; [PendingWrites]/[WriteAll] append a batch of chunks to one
    segment, [Read] gives back the chunk at a position, and a reader walks the
    segments in order. *)
From S2P Require Import Prelude GoBinary Config GoOs.
From Stdlib Require Import ZArith Lia Sorted Strings.Byte.
From stdpp Require Import base list gmap.
Open Scope Z_scope.

(** The position of a chunk ([wal.ChunkPosition]). *)
Record ChunkPosition : Type := MkChunkPosition {
  SegmentId : Z;      (* uint32 *)
  BlockNumber : Z;    (* uint32 *)
  ChunkOffset : Z;    (* int64 *)
  ChunkSize : Z;      (* uint32 *)
}.

#[export] Instance ChunkPosition_eq_dec : EqDecision ChunkPosition.
Proof. solve_decision. Defined.

#[export] Instance ChunkPosition_countable : Countable ChunkPosition.
Proof.
  refine (inj_countable'
    (fun p => (SegmentId p, BlockNumber p, ChunkOffset p, ChunkSize p))
    (fun '(a, b, c, d) => MkChunkPosition a b c d) _). by intros [].
Defined.

(** The widths of the fields. *)
Definition ChunkPosition_ok (p : ChunkPosition) : Prop :=
  0 <= SegmentId p < 2 ^ 32 /\ 0 <= BlockNumber p < 2 ^ 32 /\
  0 <= ChunkOffset p < 2 ^ 63 /\ 0 <= ChunkSize p < 2 ^ 32.

Record WalOptions : Type := MkWalOptions {
  wo_DirPath : bytes;
  wo_SegmentSize : Z;
  wo_SegmentFileExt : bytes;
  wo_Sync : bool;
  wo_BytesPerSync : Z;
}.

Class WalLib : Type := {
  wal : Type;
  wal_reader : Type;
  SegmentFileName : bytes -> bytes -> Z -> path;
  wal_Open : WalOptions -> FileSys -> (error + wal) * FileSys;
  wal_Write : wal -> bytes -> FileSys -> (error + ChunkPosition) * wal * FileSys;
  wal_PendingWrites : wal -> bytes -> wal;
  wal_ClearPendingWrites : wal -> wal;
  wal_WriteAll : wal -> FileSys -> (error + list ChunkPosition) * wal * FileSys;
  wal_Read : wal -> FileSys -> ChunkPosition -> error + bytes;
  wal_Sync : wal -> FileSys -> option error * FileSys;
  wal_Close : wal -> FileSys -> option error * wal * FileSys;
  wal_IsEmpty : wal -> FileSys -> bool;
  wal_ActiveSegmentID : wal -> Z;
  wal_OpenNewActiveSegment : wal -> FileSys -> option error * wal * FileSys;
  wal_SetIsStartupTraversal : wal -> bool -> wal;
  wal_NewReader : wal -> FileSys -> wal_reader;
  wal_NewReaderWithMax : wal -> Z -> FileSys -> wal_reader;
  reader_CurrentSegmentId : wal_reader -> outcome Z;
  reader_SkipCurrentSegment : wal_reader -> wal_reader;
  reader_Next : wal_reader -> (error + bytes * ChunkPosition) * wal_reader;
}.

(** ** What the library promises

    A segment: its id and its chunks, each with its position. *)
Abbreviation seg := (Z * list (ChunkPosition * bytes))%type.

(** The log: the chunks of all the segments, in order. *)
Definition segs_log (segs : list seg) : list (ChunkPosition * bytes) := segs ≫= snd.

(** A batch of chunks goes to one segment: the active one, or a new one. *)
Inductive segs_append (new : list (ChunkPosition * bytes)) : list seg -> list seg -> Prop :=
| append_active pre id cs :
    segs_append new (pre ++ [(id, cs)]) (pre ++ [(id, cs ++ new)])
| append_rotated pre id cs :
    segs_append new (pre ++ [(id, cs)]) ((pre ++ [(id, cs)]) ++ [(id + 1, new)]).

(** The next chunk of a reader, going past exhausted segments. *)
Fixpoint segs_next (segs : list seg) : option (ChunkPosition * bytes) * list seg :=
  match segs with
  | [] => (None, [])
  | (_, []) :: rest => segs_next rest
  | (id, c :: cs) :: rest => (Some c, (id, cs) :: rest)
  end.

(** The file-name extensions the database uses. *)
Definition dataFileNameSuffix : bytes := $".SEG".
Definition hintFileNameSuffix : bytes := $".HINT".
Definition mergeFinNameSuffix : bytes := $".MERGEFIN".
Definition wal_exts : list bytes := [dataFileNameSuffix; hintFileNameSuffix; mergeFinNameSuffix].

(** [math.MaxInt64], the segment size of the hint file. *)
Definition MaxInt64 : Z := 2 ^ 63 - 1.

Definition seg_id_ok (id : Z) : Prop := 0 < id < 2 ^ 32.

(** What tells two positions of one segment apart. *)
Definition pos_in_seg (p : ChunkPosition) : Z * Z := (BlockNumber p, ChunkOffset p).

Section dir_segs.
Context {W : WalLib} (seg_ok : Z -> bytes -> Prop)
  (seg_chunks : Z -> bytes -> list (ChunkPosition * bytes)).

(** The segments the files of a directory hold. *)
Record dir_segs (dir ext : bytes) (fs : FileSys) (segs : list seg) : Prop := {
  ds_sorted : StronglySorted Z.lt segs.*1;
  ds_ids : forall id, id ∈ segs.*1 -> seg_id_ok id;
  ds_file : forall id, seg_id_ok id ->
    match fs_files fs !! SegmentFileName dir ext id with
    | Some c => seg_ok id c /\ (id, seg_chunks id c) ∈ segs
    | None => id ∉ segs.*1
    end;
}.

Lemma dir_segs_file dir ext fs segs id cs :
  dir_segs dir ext fs segs -> (id, cs) ∈ segs ->
  exists c, fs_files fs !! SegmentFileName dir ext id = Some c /\ seg_ok id c /\ cs = seg_chunks id c.
Proof.
  intros [Hs Hid Hf] Hin. assert (Hin1 : id ∈ segs.*1) by (apply list_elem_of_fmap; by exists (id, cs)).
  specialize (Hf id (Hid _ Hin1)).
  destruct (fs_files fs !! _) as [c|]; [|done]. destruct Hf as [Hok Hc]. exists c. split_and!; [done..|].
  apply (NoDup_fmap_pair (fun x : Z => x) segs id); [|done|done].
  rewrite (list_fmap_compose fst), list_fmap_id. by apply StronglySorted_lt_NoDup.
Qed.

Lemma dir_segs_elem dir ext fs segs id :
  dir_segs dir ext fs segs ->
  id ∈ segs.*1 <-> seg_id_ok id /\ is_Some (fs_files fs !! SegmentFileName dir ext id).
Proof.
  intros [Hs Hid Hf]. split.
  - intros Hin. split; [auto|]. specialize (Hf id (Hid _ Hin)). by destruct (fs_files fs !! _).
  - intros [Hok [c Hc]]. specialize (Hf id Hok). rewrite Hc in Hf.
    apply list_elem_of_fmap. exists (id, seg_chunks id c). by destruct Hf.
Qed.

(** The files determine the segments. *)
Lemma dir_segs_unique dir ext fs segs segs' :
  dir_segs dir ext fs segs -> dir_segs dir ext fs segs' -> segs = segs'.
Proof.
  intros H H'.
  assert (E : segs.*1 = segs'.*1).
  { apply StronglySorted_lt_unique; [apply H|apply H'|]. intros id.
    by rewrite (dir_segs_elem _ _ _ _ _ H), (dir_segs_elem _ _ _ _ _ H'). }
  apply (list_eq_same_length _ _ (length segs')); [done|by rewrite <- (length_fmap fst), E, length_fmap|].
  intros i [id cs] [id' cs'] _ Hi Hi'.
  assert (E1 : segs.*1 !! i = Some id) by (by rewrite list_lookup_fmap, Hi).
  assert (E2 : segs'.*1 !! i = Some id') by (by rewrite list_lookup_fmap, Hi').
  assert (id' = id) as -> by congruence.
  apply list_elem_of_lookup_2 in Hi, Hi'.
  destruct (dir_segs_file _ _ _ _ _ _ H Hi) as (c & Hc & _ & ->).
  destruct (dir_segs_file _ _ _ _ _ _ H' Hi') as (c' & Hc' & _ & ->). congruence.
Qed.
End dir_segs.

(** Only the segment files of [dir] and [ext] differ. *)
Record fs_frame {W : WalLib} (dir ext : bytes) (fs fs' : FileSys) : Prop := {
  fr_files : forall p, (forall id, seg_id_ok id -> p <> SegmentFileName dir ext id) ->
    fs_files fs' !! p = fs_files fs !! p;
  fr_denies : fs_denies fs' = fs_denies fs;
}.

Lemma fs_frame_trans {W : WalLib} dir ext fs1 fs2 fs3 :
  fs_frame dir ext fs1 fs2 -> fs_frame dir ext fs2 fs3 -> fs_frame dir ext fs1 fs3.
Proof. intros [A1 A2] [B1 B2]. split; [|congruence]. intros p Hp. by rewrite B1, A1. Qed.

Lemma fs_frame_refl {W : WalLib} dir ext fs : fs_frame dir ext fs fs.
Proof. done. Qed.

Class WalLaws (W : WalLib) : Type := {
  wal_dir : wal -> bytes;
  wal_ext : wal -> bytes;
  wal_pend : wal -> list bytes;
  wal_limit : wal -> Z;             (* the segment size it was opened with *)
  wal_ok : wal -> FileSys -> Prop;
  wal_segs : wal -> FileSys -> list seg;
  reader_segs : wal_reader -> list seg;
  seg_ok : Z -> bytes -> Prop;
  seg_chunks : Z -> bytes -> list (ChunkPosition * bytes);

  SegmentFileName_dir : forall dir ext id, (SegmentFileName dir ext id).1 = dir;
  SegmentFileName_inj : forall dir ext ext' id id',
    ext ∈ wal_exts -> ext' ∈ wal_exts -> seg_id_ok id -> seg_id_ok id' ->
    SegmentFileName dir ext id = SegmentFileName dir ext' id' -> ext = ext' /\ id = id';

  seg_chunks_ok : forall id c, seg_ok id c ->
    Forall (fun pc => ChunkPosition_ok pc.1 /\ SegmentId pc.1 = id) (seg_chunks id c) /\
    NoDup (pos_in_seg ∘ fst <$> seg_chunks id c);
  seg_chunks_nil : forall id c, seg_ok id c -> (seg_chunks id c = [] <-> c = []);
  (** A file of one chunk: seven bytes of header, then the chunk. *)
  seg_chunks_single : forall id c p d n, seg_ok id c -> seg_chunks id c = [(p, d)] ->
    0 <= n <= len d -> os_ReadAt c 7 n = Some (take (Z.to_nat n) d);

  wal_segs_dir : forall w fs, wal_ok w fs ->
    dir_segs seg_ok seg_chunks (wal_dir w) (wal_ext w) fs (wal_segs w fs);
  wal_segs_nonempty : forall w fs, wal_ok w fs -> wal_segs w fs <> [];
  wal_ok_frame : forall w fs fs', wal_ok w fs ->
    (forall id, seg_id_ok id -> fs_files fs' !! SegmentFileName (wal_dir w) (wal_ext w) id
                               = fs_files fs !! SegmentFileName (wal_dir w) (wal_ext w) id) ->
    wal_ok w fs' /\ wal_segs w fs' = wal_segs w fs;

  wal_Open_law : forall o fs w fs' segs, wal_Open o fs = (inr w, fs') -> wo_SegmentFileExt o ∈ wal_exts ->
    dir_segs seg_ok seg_chunks (wo_DirPath o) (wo_SegmentFileExt o) fs segs ->
    wal_ok w fs' /\ wal_dir w = wo_DirPath o /\ wal_ext w = wo_SegmentFileExt o /\ wal_pend w = [] /\
    wal_segs w fs' = (match segs with [] => [(1, [])] | _ => segs end) /\
    fs_frame (wo_DirPath o) (wo_SegmentFileExt o) fs fs' /\
    fs_dirs fs' = {[wo_DirPath o]} ∪ fs_dirs fs;

  wal_PendingWrites_law : forall w d fs, wal_ok w fs ->
    wal_ok (wal_PendingWrites w d) fs /\ wal_segs (wal_PendingWrites w d) fs = wal_segs w fs /\
    wal_dir (wal_PendingWrites w d) = wal_dir w /\ wal_ext (wal_PendingWrites w d) = wal_ext w /\
    wal_pend (wal_PendingWrites w d) = wal_pend w ++ [d];

  wal_WriteAll_law : forall w fs ps w' fs', wal_ok w fs -> wal_WriteAll w fs = (inr ps, w', fs') ->
    length ps = length (wal_pend w) /\ wal_ok w' fs' /\
    wal_dir w' = wal_dir w /\ wal_ext w' = wal_ext w /\ wal_pend w' = [] /\
    segs_append (zip ps (wal_pend w)) (wal_segs w fs) (wal_segs w' fs') /\
    fs_frame (wal_dir w) (wal_ext w) fs fs' /\ fs_dirs fs' = fs_dirs fs;

  wal_Write_law : forall w d fs p w' fs', wal_ok w fs -> wal_Write w d fs = (inr p, w', fs') ->
    wal_ok w' fs' /\ wal_dir w' = wal_dir w /\ wal_ext w' = wal_ext w /\ wal_pend w' = wal_pend w /\
    segs_append [(p, d)] (wal_segs w fs) (wal_segs w' fs') /\
    fs_frame (wal_dir w) (wal_ext w) fs fs' /\ fs_dirs fs' = fs_dirs fs;

  (** A call that fails has touched the files of its own segments at most, and
      what the log held can still be read. *)
  wal_Open_fails : forall o fs e fs', wal_Open o fs = (inl e, fs') ->
    fs_frame (wo_DirPath o) (wo_SegmentFileExt o) fs fs';
  wal_Write_fails : forall w d fs e w' fs', wal_ok w fs -> wal_Write w d fs = (inl e, w', fs') ->
    fs_frame (wal_dir w) (wal_ext w) fs fs';
  wal_WriteAll_fails : forall w fs e w' fs', wal_ok w fs -> wal_WriteAll w fs = (inl e, w', fs') ->
    fs_frame (wal_dir w) (wal_ext w) fs fs' /\
    forall p c, (p, c) ∈ segs_log (wal_segs w fs) -> wal_Read (wal_ClearPendingWrites w') fs' p = inr c;
  wal_OpenNewActiveSegment_fails : forall w fs e w' fs', wal_ok w fs ->
    wal_OpenNewActiveSegment w fs = (Some e, w', fs') ->
    fs_frame (wal_dir w) (wal_ext w) fs fs' /\
    forall p c, (p, c) ∈ segs_log (wal_segs w fs) -> wal_Read w' fs' p = inr c;

  wal_Open_limit : forall o fs w fs', wal_Open o fs = (inr w, fs') -> wal_limit w = wo_SegmentSize o;
  wal_Write_limit : forall w d fs r w' fs', wal_Write w d fs = (r, w', fs') -> wal_limit w' = wal_limit w;
  (** With segments of the largest size, or with room in an empty one, a chunk
      goes to the active segment. *)
  wal_Write_stays : forall w d fs p w' fs' pre id cs, wal_ok w fs ->
    wal_Write w d fs = (inr p, w', fs') -> wal_segs w fs = pre ++ [(id, cs)] ->
    wal_limit w = MaxInt64 \/ (cs = [] /\ 21 + len d <= wal_limit w) ->
    wal_segs w' fs' = pre ++ [(id, cs ++ [(p, d)])];

  wal_Read_law : forall w fs p c, wal_ok w fs -> (p, c) ∈ segs_log (wal_segs w fs) ->
    wal_Read w fs p = inr c;

  wal_Sync_law : forall w fs e fs', wal_Sync w fs = (e, fs') -> fs' = fs;
  wal_Close_law : forall w fs e w' fs', wal_Close w fs = (e, w', fs') -> fs' = fs;
  wal_IsEmpty_law : forall w fs, wal_ok w fs ->
    wal_IsEmpty w fs = (match wal_segs w fs with [(_, [])] => true | _ => false end);
  wal_ActiveSegmentID_law : forall w fs, wal_ok w fs ->
    Some (wal_ActiveSegmentID w) = last (wal_segs w fs).*1;

  wal_OpenNewActiveSegment_law : forall w fs w' fs', wal_ok w fs ->
    wal_OpenNewActiveSegment w fs = (None, w', fs') ->
    wal_ok w' fs' /\ wal_dir w' = wal_dir w /\ wal_ext w' = wal_ext w /\ wal_pend w' = wal_pend w /\
    wal_segs w' fs' = wal_segs w fs ++ [(wal_ActiveSegmentID w + 1, [])] /\
    fs_frame (wal_dir w) (wal_ext w) fs fs' /\ fs_dirs fs' = fs_dirs fs;

  wal_SetIsStartupTraversal_law : forall w b fs, wal_ok w fs ->
    wal_ok (wal_SetIsStartupTraversal w b) fs /\
    wal_segs (wal_SetIsStartupTraversal w b) fs = wal_segs w fs /\
    wal_dir (wal_SetIsStartupTraversal w b) = wal_dir w /\
    wal_ext (wal_SetIsStartupTraversal w b) = wal_ext w /\
    wal_pend (wal_SetIsStartupTraversal w b) = wal_pend w;

  wal_ClearPendingWrites_law : forall w fs, wal_ok w fs ->
    wal_ok (wal_ClearPendingWrites w) fs /\
    wal_segs (wal_ClearPendingWrites w) fs = wal_segs w fs /\
    wal_dir (wal_ClearPendingWrites w) = wal_dir w /\
    wal_ext (wal_ClearPendingWrites w) = wal_ext w /\
    wal_pend (wal_ClearPendingWrites w) = [];

  wal_NewReader_law : forall w fs, wal_ok w fs -> reader_segs (wal_NewReader w fs) = wal_segs w fs;
  wal_NewReaderWithMax_law : forall w max fs, wal_ok w fs -> 0 < max ->
    reader_segs (wal_NewReaderWithMax w max fs) = filter (fun s => s.1 <= max) (wal_segs w fs);
  reader_CurrentSegmentId_law : forall r, reader_CurrentSegmentId r =
    match reader_segs r with [] => Panic | s :: _ => Ret s.1 end;
  reader_SkipCurrentSegment_law : forall r,
    reader_segs (reader_SkipCurrentSegment r) = tail (reader_segs r);
  reader_Next_law : forall r res r', reader_Next r = (res, r') ->
    res = (match (segs_next (reader_segs r)).1 with
           | Some (p, c) => inr (c, p) | None => inl io_EOF end) /\
    reader_segs r' = (segs_next (reader_segs r)).2;
}.

(** The log of a handle. *)
Definition wal_log {W : WalLib} {L : WalLaws W} (w : wal) (fs : FileSys) :
  list (ChunkPosition * bytes) := segs_log (wal_segs w fs).

(** ** Consequences *)
Section wal_facts.
Context {W : WalLib} {L : WalLaws W}.

Lemma segs_log_app a b : segs_log (a ++ b) = segs_log a ++ segs_log b.
Proof. unfold segs_log. by rewrite bind_app. Qed.

Lemma segs_log_cons id cs rest : segs_log ((id, cs) :: rest) = cs ++ segs_log rest.
Proof. unfold segs_log. by rewrite bind_cons. Qed.

(** Either way the batch is at the end of the log. *)
Lemma segs_append_log new segs segs' :
  segs_append new segs segs' -> segs_log segs' = segs_log segs ++ new.
Proof.
  destruct 1; rewrite !segs_log_app, !segs_log_cons; simpl; rewrite !app_nil_r;
    [by rewrite <- (assoc_L (++))|done].
Qed.

Lemma segs_next_log segs :
  match segs_next segs with
  | (Some pc, segs') => segs_log segs = pc :: segs_log segs'
  | (None, segs') => segs_log segs = [] /\ segs' = []
  end.
Proof.
  induction segs as [|[id [|c cs]] rest IH]; cbn [segs_next]; [done| |by rewrite !segs_log_cons].
  destruct (segs_next rest) as [[pc|] segs']; by rewrite segs_log_cons.
Qed.

(** A reader with a chunk to give stays on a segment of the log. *)
Lemma segs_next_ids segs pc segs' :
  segs_next segs = (Some pc, segs') ->
  segs' <> [] /\ forall s, s ∈ segs' -> exists s', s' ∈ segs /\ s'.1 = s.1.
Proof.
  revert segs'. induction segs as [|[id [|c cs]] rest IH]; intros segs' E; simpl in E; [done| |].
  - destruct (IH _ E) as [H1 H2]. split; [done|]. intros s Hs.
    destruct (H2 s Hs) as (s' & ? & ?). exists s'. split; [by right|done].
  - simplify_eq. split; [done|]. intros s [->|Hs]%elem_of_cons.
    + exists (id, pc :: cs). split; [left|done].
    + exists s. split; [by right|done].
Qed.

Lemma ext_ne_file dir dir' ext ext' id id' :
  ext ∈ wal_exts -> ext' ∈ wal_exts -> ext <> ext' -> seg_id_ok id -> seg_id_ok id' ->
  SegmentFileName dir ext id <> SegmentFileName dir' ext' id'.
Proof.
  intros H1 H2 Hne H3 H4 E.
  assert (dir = dir') as <- by (by rewrite <- (SegmentFileName_dir dir ext id), E, SegmentFileName_dir).
  by destruct (SegmentFileName_inj dir ext ext' id id' H1 H2 H3 H4 E).
Qed.

(** A frame leaves the segments of the other extensions alone. *)
Lemma frame_file dir ext dir' ext' fs fs' id :
  fs_frame dir ext fs fs' -> ext ∈ wal_exts -> ext' ∈ wal_exts -> ext <> ext' -> seg_id_ok id ->
  fs_files fs' !! SegmentFileName dir' ext' id = fs_files fs !! SegmentFileName dir' ext' id.
Proof. intros H H1 H2 Hne Hid. apply H. intros id' Hid'. by apply not_eq_sym, ext_ne_file. Qed.

Lemma dir_segs_frame dir ext fs fs' segs :
  dir_segs seg_ok seg_chunks dir ext fs segs ->
  (forall id, seg_id_ok id ->
     fs_files fs' !! SegmentFileName dir ext id = fs_files fs !! SegmentFileName dir ext id) ->
  dir_segs seg_ok seg_chunks dir ext fs' segs.
Proof. intros [H1 H2 H3] E. split; [done|done|]. intros id Hid. rewrite E by done. by apply H3. Qed.

Lemma wal_log_inv w fs p c :
  wal_ok w fs -> (p, c) ∈ wal_log w fs ->
  ChunkPosition_ok p /\ exists cs, (SegmentId p, cs) ∈ wal_segs w fs /\ (p, c) ∈ cs.
Proof.
  intros Hok Hin. unfold wal_log, segs_log in Hin. apply list_elem_of_bind in Hin as ([id cs] & Hin & Hs).
  simpl in Hin. destruct (dir_segs_file _ _ _ _ _ _ id cs (wal_segs_dir w fs Hok) Hs) as (f & _ & Hf & ->).
  destruct (seg_chunks_ok id f Hf) as [Hall _]. rewrite Forall_forall in Hall.
  destruct (Hall _ Hin) as [Hp <-]. eauto.
Qed.
End wal_facts.
