(* ===== verification/WalModel.v ===== *)
(** * A write-ahead log that meets [WalLaws]

    A concrete log over the file system of [GoOs], so that the theorems stated
    for every library meeting [WalLaws] have witnesses that compute.  A segment
    file is a sequence of frames: seven bytes of header, the first four the
    little-endian length of the chunk, then the chunk.  It stands for no code of
    the repository. *)
From S2P Require Import Prelude GoBinary Config GoOs WalLib.
From Stdlib Require Import ZArith Lia Sorted Strings.Byte.
From stdpp Require Import base list gmap sorting.
Open Scope Z_scope.

(** ** Frames *)
Definition le32 (n : Z) : bytes :=
  [to_byte n; to_byte (n / 256); to_byte (n / 65536); to_byte (n / 16777216)].

Definition un_le32 (a b c d : byte) : Z :=
  byte_val a + 256 * byte_val b + 65536 * byte_val c + 16777216 * byte_val d.

Lemma un_le32_spec n : 0 <= n < 2 ^ 32 ->
  un_le32 (to_byte n) (to_byte (n / 256)) (to_byte (n / 65536)) (to_byte (n / 16777216)) = n.
Proof. intros. unfold un_le32. rewrite !byte_val_to_byte. lia. Qed.

Lemma un_le32_range a b c d : 0 <= un_le32 a b c d.
Proof.
  unfold un_le32. pose proof (byte_val_range a). pose proof (byte_val_range b).
  pose proof (byte_val_range c). pose proof (byte_val_range d). lia.
Qed.

Definition frame (d : bytes) : bytes := le32 (len d) ++ [x00; x00; x00] ++ d.

Fixpoint parse (fuel : nat) (id off : Z) (c : bytes) : option (list (ChunkPosition * bytes)) :=
  match fuel, c with
  | _, [] => Some []
  | S fuel, a :: b :: c :: d :: _ :: _ :: _ :: rest =>
      let n := un_le32 a b c d in
      if decide (n <= len rest /\ 7 + n < 2 ^ 32 /\ off + 7 + n < 2 ^ 63) then
        l ← parse fuel id (off + 7 + n) (drop (Z.to_nat n) rest);
        Some ((MkChunkPosition id 0 off (7 + n), take (Z.to_nat n) rest) :: l)
      else None
  | _, _ => None
  end.

Lemma frame_len d : len (frame d) = 7 + len d.
Proof. unfold frame, le32. rewrite !len_app. unfold len. simpl. lia. Qed.

(** The chunks of a run of frames from offset [off]. *)
Fixpoint frame_chunks (id off : Z) (ds : list bytes) : list (ChunkPosition * bytes) :=
  match ds with
  | [] => []
  | d :: ds => (MkChunkPosition id 0 off (7 + len d), d) :: frame_chunks id (off + 7 + len d) ds
  end.

Definition frames (ds : list bytes) : bytes := ds ≫= frame.

Lemma frames_cons d ds : frames (d :: ds) = frame d ++ frames ds.
Proof. done. Qed.

Lemma frame_chunks_app id off a b :
  frame_chunks id off (a ++ b) = frame_chunks id off a ++ frame_chunks id (off + len (frames a)) b.
Proof.
  revert off. induction a as [|d a IH]; intros off; cbn [app frame_chunks].
  { unfold len. simpl. by rewrite Z.add_0_r. }
  rewrite IH, frames_cons, len_app, frame_len. do 3 f_equal. lia.
Qed.

Lemma frame_chunks_snd id off ds : (frame_chunks id off ds).*2 = ds.
Proof. revert off. induction ds; intros; simpl; [done|]. by f_equal. Qed.

Lemma frame_chunks_zip id off ds :
  zip (frame_chunks id off ds).*1 ds = frame_chunks id off ds.
Proof. revert off. induction ds; intros; simpl; [done|]. by f_equal. Qed.

Lemma parse_frame fuel id off d c :
  7 + len d < 2 ^ 32 -> off + 7 + len d < 2 ^ 63 ->
  parse (S fuel) id off (frame d ++ c) =
    l ← parse fuel id (off + 7 + len d) c; Some ((MkChunkPosition id 0 off (7 + len d), d) :: l).
Proof.
  intros Hd Hoff. pose proof (len_nonneg d). pose proof (len_nonneg c).
  assert (E : Z.to_nat (len d) = length d) by (unfold len; lia).
  cbn [parse frame le32 app]. rewrite un_le32_spec by lia.
  rewrite decide_True by (rewrite len_app; lia).
  by rewrite E, drop_app_length, take_app_length.
Qed.

Lemma parse_frames fuel id off ds :
  (length (frames ds) <= fuel)%nat -> 0 <= off ->
  Forall (fun d => 7 + len d < 2 ^ 32) ds -> off + len (frames ds) < 2 ^ 63 ->
  parse fuel id off (frames ds) = Some (frame_chunks id off ds).
Proof.
  revert fuel off. induction ds as [|d ds IH]; intros fuel off Hf Ho Hds Hoff.
  { by destruct fuel. }
  apply Forall_cons in Hds as [Hd Hds]. rewrite frames_cons in *.
  rewrite len_app, frame_len in Hoff. pose proof (len_nonneg d). pose proof (len_nonneg (frames ds)).
  assert (Hl : length (frame d) = (7 + length d)%nat).
  { pose proof (frame_len d). unfold len in *. lia. }
  rewrite length_app in Hf. destruct fuel as [|fuel]; [lia|].
  rewrite parse_frame, IH by (done || lia). done.
Qed.

(** What parses is a run of frames up to the three spare bytes of a header, and
    parses to chunks with increasing offsets. *)
Lemma parse_inv fuel id off c l :
  parse fuel id off c = Some l -> 0 <= off -> 0 < id < 2 ^ 32 ->
  Forall (fun pc => ChunkPosition_ok pc.1 /\ SegmentId pc.1 = id /\ BlockNumber pc.1 = 0 /\
                    off <= ChunkOffset pc.1) l /\
  NoDup (pos_in_seg ∘ fst <$> l) /\ (l = [] <-> c = []) /\
  (forall p d, l = [(p, d)] -> exists h, length h = 7%nat /\ c = h ++ d).
Proof.
  revert off c l. induction fuel as [|fuel IH]; intros off c l Hp Ho Hid; simpl in Hp.
  { destruct c; [|done]. simplify_eq. split_and!; try done; constructor. }
  destruct c as [|a [|b [|c [|d [|e [|f [|g rest]]]]]]]; try done; simplify_eq.
  { split_and!; try done; constructor. }
  case_decide as Hd; [|done]. pose proof (un_le32_range a b c d).
  set (n := un_le32 a b c d) in *.
  destruct (parse fuel id (off + 7 + n) (drop (Z.to_nat n) rest)) as [l'|] eqn:E; [|done].
  simpl in Hp. simplify_eq. destruct (IH _ _ _ E ltac:(lia) Hid) as (H1 & H2 & H3 & H4).
  split_and!.
  - constructor; [unfold ChunkPosition_ok; simpl; lia|].
    eapply Forall_impl; [exact H1|]. intros pc (? & ? & ? & ?). split_and!; auto; lia.
  - rewrite fmap_cons. constructor; [|done]. intros Hin. apply list_elem_of_fmap in Hin as (pc & Epc & Hin).
    rewrite Forall_forall in H1. destruct (H1 _ Hin) as (_ & _ & _ & Hoff).
    unfold pos_in_seg in Epc. simpl in Epc. injection Epc. lia.
  - done.
  - intros p x [= <- <- ->]. exists [a; b; c; d; e; f; g]. split; [done|]. simpl. do 7 f_equal.
    destruct H3 as [H3 _]. specialize (H3 eq_refl).
    rewrite <- (take_drop (Z.to_nat n) rest) at 1. rewrite H3. apply app_nil_r.
Qed.

Lemma parse_app fuel fuel' id off c l ds :
  parse fuel id off c = Some l -> 0 <= off ->
  (length c + length (frames ds) <= fuel')%nat ->
  Forall (fun d => 7 + len d < 2 ^ 32) ds -> off + len c + len (frames ds) < 2 ^ 63 ->
  parse fuel' id off (c ++ frames ds) = Some (l ++ frame_chunks id (off + len c) ds).
Proof.
  revert fuel' off c l. induction fuel as [|fuel IH]; intros fuel' off c l Hp Ho Hf Hds Hoff; simpl in Hp.
  { destruct c; [|done]. simplify_eq. simpl. unfold len at 1. simpl. rewrite Z.add_0_r.
    apply parse_frames; simpl in *; auto. unfold len in Hoff at 1. simpl in Hoff. lia. }
  destruct c as [|a [|b [|c [|d [|e [|f [|g rest]]]]]]]; try done; simplify_eq.
  { simpl. unfold len at 1. simpl. rewrite Z.add_0_r.
    apply parse_frames; simpl in *; auto. unfold len in Hoff at 1. simpl in Hoff. lia. }
  case_decide as Hd; [|done]. pose proof (un_le32_range a b c d).
  set (n := un_le32 a b c d) in *.
  destruct (parse fuel id (off + 7 + n) (drop (Z.to_nat n) rest)) as [l'|] eqn:E; [|done].
  simpl in Hp. simplify_eq. simpl in Hf. destruct fuel' as [|fuel']; [lia|].
  assert (Hn : (Z.to_nat n <= length rest)%nat) by (unfold len in Hd; lia).
  assert (Hlr : len (a :: b :: c :: d :: e :: f :: g :: rest) = 7 + n + len (drop (Z.to_nat n) rest)).
  { unfold len. rewrite length_drop. simpl. lia. }
  rewrite Hlr in *. simpl app. cbn [parse]. fold n.
  pose proof (len_nonneg (frames ds)). pose proof (len_nonneg (drop (Z.to_nat n) rest)).
  rewrite decide_True by (rewrite len_app; lia).
  rewrite drop_app_le, take_app_le by lia.
  rewrite (IH fuel' _ _ l'); [|done|lia| |done|lia].
  - set (x := len (drop (Z.to_nat n) rest)).
    by replace (off + (7 + n + x)) with (off + 7 + n + x) by lia.
  - rewrite length_drop. lia.
Qed.

(** ** The log *)
Definition file_chunks (id : Z) (c : bytes) : option (list (ChunkPosition * bytes)) :=
  parse (length c) id 0 c.

Record wm_wal : Type := MkWmWal {
  wm_dir : bytes;
  wm_ext : bytes;
  wm_limit : Z;              (* the segment size *)
  wm_ids : list Z;           (* the segments, in order *)
  wm_pend : list bytes;
}.

Definition wm_name (dir ext : bytes) (id : Z) : path := (dir, le32 id ++ ext).

Definition wm_file (w : wm_wal) (fs : FileSys) (id : Z) : bytes :=
  default [] (fs_files fs !! wm_name (wm_dir w) (wm_ext w) id).

Definition wm_segs (w : wm_wal) (fs : FileSys) : list seg :=
  (fun id => (id, default [] (file_chunks id (wm_file w fs id)))) <$> wm_ids w.

Definition wm_active (w : wm_wal) : Z := default 0 (last (wm_ids w)).

(** The ids of the segment files of a directory. *)
Definition name_id (dir ext : bytes) (p : path) : option Z :=
  match p.2 with
  | a :: b :: c :: d :: _ =>
      let id := un_le32 a b c d in
      if decide (wm_name dir ext id = p /\ seg_id_ok id) then Some id else None
  | _ => None
  end.

Definition dir_ids (dir ext : bytes) (fs : FileSys) : list Z :=
  merge_sort Z.le (elements (list_to_set (C := gset Z)
    (omap (name_id dir ext) (elements (dom (fs_files fs)))))).

Definition wm_Open (o : WalOptions) (fs : FileSys) : (error + wm_wal) * FileSys :=
  let dir := wo_DirPath o in
  let ext := wo_SegmentFileExt o in
  let fs := fs_mkdir fs dir in
  match dir_ids dir ext fs with
  | [] => (inr (MkWmWal dir ext (wo_SegmentSize o) [1] []), os_WriteFile fs (wm_name dir ext 1) [])
  | ids => (inr (MkWmWal dir ext (wo_SegmentSize o) ids []), fs)
  end.

Definition wm_OpenNewActiveSegment (w : wm_wal) (fs : FileSys) : option error * wm_wal * FileSys :=
  let id := wm_active w + 1 in
  if decide (seg_id_ok id) then
    (None, MkWmWal (wm_dir w) (wm_ext w) (wm_limit w) (wm_ids w ++ [id]) (wm_pend w),
     os_WriteFile fs (wm_name (wm_dir w) (wm_ext w) id) [])
  else (Some (ErrNew ($"too many segments")), w, fs).

(** Append chunks to the active segment. *)
Definition wm_append (w : wm_wal) (ds : list bytes) (fs : FileSys) :
    (error + list ChunkPosition) * FileSys :=
  let id := wm_active w in
  let c := wm_file w fs id in
  if decide (len c + len (frames ds) < 2 ^ 63 /\ Forall (fun d => 7 + len d < 2 ^ 32) ds) then
    (inr (frame_chunks id (len c) ds).*1,
     os_WriteFile fs (wm_name (wm_dir w) (wm_ext w) id) (c ++ frames ds))
  else (inl (ErrNew ($"chunk too large")), fs).

(** Append, in a new segment when the active one is full. *)
Definition wm_put (w : wm_wal) (ds : list bytes) (fs : FileSys) :
    (error + list ChunkPosition) * wm_wal * FileSys :=
  if decide (wm_limit w < len (frames ds)) then (inl (ErrNew ($"too large")), w, fs)
  else if decide (wm_limit w <> MaxInt64 /\ wm_limit w < len (wm_file w fs (wm_active w)) + len (frames ds)) then
    match wm_OpenNewActiveSegment w fs with
    | (None, w', fs') =>
        match wm_append w' ds fs' with
        | (inr ps, fs'') => (inr ps, w', fs'')
        | (inl e, _) => (inl e, w, fs)
        end
    | (Some e, _, _) => (inl e, w, fs)
    end
  else let '(r, fs') := wm_append w ds fs in (r, w, fs').

Definition wm_clear (w : wm_wal) : wm_wal := MkWmWal (wm_dir w) (wm_ext w) (wm_limit w) (wm_ids w) [].

Definition wm_Write (w : wm_wal) (d : bytes) (fs : FileSys) : (error + ChunkPosition) * wm_wal * FileSys :=
  match wm_put w [d] fs with
  | (inr (p :: _), w', fs') => (inr p, w', fs')
  | (inr [], w', fs') => (inl (ErrNew []), w', fs')
  | (inl e, w', fs') => (inl e, w', fs')
  end.

Definition wm_WriteAll (w : wm_wal) (fs : FileSys) : (error + list ChunkPosition) * wm_wal * FileSys :=
  let '(r, w', fs') := wm_put w (wm_pend w) fs in (r, wm_clear w', fs').

Definition wm_Read (w : wm_wal) (fs : FileSys) (p : ChunkPosition) : error + bytes :=
  match list_find (fun pc => pc.1 = p) (segs_log (wm_segs w fs)) with
  | Some (_, (_, c)) => inr c
  | None => inl io_EOF
  end.

Definition wm_Next (r : list seg) : (error + bytes * ChunkPosition) * list seg :=
  let '(n, r') := segs_next r in
  (match n with Some (p, c) => inr (c, p) | None => inl io_EOF end, r').

#[export] Instance ModelWal : WalLib := {
  wal := wm_wal;
  wal_reader := list seg;
  SegmentFileName := wm_name;
  wal_Open := wm_Open;
  wal_Write := wm_Write;
  wal_PendingWrites w d := MkWmWal (wm_dir w) (wm_ext w) (wm_limit w) (wm_ids w) (wm_pend w ++ [d]);
  wal_ClearPendingWrites := wm_clear;
  wal_WriteAll := wm_WriteAll;
  wal_Read := wm_Read;
  wal_Sync w fs := (None, fs);
  wal_Close w fs := (None, w, fs);
  wal_IsEmpty w fs := match wm_segs w fs with [(_, [])] => true | _ => false end;
  wal_ActiveSegmentID := wm_active;
  wal_OpenNewActiveSegment := wm_OpenNewActiveSegment;
  wal_SetIsStartupTraversal w b := w;
  wal_NewReader w fs := wm_segs w fs;
  wal_NewReaderWithMax w max fs := filter (fun s => s.1 <= max) (wm_segs w fs);
  reader_CurrentSegmentId r := match r with [] => Panic | s :: _ => Ret s.1 end;
  reader_SkipCurrentSegment r := tail r;
  reader_Next := wm_Next;
}.

(** ** The laws *)
Definition wm_seg_ok (id : Z) (c : bytes) : Prop :=
  seg_id_ok id /\ len c < 2 ^ 63 /\ is_Some (file_chunks id c).

Definition wm_chunks (id : Z) (c : bytes) : list (ChunkPosition * bytes) :=
  default [] (file_chunks id c).

Record wm_ok (w : wm_wal) (fs : FileSys) : Prop := {
  wo_nonempty : wm_ids w <> [];
  wo_sorted : StronglySorted Z.lt (wm_ids w);
  wo_ids : forall id, id ∈ wm_ids w -> seg_id_ok id;
  wo_files : forall id, seg_id_ok id ->
    match fs_files fs !! wm_name (wm_dir w) (wm_ext w) id with
    | Some c => id ∈ wm_ids w /\ wm_seg_ok id c
    | None => id ∉ wm_ids w
    end;
}.

Lemma wm_name_inj dir ext ext' id id' :
  ext ∈ wal_exts -> ext' ∈ wal_exts -> seg_id_ok id -> seg_id_ok id' ->
  wm_name dir ext id = wm_name dir ext' id' -> ext = ext' /\ id = id'.
Proof.
  unfold seg_id_ok. intros _ _ H1 H2 [= E1 E2 E3 E4 Ex]. split; [done|].
  rewrite <- (un_le32_spec id), <- (un_le32_spec id') by lia. by rewrite E1, E2, E3, E4.
Qed.

Lemma wm_name_id_inj dir ext id id' :
  seg_id_ok id -> seg_id_ok id' -> wm_name dir ext id = wm_name dir ext id' -> id = id'.
Proof.
  unfold seg_id_ok. intros H1 H2 [= E1 E2 E3 E4].
  rewrite <- (un_le32_spec id), <- (un_le32_spec id') by lia. by rewrite E1, E2, E3, E4.
Qed.

Lemma wm_chunks_ok id c : wm_seg_ok id c ->
  Forall (fun pc => ChunkPosition_ok pc.1 /\ SegmentId pc.1 = id) (wm_chunks id c) /\
  NoDup (pos_in_seg ∘ fst <$> wm_chunks id c).
Proof.
  intros (Hid & Hl & [l Hp]). unfold wm_chunks. rewrite Hp. simpl.
  destruct (parse_inv _ _ _ _ _ Hp ltac:(lia) Hid) as (H1 & H2 & _). split; [|done].
  eapply Forall_impl; [exact H1|]. by intros pc (? & ? & _).
Qed.

Lemma wm_chunks_nil id c : wm_seg_ok id c -> (wm_chunks id c = [] <-> c = []).
Proof.
  intros (Hid & Hl & [l Hp]). unfold wm_chunks. rewrite Hp. simpl.
  by destruct (parse_inv _ _ _ _ _ Hp ltac:(lia) Hid) as (_ & _ & H3 & _).
Qed.

Lemma wm_chunks_single id c p d n : wm_seg_ok id c -> wm_chunks id c = [(p, d)] ->
  0 <= n <= len d -> os_ReadAt c 7 n = Some (take (Z.to_nat n) d).
Proof.
  intros (Hid & Hl & [l Hp]) E Hn. unfold wm_chunks in E. rewrite Hp in E. simpl in E.
  destruct (parse_inv _ _ _ _ _ Hp ltac:(lia) Hid) as (_ & _ & _ & H4).
  destruct (H4 p d E) as (h & Hh & ->). unfold os_ReadAt.
  rewrite decide_True by (rewrite len_app; unfold len in *; lia).
  change (Z.to_nat 7) with 7%nat. by rewrite <- Hh, drop_app_length.
Qed.

Lemma wm_segs_fst w fs : (wm_segs w fs).*1 = wm_ids w.
Proof. unfold wm_segs. rewrite <- list_fmap_compose. simpl. apply list_fmap_id. Qed.

Lemma wm_segs_dir w fs : wm_ok w fs ->
  dir_segs wm_seg_ok wm_chunks (wm_dir w) (wm_ext w) fs (wm_segs w fs).
Proof.
  intros [Hne Hs Hid Hf]. split; rewrite ?wm_segs_fst; [done|done|].
  intros id Hok. specialize (Hf id Hok). simpl.
  destruct (fs_files fs !! _) as [c|] eqn:E; [|done]. destruct Hf as [Hin Hc]. split; [done|].
  apply list_elem_of_fmap. exists id. split; [|done]. unfold wm_file, wm_chunks. by rewrite E.
Qed.

Lemma wm_segs_ext w fs fs' :
  (forall id, id ∈ wm_ids w -> fs_files fs' !! wm_name (wm_dir w) (wm_ext w) id
                             = fs_files fs !! wm_name (wm_dir w) (wm_ext w) id) ->
  wm_segs w fs' = wm_segs w fs.
Proof.
  intros H. unfold wm_segs. apply list_fmap_ext. intros i id Hi. unfold wm_file.
  rewrite H; [done|]. by eapply list_elem_of_lookup_2.
Qed.

Lemma wm_ok_frame w fs fs' : wm_ok w fs ->
  (forall id, seg_id_ok id -> fs_files fs' !! wm_name (wm_dir w) (wm_ext w) id
                            = fs_files fs !! wm_name (wm_dir w) (wm_ext w) id) ->
  wm_ok w fs' /\ wm_segs w fs' = wm_segs w fs.
Proof.
  intros [Hne Hs Hid Hf] H. split; [split; [done..|]|apply wm_segs_ext; auto].
  intros id Hok. rewrite H by done. by apply Hf.
Qed.

(** The active segment is the last. *)
Lemma wm_split w fs : wm_ok w fs ->
  exists ids, wm_ids w = ids ++ [wm_active w] /\ (forall id, id ∈ ids -> id < wm_active w) /\
    exists c, fs_files fs !! wm_name (wm_dir w) (wm_ext w) (wm_active w) = Some c /\
              wm_file w fs (wm_active w) = c /\ wm_seg_ok (wm_active w) c.
Proof.
  intros [Hne Hs Hid Hf]. unfold wm_active.
  destruct (wm_ids w) as [|x l _] eqn:E using rev_ind; [done|].
  rewrite last_snoc. simpl. exists l. split; [done|].
  assert (Hx : seg_id_ok x) by (apply Hid; set_solver).
  split.
  - intros id Hin. apply StronglySorted_app in Hs as (H & _ & _). apply H; set_solver.
  - specialize (Hf x Hx). destruct (fs_files fs !! _) as [c|] eqn:Ec; [|set_solver].
    exists c. unfold wm_file. rewrite Ec. split_and!; [done..|]. by destruct Hf.
Qed.

Lemma wm_ok_update w fs c :
  wm_ok w fs -> wm_seg_ok (wm_active w) c ->
  let fs' := os_WriteFile fs (wm_name (wm_dir w) (wm_ext w) (wm_active w)) c in
  wm_ok w fs' /\ fs_frame (wm_dir w) (wm_ext w) fs fs' /\
  exists pre, wm_segs w fs = pre ++ [(wm_active w, wm_chunks (wm_active w) (wm_file w fs (wm_active w)))] /\
              wm_segs w fs' = pre ++ [(wm_active w, wm_chunks (wm_active w) c)].
Proof.
  intros Hok Hc fs'. destruct (wm_split w fs Hok) as (ids & Ei & Hlt & c0 & Hf0 & Hw & Hc0).
  destruct Hok as [Hne Hs Hid Hf]. pose proof (proj1 Hc) as Hact.
  split; [|split].
  - split; [done..|]. intros id Hi. unfold fs', os_WriteFile. simpl.
    destruct (decide (id = wm_active w)) as [->|Hne'].
    + rewrite lookup_insert_eq. split; [|done]. rewrite Ei. set_solver.
    + rewrite lookup_insert_ne; [by apply Hf|]. intros E. apply wm_name_id_inj in E; auto.
  - split; [|done]. intros p Hp. unfold fs', os_WriteFile. simpl. rewrite lookup_insert_ne; [done|].
    intros <-. eapply (Hp (wm_active w)); done.
  - unfold wm_segs. rewrite Ei, !fmap_app. eexists. split; [reflexivity|]. f_equal.
    + apply list_fmap_ext. intros i id Hi. apply list_elem_of_lookup_2 in Hi. unfold wm_file, fs'. simpl.
      rewrite lookup_insert_ne; [done|]. intros E. apply wm_name_id_inj in E; [|done|].
      * specialize (Hlt id Hi). lia.
      * apply Hid. rewrite Ei. set_solver.
    + simpl. unfold wm_chunks, wm_file, fs'. simpl. by rewrite lookup_insert_eq.
Qed.

Lemma wm_append_ok w ds fs ps fs' :
  wm_ok w fs -> wm_append w ds fs = (inr ps, fs') ->
  length ps = length ds /\ wm_ok w fs' /\ fs_frame (wm_dir w) (wm_ext w) fs fs' /\
  fs_dirs fs' = fs_dirs fs /\
  exists pre cs, wm_segs w fs = pre ++ [(wm_active w, cs)] /\
    wm_segs w fs' = pre ++ [(wm_active w, cs ++ zip ps ds)] /\
    cs = wm_chunks (wm_active w) (wm_file w fs (wm_active w)).
Proof.
  intros Hok. unfold wm_append. case_decide as Hd; [|done]. intros [= <- <-].
  destruct (wm_split w fs Hok) as (ids & Ei & Hlt & c & Hf0 & Hw & Hid & Hlc & [l Hp]).
  rewrite Hw in *. destruct Hd as [Hl Hds].
  assert (E : file_chunks (wm_active w) (c ++ frames ds)
              = Some (l ++ frame_chunks (wm_active w) (len c) ds)).
  { unfold file_chunks. apply (parse_app (length c)); [done|lia| |done|lia].
    rewrite length_app. lia. }
  assert (Hc : wm_seg_ok (wm_active w) (c ++ frames ds)).
  { split_and!; [done|rewrite len_app; lia|by rewrite E]. }
  destruct (wm_ok_update w fs _ Hok Hc) as (O1 & O2 & pre & O3 & O4).
  split; [by rewrite length_fmap, <- (length_fmap snd), frame_chunks_snd|].
  split_and!; [done|done|done|]. exists pre. rewrite O3, O4, Hw. eexists. split_and!; [done| |done].
  do 3 f_equal. rewrite frame_chunks_zip. unfold wm_chunks. rewrite E.
  by rewrite Hp.
Qed.

Lemma wm_OpenNew_ok w fs w' fs' :
  wm_ok w fs -> wm_OpenNewActiveSegment w fs = (None, w', fs') ->
  wm_ok w' fs' /\ wm_dir w' = wm_dir w /\ wm_ext w' = wm_ext w /\ wm_pend w' = wm_pend w /\
  wm_active w' = wm_active w + 1 /\ wm_segs w' fs' = wm_segs w fs ++ [(wm_active w + 1, [])] /\
  fs_frame (wm_dir w) (wm_ext w) fs fs' /\ fs_dirs fs' = fs_dirs fs.
Proof.
  intros Hok. unfold wm_OpenNewActiveSegment. case_decide as Hd; [|done]. intros [= <- <-].
  destruct (wm_split w fs Hok) as (ids & Ei & Hlt & _). destruct Hok as [Hne Hs Hid Hf]. simpl.
  set (n := wm_active w + 1) in *.
  assert (Hall : forall id, id ∈ wm_ids w -> id < n).
  { intros id. rewrite Ei. intros [H|H]%elem_of_app; [specialize (Hlt id H); lia|].
    apply list_elem_of_singleton in H. lia. }
  assert (Hnm : forall id, seg_id_ok id -> id <> n ->
    wm_name (wm_dir w) (wm_ext w) n <> wm_name (wm_dir w) (wm_ext w) id).
  { intros id Hi Hne' E. apply wm_name_id_inj in E; auto. }
  split; [split; simpl|split_and!; try done].
  - intros E. by apply app_nil in E as [_ ?].
  - apply StronglySorted_app_2; [|done|repeat constructor].
    intros x y Hx ->%list_elem_of_singleton. auto.
  - intros id [H| ->%list_elem_of_singleton]%elem_of_app; auto.
  - intros id Hi. destruct (decide (id = n)) as [->|Hn].
    + rewrite lookup_insert_eq. split; [set_solver|]. split_and!; [done|unfold len; simpl; lia|].
      by exists [].
    + rewrite lookup_insert_ne by auto. specialize (Hf id Hi). destruct (fs_files fs !! _); set_solver.
  - unfold wm_active at 1. simpl. by rewrite last_snoc.
  - unfold wm_segs. simpl. rewrite fmap_app. f_equal.
    + apply list_fmap_ext. intros i id Hi. apply list_elem_of_lookup_2 in Hi. unfold wm_file. simpl.
      rewrite lookup_insert_ne; [done|]. apply Hnm; [auto|]. specialize (Hall id Hi). lia.
    + simpl. unfold wm_file. simpl. by rewrite lookup_insert_eq.
  - split; [|done]. intros p Hp. unfold os_WriteFile. simpl. rewrite lookup_insert_ne; [done|].
    intros <-. by apply (Hp n).
Qed.

Lemma wm_put_ok w ds fs ps w' fs' :
  wm_ok w fs -> wm_put w ds fs = (inr ps, w', fs') ->
  length ps = length ds /\ wm_ok w' fs' /\ wm_dir w' = wm_dir w /\ wm_ext w' = wm_ext w /\
  wm_pend w' = wm_pend w /\ segs_append (zip ps ds) (wm_segs w fs) (wm_segs w' fs') /\
  fs_frame (wm_dir w) (wm_ext w) fs fs' /\ fs_dirs fs' = fs_dirs fs.
Proof.
  intros Hok. unfold wm_put. case_decide; [done|]. case_decide.
  - destruct (wm_OpenNewActiveSegment w fs) as [[[e|] w1] fs1] eqn:Eo; [done|].
    destruct (wm_OpenNew_ok w fs w1 fs1 Hok Eo) as (O1 & O2 & O3 & O4 & O5 & O6 & O7 & O8).
    destruct (wm_append w1 ds fs1) as [[e|ps1] fs2] eqn:Ea; [done|]. intros [= <- <- <-].
    destruct (wm_append_ok w1 ds fs1 ps1 fs2 O1 Ea) as (A1 & A2 & A3 & A4 & pre & cs & A5 & A6 & A7).
    rewrite O6 in A5. apply app_inj_tail in A5 as [Epre [= _ Ecs]]. rewrite <- Ecs in A6. simpl in A6.
    rewrite O2, O3 in A3. split_and!; [done|done|done|done|done| |by eapply fs_frame_trans|congruence].
    rewrite A6, <- Epre, O5.
    destruct (wm_split w fs Hok) as (ids & Ei & _).
    assert (Es : exists p, wm_segs w fs = p ++ [(wm_active w, wm_chunks (wm_active w)
       (wm_file w fs (wm_active w)))]).
    { unfold wm_segs. rewrite Ei, fmap_app. eexists. reflexivity. }
    destruct Es as [p ->]. constructor.
  - destruct (wm_append w ds fs) as [[e|ps1] fs2] eqn:Ea; [done|]. intros [= <- <- <-].
    destruct (wm_append_ok w ds fs ps1 fs2 Hok Ea) as (A1 & A2 & A3 & A4 & pre & cs & A5 & A6 & A7).
    split_and!; try done. rewrite A5, A6. constructor.
Qed.

Lemma wm_put_limit w ds fs r w' fs' : wm_put w ds fs = (r, w', fs') -> wm_limit w' = wm_limit w.
Proof.
  unfold wm_put, wm_OpenNewActiveSegment. case_decide; [by intros [= <- <- <-]|]. case_decide.
  - case_decide; [|by intros [= <- <- <-]].
    destruct (wm_append _ ds _) as [[e|ps] fs2]; by intros [= <- <- <-].
  - destruct (wm_append w ds fs) as [r' fs2]. by intros [= <- <- <-].
Qed.

Lemma wm_Write_stays w d fs p w' fs' pre id cs :
  wm_ok w fs -> wm_Write w d fs = (inr p, w', fs') -> wm_segs w fs = pre ++ [(id, cs)] ->
  wm_limit w = MaxInt64 \/ (cs = [] /\ 21 + len d <= wm_limit w) ->
  wm_segs w' fs' = pre ++ [(id, cs ++ [(p, d)])].
Proof.
  intros Hok E Hs Hor. unfold wm_Write, wm_put in E. case_decide as H1; [done|].
  case_decide as H2.
  - exfalso. destruct H2 as [Hne Hlt]. destruct Hor as [?|[-> _]]; [done|].
    destruct (wm_split w fs Hok) as (ids & Ei & _ & c & Hf & Hw & Hc).
    assert (Ec : wm_chunks (wm_active w) c = []).
    { unfold wm_segs in Hs. rewrite Ei, fmap_app in Hs. apply app_inj_tail in Hs as [_ [= _ Hs]].
      by rewrite Hw in Hs. }
    apply (wm_chunks_nil _ _ Hc) in Ec as ->. rewrite Hw in Hlt.
    apply H1. exact Hlt.
  - destruct (wm_append w [d] fs) as [[e|[|q ps]] fs2] eqn:Ea; [done|done|]. injection E as <- <- <-.
    destruct (wm_append_ok w [d] fs _ _ Hok Ea) as (A1 & A2 & A3 & A4 & pre' & cs' & A5 & A6 & _).
    rewrite Hs in A5. apply app_inj_tail in A5 as [-> [= -> ->]]. rewrite A6. simpl. by destruct ps.
Qed.

Lemma wm_Read_ok w fs p c :
  wm_ok w fs -> (p, c) ∈ segs_log (wm_segs w fs) -> wm_Read w fs p = inr c.
Proof.
  intros Hok Hin. unfold wm_Read.
  assert (Hseg : forall c', (p, c') ∈ segs_log (wm_segs w fs) ->
    wm_seg_ok (SegmentId p) (wm_file w fs (SegmentId p)) /\
    (p, c') ∈ wm_chunks (SegmentId p) (wm_file w fs (SegmentId p))).
  { intros c' H. unfold segs_log, wm_segs in H. apply list_elem_of_bind in H as ([id cs] & H & Hs).
    apply list_elem_of_fmap in Hs as (id' & [= -> ->] & Hid). simpl in H.
    pose proof (wo_files _ _ Hok id' (wo_ids _ _ Hok id' Hid)) as Hf. unfold wm_file in H.
    destruct (fs_files fs !! _) as [f|] eqn:Ef; [|done]. destruct Hf as [_ Hf]. simpl in H.
    destruct (wm_chunks_ok id' f Hf) as [Hall _]. rewrite Forall_forall in Hall.
    destruct (Hall _ H) as [_ Hp]. simpl in Hp. subst id'.
    unfold wm_file. by rewrite Ef. }
  destruct (list_find_pair (segs_log (wm_segs w fs)) p c Hin) as [i ->]; [|done].
  intros c' Hin'. destruct (Hseg c Hin) as [Hok' H1]. destruct (Hseg c' Hin') as [_ H2].
  eapply NoDup_fmap_pair; [apply (wm_chunks_ok _ _ Hok')|done|done].
Qed.

Lemma dir_ids_spec dir ext fs id :
  id ∈ dir_ids dir ext fs <-> seg_id_ok id /\ is_Some (fs_files fs !! wm_name dir ext id).
Proof.
  unfold dir_ids. rewrite merge_sort_Permutation, elem_of_elements, elem_of_list_to_set, list_elem_of_omap.
  split.
  - intros (p & Hp & Hn). rewrite elem_of_elements, elem_of_dom in Hp. unfold name_id in Hn.
    destruct p.2 as [|a [|b [|c [|d r]]]]; try done. case_decide as Hd; [|done]. simplify_eq.
    destruct Hd as [Hd ?]. by rewrite Hd.
  - intros [Hid Hf]. exists (wm_name dir ext id). rewrite elem_of_elements, elem_of_dom. split; [done|].
    unfold name_id. simpl. rewrite un_le32_spec by (unfold seg_id_ok in Hid; lia). by rewrite decide_True.
Qed.

Lemma dir_ids_sorted dir ext fs : StronglySorted Z.lt (dir_ids dir ext fs).
Proof.
  unfold dir_ids. set (l := elements _).
  assert (Hnd : NoDup (merge_sort Z.le l)) by (rewrite merge_sort_Permutation; apply NoDup_elements).
  pose proof (StronglySorted_merge_sort Z.le l) as Hs. clearbody l. revert Hnd Hs.
  induction (merge_sort Z.le l) as [|x s IH]; intros Hnd Hs; [constructor|].
  apply NoDup_cons in Hnd as [Hx Hnd]. apply StronglySorted_inv in Hs as [Hs Hall].
  constructor; [auto|]. rewrite Forall_forall in *. intros y Hy. specialize (Hall y Hy).
  assert (x <> y) by (intros ->; done). lia.
Qed.

Lemma dir_segs_wm w fs segs :
  wm_ok w fs -> dir_segs wm_seg_ok wm_chunks (wm_dir w) (wm_ext w) fs segs -> wm_segs w fs = segs.
Proof. intros Hok. apply dir_segs_unique, wm_segs_dir, Hok. Qed.

Lemma wm_Open_ok o fs w fs' segs :
  wm_Open o fs = (inr w, fs') ->
  dir_segs wm_seg_ok wm_chunks (wo_DirPath o) (wo_SegmentFileExt o) fs segs ->
  wm_ok w fs' /\ wm_dir w = wo_DirPath o /\ wm_ext w = wo_SegmentFileExt o /\ wm_pend w = [] /\
  wm_segs w fs' = (match segs with [] => [(1, [])] | _ => segs end) /\
  fs_frame (wo_DirPath o) (wo_SegmentFileExt o) fs fs' /\
  fs_dirs fs' = {[wo_DirPath o]} ∪ fs_dirs fs.
Proof.
  unfold wm_Open. set (dir := wo_DirPath o). set (ext := wo_SegmentFileExt o).
  set (fs1 := fs_mkdir fs dir). intros E Hds.
  assert (Hel : forall id, id ∈ dir_ids dir ext fs1 <-> id ∈ segs.*1).
  { intros id. by rewrite dir_ids_spec, (dir_segs_elem _ _ _ _ _ _ _ Hds). }
  destruct (dir_ids dir ext fs1) as [|x l] eqn:El.
  - injection E as <- <-. assert (segs = []) as ->.
    { destruct segs as [|[id cs] segs]; [done|]. exfalso. apply (not_elem_of_nil id).
      apply Hel. left. }
    pose proof (ds_file _ _ _ _ _ _ Hds) as Hf. split; [split; simpl|split_and!; try done].
    + done.
    + repeat constructor.
    + intros id ->%list_elem_of_singleton. unfold seg_id_ok. lia.
    + intros id Hid. destruct (decide (id = 1)) as [->|Hne].
      * rewrite lookup_insert_eq. split; [left|]. split_and!; [done|unfold len; simpl; lia|by exists []].
      * rewrite lookup_insert_ne; [|intros En; apply wm_name_id_inj in En; [done|unfold seg_id_ok; lia|done]].
        specialize (Hf id Hid). simpl in Hf. destruct (fs_files fs !! wm_name dir ext id) as [c|]; set_solver.
    + unfold wm_segs, wm_file. simpl. by rewrite lookup_insert_eq.
    + split; [|done]. intros p Hp. simpl. rewrite lookup_insert_ne; [done|]. intros <-. apply (Hp 1); [|done].
      unfold seg_id_ok. lia.
  - injection E as <- <-.
    assert (Hok : wm_ok (MkWmWal dir ext (wo_SegmentSize o) (x :: l) []) fs1).
    { split; simpl.
      - done.
      - rewrite <- El. apply dir_ids_sorted.
      - intros id Hid. apply Hel, (dir_segs_elem _ _ _ _ _ _ _ Hds) in Hid. tauto.
      - intros id Hid. pose proof (ds_file _ _ _ _ _ _ Hds id Hid) as Hf. simpl in Hf.
        pose proof (dir_segs_elem _ _ _ _ _ _ id Hds) as He.
        destruct (fs_files fs !! _) as [c|] eqn:Ec; rewrite Hel.
        + destruct Hf as [Hf _]. split; [|done]. apply He. split; [done|]. eauto.
        + done. }
    split_and!; try done.
    assert (Hds1 : dir_segs wm_seg_ok wm_chunks dir ext fs1 segs) by (destruct Hds; by split).
    rewrite (dir_segs_wm _ _ segs Hok Hds1).
    destruct segs; [|done]. exfalso. apply (not_elem_of_nil x). apply Hel. left.
Qed.

(** A call that fails changes nothing. *)
Lemma wm_put_fails w ds fs e w' fs' : wm_put w ds fs = (inl e, w', fs') -> w' = w /\ fs' = fs.
Proof.
  unfold wm_put. case_decide; [by intros [= _ <- <-]|]. case_decide.
  - destruct (wm_OpenNewActiveSegment w fs) as [[[e1|] w1] fs1]; [by intros [= _ <- <-]|].
    destruct (wm_append w1 ds fs1) as [[e1|ps] fs2]; [by intros [= _ <- <-]|done].
  - unfold wm_append. case_decide; [done|]. by intros [= _ <- <-].
Qed.

#[export] Instance ModelWal_laws : WalLaws ModelWal.
Proof.
  refine {| wal_dir := wm_dir; wal_ext := wm_ext; wal_pend := wm_pend; wal_limit := wm_limit; wal_ok := wm_ok;
            wal_segs := wm_segs; reader_segs := (fun r : list seg => r);
            seg_ok := wm_seg_ok; seg_chunks := wm_chunks |}; simpl.
  - done.
  - apply wm_name_inj.
  - apply wm_chunks_ok.
  - apply wm_chunks_nil.
  - apply wm_chunks_single.
  - apply wm_segs_dir.
  - intros w fs Hok E. apply (wo_nonempty _ _ Hok). by rewrite <- (wm_segs_fst w fs), E.
  - apply wm_ok_frame.
  - intros o fs w fs' segs E _ Hds. by apply wm_Open_ok.
  - intros w d fs [H1 H2 H3 H4]. split_and!; [by split|done..].
  - intros w fs ps w' fs' Hok E. unfold wm_WriteAll in E.
    destruct (wm_put w (wm_pend w) fs) as [[r w1] fs1] eqn:Ep. injection E as -> <- <-.
    destruct (wm_put_ok w _ fs ps w1 fs1 Hok Ep) as (P1 & [P2a P2b P2c P2d] & P3 & P4 & P5 & P6 & P7 & P8).
    split_and!; [done|by split|done..].
  - intros w d fs p w' fs' Hok E. unfold wm_Write in E.
    destruct (wm_put w [d] fs) as [[[e|[|q ps]] w1] fs1] eqn:Ep; try done. injection E as -> -> ->.
    destruct (wm_put_ok w _ fs _ w' fs' Hok Ep) as (P1 & P2 & P3 & P4 & P5 & P6 & P7 & P8).
    split_and!; try done. by destruct ps.
  - intros o fs e fs' E. unfold wm_Open in E. by destruct (dir_ids _ _ _).
  - intros w d fs e w' fs' Hok E. unfold wm_Write in E.
    destruct (wm_put w [d] fs) as [[[e1|[|q ps]] w1] fs1] eqn:Ep; [| |discriminate E].
    + injection E as _ _ <-. by apply wm_put_fails in Ep as [_ ->].
    + by destruct (wm_put_ok w _ fs _ w1 fs1 Hok Ep) as (P1 & _).
  - intros w fs e w' fs' Hok E. unfold wm_WriteAll in E.
    destruct (wm_put w (wm_pend w) fs) as [[[e1|ps] w1] fs1] eqn:Ep; [|discriminate E]. injection E as _ <- <-.
    apply wm_put_fails in Ep as [-> ->]. split; [done|]. intros p c Hin.
    destruct Hok as [H1 H2 H3 H4]. apply (wm_Read_ok (wm_clear w) fs); [by split|exact Hin].
  - intros w fs e w' fs' Hok E. unfold wm_OpenNewActiveSegment in E. case_decide; [done|]. injection E as _ <- <-.
    split; [done|]. intros p c Hin. by apply wm_Read_ok.
  - intros o fs w fs' E. unfold wm_Open in E. by destruct (dir_ids _ _ _); injection E as <- <-.
  - intros w d fs r w' fs' E. unfold wm_Write in E. destruct (wm_put w [d] fs) as [[r0 w1] fs1] eqn:Ep.
    apply wm_put_limit in Ep. by destruct r0 as [e|[|q ps]]; simplify_eq.
  - apply wm_Write_stays.
  - apply wm_Read_ok.
  - by intros w fs e fs' [= _ ->].
  - by intros w fs e w' fs' [= _ _ ->].
  - done.
  - intros w fs Hok. rewrite wm_segs_fst. destruct (wm_split w fs Hok) as (ids & Ei & _).
    rewrite Ei. by rewrite last_snoc.
  - intros w fs w' fs' Hok E. destruct (wm_OpenNew_ok w fs w' fs' Hok E) as (? & ? & ? & ? & ? & ? & ? & ?).
    by split_and!.
  - done.
  - intros w fs [H1 H2 H3 H4]. split_and!; [by split|done..].
  - done.
  - done.
  - done.
  - done.
  - intros r res r' E. unfold wm_Next in E. destruct (segs_next r) as [[[p c]|] r1]; by simplify_eq.
Defined.
