(* ===== verification/Record.v ===== *)
(** * Log records

    [record.go]: the record a batch writes to the log, its binary encoding, and
    the encodings of hint and merge-finished records. *)
From S2P Require Import Prelude GoBinary WalLib.
From Stdlib Require Import ZArith Lia Strings.Byte.
From stdpp Require Import base list.
Open Scope Z_scope.

Abbreviation LogRecordType := byte.
Definition LogRecordNormal : LogRecordType := x00.
Definition LogRecordDeleted : LogRecordType := x01.
Definition LogRecordBatchFinished : LogRecordType := x02.

(** [binary.MaxVarintLen32*2 + binary.MaxVarintLen64*2 + 1] *)
Definition maxLogRecordHeaderSize : Z := MaxVarintLen32 * 2 + MaxVarintLen64 * 2 + 1.

Record LogRecord : Type := MkLogRecord {
  lr_Key : bytes;
  lr_Value : bytes;
  lr_Type : LogRecordType;
  lr_BatchId : Z;     (* uint64 *)
  lr_Expire : Z;      (* int64 *)
}.

#[export] Instance LogRecord_eq_dec : EqDecision LogRecord.
Proof. solve_decision. Defined.

Definition IsExpired (lr : LogRecord) (now : Z) : bool :=
  (0 <? lr_Expire lr) && (lr_Expire lr <=? now).

Record IndexRecord : Type := MkIndexRecord {
  ir_key : bytes;
  ir_recordType : LogRecordType;
  ir_position : ChunkPosition;
}.

(** The encoder fills the shared header buffer and appends header, key and value
    to [buf]: it returns the header buffer and [buf]. *)
Definition encodeLogRecord (logRecord : LogRecord) (header buf : bytes) : outcome (bytes * bytes) :=
  header ← go_set header 0 (lr_Type logRecord);
  let index := 1 in
  '(header, n) ← PutUvarint header index (lr_BatchId logRecord);
  let index := index + n in
  '(header, n) ← PutVarint header index (len (lr_Key logRecord));
  let index := index + n in
  '(header, n) ← PutVarint header index (len (lr_Value logRecord));
  let index := index + n in
  '(header, n) ← PutVarint header index (lr_Expire logRecord);
  let index := index + n in
  h ← go_slice header 0 index;
  Ret (header, buf ++ h ++ lr_Key logRecord ++ lr_Value logRecord).

(** The decoder; the index arithmetic is on [uint32]. *)
Definition decodeLogRecord (buf : bytes) : outcome LogRecord :=
  t ← go_slice buf 0 1;
  let recordType := default x00 (head t) in
  let index := 1 in
  rest ← go_from buf index;
  let '(batchId, n) := Uvarint rest in
  let index := u32 (index + u32 n) in
  rest ← go_from buf index;
  let '(keySize, n) := Varint rest in
  let index := u32 (index + u32 n) in
  rest ← go_from buf index;
  let '(valueSize, n) := Varint rest in
  let index := u32 (index + u32 n) in
  rest ← go_from buf index;
  let '(expire, n) := Varint rest in
  let index := u32 (index + u32 n) in
  key ← go_make keySize;
  ks ← go_slice buf index (u32 (index + u32 keySize));
  let key := go_copy key ks in
  let index := u32 (index + u32 keySize) in
  value ← go_make valueSize;
  vs ← go_slice buf index (u32 (index + u32 valueSize));
  let value := go_copy value vs in
  Ret (MkLogRecord key value recordType batchId expire).

Definition encodeHintRecord (key : bytes) (pos : ChunkPosition) : outcome bytes :=
  let buf := replicate 25 x00 in
  let idx := 0 in
  '(buf, n) ← PutUvarint buf idx (u64 (SegmentId pos));
  let idx := idx + n in
  '(buf, n) ← PutUvarint buf idx (u64 (BlockNumber pos));
  let idx := idx + n in
  '(buf, n) ← PutUvarint buf idx (u64 (ChunkOffset pos));
  let idx := idx + n in
  '(buf, n) ← PutUvarint buf idx (u64 (ChunkSize pos));
  let idx := idx + n in
  h ← go_slice buf 0 idx;
  Ret (h ++ key).

Definition decodeHintRecord (buf : bytes) : outcome (bytes * ChunkPosition) :=
  let idx := 0 in
  rest ← go_from buf idx;
  let '(segmentId, n) := Uvarint rest in
  let idx := idx + n in
  rest ← go_from buf idx;
  let '(blockNumber, n) := Uvarint rest in
  let idx := idx + n in
  rest ← go_from buf idx;
  let '(chunkOffset, n) := Uvarint rest in
  let idx := idx + n in
  rest ← go_from buf idx;
  let '(chunkSize, n) := Uvarint rest in
  let idx := idx + n in
  key ← go_from buf idx;
  Ret (key, MkChunkPosition (u32 segmentId) (u32 blockNumber) (i64 chunkOffset) (u32 chunkSize)).

Definition encodeMergeFinRecord (segmentId : Z) : bytes := LittleEndian_PutUint32 segmentId.

(** * Specification of the encodings *)

(** The layout of an encoded record: type, batch id, key size, value size,
    expiry, key, value. *)
Definition record_header (lr : LogRecord) : bytes :=
  [lr_Type lr] ++ uvarint_bytes 10 (lr_BatchId lr) ++
  uvarint_bytes 10 (zigzag (len (lr_Key lr))) ++
  uvarint_bytes 10 (zigzag (len (lr_Value lr))) ++
  uvarint_bytes 10 (zigzag (lr_Expire lr)).

Definition record_bytes (lr : LogRecord) : bytes :=
  record_header lr ++ lr_Key lr ++ lr_Value lr.

(** The records the format can carry: the fields fit their widths, and the
    encoded record is shorter than 4 GiB (the decoder's index is a [uint32]). *)
Definition LogRecord_ok (lr : LogRecord) : Prop :=
  0 <= lr_BatchId lr < 2 ^ 64 /\
  - 2 ^ 63 <= lr_Expire lr < 2 ^ 63 /\
  maxLogRecordHeaderSize + len (lr_Key lr) + len (lr_Value lr) < 2 ^ 32.

#[export] Instance LogRecord_ok_dec lr : Decision (LogRecord_ok lr).
Proof. unfold LogRecord_ok. apply _. Defined.

(** The bytes of a hint record. *)
Definition hint_bytes (key : bytes) (pos : ChunkPosition) : bytes :=
  (uvarint_bytes 10 (SegmentId pos) ++ uvarint_bytes 10 (BlockNumber pos) ++
   uvarint_bytes 10 (ChunkOffset pos) ++ uvarint_bytes 10 (ChunkSize pos)) ++ key.

(** ** Bounds *)

Lemma size_varint_len {A} (l : list A) :
  len l < 2 ^ 34 -> 1 <= len (uvarint_bytes 10 (zigzag (len l))) <= 5.
Proof.
  intros Hl. pose proof (len_nonneg l). apply (uvarint_bytes_len 5); [lia|].
  rewrite zigzag_eq by lia. change (2 ^ (7 * Z.of_nat 5)) with (2 ^ 35).
  destruct (Z.ltb_spec (len l) 0); lia.
Qed.

Lemma u64_varint_len x : 0 <= x < 2 ^ 64 -> 1 <= len (uvarint_bytes 10 x) <= 10.
Proof.
  intros. apply (uvarint_bytes_len 10); [lia|]. change (2 ^ (7 * Z.of_nat 10)) with (2 ^ 70). lia.
Qed.

Lemma u32_varint_len x : 0 <= x < 2 ^ 32 -> 1 <= len (uvarint_bytes 10 x) <= 5.
Proof.
  intros. apply (uvarint_bytes_len 5); [lia|]. change (2 ^ (7 * Z.of_nat 5)) with (2 ^ 35). lia.
Qed.

Lemma i64_varint_len x : - 2 ^ 63 <= x < 2 ^ 63 -> 1 <= len (uvarint_bytes 10 (zigzag x)) <= 10.
Proof. intros. apply u64_varint_len. by apply zigzag_range. Qed.

Ltac varint_bounds lr :=
  let H := fresh in
  assert (H : LogRecord_ok lr) by done; destruct H as (? & ? & ?);
  unfold maxLogRecordHeaderSize, MaxVarintLen32, MaxVarintLen64 in *;
  pose proof (len_nonneg (lr_Key lr)); pose proof (len_nonneg (lr_Value lr));
  pose proof (u64_varint_len (lr_BatchId lr) ltac:(lia));
  pose proof (size_varint_len (lr_Key lr) ltac:(lia));
  pose proof (size_varint_len (lr_Value lr) ltac:(lia));
  pose proof (i64_varint_len (lr_Expire lr) ltac:(lia)).

Lemma record_header_len lr :
  LogRecord_ok lr -> 5 <= len (record_header lr) <= maxLogRecordHeaderSize.
Proof.
  intros Hok. varint_bounds lr. unfold record_header. autorewrite with golen. lia.
Qed.

(** ** The encoder *)

(** One step of the encoder: the varint goes after the prefix written so far. *)
Ltac put_step :=
  let r := fresh "rest" in let E := fresh "E" in let L := fresh "L" in
  match goal with
  | |- context [PutUvarint (?pre ++ ?rest) ?i ?x] =>
      destruct (PutUvarint_app pre rest i x ltac:(lia) ltac:(autorewrite with golen; lia) ltac:(lia))
        as (r & E & L)
  | |- context [PutVarint (?pre ++ ?rest) ?i ?x] =>
      destruct (PutVarint_app pre rest i x ltac:(lia) ltac:(autorewrite with golen; lia) ltac:(lia))
        as (r & E & L)
  end; rewrite E; cbn [mbind outcome_bind]; clear E.

Lemma encodeLogRecord_spec lr header buf :
  LogRecord_ok lr -> len header = maxLogRecordHeaderSize ->
  exists header', encodeLogRecord lr header buf = Ret (header', buf ++ record_bytes lr)
                  /\ len header' = maxLogRecordHeaderSize.
Proof.
  intros Hok Hlen. varint_bounds lr.
  destruct header as [|h0 header]; [done|]. rewrite len_cons in Hlen.
  unfold encodeLogRecord. rewrite go_set_head. cbn [mbind outcome_bind].
  change (lr_Type lr :: header) with ([lr_Type lr] ++ header).
  do 4 put_step.
  match goal with |- context [go_slice (?a ++ ?r) 0 _] =>
    rewrite (go_slice_at _ [] a r) by (autorewrite with golen; try done; lia) end.
  cbn [mbind outcome_bind]. eexists. split.
  - unfold record_bytes, record_header. rewrite <- !app_assoc. reflexivity.
  - autorewrite with golen. lia.
Qed.

(** ** The decoder *)

(** [u32] on an expression whose parts are known to be small. *)
Ltac u32s :=
  repeat match goal with
  | |- context [u32 ?x] =>
      lazymatch x with context [u32 _] => fail | _ => rewrite (u32_small x) by lia end
  end.

(** One step of the decoder: the slice from the index on starts after [pre]. *)
Ltac get_step pre rest read :=
  match goal with |- context [mbind _ (go_from ?s ?lo)] =>
    rewrite (go_from_at s pre rest lo)
      by (rewrite <- ?app_assoc; autorewrite with golen; try reflexivity; lia) end;
  cbn [mbind outcome_bind]; rewrite read by lia; u32s.

Ltac take_step pre mid post :=
  match goal with |- context [mbind _ (go_slice ?s ?lo ?hi)] =>
    rewrite (go_slice_at s pre mid post lo hi)
      by (rewrite <- ?app_assoc, ?app_nil_r; autorewrite with golen; try reflexivity; lia) end;
  cbn [mbind outcome_bind].

Lemma decodeLogRecord_spec lr :
  LogRecord_ok lr -> decodeLogRecord (record_bytes lr) = Ret lr.
Proof.
  intros Hok. varint_bounds lr. pose proof (record_header_len lr Hok) as Hh.
  unfold record_bytes, record_header in *.
  remember [lr_Type lr] as t eqn:Et. assert (len t = 1) by (by subst t).
  remember (uvarint_bytes 10 (lr_BatchId lr)) as b eqn:Eb.
  remember (uvarint_bytes 10 (zigzag (len (lr_Key lr)))) as ks eqn:Eks.
  remember (uvarint_bytes 10 (zigzag (len (lr_Value lr)))) as vs eqn:Evs.
  remember (uvarint_bytes 10 (zigzag (lr_Expire lr))) as ex eqn:Eex.
  unfold decodeLogRecord.
  take_step ([] : bytes) t (b ++ ks ++ vs ++ ex ++ lr_Key lr ++ lr_Value lr).
  get_step t (b ++ ks ++ vs ++ ex ++ lr_Key lr ++ lr_Value lr)
    (Uvarint_read b (lr_BatchId lr) Eb).
  get_step (t ++ b) (ks ++ vs ++ ex ++ lr_Key lr ++ lr_Value lr)
    (Varint_read ks (len (lr_Key lr)) Eks).
  get_step (t ++ b ++ ks) (vs ++ ex ++ lr_Key lr ++ lr_Value lr)
    (Varint_read vs (len (lr_Value lr)) Evs).
  get_step (t ++ b ++ ks ++ vs) (ex ++ lr_Key lr ++ lr_Value lr)
    (Varint_read ex (lr_Expire lr) Eex).
  unfold go_make. rewrite !decide_True by lia. cbn [mbind outcome_bind].
  take_step (t ++ b ++ ks ++ vs ++ ex) (lr_Key lr) (lr_Value lr).
  take_step (t ++ b ++ ks ++ vs ++ ex ++ lr_Key lr) (lr_Value lr) ([] : bytes).
  rewrite !go_copy_full by (rewrite length_replicate; unfold len; lia).
  subst t. by destruct lr.
Qed.

(** ** Hint records *)

Lemma encodeHintRecord_spec key pos :
  ChunkPosition_ok pos -> encodeHintRecord key pos = Ret (hint_bytes key pos).
Proof.
  intros (Hs & Hb & Ho & Hz).
  pose proof (u32_varint_len _ Hs). pose proof (u32_varint_len _ Hb).
  pose proof (u64_varint_len (ChunkOffset pos) ltac:(lia)). pose proof (u32_varint_len _ Hz).
  unfold encodeHintRecord. rewrite !u64_small by lia.
  assert (len (replicate 25 x00) = 25) by done.
  generalize dependent (replicate 25 x00). intros buf Hbuf.
  change buf with ([] ++ buf). do 4 put_step.
  match goal with |- context [go_slice (?a ++ ?r) 0 _] => take_step ([] : bytes) a r end.
  unfold hint_bytes. by rewrite <- !app_assoc.
Qed.

Lemma decodeHintRecord_spec key pos :
  ChunkPosition_ok pos -> decodeHintRecord (hint_bytes key pos) = Ret (key, pos).
Proof.
  intros (Hs & Hb & Ho & Hz). unfold hint_bytes, decodeHintRecord.
  remember (uvarint_bytes 10 (SegmentId pos)) as s eqn:Es.
  remember (uvarint_bytes 10 (BlockNumber pos)) as b eqn:Eb.
  remember (uvarint_bytes 10 (ChunkOffset pos)) as o eqn:Eo.
  remember (uvarint_bytes 10 (ChunkSize pos)) as z eqn:Ez.
  get_step ([] : bytes) (s ++ b ++ o ++ z ++ key) (Uvarint_read s _ Es).
  get_step s (b ++ o ++ z ++ key) (Uvarint_read b _ Eb).
  get_step (s ++ b) (o ++ z ++ key) (Uvarint_read o _ Eo).
  get_step (s ++ b ++ o) (z ++ key) (Uvarint_read z _ Ez).
  rewrite (go_from_at _ (s ++ b ++ o ++ z) key)
    by (rewrite <- ?app_assoc; autorewrite with golen; try reflexivity; lia).
  cbn [mbind outcome_bind]. u32s. rewrite i64_small by lia. by destruct pos.
Qed.

(** * Round trips *)

(** C32: A record the format can carry is encoded into a header buffer of the
    right size without a crash, in at most the header's size more than its key
    and value, and decodes to itself; the buffer can be used again. *)
Theorem record_roundtrip lr header :
  LogRecord_ok lr -> len header = maxLogRecordHeaderSize ->
  exists header' enc, encodeLogRecord lr header [] = Ret (header', enc) /\
    len header' = maxLogRecordHeaderSize /\
    len enc <= maxLogRecordHeaderSize + len (lr_Key lr) + len (lr_Value lr) /\
    decodeLogRecord enc = Ret lr.
Proof.
  intros Hok Hlen. destruct (encodeLogRecord_spec lr header [] Hok Hlen) as (header' & E & Hlen').
  exists header', (record_bytes lr). split; [exact E|]. split; [exact Hlen'|]. split.
  - pose proof (record_header_len lr Hok). unfold record_bytes. autorewrite with golen. lia.
  - by apply decodeLogRecord_spec.
Qed.

Lemma record_roundtrip_witness :
  exists header' enc, encodeLogRecord (MkLogRecord ($"key") ($"value") LogRecordNormal 300 (-5))
      (replicate 31 x00) [] = Ret (header', enc) /\ len header' = maxLogRecordHeaderSize /\
    len enc <= maxLogRecordHeaderSize + 3 + 5 /\
    decodeLogRecord enc = Ret (MkLogRecord ($"key") ($"value") LogRecordNormal 300 (-5)).
Proof. apply record_roundtrip; [|reflexivity]. split_and!; vm_compute; done. Defined.

(** C33: A hint record holds the key and the position it was made of, for every
    position whose fields fit their widths: the 25 bytes of the buffer are
    enough. *)
Theorem hint_roundtrip key pos :
  ChunkPosition_ok pos ->
  exists enc, encodeHintRecord key pos = Ret enc /\ decodeHintRecord enc = Ret (key, pos).
Proof.
  intros Hok. exists (hint_bytes key pos). split; [by apply encodeHintRecord_spec|by apply decodeHintRecord_spec].
Qed.

Lemma hint_roundtrip_witness :
  exists enc, encodeHintRecord ($"key") (MkChunkPosition (2 ^ 32 - 1) 70000 (2 ^ 63 - 1) 12) = Ret enc /\
    decodeHintRecord enc = Ret ($"key", MkChunkPosition (2 ^ 32 - 1) 70000 (2 ^ 63 - 1) 12).
Proof. apply hint_roundtrip. split_and!; vm_compute; done. Defined.
