(* ===== verification/BTreeLib.v ===== *)
(** * The B-tree library (interface)

    [github.com/google/btree] is not part of the repository.  Its operations
    are the parameters of the class [BTreeLib], over the item type and its
    [Less] method; [BTreeLaws] states its documented behaviour: when [Less] is a
    strict weak order the tree holds one item per class, in ascending order, and
    the traversals visit it in order until the callback returns false.
    [SortedBTree] is an instance by sorted lists. *)
From S2P Require Import Prelude.
From Stdlib Require Import ZArith Lia Sorted.
From stdpp Require Import base list sets sorting.
Open Scope Z_scope.

Section iteration.
Context {Item S : Type}.

(** An iteration with a callback that returns false to stop. *)
Fixpoint iter_while (f : Item -> S -> bool * S) (l : list Item) (s : S) : S :=
  match l with
  | [] => s
  | x :: l' => let '(cont, s') := f x s in if cont then iter_while f l' s' else s'
  end.
End iteration.

(** The callback gets one item and the state its closure has captured. *)
Class BTreeLib (Item : Type) (Less : Item -> Item -> bool) : Type := {
  btree : Type;
  bt_New : Z -> btree;
  bt_ReplaceOrInsert : btree -> Item -> option Item * btree;
  bt_Get : btree -> Item -> option Item;
  bt_Delete : btree -> Item -> option Item * btree;
  bt_Len : btree -> Z;
  bt_Min : btree -> option Item;
  bt_Max : btree -> option Item;
  bt_Ascend : forall S, btree -> (Item -> S -> bool * S) -> S -> S;
  bt_AscendRange : forall S, btree -> Item -> Item -> (Item -> S -> bool * S) -> S -> S;
  bt_AscendGreaterOrEqual : forall S, btree -> Item -> (Item -> S -> bool * S) -> S -> S;
  bt_Descend : forall S, btree -> (Item -> S -> bool * S) -> S -> S;
  bt_DescendRange : forall S, btree -> Item -> Item -> (Item -> S -> bool * S) -> S -> S;
  bt_DescendLessOrEqual : forall S, btree -> Item -> (Item -> S -> bool * S) -> S -> S;
  bt_Clone : btree -> btree * btree;
  bt_Clear : btree -> bool -> btree;
}.
Arguments bt_Ascend {_ _ _ _}.
Arguments bt_AscendRange {_ _ _ _}.
Arguments bt_AscendGreaterOrEqual {_ _ _ _}.
Arguments bt_Descend {_ _ _ _}.
Arguments bt_DescendRange {_ _ _ _}.
Arguments bt_DescendLessOrEqual {_ _ _ _}.

(** What the documentation asks of [Less]. *)
Class StrictWeakOrder {Item : Type} (Less : Item -> Item -> bool) : Prop := {
  swo_irrefl : forall x, Less x x = false;
  swo_trans : forall x y z, Less x y = true -> Less y z = true -> Less x z = true;
  swo_equiv_trans : forall x y z,
    Less x y = false -> Less y x = false -> Less y z = false -> Less z y = false ->
    Less x z = false /\ Less z x = false;
}.

(** Neither is less: [!a.Less(b) && !b.Less(a)] means [a == b] for the tree. *)
Definition item_equiv {Item} (Less : Item -> Item -> bool) (x y : Item) : bool :=
  negb (Less x y) && negb (Less y x).

Class BTreeLaws {Item : Type} {Less : Item -> Item -> bool} (B : BTreeLib Item Less) : Type := {
  (** the items of a tree, in ascending order *)
  bt_items : btree -> list Item;
  bt_items_sorted t : StrictWeakOrder Less -> StronglySorted (fun x y => Less x y = true) (bt_items t);
  bt_New_items d : bt_items (bt_New d) = [];
  bt_Replace_items t x y : StrictWeakOrder Less ->
    y ∈ bt_items (bt_ReplaceOrInsert t x).2 <-> y = x \/ (y ∈ bt_items t /\ item_equiv Less x y = false);
  bt_Replace_old t x y : StrictWeakOrder Less ->
    (bt_ReplaceOrInsert t x).1 = Some y <-> y ∈ bt_items t /\ item_equiv Less x y = true;
  bt_Get_spec t x y : StrictWeakOrder Less ->
    bt_Get t x = Some y <-> y ∈ bt_items t /\ item_equiv Less x y = true;
  bt_Delete_items t x y : StrictWeakOrder Less ->
    y ∈ bt_items (bt_Delete t x).2 <-> y ∈ bt_items t /\ item_equiv Less x y = false;
  bt_Delete_old t x y : StrictWeakOrder Less ->
    (bt_Delete t x).1 = Some y <-> y ∈ bt_items t /\ item_equiv Less x y = true;
  bt_Len_spec t : bt_Len t = len (bt_items t);
  bt_Min_spec t : bt_Min t = head (bt_items t);
  bt_Max_spec t : bt_Max t = last (bt_items t);
  bt_Ascend_spec S t (f : Item -> S -> bool * S) s : bt_Ascend t f s = iter_while f (bt_items t) s;
  bt_Descend_spec S t (f : Item -> S -> bool * S) s :
    bt_Descend t f s = iter_while f (reverse (bt_items t)) s;
  (** ascending over [greaterOrEqual, lessThan) *)
  bt_AscendRange_spec S t a b (f : Item -> S -> bool * S) s : StrictWeakOrder Less ->
    bt_AscendRange t a b f s
      = iter_while f (filter (fun y => Less y a = false /\ Less y b = true) (bt_items t)) s;
  bt_AscendGreaterOrEqual_spec S t a (f : Item -> S -> bool * S) s : StrictWeakOrder Less ->
    bt_AscendGreaterOrEqual t a f s
      = iter_while f (filter (fun y => Less y a = false) (bt_items t)) s;
  (** descending over [lessOrEqual, greaterThan) *)
  bt_DescendRange_spec S t a b (f : Item -> S -> bool * S) s : StrictWeakOrder Less ->
    bt_DescendRange t a b f s
      = iter_while f (filter (fun y => Less a y = false /\ Less b y = true) (reverse (bt_items t))) s;
  bt_DescendLessOrEqual_spec S t a (f : Item -> S -> bool * S) s : StrictWeakOrder Less ->
    bt_DescendLessOrEqual t a f s
      = iter_while f (filter (fun y => Less a y = false) (reverse (bt_items t))) s;
  bt_Clone_items t : bt_items (bt_Clone t).1 = bt_items t /\ bt_items (bt_Clone t).2 = bt_items t;
  bt_Clear_items t b : bt_items (bt_Clear t b) = [];
}.

(** ** An instance by sorted lists *)
Section sorted_lists.
Context {Item : Type} (Less : Item -> Item -> bool).
Abbreviation sorted l := (StronglySorted (fun x y => Less x y = true) l).

Fixpoint sl_insert (l : list Item) (x : Item) : list Item :=
  match l with
  | [] => [x]
  | y :: l' => if Less x y then x :: y :: l'
               else if Less y x then y :: sl_insert l' x else x :: l'
  end.

Definition sl_find (l : list Item) (x : Item) : option Item :=
  head (filter (fun y => item_equiv Less x y = true) l).

Definition sl_remove (l : list Item) (x : Item) : list Item :=
  filter (fun y => item_equiv Less x y = false) l.

Context (swo : StrictWeakOrder Less).

Lemma less_asym x y : Less x y = true -> Less y x = false.
Proof.
  intros H. destruct (Less y x) eqn:E; [|done].
  pose proof (swo_irrefl (Less:=Less) x). pose proof (swo_trans (Less:=Less) x y x H E). congruence.
Qed.

Lemma less_equiv_l x y z :
  Less x y = false -> Less y x = false -> Less y z = true -> Less x z = true.
Proof.
  intros E1 E2 H. destruct (Less x z) eqn:E; [done|].
  destruct (Less z x) eqn:E'.
  - pose proof (swo_trans (Less:=Less) y z x H E'). congruence.
  - destruct (swo_equiv_trans (Less:=Less) y x z) as [F _]; congruence.
Qed.

Lemma item_equiv_less x y : Less x y = true -> item_equiv Less x y = false.
Proof. unfold item_equiv. by intros ->. Qed.

Lemma item_equiv_greater x y : Less y x = true -> item_equiv Less x y = false.
Proof. unfold item_equiv. intros ->. apply andb_false_r. Qed.

Lemma sl_insert_elem l x y :
  sorted l -> y ∈ sl_insert l x <-> y = x \/ (y ∈ l /\ item_equiv Less x y = false).
Proof.
  induction l as [|z l IH]; intros Hs; simpl; [set_solver|].
  apply StronglySorted_inv in Hs as [Hs Hz]. rewrite Forall_forall in Hz.
  destruct (Less x z) eqn:E1; [|destruct (Less z x) eqn:E2].
  - assert (forall w, w ∈ z :: l -> item_equiv Less x w = false).
    { intros w [->|Hw]%elem_of_cons; apply item_equiv_less; [done|].
      eapply swo_trans; eauto. }
    rewrite elem_of_cons. split; [intros [->|Hy]; auto|intros [->|[Hy _]]; auto].
  - rewrite !elem_of_cons, IH by done.
    pose proof (item_equiv_greater _ _ E2).
    split; [intros [->|[->|[]]]; auto|intros [->|[[->|] ]]; auto].
  - assert (item_equiv Less x z = true) by (unfold item_equiv; by rewrite E1, E2).
    assert (forall w, w ∈ l -> item_equiv Less x w = false).
    { intros w Hw. apply item_equiv_less. eapply less_equiv_l; eauto. }
    rewrite !elem_of_cons.
    split; [intros [->|Hy]; auto|intros [->|[[->|Hy] Hxy]]; auto; congruence].
Qed.

Lemma sl_insert_sorted l x : sorted l -> sorted (sl_insert l x).
Proof.
  induction l as [|z l IH]; intros Hs; simpl; [by repeat constructor|].
  pose proof Hs as Hs'. apply StronglySorted_inv in Hs as [Hs Hz].
  pose proof Hz as Hz'. rewrite Forall_forall in Hz'.
  destruct (Less x z) eqn:E1; [|destruct (Less z x) eqn:E2].
  - constructor; [done|]. constructor; [done|]. apply Forall_forall.
    intros w Hw. eapply swo_trans; eauto.
  - constructor; [auto|]. apply Forall_forall. intros w Hw.
    apply sl_insert_elem in Hw as [->|[Hw _]]; auto.
  - constructor; [done|]. apply Forall_forall. intros w Hw. eapply less_equiv_l; eauto.
Qed.

Lemma sl_find_spec l x y :
  sorted l -> sl_find l x = Some y <-> y ∈ l /\ item_equiv Less x y = true.
Proof.
  unfold sl_find. induction l as [|z l IH]; intros Hs; [set_solver|].
  apply StronglySorted_inv in Hs as [Hs Hz]. rewrite Forall_forall in Hz.
  rewrite filter_cons. destruct (decide (item_equiv Less x z = true)) as [E|E]; simpl.
  - split; [intros [= ->]; set_solver|]. intros [[->|Hy]%elem_of_cons Hxy]; [done|].
    exfalso. specialize (Hz _ Hy). unfold item_equiv in *.
    apply andb_true_iff in E as [E1%negb_true_iff E2%negb_true_iff].
    rewrite (less_equiv_l x z y) in Hxy by done. done.
  - rewrite IH by done. set_solver.
Qed.

Lemma sl_filter_sorted (P : Item -> Prop) `{!forall x, Decision (P x)} l :
  sorted l -> sorted (filter P l).
Proof.
  induction 1 as [|z l Hs IH Hz]; [constructor|].
  rewrite filter_cons. case_decide; [|done]. constructor; [done|].
  rewrite Forall_forall in *. intros w [_ Hw]%list_elem_of_filter. auto.
Qed.
End sorted_lists.

Section sorted_btree.
Context {Item : Type} (Less : Item -> Item -> bool).

Record sorted_list : Type := MkSortedList {
  sl_items : list Item;
  sl_sorted : StrictWeakOrder Less -> StronglySorted (fun x y => Less x y = true) sl_items;
}.

Definition sl_nil : sorted_list := MkSortedList [] (fun _ => SSorted_nil _).

Definition SortedBTree : BTreeLib Item Less := {|
  btree := sorted_list;
  bt_New := fun _ => sl_nil;
  bt_ReplaceOrInsert := fun t x => (sl_find Less (sl_items t) x,
    MkSortedList (sl_insert Less (sl_items t) x)
      (fun swo => sl_insert_sorted Less swo _ x (sl_sorted t swo)));
  bt_Get := fun t x => sl_find Less (sl_items t) x;
  bt_Delete := fun t x => (sl_find Less (sl_items t) x,
    MkSortedList (sl_remove Less (sl_items t) x)
      (fun swo => sl_filter_sorted Less _ _ (sl_sorted t swo)));
  bt_Len := fun t => len (sl_items t);
  bt_Min := fun t => head (sl_items t);
  bt_Max := fun t => last (sl_items t);
  bt_Ascend := fun S t f s => iter_while f (sl_items t) s;
  bt_AscendRange := fun S t a b f s =>
    iter_while f (filter (fun y => Less y a = false /\ Less y b = true) (sl_items t)) s;
  bt_AscendGreaterOrEqual := fun S t a f s =>
    iter_while f (filter (fun y => Less y a = false) (sl_items t)) s;
  bt_Descend := fun S t f s => iter_while f (reverse (sl_items t)) s;
  bt_DescendRange := fun S t a b f s =>
    iter_while f (filter (fun y => Less a y = false /\ Less b y = true) (reverse (sl_items t))) s;
  bt_DescendLessOrEqual := fun S t a f s =>
    iter_while f (filter (fun y => Less a y = false) (reverse (sl_items t))) s;
  bt_Clone := fun t => (t, t);
  bt_Clear := fun _ _ => sl_nil;
|}.

Definition SortedBTree_laws : BTreeLaws SortedBTree.
Proof.
  refine {| bt_items := sl_items : btree (BTreeLib := SortedBTree) -> list Item |}; simpl; try done.
  - apply sl_sorted.
  - intros t x y swo. apply sl_insert_elem; [done|]. by apply sl_sorted.
  - intros t x y swo. apply sl_find_spec; [done|]. by apply sl_sorted.
  - intros t x y swo. apply sl_find_spec; [done|]. by apply sl_sorted.
  - intros t x y swo. unfold sl_remove. rewrite list_elem_of_filter. tauto.
  - intros t x y swo. apply sl_find_spec; [done|]. by apply sl_sorted.
Defined.
End sorted_btree.
