(* ===== verification/Index.v ===== *)
(** * The in-memory index

    [index/btree.go] and [index/index.go]: the index of keys to log positions,
    a wrapper of the B-tree library, and its iterator.  The wrapper's own lock
    makes every operation atomic, which is how the operations are modelled. *)
From S2P Require Import Prelude GoBinary Config WalLib BTreeLib.
From Stdlib Require Import ZArith Lia Sorted Strings.Byte.
From stdpp Require Import base list gmap sorting.
Open Scope Z_scope.

(** ** Items *)
Record item : Type := MkItem {
  it_key : bytes;
  it_pos : option ChunkPosition;     (* a pointer: nil in the items used to search *)
}.

(** [it.Less(bi)]; [bi] may be nil. *)
Definition item_Less (it : item) (bi : option item) : bool :=
  match bi with
  | None => false
  | Some bi => bool_decide (bytes_cmp (it_key it) (it_key bi) = Lt)
  end.

Definition item_less (a b : item) : bool := item_Less a (Some b).

(** The item a lookup searches with: [&item{key: key}]. *)
Definition search_item (key : bytes) : item := MkItem key None.

(** The callbacks of the traversals: [func(key, position) (bool, error)], with
    the state the closure captures. *)
Definition handle_fn (S : Type) : Type :=
  bytes -> option ChunkPosition -> S -> (bool * option error) * S.

(** The function the wrapper hands to the tree: an error stops the traversal. *)
Definition wrap_handle {S} (handleFn : handle_fn S) (i : item) (s : S) : bool * S :=
  let '((cont, err), s') := handleFn (it_key i) (it_pos i) s in
  match err with Some _ => (false, s') | None => (cont, s') end.

Section index.
Context {B : BTreeLib item item_less}.

Record MemoryBTree : Type := MkMemoryBTree { mt_tree : btree }.

Definition newBTree : MemoryBTree := MkMemoryBTree (bt_New 32).

(** The index kinds of [NewIndexer]; only the B-tree exists. *)
Inductive IndexerType : Type := BTree.
Definition indexType : IndexerType := BTree.
Definition NewIndexer : MemoryBTree := match indexType with BTree => newBTree end.

Definition MemoryBTree_Put (mt : MemoryBTree) (key : bytes) (position : option ChunkPosition) :
    option ChunkPosition * MemoryBTree :=
  let '(oldValue, t) := bt_ReplaceOrInsert (mt_tree mt) (MkItem key position) in
  (match oldValue with Some old => it_pos old | None => None end, MkMemoryBTree t).

Definition MemoryBTree_Get (mt : MemoryBTree) (key : bytes) : option ChunkPosition :=
  match bt_Get (mt_tree mt) (search_item key) with
  | Some value => it_pos value
  | None => None
  end.

Definition MemoryBTree_Delete (mt : MemoryBTree) (key : bytes) :
    (option ChunkPosition * bool) * MemoryBTree :=
  let '(value, t) := bt_Delete (mt_tree mt) (search_item key) in
  (match value with Some v => (it_pos v, true) | None => (None, false) end, MkMemoryBTree t).

Definition MemoryBTree_Size (mt : MemoryBTree) : Z := bt_Len (mt_tree mt).

Definition MemoryBTree_Ascend {S} (mt : MemoryBTree) (handleFn : handle_fn S) (s : S) : S :=
  bt_Ascend (mt_tree mt) (wrap_handle handleFn) s.

Definition MemoryBTree_Descend {S} (mt : MemoryBTree) (handleFn : handle_fn S) (s : S) : S :=
  bt_Descend (mt_tree mt) (wrap_handle handleFn) s.

Definition MemoryBTree_AscendRange {S} (mt : MemoryBTree) (startKey endKey : bytes)
    (handleFn : handle_fn S) (s : S) : S :=
  bt_AscendRange (mt_tree mt) (search_item startKey) (search_item endKey) (wrap_handle handleFn) s.

Definition MemoryBTree_DescendRange {S} (mt : MemoryBTree) (startKey endKey : bytes)
    (handleFn : handle_fn S) (s : S) : S :=
  bt_DescendRange (mt_tree mt) (search_item startKey) (search_item endKey) (wrap_handle handleFn) s.

Definition MemoryBTree_AscendGreaterOrEqual {S} (mt : MemoryBTree) (key : bytes)
    (handleFn : handle_fn S) (s : S) : S :=
  bt_AscendGreaterOrEqual (mt_tree mt) (search_item key) (wrap_handle handleFn) s.

Definition MemoryBTree_DescendLessOrEqual {S} (mt : MemoryBTree) (key : bytes)
    (handleFn : handle_fn S) (s : S) : S :=
  bt_DescendLessOrEqual (mt_tree mt) (search_item key) (wrap_handle handleFn) s.

(** ** The iterator *)
Record memoryBTreeIterator : Type := MkIter {
  mi_tree : option btree;       (* nil once closed *)
  mi_reverse : bool;
  mi_current : option item;
  mi_valid : bool;
}.

(** [tree.Max()] or [tree.Min()] and the assertion that it is an item, which
    panics on nil. *)
Definition assert_item (i : option item) : outcome item :=
  match i with Some i => Ret i | None => Panic end.

(** The iterator works on a clone; cloning updates the original tree too. *)
Definition newMemoryBTreeIterator (tree : btree) (reverse : bool) :
    outcome (memoryBTreeIterator * btree) :=
  '(current, valid) ←
    (if 0 <? bt_Len tree then
       cur ← assert_item (if reverse then bt_Max tree else bt_Min tree);
       Ret (Some cur, true)
     else Ret (None, false));
  let '(tree, clone) := bt_Clone tree in
  Ret (MkIter (Some clone) reverse current valid, tree).

Definition MemoryBTree_Iterator (mt : MemoryBTree) (reverse : bool) :
    outcome (memoryBTreeIterator * MemoryBTree) :=
  '(it, tree) ← newMemoryBTreeIterator (mt_tree mt) reverse;
  Ret (it, MkMemoryBTree tree).

Definition Iter_Rewind (it : memoryBTreeIterator) : outcome memoryBTreeIterator :=
  match mi_tree it with
  | None => Ret it
  | Some tree =>
      if bt_Len tree =? 0 then Ret it else
      cur ← assert_item (if mi_reverse it then bt_Max tree else bt_Min tree);
      Ret (MkIter (Some tree) (mi_reverse it) (Some cur) true)
  end.

(** The closure of [Seek] takes the first item and stops. *)
Definition seek_fn (i : item) (_ : option item * bool) : bool * (option item * bool) :=
  (false, (Some i, true)).

Definition Iter_Seek (it : memoryBTreeIterator) (key : bytes) : memoryBTreeIterator :=
  match mi_tree it with
  | None => it
  | Some tree =>
      if negb (mi_valid it) then it else
      let seekItem := search_item key in
      let '(current, valid) :=
        if mi_reverse it
        then bt_DescendLessOrEqual tree seekItem seek_fn (mi_current it, false)
        else bt_AscendGreaterOrEqual tree seekItem seek_fn (mi_current it, false) in
      MkIter (Some tree) (mi_reverse it) current valid
  end.

(** The closure of [Next]: skip the items not beyond the current one. *)
Definition next_fn (reverse : bool) (i : item) (st : item * bool) : bool * (item * bool) :=
  let '(current, valid) := st in
  if negb (if reverse then item_less i current else item_less current i)
  then (true, st) else (false, (i, true)).

Definition Iter_Next (it : memoryBTreeIterator) : outcome memoryBTreeIterator :=
  match mi_tree it with
  | None => Ret it
  | Some tree =>
      if negb (mi_valid it) then Ret it else
      cur ← assert_item (mi_current it);
      let '(current, valid) :=
        if mi_reverse it
        then bt_DescendLessOrEqual tree cur (next_fn true) (cur, false)
        else bt_AscendGreaterOrEqual tree cur (next_fn false) (cur, false) in
      Ret (MkIter (Some tree) (mi_reverse it) (if valid then Some current else None) valid)
  end.

Definition Iter_Valid (it : memoryBTreeIterator) : bool := mi_valid it.

Definition Iter_Key (it : memoryBTreeIterator) : outcome bytes :=
  if negb (mi_valid it) then Ret []
  else cur ← assert_item (mi_current it); Ret (it_key cur).

Definition Iter_Value (it : memoryBTreeIterator) : outcome (option ChunkPosition) :=
  if negb (mi_valid it) then Ret None
  else cur ← assert_item (mi_current it); Ret (it_pos cur).

Definition Iter_Close (it : memoryBTreeIterator) : outcome memoryBTreeIterator :=
  match mi_tree it with
  | None => Panic                  (* Clear on a nil tree *)
  | Some _ => Ret (MkIter None (mi_reverse it) None false)
  end.
End index.

(** * Correctness *)

Lemma item_less_iff a b : item_less a b = true <-> bytes_lt (it_key a) (it_key b).
Proof. unfold item_less, item_Less. by rewrite bool_decide_eq_true. Qed.

Lemma item_less_false a b : item_less a b = false <-> ~ bytes_lt (it_key a) (it_key b).
Proof. rewrite <- item_less_iff. by destruct (item_less a b). Qed.

#[export] Instance item_less_swo : StrictWeakOrder item_less.
Proof.
  split.
  - intros x. apply item_less_false, bytes_lt_irrefl.
  - intros x y z. rewrite !item_less_iff. apply bytes_lt_trans.
  - intros x y z. rewrite !item_less_false. intros H1 H2 H3 H4.
    destruct (bytes_lt_total (it_key x) (it_key y)) as [?|[E|?]]; try done.
    destruct (bytes_lt_total (it_key y) (it_key z)) as [?|[E'|?]]; try done.
    rewrite E, E'. split; apply bytes_lt_irrefl.
Qed.

Lemma item_equiv_key x y : item_equiv item_less x y = true <-> it_key x = it_key y.
Proof.
  unfold item_equiv. rewrite andb_true_iff, !negb_true_iff, !item_less_false. split.
  - intros [H1 H2]. by destruct (bytes_lt_total (it_key x) (it_key y)) as [?|[E|?]].
  - intros E. rewrite E. split; apply bytes_lt_irrefl.
Qed.

Lemma item_equiv_key_false x y : item_equiv item_less x y = false <-> it_key x <> it_key y.
Proof. rewrite <- item_equiv_key. by destruct (item_equiv _ x y). Qed.

(** An index entry as a pair of the abstract map. *)
Abbreviation entry := (bytes * option ChunkPosition)%type.
Definition entry_of (i : item) : entry := (it_key i, it_pos i).
Definition item_of (e : entry) : item := MkItem e.1 e.2.

Lemma item_of_entry i : item_of (entry_of i) = i.
Proof. by destruct i. Qed.
Lemma entry_of_item e : entry_of (item_of e) = e.
Proof. by destruct e. Qed.

(** A traversal of a list of entries with a callback. *)
Definition visit {S} (handleFn : handle_fn S) (l : list entry) (s : S) : S :=
  iter_while (fun e => wrap_handle handleFn (item_of e)) l s.

Lemma visit_items {S} (handleFn : handle_fn S) (l : list item) s :
  iter_while (wrap_handle handleFn) l s = visit handleFn (entry_of <$> l) s.
Proof.
  revert s. induction l as [|i l IH]; intros s; [done|]. unfold visit in *. simpl.
  rewrite item_of_entry. destruct (wrap_handle handleFn i s) as [[] s']; auto.
Qed.

Section index_spec.
Context {B : BTreeLib item item_less} {L : BTreeLaws B}.
Implicit Types (mt : MemoryBTree) (k : bytes) (p : option ChunkPosition).

(** The entries of an index in order, and the map they form. *)
Definition mt_entries mt : list entry := entry_of <$> bt_items (mt_tree mt).
Definition mt_map mt : gmap bytes (option ChunkPosition) := list_to_map (mt_entries mt).

Lemma mt_entries_sorted mt : StronglySorted (fun a b => bytes_lt a.1 b.1) (mt_entries mt).
Proof.
  unfold mt_entries. pose proof (bt_items_sorted (mt_tree mt) _) as H.
  induction H as [|i l _ IH Hi]; [constructor|]. rewrite fmap_cons.
  constructor; [done|]. rewrite Forall_fmap. eapply Forall_impl; [exact Hi|].
  intros j. simpl. by rewrite item_less_iff.
Qed.

Lemma sorted_keys_NoDup (l : list entry) :
  StronglySorted (fun a b => bytes_lt a.1 b.1) l -> NoDup l.*1.
Proof.
  induction 1 as [|e l _ IH He]; [constructor|]. rewrite fmap_cons. constructor; [|done].
  intros Hin. apply list_elem_of_fmap in Hin as (e' & E & Hin).
  rewrite Forall_forall in He. specialize (He _ Hin). rewrite E in He.
  by apply bytes_lt_irrefl in He.
Qed.

Lemma mt_entries_NoDup mt : NoDup (mt_entries mt).*1.
Proof. apply sorted_keys_NoDup, mt_entries_sorted. Qed.

Lemma mt_map_entries mt k p : mt_map mt !! k = Some p <-> (k, p) ∈ mt_entries mt.
Proof. symmetry. apply elem_of_list_to_map, mt_entries_NoDup. Qed.

Lemma mt_map_items mt k p : mt_map mt !! k = Some p <-> MkItem k p ∈ bt_items (mt_tree mt).
Proof.
  rewrite mt_map_entries. unfold mt_entries. rewrite list_elem_of_fmap. split.
  - intros ([k' p'] & [= -> ->] & H). done.
  - intros H. by exists (MkItem k p).
Qed.

(** The result of a lookup in the tree. *)
Lemma mt_map_find mt k (o : option item) :
  (forall y, o = Some y <-> y ∈ bt_items (mt_tree mt) /\ it_key (search_item k) = it_key y) ->
  o = MkItem k <$> mt_map mt !! k.
Proof.
  intros Ho. destruct (mt_map mt !! k) as [p|] eqn:E; simpl.
  - apply Ho. split; [by apply mt_map_items|done].
  - destruct o as [[k' p]|]; [|done]. destruct (proj1 (Ho (MkItem k' p)) eq_refl) as [H Hk].
    simpl in Hk. subst k'. apply mt_map_items in H. congruence.
Qed.

Lemma bt_Get_map mt k : bt_Get (mt_tree mt) (search_item k) = MkItem k <$> mt_map mt !! k.
Proof. apply mt_map_find. intros y. by rewrite bt_Get_spec, item_equiv_key by apply _. Qed.

Lemma MemoryBTree_Get_map mt k : MemoryBTree_Get mt k = mt_map mt !! k ≫= id.
Proof. unfold MemoryBTree_Get. rewrite bt_Get_map. by destruct (mt_map mt !! k). Qed.

Lemma MemoryBTree_Put_map mt k p :
  mt_map (MemoryBTree_Put mt k p).2 = <[k := p]> (mt_map mt) /\
  (MemoryBTree_Put mt k p).1 = mt_map mt !! k ≫= id.
Proof.
  unfold MemoryBTree_Put.
  assert (Eo : (bt_ReplaceOrInsert (mt_tree mt) (MkItem k p)).1 = MkItem k <$> mt_map mt !! k).
  { apply mt_map_find. intros y. by rewrite bt_Replace_old, item_equiv_key by apply _. }
  pose proof (fun y => bt_Replace_items (mt_tree mt) (MkItem k p) y _) as Hi.
  destruct (bt_ReplaceOrInsert _ _) as [old t]. simpl in *. split.
  - apply map_eq. intros j. apply option_eq. intros q.
    rewrite mt_map_items, Hi, item_equiv_key_false. simpl.
    rewrite lookup_insert_Some, <- mt_map_items. naive_solver.
  - rewrite Eo. by destruct (mt_map mt !! k).
Qed.

Lemma MemoryBTree_Delete_map mt k :
  mt_map (MemoryBTree_Delete mt k).2 = delete k (mt_map mt) /\
  (MemoryBTree_Delete mt k).1
    = (mt_map mt !! k ≫= id, bool_decide (is_Some (mt_map mt !! k))).
Proof.
  unfold MemoryBTree_Delete.
  assert (Eo : (bt_Delete (mt_tree mt) (search_item k)).1 = MkItem k <$> mt_map mt !! k).
  { apply mt_map_find. intros y. by rewrite bt_Delete_old, item_equiv_key by apply _. }
  pose proof (fun y => bt_Delete_items (mt_tree mt) (search_item k) y _) as Hi.
  destruct (bt_Delete _ _) as [old t]. simpl in *. split.
  - apply map_eq. intros j. apply option_eq. intros q.
    rewrite mt_map_items, Hi, item_equiv_key_false. simpl.
    rewrite lookup_delete_Some, <- mt_map_items. naive_solver.
  - rewrite Eo. by destruct (mt_map mt !! k).
Qed.

Lemma MemoryBTree_Size_map mt : MemoryBTree_Size mt = Z.of_nat (size (mt_map mt)).
Proof.
  unfold MemoryBTree_Size, mt_map. rewrite bt_Len_spec.
  rewrite map_size_list_to_map by apply mt_entries_NoDup.
  unfold len, mt_entries. by rewrite length_fmap.
Qed.

Lemma newBTree_map : mt_map newBTree = ∅.
Proof. unfold mt_map, mt_entries, newBTree. simpl. by rewrite bt_New_items. Qed.

(** ** The traversals *)

Lemma visit_filter {S} (h : handle_fn S) (l : list item) (P : entry -> Prop) (Q : item -> Prop)
    `{!forall e, Decision (P e)} `{!forall i, Decision (Q i)} s :
  (forall i, Q i <-> P (entry_of i)) ->
  iter_while (wrap_handle h) (filter Q l) s = visit h (filter P (entry_of <$> l)) s.
Proof.
  intros HQ. rewrite visit_items, filter_fmap_list. f_equal.
  f_equal. apply list_filter_iff. done.
Qed.

Lemma Ascend_visit {S} mt (h : handle_fn S) s :
  MemoryBTree_Ascend mt h s = visit h (mt_entries mt) s.
Proof. unfold MemoryBTree_Ascend. by rewrite bt_Ascend_spec, visit_items. Qed.

Lemma Descend_visit {S} mt (h : handle_fn S) s :
  MemoryBTree_Descend mt h s = visit h (reverse (mt_entries mt)) s.
Proof.
  unfold MemoryBTree_Descend. rewrite bt_Descend_spec, visit_items.
  unfold mt_entries. by rewrite fmap_reverse.
Qed.

Lemma AscendGreaterOrEqual_visit {S} mt k (h : handle_fn S) s :
  MemoryBTree_AscendGreaterOrEqual mt k h s
    = visit h (filter (fun e => ~ bytes_lt e.1 k) (mt_entries mt)) s.
Proof.
  unfold MemoryBTree_AscendGreaterOrEqual. rewrite bt_AscendGreaterOrEqual_spec by apply _.
  apply visit_filter. intros i. by rewrite item_less_false.
Qed.

Lemma DescendLessOrEqual_visit {S} mt k (h : handle_fn S) s :
  MemoryBTree_DescendLessOrEqual mt k h s
    = visit h (filter (fun e => ~ bytes_lt k e.1) (reverse (mt_entries mt))) s.
Proof.
  unfold MemoryBTree_DescendLessOrEqual. rewrite bt_DescendLessOrEqual_spec by apply _.
  unfold mt_entries. rewrite <- fmap_reverse. apply visit_filter.
  intros i. by rewrite item_less_false.
Qed.

Lemma AscendRange_visit {S} mt k1 k2 (h : handle_fn S) s :
  MemoryBTree_AscendRange mt k1 k2 h s
    = visit h (filter (fun e => ~ bytes_lt e.1 k1 /\ bytes_lt e.1 k2) (mt_entries mt)) s.
Proof.
  unfold MemoryBTree_AscendRange. rewrite bt_AscendRange_spec by apply _.
  apply visit_filter. intros i. by rewrite item_less_false, item_less_iff.
Qed.

Lemma DescendRange_visit {S} mt k1 k2 (h : handle_fn S) s :
  MemoryBTree_DescendRange mt k1 k2 h s
    = visit h (filter (fun e => ~ bytes_lt k1 e.1 /\ bytes_lt k2 e.1) (reverse (mt_entries mt))) s.
Proof.
  unfold MemoryBTree_DescendRange. rewrite bt_DescendRange_spec by apply _.
  unfold mt_entries. rewrite <- fmap_reverse. apply visit_filter.
  intros i. by rewrite item_less_false, item_less_iff.
Qed.
End index_spec.

Section iterator_spec.
Context {B : BTreeLib item item_less} {L : BTreeLaws B}.
Implicit Types (it : memoryBTreeIterator) (k : bytes) (rev : bool).

(** The items of a tree in the iterator's direction. *)
Definition iter_order (t : btree) (reverse_ : bool) : list item :=
  if reverse_ then reverse (bt_items t) else bt_items t.

(** An iterator over a tree with items [ord] that has still to show [todo]. *)
Inductive iter_at (ord : list item) (rev : bool) : memoryBTreeIterator -> list item -> Prop :=
| iter_at_valid t pre cur post :
    iter_order t rev = ord -> ord = pre ++ cur :: post ->
    iter_at ord rev (MkIter (Some t) rev (Some cur) true) (cur :: post)
| iter_at_end t cur :
    iter_order t rev = ord -> iter_at ord rev (MkIter (Some t) rev cur false) [].

Lemma iter_at_Valid ord rev it l : iter_at ord rev it l -> Iter_Valid it = bool_decide (l <> []).
Proof. by intros []. Qed.

Lemma iter_at_Key ord rev it i l : iter_at ord rev it (i :: l) -> Iter_Key it = Ret (it_key i).
Proof. by inversion 1. Qed.

Lemma iter_at_Value ord rev it i l : iter_at ord rev it (i :: l) -> Iter_Value it = Ret (it_pos i).
Proof. by inversion 1. Qed.

Lemma iter_order_sorted t rev :
  StronglySorted (fun x y => if rev then item_less y x = true else item_less x y = true)
    (iter_order t rev).
Proof.
  pose proof (bt_items_sorted t _) as H. unfold iter_order. destruct rev; [|done].
  induction H as [|i l _ IH Hi]; [constructor|]. rewrite reverse_cons, StronglySorted_app.
  split_and!; [|done|by repeat constructor].
  intros x y Hx ->%list_elem_of_singleton. rewrite elem_of_reverse in Hx.
  rewrite Forall_forall in Hi. exact (Hi _ Hx).
Qed.

Lemma bt_Len_order t rev : bt_Len t = len (iter_order t rev).
Proof.
  rewrite bt_Len_spec. unfold len, iter_order. destruct rev; [by rewrite length_reverse|done].
Qed.

Lemma bt_first_order t rev : (if rev then bt_Max t else bt_Min t) = head (iter_order t rev).
Proof.
  unfold iter_order. destruct rev; [rewrite bt_Max_spec|by rewrite bt_Min_spec].
  by rewrite head_reverse.
Qed.

Lemma newMemoryBTreeIterator_at t rev :
  exists it t', newMemoryBTreeIterator t rev = Ret (it, t') /\ bt_items t' = bt_items t
    /\ iter_at (iter_order t rev) rev it (iter_order t rev).
Proof.
  unfold newMemoryBTreeIterator. rewrite bt_first_order, (bt_Len_order t rev).
  destruct (bt_Clone_items t) as [C1 C2].
  assert (Eord : iter_order (bt_Clone t).2 rev = iter_order t rev)
    by (unfold iter_order; by rewrite C2).
  destruct (bt_Clone t) as [t' c]. simpl in *.
  destruct (iter_order t rev) as [|i l] eqn:E.
  - change (0 <? len []) with false. cbn. do 2 eexists. split_and!; [done|done|by constructor].
  - rewrite len_cons. pose proof (len_nonneg l). rewrite (proj2 (Z.ltb_lt _ _)) by lia.
    cbn. do 2 eexists. split_and!; [done|done|]. by apply (iter_at_valid _ _ _ []).
Qed.

Lemma Iter_Rewind_at ord rev it l :
  iter_at ord rev it l ->
  exists it', Iter_Rewind it = Ret it' /\ iter_at ord rev it' ord.
Proof.
  intros Hat. assert (exists t c v, it = MkIter (Some t) rev c v /\ iter_order t rev = ord
    /\ (ord = [] -> v = false)) as (t & c & v & -> & Eord & Hv).
  { destruct Hat as [t pre cur post E1 E2|t cur E1]; do 3 eexists; (split_and!; [done|done|]).
    - intros ->. by destruct pre.
    - done. }
  unfold Iter_Rewind. cbn [mi_tree mi_reverse].
  rewrite bt_first_order, (bt_Len_order t rev), Eord.
  destruct ord as [|i ord]; cbn.
  - rewrite Hv by done. eexists. split; [done|]. by constructor.
  - eexists. split; [done|]. by apply (iter_at_valid _ _ _ []).
Qed.

(** The search of [Next] among the items from the current one on. *)
Lemma iter_next_fn (rev : bool) cur post v :
  StronglySorted (fun x y => if rev then item_less y x = true else item_less x y = true) (cur :: post) ->
  iter_while (next_fn rev) (cur :: post) (cur, v)
    = match post with [] => (cur, v) | i :: _ => (i, true) end.
Proof.
  intros [_ Hpost]%StronglySorted_inv. simpl.
  assert (Hirr : item_less cur cur = false) by apply swo_irrefl.
  replace (if rev then item_less cur cur else item_less cur cur) with false by (by destruct rev).
  simpl. destruct post as [|i post]; [done|]. simpl.
  apply Forall_cons in Hpost as [Hi _]. destruct rev; by rewrite Hi.
Qed.

(** The items not before [k] in the iterator's direction. *)
Definition from_key (rev : bool) (k : bytes) (i : item) : Prop :=
  if rev then ~ bytes_lt k (it_key i) else ~ bytes_lt (it_key i) k.

#[export] Instance from_key_dec rev k i : Decision (from_key rev k i).
Proof. unfold from_key. destruct rev; apply _. Defined.

Lemma filter_from_split rev t pre cur post :
  iter_order t rev = pre ++ cur :: post ->
  filter (from_key rev (it_key cur)) (iter_order t rev) = cur :: post.
Proof.
  intros E. pose proof (iter_order_sorted t rev) as Hs. rewrite E in *.
  rewrite filter_app, (filter_none _ pre), (filter_all _ (cur :: post)); [done| |].
  - apply StronglySorted_app in Hs as (_ & _ & Hs).
    apply StronglySorted_inv in Hs as [_ Hs]. rewrite Forall_forall in Hs.
    unfold from_key. intros i [->|Hi]%elem_of_cons; [destruct rev; apply bytes_lt_irrefl|].
    specialize (Hs _ Hi). destruct rev; apply item_less_iff in Hs;
      intros Hlt; eapply bytes_lt_irrefl, bytes_lt_trans; eauto.
  - apply StronglySorted_app in Hs as (Hs & _ & _). unfold from_key. intros i Hi Hn.
    assert (Hc : cur ∈ cur :: post) by left. specialize (Hs i cur Hi Hc). destruct rev; by apply item_less_iff in Hs.
Qed.

Lemma bt_from_spec {S} t rev i (f : bool -> item -> S -> bool * S) s :
  (if rev then bt_DescendLessOrEqual t i (f true) s else bt_AscendGreaterOrEqual t i (f false) s)
    = iter_while (f rev) (filter (from_key rev (it_key i)) (iter_order t rev)) s.
Proof.
  destruct rev; [rewrite bt_DescendLessOrEqual_spec by apply _|
                 rewrite bt_AscendGreaterOrEqual_spec by apply _];
  f_equal; apply list_filter_iff; intros j; apply item_less_false.
Qed.

Lemma Iter_Next_at ord rev it i l :
  iter_at ord rev it (i :: l) ->
  exists it', Iter_Next it = Ret it' /\ iter_at ord rev it' l.
Proof.
  inversion 1 as [t pre cur post Eord Hsplit|]; subst.
  unfold Iter_Next. cbn [mi_tree mi_valid mi_current mi_reverse negb assert_item mbind outcome_bind].
  rewrite (bt_from_spec t rev i next_fn). rewrite (filter_from_split rev t pre i l Hsplit).
  rewrite iter_next_fn; cycle 1.
  { pose proof (iter_order_sorted t rev) as Hs. rewrite Hsplit in Hs.
    by apply StronglySorted_app in Hs as (_ & _ & Hs). }
  destruct l as [|j l]; (eexists; split; [done|]).
  - by constructor.
  - apply (iter_at_valid _ _ _ (pre ++ [i])); [done|]. by rewrite <- app_assoc.
Qed.

(** [Seek] on a valid iterator moves to the first item at or after the key, in
    either direction of movement; on an invalid one it does nothing. *)
Lemma Iter_Seek_at ord rev it i l k :
  iter_at ord rev it (i :: l) ->
  iter_at ord rev (Iter_Seek it k) (filter (from_key rev k) ord).
Proof.
  inversion 1 as [t pre cur post Eord Hsplit|]; subst.
  unfold Iter_Seek. cbn [mi_tree mi_valid mi_current mi_reverse negb].
  change k with (it_key (search_item k)) at 2.
  rewrite (bt_from_spec t rev (search_item k) (fun _ => seek_fn)).
  destruct (filter _ (iter_order t rev)) as [|j post] eqn:E; cbn [iter_while seek_fn].
  - by constructor.
  - assert (exists pre', iter_order t rev = pre' ++ j :: post) as [pre' ?]; [|by econstructor].
    pose proof (iter_order_sorted t rev) as Hs. clear Hsplit H.
    revert E Hs. generalize (iter_order t rev) as o. intros o.
    induction o as [|x o IH]; [done|]. rewrite filter_cons.
    intros E [Hs Hx]%StronglySorted_inv. case_decide as Hd.
    + simplify_eq. exists []. simpl. f_equal. symmetry. apply filter_all.
      rewrite Forall_forall in Hx. intros y Hy. specialize (Hx _ Hy).
      unfold from_key in *. simpl in *. destruct rev; apply item_less_iff in Hx;
        intros Hlt; apply Hd; eapply bytes_lt_trans; eauto.
    + destruct (IH E Hs) as [pre' ->]. by exists (x :: pre').
Qed.

Lemma Iter_Seek_invalid it k : mi_valid it = false -> Iter_Seek it k = it.
Proof. unfold Iter_Seek. intros ->. by destruct (mi_tree it). Qed.
End iterator_spec.

(** * What the index promises *)
Section index_props.
Context {B : BTreeLib item item_less} {L : BTreeLaws B}.
Implicit Types (mt : MemoryBTree) (k : bytes) (p : option ChunkPosition).

(** C29: The index is a map from keys to positions: a new one is empty; [Put]
    returns the position it replaces; [Delete] returns the position it removes
    and whether there was one; [Get] returns the position or nil; [Size] counts
    the keys. *)
Theorem index_is_a_map mt k p :
  mt_map NewIndexer = ∅ /\
  mt_map (MemoryBTree_Put mt k p).2 = <[k := p]> (mt_map mt) /\
  (MemoryBTree_Put mt k p).1 = mt_map mt !! k ≫= id /\
  mt_map (MemoryBTree_Delete mt k).2 = delete k (mt_map mt) /\
  (MemoryBTree_Delete mt k).1 = (mt_map mt !! k ≫= id, bool_decide (is_Some (mt_map mt !! k))) /\
  MemoryBTree_Get mt k = mt_map mt !! k ≫= id /\
  MemoryBTree_Size mt = Z.of_nat (size (mt_map mt)).
Proof.
  destruct (MemoryBTree_Put_map mt k p) as [H1 H2]. destruct (MemoryBTree_Delete_map mt k) as [H3 H4].
  split_and!; [apply newBTree_map|done|done|done|done|apply MemoryBTree_Get_map|apply MemoryBTree_Size_map].
Qed.

(** The loop of a client: read the item and go on while the iterator is valid. *)
Fixpoint iter_collect (fuel : nat) (it : memoryBTreeIterator) : outcome (list entry) :=
  match fuel with
  | O => Blocked
  | S fuel =>
      if Iter_Valid it then
        key ← Iter_Key it; value ← Iter_Value it; it ← Iter_Next it; rest ← iter_collect fuel it;
        Ret ((key, value) :: rest)
      else Ret []
  end.

Lemma iter_collect_at ord rev it l fuel :
  iter_at ord rev it l -> (length l < fuel)%nat -> iter_collect fuel it = Ret (entry_of <$> l).
Proof.
  revert it fuel. induction l as [|i l IH]; intros it [|fuel] Hat Hf; simpl in Hf; try lia; cbn [iter_collect];
    rewrite (iter_at_Valid _ _ _ _ Hat); [done|].
  rewrite bool_decide_eq_true_2 by done.
  rewrite (iter_at_Key _ _ _ _ _ Hat), (iter_at_Value _ _ _ _ _ Hat). cbn [mbind outcome_bind].
  destruct (Iter_Next_at _ _ _ _ _ Hat) as (it' & -> & Hat'). cbn [mbind outcome_bind].
  rewrite (IH it' fuel Hat') by lia. done.
Qed.

(** The entries in the order of an iterator, and those it has left after a seek. *)
Definition iter_entries mt (rev : bool) : list entry :=
  if rev then reverse (mt_entries mt) else mt_entries mt.
Definition entries_from (rev : bool) k (l : list entry) : list entry :=
  if rev then filter (fun e => ~ bytes_lt k e.1) l else filter (fun e => ~ bytes_lt e.1 k) l.

Lemma iter_entries_order mt rev : iter_entries mt rev = entry_of <$> iter_order (mt_tree mt) rev.
Proof. unfold iter_entries, iter_order, mt_entries. destruct rev; [by rewrite fmap_reverse|done]. Qed.

Lemma from_key_entries rev k (l : list item) :
  entry_of <$> filter (from_key rev k) l = entries_from rev k (entry_of <$> l).
Proof.
  unfold entries_from. destruct rev; rewrite filter_fmap_list; f_equal; by apply list_filter_iff.
Qed.

End index_props.

