(* ===== verification/Indexer.v ===== *)
(** * The interface of an index

    [index/index.go]: the operations the database asks of an index and of its
    iterator, as classes, with the B-tree of [Index.v] as the one implementation.
    The classes have no laws: the comments of the interface say less than the
    database relies on, and in two places something else than the B-tree does.  What
    the B-tree does is proved of it: of the index in [Index.v], and here of its
    iterator under any sequence of calls. *)
From S2P Require Import Prelude Config WalLib BTreeLib Index.
Open Scope Z_scope.

(** ** Operations *)
Class IndexIterator (T : Type) : Type := {
  Rewind : T -> outcome T;
  Seek : T -> bytes -> T;
  Next : T -> outcome T;
  Valid : T -> bool;
  Key : T -> outcome bytes;
  Value : T -> outcome (option ChunkPosition);
  Close : T -> outcome T;
}.

Class Indexer (T : Type) : Type := {
  index_iterator : Type;
  index_iterator_ops :: IndexIterator index_iterator;
  Put : T -> bytes -> option ChunkPosition -> option ChunkPosition * T;
  Get : T -> bytes -> option ChunkPosition;
  Delete : T -> bytes -> (option ChunkPosition * bool) * T;
  Size : T -> Z;
  Ascend : forall S, T -> handle_fn S -> S -> S;
  AscendRange : forall S, T -> bytes -> bytes -> handle_fn S -> S -> S;
  AscendGreaterOrEqual : forall S, T -> bytes -> handle_fn S -> S -> S;
  Descend : forall S, T -> handle_fn S -> S -> S;
  DescendRange : forall S, T -> bytes -> bytes -> handle_fn S -> S -> S;
  DescendLessOrEqual : forall S, T -> bytes -> handle_fn S -> S -> S;
  Index_Iterator : T -> bool -> outcome (index_iterator * T);
}.

(** ** The B-tree *)
Section btree.
Context {B : BTreeLib item item_less}.

#[export] Instance BTreeIterator : IndexIterator memoryBTreeIterator := {
  Rewind := Iter_Rewind;
  Seek := Iter_Seek;
  Next := Iter_Next;
  Valid := Iter_Valid;
  Key := Iter_Key;
  Value := Iter_Value;
  Close := Iter_Close;
}.

#[export] Instance BTreeIndexer : Indexer MemoryBTree := {
  index_iterator := memoryBTreeIterator;
  Put := MemoryBTree_Put;
  Get := MemoryBTree_Get;
  Delete := MemoryBTree_Delete;
  Size := MemoryBTree_Size;
  Ascend S := MemoryBTree_Ascend;
  AscendRange S := MemoryBTree_AscendRange;
  AscendGreaterOrEqual S := MemoryBTree_AscendGreaterOrEqual;
  Descend S := MemoryBTree_Descend;
  DescendRange S := MemoryBTree_DescendRange;
  DescendLessOrEqual S := MemoryBTree_DescendLessOrEqual;
  Index_Iterator := MemoryBTree_Iterator;
}.
End btree.

(** ** Moving an iterator *)

(** A client moves an iterator and looks at it: validity, key and value. *)
Inductive move : Type := MNext | MRewind | MSeek (k : bytes).

Abbreviation glimpse := (bool * bytes * option ChunkPosition)%type.

Section clients.
Context {T : Type} {I : IndexIterator T}.

Definition it_move (m : move) (it : T) : outcome T :=
  match m with MNext => Next it | MRewind => Rewind it | MSeek k => Ret (Seek it k) end.

Fixpoint it_moves (moves : list move) (it : T) : outcome T :=
  match moves with [] => Ret it | m :: moves => it ← it_move m it; it_moves moves it end.

Definition it_glimpse (it : T) : outcome glimpse := k ← Key it; p ← Value it; Ret (Valid it, k, p).

Lemma it_moves_app moves1 moves2 it it1 : it_moves moves1 it = Ret it1 -> it_moves (moves1 ++ moves2) it = it_moves moves2 it1.
Proof.
  revert it. induction moves1 as [|m moves1 IH]; intros it; cbn [it_moves app]; [by intros [= ->]|].
  destruct (it_move m it) as [it2| |]; cbn [mbind outcome_bind]; [apply IH|done..].
Qed.
End clients.

(** What is left to show after a move, of the entries [ord] in the iterator's
    direction and what was left before: [Next] drops the first, [Rewind] goes back
    to all of them from wherever it is, and [Seek] goes to the entries from a key
    on, ahead or behind, unless the iterator is at its end, where it stays. *)
Definition moved (ord : list entry) (rev : bool) (l : list entry) (m : move) : list entry :=
  match m with
  | MNext => tail l
  | MRewind => ord
  | MSeek k => match l with [] => [] | _ => entries_from rev k ord end
  end.

(** What is seen of an iterator that has [l] left. *)
Definition glimpse_of (l : list entry) : glimpse :=
  match l with [] => (false, [], None) | e :: _ => (true, e.1, e.2) end.

Section moves.
Context {B : BTreeLib item item_less} {L : BTreeLaws B}.
Implicit Types (it : memoryBTreeIterator) (items todo : list item).

Lemma glimpse_at items rev it todo : iter_at items rev it todo -> it_glimpse it = Ret (glimpse_of (entry_of <$> todo)).
Proof.
  intros H. unfold it_glimpse. cbn [Key Value Valid BTreeIterator]. rewrite (iter_at_Valid _ _ _ _ H). destruct todo as [|i todo].
  - inversion H; subst. reflexivity.
  - by rewrite (iter_at_Key _ _ _ _ _ H), (iter_at_Value _ _ _ _ _ H).
Qed.

Lemma moved_at items rev it todo m : iter_at items rev it todo ->
  exists it' todo', it_move m it = Ret it' /\ iter_at items rev it' todo' /\
    entry_of <$> todo' = moved (entry_of <$> items) rev (entry_of <$> todo) m.
Proof.
  intros H. destruct m as [| |k]; cbn [it_move Next Rewind Seek BTreeIterator moved].
  - destruct todo as [|i todo].
    + exists it, []. split; [|done]. by inversion H; subst.
    + destruct (Iter_Next_at _ _ _ _ _ H) as (it' & E & H'). by exists it', todo.
  - destruct (Iter_Rewind_at _ _ _ _ H) as (it' & E & H'). by exists it', items.
  - destruct todo as [|i todo].
    + exists it, []. split; [|done]. f_equal. apply Iter_Seek_invalid. exact (iter_at_Valid _ _ _ _ H).
    + exists (Iter_Seek it k), (filter (from_key rev k) items). split; [done|]. split; [by apply (Iter_Seek_at _ _ _ i todo)|].
      apply from_key_entries.
Qed.

Lemma moves_at items rev moves it todo : iter_at items rev it todo ->
  exists it' todo', it_moves moves it = Ret it' /\ iter_at items rev it' todo' /\
    entry_of <$> todo' = fold_left (moved (entry_of <$> items) rev) moves (entry_of <$> todo).
Proof.
  revert it todo. induction moves as [|m moves IH]; intros it todo H; [by exists it, todo|]. cbn [it_moves fold_left].
  destruct (moved_at items rev it todo m H) as (it1 & todo1 & -> & H1 & <-). cbn [mbind outcome_bind]. by apply IH.
Qed.

Lemma moved_length (ord : list entry) rev moves (l : list entry) : (length l <= length ord)%nat ->
  (length (fold_left (moved ord rev) moves l) <= length ord)%nat.
Proof.
  revert l. induction moves as [|m moves IH]; intros l H; [done|]. cbn [fold_left]. apply IH.
  destruct m as [| |k]; cbn [moved]; [|done|].
  - destruct l; simpl in *; lia.
  - destruct l; [done|]. unfold entries_from. destruct rev; etransitivity; try apply length_filter; done.
Qed.

(** C31: An iterator of the index shows every entry once, in the order of the keys
    or against it, and then is invalid; it does not change the index.  From
    wherever calls of [Next], [Rewind] and [Seek] have taken it, it shows the key
    and the position it is at and goes on with exactly the entries that follow:
    [Rewind] starts again from the first, and [Seek] on an iterator that is valid
    leaves the entries from the key on, the key included, whether they have been
    shown or not.  Closing it leaves it invalid. *)
Theorem iterator_enumerates mt rev moves fuel :
  (length (mt_entries mt) < fuel)%nat ->
  let left := fold_left (moved (iter_entries mt rev) rev) moves (iter_entries mt rev) in
  exists it mt' it', Index_Iterator mt rev = Ret (it, mt') /\ mt_entries mt' = mt_entries mt /\
    it_moves moves it = Ret it' /\ it_glimpse it' = Ret (glimpse_of left) /\
    iter_collect fuel it' = Ret left /\
    exists it2, Close it' = Ret it2 /\ Valid it2 = false.
Proof.
  intros Hf left. destruct (newMemoryBTreeIterator_at (mt_tree mt) rev) as (it & t' & E & Et & Hat).
  destruct (moves_at _ _ moves _ _ Hat) as (it' & todo & Em & Hat' & El). rewrite <- iter_entries_order in El. fold left in El.
  exists it, (MkMemoryBTree t'), it'. cbn [Index_Iterator BTreeIndexer]. unfold MemoryBTree_Iterator. rewrite E.
  split; [done|]. split; [unfold mt_entries; simpl; by rewrite Et|]. split; [exact Em|]. rewrite <- El.
  split; [exact (glimpse_at _ _ _ _ Hat')|]. split.
  - apply (iter_collect_at _ _ _ _ _ Hat'). rewrite <- (length_fmap entry_of todo), El.
    pose proof (moved_length (iter_entries mt rev) rev moves (iter_entries mt rev) (le_n _)) as Hl. fold left in Hl.
    assert (Hn : length (iter_entries mt rev) = length (mt_entries mt))
      by (unfold iter_entries; destruct rev; by rewrite ?length_reverse).
    lia.
  - cbn [Close Valid BTreeIterator]. inversion Hat'; subst; by eexists.
Qed.
End moves.

(** Two keys, downwards: past the first, back, to a key behind, on to the end, where
    seeking does not help but rewinding does. *)
Lemma iterator_enumerates_witness :
  let B := SortedBTree item_less in
  let mt := (MemoryBTree_Put (MemoryBTree_Put newBTree ($"b") None).2 ($"a") None).2 in
  let moves := [MNext; MRewind; MNext; MSeek ($"c"); MNext; MNext; MSeek ($"a"); MRewind; MNext] in
  exists it mt' it', Index_Iterator mt true = Ret (it, mt') /\
    mt_entries (L := SortedBTree_laws item_less) mt' = mt_entries (L := SortedBTree_laws item_less) mt /\
    it_moves moves it = Ret it' /\ it_glimpse it' = Ret (true, $"a", None) /\
    iter_collect 3 it' = Ret [($"a", None)] /\ exists it2, Close it' = Ret it2 /\ Valid it2 = false.
Proof.
  intros B mt moves. apply (iterator_enumerates (L := SortedBTree_laws item_less) mt true moves 3).
  vm_compute. lia.
Defined.
