(* ===== verification/Watch.v ===== *)
(** * Watching the database

    [watch.go]: the ring buffer that holds the events of committed batches, the
    watcher around it, and the goroutine that forwards events to the channel
    [DB.Watch] returns. *)
From S2P Require Import Prelude GoBinary.
From Stdlib Require Import ZArith Lia Strings.Byte.
From stdpp Require Import base list.
Open Scope Z_scope.

Inductive WatchActionType : Type := WatchActionPut | WatchActionDelete.

Record Event : Type := MkEvent {
  e_Action : WatchActionType;
  e_Key : bytes;
  e_Value : bytes;
  e_BatchId : Z;
}.

(** ** The ring buffer *)
Record eventQueue : Type := MkEventQueue {
  eq_Events : list (option Event);
  eq_Capacity : Z;    (* uint64 *)
  eq_Front : Z;       (* read point *)
  eq_Back : Z;        (* write point *)
}.

(** [a % b] on [uint64]: a zero divisor panics. *)
Definition go_umod (a b : Z) : outcome Z := if b =? 0 then Panic else Ret (u64 a mod b).

Definition eventQueue_push (eq : eventQueue) (e : Event) : outcome eventQueue :=
  if decide (0 <= eq_Back eq < len (eq_Events eq)) then
    back ← go_umod (eq_Back eq + 1) (eq_Capacity eq);
    Ret (MkEventQueue (<[Z.to_nat (eq_Back eq) := Some e]> (eq_Events eq))
           (eq_Capacity eq) (eq_Front eq) back)
  else Panic.

Definition eventQueue_isFull (eq : eventQueue) : outcome bool :=
  n ← go_umod (eq_Back eq + 1) (eq_Capacity eq); Ret (n =? eq_Front eq).

Definition eventQueue_isEmpty (eq : eventQueue) : bool := eq_Back eq =? eq_Front eq.

Definition eventQueue_frontTakeAStep (eq : eventQueue) : outcome eventQueue :=
  front ← go_umod (eq_Front eq + 1) (eq_Capacity eq);
  Ret (MkEventQueue (eq_Events eq) (eq_Capacity eq) front (eq_Back eq)).

Definition eventQueue_pop (eq : eventQueue) : outcome (option Event * eventQueue) :=
  match eq_Events eq !! Z.to_nat (eq_Front eq) with
  | Some e => eq' ← eventQueue_frontTakeAStep eq; Ret (e, eq')
  | None => Panic
  end.

(** ** The watcher *)
Record Watcher : Type := MkWatcher {
  w_queue : eventQueue;
  w_done : bool;      (* the channel [done] is closed *)
}.

Definition NewWatcher (capacity : Z) : Watcher :=
  MkWatcher (MkEventQueue (replicate (Z.to_nat capacity) None) capacity 0 0) false.

Definition Watcher_putEvent (w : Watcher) (e : Event) : outcome Watcher :=
  q ← eventQueue_push (w_queue w) e;
  full ← eventQueue_isFull q;
  q ← (if full : bool then eventQueue_frontTakeAStep q else Ret q);
  Ret (MkWatcher q (w_done w)).

Definition Watcher_getEvent (w : Watcher) : outcome (option Event * Watcher) :=
  if eventQueue_isEmpty (w_queue w) then Ret (None, w) else
  '(e, q) ← eventQueue_pop (w_queue w);
  Ret (e, MkWatcher q (w_done w)).

(** [close(w.done)]: closing a closed channel panics. *)
Definition Watcher_Close (w : Watcher) : outcome Watcher :=
  if w_done w then Panic else Ret (MkWatcher (w_queue w) true).

(** ** The forwarding goroutine

    The goroutine [sendEvent] runs beside the writers that put events, the
    consumer that receives them and [DB.Close]; [watch_step] is one atomic step
    of one of them, labelled with the events it puts.  A send on a closed
    channel panics. *)
Inductive sender : Type :=
| Polling                  (* at the top of the loop *)
| Sending (e : Event)      (* has an event, at the inner select *)
| Stopped
| Crashed.

Record watch_state : Type := MkWatchState {
  ws_watcher : Watcher;
  ws_sender : sender;
  ws_chan : list Event;
  ws_chan_closed : bool;
  ws_received : list Event;
}.

Definition watch_chan_cap : nat := 100.

Inductive watch_step : list Event -> watch_state -> watch_state -> Prop :=
| step_put w w' s c cl r e :
    Watcher_putEvent w e = Ret w' ->
    watch_step [e] (MkWatchState w s c cl r) (MkWatchState w' s c cl r)
| step_done w c cl r :
    w_done w = true ->
    watch_step [] (MkWatchState w Polling c cl r) (MkWatchState w Stopped c cl r)
| step_idle w w' c cl r :
    w_done w = false -> Watcher_getEvent w = Ret (None, w') ->
    watch_step [] (MkWatchState w Polling c cl r) (MkWatchState w' Polling c cl r)
| step_take w w' c cl r e :
    w_done w = false -> Watcher_getEvent w = Ret (Some e, w') ->
    watch_step [] (MkWatchState w Polling c cl r) (MkWatchState w' (Sending e) c cl r)
| step_send w c r e :
    (length c < watch_chan_cap)%nat ->
    watch_step [] (MkWatchState w (Sending e) c false r) (MkWatchState w Polling (c ++ [e]) false r)
| step_send_closed w c r e :
    watch_step [] (MkWatchState w (Sending e) c true r) (MkWatchState w Crashed c true r)
| step_abandon w c cl r e :
    w_done w = true ->
    watch_step [] (MkWatchState w (Sending e) c cl r) (MkWatchState w Stopped c cl r)
| step_receive w s c cl r e :
    watch_step [] (MkWatchState w s (e :: c) cl r) (MkWatchState w s c cl (r ++ [e]))
| step_close_watcher w w' s c cl r :
    Watcher_Close w = Ret w' ->
    watch_step [] (MkWatchState w s c cl r) (MkWatchState w' s c cl r)
| step_close_chan w s c r :
    w_done w = true ->
    watch_step [] (MkWatchState w s c false r) (MkWatchState w s c true r).

(** The states a watcher of some capacity reaches, with the events put so far. *)
Definition watch_init (capacity : Z) : watch_state :=
  MkWatchState (NewWatcher capacity) Polling [] false [].

Inductive watch_reach (capacity : Z) : list Event -> watch_state -> Prop :=
| reach_init : watch_reach capacity [] (watch_init capacity)
| reach_step puts es st st' :
    watch_reach capacity puts st -> watch_step es st st' -> watch_reach capacity (puts ++ es) st'.

(** * Correctness *)

(** The ring holds the list [l], oldest event first.  One slot separates a full
    ring from an empty one and [putEvent] gives up a second one, so a ring of
    capacity [c] holds at most [c - 2] events. *)
Record queue_holds (eq : eventQueue) (l : list Event) : Prop := {
  qh_cap : 2 <= eq_Capacity eq < 2 ^ 64;
  qh_events : len (eq_Events eq) = eq_Capacity eq;
  qh_front : 0 <= eq_Front eq < eq_Capacity eq;
  qh_len : len l <= eq_Capacity eq - 1;
  qh_back : eq_Back eq = (eq_Front eq + len l) mod eq_Capacity eq;
  qh_slots : forall i e, l !! i = Some e ->
    eq_Events eq !! Z.to_nat ((eq_Front eq + Z.of_nat i) mod eq_Capacity eq) = Some (Some e);
}.

(** The last [n] elements of a list. *)
Definition lastn {A} (n : nat) (l : list A) : list A := drop (length l - n) l.

Lemma lastn_all {A} n (l : list A) : (length l <= n)%nat -> lastn n l = l.
Proof. intros. unfold lastn. by replace (length l - n)%nat with 0%nat by lia. Qed.

(** Moving inside the ring. *)
Lemma ring_next a c : 0 < c -> ((a mod c) + 1) mod c = (a + 1) mod c.
Proof. intros. by rewrite Z.add_mod_idemp_l by lia. Qed.

Lemma ring_mod a c : 0 <= a < 2 * c -> a mod c = if a <? c then a else a - c.
Proof.
  intros Ha. destruct (Z.ltb_spec a c); [apply Z.mod_small; lia|].
  symmetry. apply (Z.mod_unique a c 1); lia.
Qed.

(** The position at offset [o] from [f], by cases on the wrap. *)
Ltac ring_cases :=
  repeat match goal with
  | |- context [(?a mod ?c)] => rewrite (ring_mod a c) by lia
  | H : context [(?a mod ?c)] |- _ => rewrite (ring_mod a c) in H by lia
  end;
  repeat match goal with
  | |- context [?a <? ?b] => destruct (Z.ltb_spec a b)
  | H : context [?a <? ?b] |- _ => destruct (Z.ltb_spec a b)
  end.

(** Distinct offsets below the capacity are distinct slots. *)
Lemma ring_slot_inj f i j c :
  0 <= f < c -> 0 <= i < c -> 0 <= j < c -> (f + i) mod c = (f + j) mod c -> i = j.
Proof. intros Hf Hi Hj E. ring_cases; lia. Qed.

Lemma queue_holds_isEmpty eq l :
  queue_holds eq l -> eventQueue_isEmpty eq = bool_decide (l = []).
Proof.
  intros [Hc He Hf Hl Hb _]. unfold eventQueue_isEmpty. rewrite Hb.
  destruct l as [|e l].
  - rewrite bool_decide_eq_true_2 by done. apply Z.eqb_eq. rewrite len_nil. ring_cases; lia.
  - rewrite bool_decide_eq_false_2 by done. apply Z.eqb_neq. rewrite len_cons in *.
    pose proof (len_nonneg l). ring_cases; lia.
Qed.

Lemma queue_holds_push eq l e :
  queue_holds eq l -> len l <= eq_Capacity eq - 2 ->
  exists eq', eventQueue_push eq e = Ret eq' /\ queue_holds eq' (l ++ [e])
    /\ eq_Capacity eq' = eq_Capacity eq.
Proof.
  intros [Hc He Hf Hl Hb Hs] Hroom. pose proof (len_nonneg l).
  assert (Hbr : 0 <= eq_Back eq < eq_Capacity eq) by (rewrite Hb; lia).
  unfold eventQueue_push, go_umod. rewrite decide_True by lia.
  rewrite (proj2 (Z.eqb_neq _ _)) by lia. rewrite u64_small by lia. cbn [mbind outcome_bind].
  eexists. split; [done|]. split; [|done]. split; cbn [eq_Events eq_Capacity eq_Front eq_Back]; try done.
  - unfold len in *. by rewrite length_insert.
  - autorewrite with golen. lia.
  - autorewrite with golen. rewrite Hb, ring_next by lia. f_equal. lia.
  - intros i x Hx. pose proof (lookup_lt_Some _ _ _ Hx) as Hi. rewrite length_app in Hi. simpl in Hi.
    unfold len in *. destruct (decide (i = length l)) as [->|Hne].
    + rewrite lookup_app_r, Nat.sub_diag in Hx by lia. simplify_eq/=.
      rewrite <- Hb. rewrite list_lookup_insert_eq by lia. done.
    + rewrite lookup_app_l in Hx by lia. rewrite list_lookup_insert_ne; [by apply Hs|].
      rewrite Hb. intros E. apply Z2Nat.inj in E; [|lia..].
      apply ring_slot_inj in E; lia.
Qed.

Lemma queue_holds_step eq e l :
  queue_holds eq (e :: l) ->
  exists eq', eventQueue_frontTakeAStep eq = Ret eq' /\ queue_holds eq' l
    /\ eq_Capacity eq' = eq_Capacity eq.
Proof.
  intros [Hc He Hf Hl Hb Hs]. rewrite len_cons in *. pose proof (len_nonneg l).
  unfold eventQueue_frontTakeAStep, go_umod. rewrite (proj2 (Z.eqb_neq _ _)) by lia.
  rewrite u64_small by lia. cbn [mbind outcome_bind].
  eexists. split; [done|]. split; [|done]. split; cbn [eq_Events eq_Capacity eq_Front eq_Back]; try done; try lia.
  - rewrite Hb. rewrite Z.add_mod_idemp_l by lia. f_equal. lia.
  - intros i x Hx. rewrite Z.add_mod_idemp_l by lia.
    replace (eq_Front eq + 1 + Z.of_nat i) with (eq_Front eq + Z.of_nat (S i)) by lia. by apply Hs.
Qed.

Lemma queue_holds_pop eq e l :
  queue_holds eq (e :: l) ->
  exists eq', eventQueue_pop eq = Ret (Some e, eq') /\ queue_holds eq' l
    /\ eq_Capacity eq' = eq_Capacity eq.
Proof.
  intros Hq. destruct (queue_holds_step eq e l Hq) as (eq' & E & Hq').
  destruct Hq as [Hc He Hf Hl Hb Hs]. specialize (Hs 0%nat e eq_refl).
  rewrite Z.add_0_r, Z.mod_small in Hs by lia.
  unfold eventQueue_pop. rewrite Hs, E. cbn. eauto.
Qed.

Lemma queue_holds_isFull eq l :
  queue_holds eq l -> eventQueue_isFull eq = Ret (bool_decide (len l = eq_Capacity eq - 1)).
Proof.
  intros [Hc He Hf Hl Hb _]. pose proof (len_nonneg l).
  assert (Hbr : 0 <= eq_Back eq < eq_Capacity eq) by (rewrite Hb; lia).
  unfold eventQueue_isFull, go_umod. rewrite (proj2 (Z.eqb_neq _ _)) by lia.
  rewrite u64_small by lia. cbn. f_equal. rewrite Hb, ring_next by lia.
  case_bool_decide; [apply Z.eqb_eq|apply Z.eqb_neq].
  - replace (eq_Front eq + len l + 1) with (eq_Front eq + 1 * eq_Capacity eq) by lia.
    rewrite Z.mod_add, Z.mod_small by lia. done.
  - ring_cases; lia.
Qed.

Lemma NewWatcher_holds capacity :
  2 <= capacity < 2 ^ 64 -> queue_holds (w_queue (NewWatcher capacity)) [].
Proof.
  intros Hc. split; cbn [NewWatcher w_queue eq_Events eq_Capacity eq_Front eq_Back]; try done;
    try (rewrite len_nil, Z.add_0_r, Z.mod_0_l by lia; done).
  - unfold len. rewrite length_replicate. lia.
  - lia.
  - rewrite len_nil. lia.
Qed.

Lemma putEvent_holds w l e :
  queue_holds (w_queue w) l -> len l <= eq_Capacity (w_queue w) - 2 ->
  exists w', Watcher_putEvent w e = Ret w' /\ w_done w' = w_done w
    /\ eq_Capacity (w_queue w') = eq_Capacity (w_queue w)
    /\ queue_holds (w_queue w') (lastn (Z.to_nat (eq_Capacity (w_queue w) - 2)) (l ++ [e])).
Proof.
  intros Hq Hl. destruct (queue_holds_push _ _ e Hq Hl) as (q & E & Hq' & Hcap).
  unfold Watcher_putEvent. rewrite E. cbn [mbind outcome_bind].
  rewrite (queue_holds_isFull _ _ Hq'). cbn [mbind outcome_bind]. rewrite Hcap.
  pose proof (qh_cap _ _ Hq) as Hc. autorewrite with golen.
  case_bool_decide as Hfull.
  - destruct (l ++ [e]) as [|x k] eqn:Ek; [by destruct l|].
    destruct (queue_holds_step _ _ _ Hq') as (q' & E' & Hq'' & Hcap').
    rewrite E'. cbn. eexists. split_and!; [done|done|cbn; congruence|]. cbn.
    assert (El : len (x :: k) = len l + 1) by (rewrite <- Ek; autorewrite with golen; lia).
    unfold lastn. replace (length (x :: k) - _)%nat with 1%nat by (unfold len in *; lia). done.
  - cbn. eexists. split_and!; [done|done|done|]. cbn. rewrite lastn_all; [done|].
    rewrite length_app. unfold len in *. simpl. lia.
Qed.

Lemma getEvent_holds w l :
  queue_holds (w_queue w) l ->
  exists w', Watcher_getEvent w = Ret (head l, w') /\ w_done w' = w_done w
    /\ eq_Capacity (w_queue w') = eq_Capacity (w_queue w) /\ queue_holds (w_queue w') (tail l).
Proof.
  intros Hq. unfold Watcher_getEvent. rewrite (queue_holds_isEmpty _ _ Hq).
  destruct l as [|e l]; cbn; [eauto|].
  destruct (queue_holds_pop _ _ _ Hq) as (q & E & Hq' & Hcap). rewrite E. cbn. eauto.
Qed.

(** A watcher of any positive capacity always accepts an event. *)
Record watcher_wf (w : Watcher) : Prop := {
  ww_cap : 0 < eq_Capacity (w_queue w) < 2 ^ 64;
  ww_events : len (eq_Events (w_queue w)) = eq_Capacity (w_queue w);
  ww_front : 0 <= eq_Front (w_queue w) < eq_Capacity (w_queue w);
  ww_back : 0 <= eq_Back (w_queue w) < eq_Capacity (w_queue w);
}.

Lemma NewWatcher_wf capacity : 0 < capacity < 2 ^ 64 -> watcher_wf (NewWatcher capacity).
Proof.
  intros. split; cbn [NewWatcher w_queue eq_Events eq_Capacity eq_Front eq_Back]; try lia.
  unfold len. rewrite length_replicate. lia.
Qed.

Lemma u64_mod_range a c : 0 < c -> 0 <= u64 a mod c < c.
Proof. intros. apply Z.mod_pos_bound. lia. Qed.

Lemma putEvent_wf w e : watcher_wf w -> exists w', Watcher_putEvent w e = Ret w' /\ watcher_wf w'.
Proof.
  intros [Hc He Hf Hb]. unfold Watcher_putEvent, eventQueue_push, eventQueue_isFull,
    eventQueue_frontTakeAStep, go_umod.
  rewrite decide_True by lia. rewrite !(proj2 (Z.eqb_neq _ _)) by lia.
  cbn [mbind outcome_bind eq_Events eq_Capacity eq_Front eq_Back].
  rewrite !(proj2 (Z.eqb_neq _ _)) by lia. cbn [mbind outcome_bind].
  match goal with |- context [if ?b then _ else _] => destruct b end;
    cbn [mbind outcome_bind eq_Events eq_Capacity eq_Front eq_Back];
    rewrite ?(proj2 (Z.eqb_neq _ _)) by lia; cbn [mbind outcome_bind]; eexists;
    (split; [done|]); split; cbn [w_queue eq_Events eq_Capacity eq_Front eq_Back];
    unfold len in *; rewrite ?length_insert; try lia; apply u64_mod_range; lia.
Qed.

(** A history of the watcher. *)
Inductive watch_op : Type := OpPut (e : Event) | OpGet.

(** Run a history, collecting what [getEvent] returns. *)
Fixpoint watcher_run (w : Watcher) (ops : list watch_op) : outcome (Watcher * list (option Event)) :=
  match ops with
  | [] => Ret (w, [])
  | OpPut e :: ops => w ← Watcher_putEvent w e; watcher_run w ops
  | OpGet :: ops =>
      '(r, w) ← Watcher_getEvent w; '(w, rs) ← watcher_run w ops; Ret (w, r :: rs)
  end.

(** The specification: a queue of the last [n] events not yet taken. *)
Fixpoint spec_run (n : nat) (l : list Event) (ops : list watch_op) : list (option Event) :=
  match ops with
  | [] => []
  | OpPut e :: ops => spec_run n (lastn n (l ++ [e])) ops
  | OpGet :: ops => head l :: spec_run n (tail l) ops
  end.

Lemma lastn_length {A} n (l : list A) : (length (lastn n l) <= n)%nat.
Proof. unfold lastn. rewrite length_drop. lia. Qed.

Lemma watcher_run_spec w l ops :
  queue_holds (w_queue w) l -> len l <= eq_Capacity (w_queue w) - 2 ->
  exists w', watcher_run w ops
    = Ret (w', spec_run (Z.to_nat (eq_Capacity (w_queue w) - 2)) l ops).
Proof.
  revert w l. induction ops as [|[e|] ops IH]; intros w l Hq Hl; [by eexists| |]; simpl.
  - destruct (putEvent_holds w l e Hq Hl) as (w' & E & _ & Hcap & Hq'). rewrite E. cbn.
    rewrite <- Hcap in *. apply IH; [done|].
    pose proof (lastn_length (Z.to_nat (eq_Capacity (w_queue w') - 2)) (l ++ [e])).
    pose proof (qh_cap _ _ Hq'). unfold len. lia.
  - destruct (getEvent_holds w l Hq) as (w' & E & _ & Hcap & Hq'). rewrite E. cbn.
    rewrite <- Hcap in *. destruct (IH w' (tail l) Hq') as (w'' & E'').
    { destruct l; [done|]. rewrite len_cons in Hl. simpl. lia. }
    rewrite E''. cbn. eauto.
Qed.

(** ** The forwarding goroutine *)

(** The event the goroutine has taken and not yet sent. *)
Definition in_hand (s : sender) : list Event := match s with Sending e => [e] | _ => [] end.

(** The events on their way, in the order they will be received. *)
Definition in_flight (st : watch_state) : list Event :=
  ws_received st ++ ws_chan st ++ in_hand (ws_sender st).

Lemma lastn_sublist {A} n (l : list A) : sublist (lastn n l) l.
Proof. apply sublist_drop. Qed.

Lemma watch_reach_order capacity puts st :
  2 <= capacity < 2 ^ 64 -> watch_reach capacity puts st ->
  exists l, queue_holds (w_queue (ws_watcher st)) l /\ len l <= capacity - 2 /\
    eq_Capacity (w_queue (ws_watcher st)) = capacity /\ sublist (in_flight st ++ l) puts.
Proof.
  intros Hcap. induction 1 as [|puts es st st' _ (l & Hq & Hl & Ec & Hs) Hstep].
  - exists []. split_and!; [by apply NewWatcher_holds|rewrite len_nil; lia|done|done].
  - destruct Hstep as [w w' s c cl r e E|w c cl r E|w w' c cl r E E'|w w' c cl r e E E'
      |w c r e E|w c r e|w c cl r e E|w s c cl r e|w w' s c cl r E|w s c r E];
      unfold in_flight in *; simpl in *; rewrite ?app_nil_r in *.
    + destruct (putEvent_holds w l e Hq ltac:(lia)) as (w1 & E1 & _ & Ec' & Hq').
      rewrite E in E1. simplify_eq. exists (lastn (Z.to_nat (eq_Capacity (w_queue w) - 2)) (l ++ [e])).
      pose proof (lastn_length (Z.to_nat (eq_Capacity (w_queue w) - 2)) (l ++ [e])).
      split_and!; [done|unfold len; lia|done|].
      etrans; [apply sublist_app; [reflexivity|apply lastn_sublist]|].
      rewrite app_assoc. by apply sublist_app.
    + by exists l.
    + destruct (getEvent_holds w l Hq) as (w1 & E1 & _ & Ec' & Hq'). rewrite E' in E1. simplify_eq.
      exists (tail l). destruct l; [|done]. by split_and!.
    + destruct (getEvent_holds w l Hq) as (w1 & E1 & _ & Ec' & Hq'). rewrite E' in E1. simplify_eq.
      destruct l as [|x l]; [done|]. simplify_eq/=. exists l. rewrite len_cons in Hl.
      split_and!; [done|lia|congruence|]. by rewrite <- !app_assoc in *.
    + exists l. split_and!; try done; by rewrite <- ?app_assoc in *.
    + exists l. split_and!; try done. etrans; [|exact Hs]. rewrite <- ?app_assoc.
      apply sublist_app; [done|]. apply sublist_app; [done|]. by apply sublist_cons.
    + exists l. split_and!; try done. etrans; [|exact Hs]. rewrite <- ?app_assoc.
      apply sublist_app; [done|]. apply sublist_app; [done|]. by apply sublist_cons.
    + exists l. split_and!; try done. rewrite <- (app_assoc r [e]). exact Hs.
    + unfold Watcher_Close in E. destruct (w_done w); simplify_eq. by exists l.
    + by exists l.
Qed.

(** * Properties *)

(** C26: a watcher of capacity [c] behaves, over any history of puts and gets,
    as a queue of the last [c - 2] events not yet taken: nothing panics, events
    come out in the order they went in, and an overflow drops the oldest. *)
Theorem watcher_keeps_last capacity ops :
  2 <= capacity < 2 ^ 64 ->
  exists w, watcher_run (NewWatcher capacity) ops
    = Ret (w, spec_run (Z.to_nat (capacity - 2)) [] ops).
Proof.
  intros Hc. apply (watcher_run_spec (NewWatcher capacity) []).
  - by apply NewWatcher_holds.
  - rewrite len_nil. simpl. lia.
Qed.

Definition put_event (k v : bytes) : Event := MkEvent WatchActionPut k v 7.

Lemma watcher_keeps_last_witness :
  2 <= 4 < 2 ^ 64 /\
  exists w, watcher_run (NewWatcher 4)
      [OpPut (put_event ($"a") ($"1")); OpPut (put_event ($"b") ($"2"));
       OpPut (put_event ($"c") ($"3")); OpGet; OpGet; OpGet]
    = Ret (w, [Some (put_event ($"b") ($"2")); Some (put_event ($"c") ($"3")); None]).
Proof. split; [lia|]. apply (watcher_keeps_last 4). lia. Defined.

(** C27: every event the consumer receives was put, at most once and in the order
    of the puts, whatever the interleaving of writers, forwarder, consumer and
    closing: what has been received, what is in the channel and what the
    forwarder holds are a subsequence of the puts. *)
Theorem watch_delivery_order capacity puts st :
  2 <= capacity < 2 ^ 64 -> watch_reach capacity puts st -> sublist (in_flight st) puts.
Proof.
  intros Hc Hr. destruct (watch_reach_order capacity puts st Hc Hr) as (l & _ & _ & _ & Hs).
  etrans; [|exact Hs]. by apply sublist_inserts_r.
Qed.

(** A run of four steps: put, take, send, receive. *)
Definition one_event : Event := put_event ($"k") ($"v").

(** Extend a run by one step, given as a constructor of [watch_step]. *)
Ltac run_step H step :=
  let H' := fresh "R" in
  eassert (H' : watch_reach 3 _ _) by
    (eapply reach_step; [exact H|eapply step; solve [vm_compute; reflexivity|simpl; unfold watch_chan_cap; lia]]);
  clear H; rename H' into H.

Lemma one_event_run :
  exists st, watch_reach 3 [one_event] st /\ ws_received st = [one_event].
Proof.
  pose proof (reach_init 3) as H. unfold watch_init in H.
  run_step H step_put. run_step H step_take. run_step H step_send.
  eapply reach_step in H; [|apply step_receive]. eexists. split; [exact H|reflexivity].
Qed.

Lemma watch_delivery_order_witness :
  2 <= 3 < 2 ^ 64 /\ exists st, watch_reach 3 [one_event] st /\ ws_received st = [one_event]
    /\ sublist (in_flight st) [one_event].
Proof.
  split; [lia|]. destruct one_event_run as (st & Hr & E). exists st. split; [exact Hr|].
  split; [exact E|]. apply (watch_delivery_order 3); [lia|exact Hr].
Defined.

(** A watcher of capacity one stays empty. *)
Lemma watcher_run_one w ops :
  len (eq_Events (w_queue w)) = 1 -> eq_Capacity (w_queue w) = 1 ->
  eq_Front (w_queue w) = 0 -> eq_Back (w_queue w) = 0 ->
  exists w', watcher_run w ops = Ret (w', spec_run 0 [] ops).
Proof.
  revert w. induction ops as [|[e|] ops IH]; intros [[ev c f b] d] He Hc Hf Hb;
    simpl in *; subst; [by eexists| |].
  - unfold Watcher_putEvent, eventQueue_push. simpl. rewrite decide_True by lia. cbn.
    apply IH; simpl; try done. unfold len in *. by rewrite length_insert.
  - unfold Watcher_getEvent. cbn.
    destruct (IH (MkWatcher (MkEventQueue ev 1 0 0) d)) as (w' & E); try done.
    rewrite E. cbn. eauto.
Qed.

Lemma spec_run_zero ops : Forall (fun r => r = None) (spec_run 0 [] ops).
Proof.
  induction ops as [|[e|] ops IH]; simpl; [constructor| |by constructor]. exact IH.
Qed.

(** With a queue size of one or two, which enables the watch, no event is
    ever delivered: [getEvent] returns nil after any history. *)
Theorem small_queue_delivers_nothing capacity ops :
  1 <= capacity <= 2 ->
  exists w rs, watcher_run (NewWatcher capacity) ops = Ret (w, rs) /\ Forall (fun r => r = None) rs.
Proof.
  intros Hc. assert (exists w, watcher_run (NewWatcher capacity) ops = Ret (w, spec_run 0 [] ops))
    as [w E]; [|eauto using spec_run_zero].
  destruct (decide (capacity = 1)) as [->|]; [by apply watcher_run_one|].
  replace capacity with 2 by lia.
  apply (watcher_run_spec (NewWatcher 2) []); [by apply NewWatcher_holds|done].
Qed.

Lemma small_queue_delivers_nothing_witness :
  1 <= 2 <= 2 /\ exists w rs,
    watcher_run (NewWatcher 2) [OpPut one_event; OpGet; OpPut one_event; OpPut one_event; OpGet]
      = Ret (w, rs) /\ Forall (fun r => r = None) rs.
Proof. split; [lia|]. apply (small_queue_delivers_nothing 2). lia. Defined.

(** C28: closing the database can crash the forwarder: [DB.Close] closes [done]
    and then the channel, and a forwarder that has just taken an event may then
    choose the send, which panics on a closed channel. *)
Theorem close_can_crash_sender :
  exists st, watch_reach 3 [one_event] st /\ ws_sender st = Crashed.
Proof.
  pose proof (reach_init 3) as H. unfold watch_init in H.
  run_step H step_put. run_step H step_take. run_step H step_close_watcher.
  run_step H step_close_chan. eapply reach_step in H; [|apply step_send_closed].
  eexists. split; [exact H|reflexivity].
Qed.
