(* ===== verification/Ring.v ===== *)
(** * Consistent hashing

    [sharding/consistent_hash.go]: the ring of virtual nodes that maps a key to
    the node that stores it, with the parts of Go's library it calls:
    [hash/crc32], [sort.Ints], [sort.SearchInts] and [fmt.Sprintf]. *)
From S2P Require Import Prelude GoBinary.
From stdpp Require Import pretty sorting.
From Stdlib Require Import Sorted.
Open Scope Z_scope.

(** ** [crc32.ChecksumIEEE] *)
Definition crc32_bit (c : Z) : Z :=
  if Z.testbit c 0 then Z.lxor (Z.shiftr c 1) 3988292384 else Z.shiftr c 1.

Definition crc32_byte (c : Z) (b : byte) : Z :=
  Nat.iter 8 crc32_bit (Z.lxor c (byte_val b)).

Definition crc32_ChecksumIEEE (data : bytes) : Z :=
  Z.lxor (fold_left crc32_byte data 4294967295) 4294967295.

Example crc32_check : crc32_ChecksumIEEE ($"123456789") = 3421780262.
Proof. vm_compute. reflexivity. Qed.

(** ** [sort.SearchInts]: the binary search of [sort.Search] *)
Fixpoint Search_loop (fuel : nat) (f : nat -> bool) (i j : nat) : nat :=
  match fuel with
  | O => i
  | S fuel =>
      if decide (i < j)%nat then
        let h := ((i + j) / 2)%nat in
        if negb (f h) then Search_loop fuel f (h + 1) j else Search_loop fuel f i h
      else i
  end.

Definition SearchInts (a : list Z) (x : Z) : nat :=
  Search_loop (S (length a)) (fun i => match a !! i with Some v => x <=? v | None => false end)
    0 (length a).

(** ** The ring *)
Abbreviation HashFunc := (bytes -> Z).

Record ConsistentHashRing : Type := MkRing {
  r_hashFunc : HashFunc;
  r_replicas : Z;
  r_keys : list Z;
  r_hashMap : gmap Z bytes;
}.

(** [New(replicas, fn)]; a nil function selects the CRC. *)
Definition New (replicas : Z) (fn : option HashFunc) : ConsistentHashRing :=
  MkRing (default crc32_ChecksumIEEE fn) replicas [] ∅.

(** [fmt.Sprintf("%d%s", i, node)] *)
Definition virtualNodeName (i : Z) (node : bytes) : bytes :=
  String.list_byte_of_string (pretty i) ++ node.

(** The loop indices [0, ..., replicas - 1]. *)
Definition replica_ids (r : ConsistentHashRing) : list Z :=
  Z.of_nat <$> seq 0 (Z.to_nat (r_replicas r)).

Definition AddNode_virtual (node : bytes) (r : ConsistentHashRing) (i : Z) : ConsistentHashRing :=
  let hash := r_hashFunc r (virtualNodeName i node) in
  MkRing (r_hashFunc r) (r_replicas r) (r_keys r ++ [hash]) (<[hash := node]> (r_hashMap r)).

Definition AddNode (r : ConsistentHashRing) (nodes : list bytes) : ConsistentHashRing :=
  let r := fold_left (fun r node => fold_left (AddNode_virtual node) (replica_ids r) r) nodes r in
  MkRing (r_hashFunc r) (r_replicas r) (merge_sort Z.le (r_keys r)) (r_hashMap r).

Definition RemoveNode_virtual (node : bytes) (r : ConsistentHashRing) (i : Z) : ConsistentHashRing :=
  let hash := r_hashFunc r (virtualNodeName i node) in
  let idx := SearchInts (r_keys r) hash in
  let keys := if decide (r_keys r !! idx = Some hash)
              then take idx (r_keys r) ++ drop (S idx) (r_keys r) else r_keys r in
  MkRing (r_hashFunc r) (r_replicas r) keys (delete hash (r_hashMap r)).

Definition RemoveNode (r : ConsistentHashRing) (node : bytes) : ConsistentHashRing :=
  fold_left (RemoveNode_virtual node) (replica_ids r) r.

Definition IsEmpty (r : ConsistentHashRing) : bool := Nat.eqb (length (r_keys r)) 0.

Definition GetNode (r : ConsistentHashRing) (key : bytes) : bytes :=
  if IsEmpty r then [] else
  let hash := r_hashFunc r key in
  let idx := SearchInts (r_keys r) hash in
  let idx := if Nat.eqb idx (length (r_keys r)) then 0%nat else idx in
  default [] (r_hashMap r !! default 0 (r_keys r !! idx)).

(** * Binary search *)

Lemma Search_loop_spec fuel f i j :
  (i <= j)%nat -> (j - i < fuel)%nat ->
  (forall h h', (h <= h')%nat -> f h = true -> (h' < j)%nat -> f h' = true) ->
  let n := Search_loop fuel f i j in
  (i <= n <= j)%nat /\
  (forall h, (i <= h < n)%nat -> f h = false) /\ (n < j -> f n = true)%nat.
Proof.
  revert i j. induction fuel as [|fuel IH]; intros i j Hij Hf Hmono; [lia|]. cbn [Search_loop].
  case_decide as Hlt; [|simpl; repeat split; intros; lia].
  assert (Hh : (i <= (i + j) / 2 < j)%nat) by
    (pose proof (Nat.div_mod_eq (i + j) 2); pose proof (Nat.mod_upper_bound (i + j) 2); lia).
  set (h := ((i + j) / 2)%nat) in *. destruct (f h) eqn:Fh; simpl.
  - destruct (IH i h) as (B & Lo & Hi); [lia|lia|eauto with lia|].
    split; [lia|]. split; [done|]. intros Hn.
    destruct (decide (Search_loop fuel f i h < h)%nat); [auto|].
    by replace (Search_loop fuel f i h) with h by lia.
  - destruct (IH (h + 1)%nat j) as (B & Lo & Hi); [lia|lia|done|].
    split; [lia|]. split; [|done]. intros k Hk.
    destruct (decide (k <= h)%nat); [|apply Lo; lia].
    destruct (f k) eqn:Fk; [|done]. rewrite (Hmono k h) in Fh; [done|lia|done|lia].
Qed.

Lemma StronglySorted_lookup {A} (R : A -> A -> Prop) (l : list A) i j x y :
  StronglySorted R l -> l !! i = Some x -> l !! j = Some y -> (i < j)%nat -> R x y.
Proof.
  intros Hs. revert i j. induction Hs as [|z l _ IH Hz]; intros i j Hi Hj Hij; [done|].
  destruct j as [|j]; [lia|]. destruct i as [|i]; simplify_eq/=; [|eauto with lia].
  rewrite Forall_forall in Hz. apply Hz. eapply list_elem_of_lookup_2; eauto.
Qed.

(** [SearchInts] on a sorted slice: the number of elements below [x]. *)
Lemma SearchInts_spec a x :
  StronglySorted Z.le a ->
  (SearchInts a x <= length a)%nat /\
  (forall i v, a !! i = Some v -> (i < SearchInts a x)%nat -> v < x) /\
  (forall i v, a !! i = Some v -> (SearchInts a x <= i)%nat -> x <= v).
Proof.
  intros Hs. unfold SearchInts.
  assert (Hmono : forall i j v w, a !! i = Some v -> a !! j = Some w -> (i <= j)%nat -> v <= w).
  { intros i j v w Hi Hj Hle. destruct (decide (i = j)) as [->|]; [simplify_eq; lia|].
    apply (StronglySorted_lookup Z.le a i j); auto with lia. }
  destruct (Search_loop_spec (S (length a))
    (fun i => match a !! i with Some v => x <=? v | None => false end) 0 (length a))
    as (B & Lo & Hi); [lia|lia| |].
  - intros h h' Hle Hh Hlt. destruct (a !! h) as [v|] eqn:E; [|done].
    destruct (lookup_lt_is_Some_2 a h' Hlt) as [w E']. rewrite E'.
    pose proof (Hmono _ _ _ _ E E' Hle). lia.
  - set (n := Search_loop _ _ _ _) in *. split; [lia|]. split.
    + intros i v Hv Hi'. specialize (Lo i ltac:(lia)). rewrite Hv in Lo. lia.
    + intros i v Hv Hi'. pose proof (lookup_lt_Some _ _ _ Hv).
      destruct (lookup_lt_is_Some_2 a n ltac:(lia)) as [w Hw].
      specialize (Hi ltac:(lia)). rewrite Hw in Hi.
      pose proof (Hmono _ _ _ _ Hw Hv Hi'). lia.
Qed.

(** * The ring as a set of owned points *)

(** The points of a node: the hashes of its virtual nodes. *)
Definition points (r : ConsistentHashRing) (node : bytes) : list Z :=
  (fun i => r_hashFunc r (virtualNodeName i node)) <$> replica_ids r.

(** [p] is the first point of [keys] at or after [h] on the circle. *)
Definition is_succ (keys : list Z) (h p : Z) : Prop :=
  p ∈ keys /\
  ((h <= p /\ forall q, q ∈ keys -> h <= q -> p <= q) \/
   ((forall q, q ∈ keys -> q < h) /\ forall q, q ∈ keys -> p <= q)).

Lemma is_succ_unique keys h p q : is_succ keys h p -> is_succ keys h q -> p = q.
Proof.
  intros [Hp [[A1 A2]|[A1 A2]]] [Hq [[B1 B2]|[B1 B2]]].
  - specialize (A2 q Hq B1). specialize (B2 p Hp A1). lia.
  - specialize (B1 p Hp). lia.
  - specialize (A1 q Hq). lia.
  - specialize (A2 q Hq). specialize (B2 p Hp). lia.
Qed.

(** Fewer points: the first point stays first while it is there. *)
Lemma is_succ_mono keys keys' h p :
  (forall q, q ∈ keys' -> q ∈ keys) -> p ∈ keys' -> is_succ keys h p -> is_succ keys' h p.
Proof.
  intros Hsub Hp [_ [[A1 A2]|[A1 A2]]]; (split; [done|]).
  - left. split; [done|]. intros q Hq. apply A2; auto.
  - right. split; intros q Hq; [apply A1|apply A2]; auto.
Qed.

Lemma GetNode_succ r key :
  StronglySorted Z.le (r_keys r) -> r_keys r <> [] ->
  exists p, is_succ (r_keys r) (r_hashFunc r key) p /\ GetNode r key = default [] (r_hashMap r !! p).
Proof.
  intros Hs Hne. unfold GetNode, IsEmpty. set (h := r_hashFunc r key).
  destruct (SearchInts_spec (r_keys r) h Hs) as (B & Lo & Hi).
  set (n := SearchInts (r_keys r) h) in *.
  assert (length (r_keys r) <> 0)%nat by (by destruct (r_keys r)).
  rewrite (proj2 (Nat.eqb_neq _ _)) by done.
  destruct (Nat.eqb_spec n (length (r_keys r))) as [E|E].
  - destruct (lookup_lt_is_Some_2 (r_keys r) 0 ltac:(lia)) as [p Hp]. rewrite Hp. simpl.
    exists p. split; [|done]. split; [eapply list_elem_of_lookup_2; eauto|]. right.
    split; intros q [i Hq]%list_elem_of_lookup.
    + apply (Lo i q Hq). rewrite E. eapply lookup_lt_Some; eauto.
    + destruct i; [simplify_eq; lia|]. apply (StronglySorted_lookup Z.le _ 0 (S i) p q Hs); auto with lia.
  - destruct (lookup_lt_is_Some_2 (r_keys r) n ltac:(lia)) as [p Hp]. rewrite Hp. simpl.
    exists p. split; [|done]. split; [eapply list_elem_of_lookup_2; eauto|]. left.
    split; [by apply (Hi n p)|]. intros q [i Hq]%list_elem_of_lookup Hle.
    destruct (decide (i < n)%nat) as [Hlt|]; [specialize (Lo i q Hq Hlt); lia|].
    destruct (decide (i = n)) as [->|]; [simplify_eq; lia|].
    apply (StronglySorted_lookup Z.le _ n i p q Hs); auto with lia.
Qed.

(** ** Adding *)

Lemma AddNode_virtual_fold node l r :
  let r' := fold_left (AddNode_virtual node) l r in
  let pts := (fun i => r_hashFunc r (virtualNodeName i node)) <$> l in
  r_hashFunc r' = r_hashFunc r /\ r_replicas r' = r_replicas r /\
  r_keys r' = r_keys r ++ pts /\
  forall p, r_hashMap r' !! p = if decide (p ∈ pts) then Some node else r_hashMap r !! p.
Proof.
  revert r. induction l as [|i l IH]; intros r; simpl.
  { by rewrite app_nil_r. }
  destruct (IH (AddNode_virtual node r i)) as (E1 & E2 & E3 & E4). simpl in *.
  split_and!; [done|done|by rewrite E3, <- app_assoc|].
  intros p. rewrite E4. destruct (decide (p ∈ _ <$> l)).
  - by rewrite decide_True by set_solver.
  - destruct (decide (p = r_hashFunc r (virtualNodeName i node))) as [->|].
    + rewrite lookup_insert_eq, decide_True by set_solver. done.
    + rewrite lookup_insert_ne, decide_False by set_solver. done.
Qed.

Lemma AddNode_fold nodes r :
  let r' := fold_left (fun r node => fold_left (AddNode_virtual node) (replica_ids r) r) nodes r in
  r_hashFunc r' = r_hashFunc r /\ r_replicas r' = r_replicas r /\
  r_keys r' = r_keys r ++ (nodes ≫= points r) /\
  forall p, (p ∈ (nodes ≫= points r) -> exists n, n ∈ nodes /\ r_hashMap r' !! p = Some n) /\
            (p ∉ (nodes ≫= points r) -> r_hashMap r' !! p = r_hashMap r !! p).
Proof.
  revert r. induction nodes as [|node nodes IH]; intros r; cbn [fold_left]; rewrite ?bind_cons.
  { simpl. rewrite app_nil_r. split_and!; try done. intros p. split; [set_solver|done]. }
  destruct (AddNode_virtual_fold node (replica_ids r) r) as (F1 & F2 & F3 & F4).
  set (r1 := fold_left _ _ _) in *.
  specialize (IH r1). cbv zeta in IH.
  assert (Hpts : forall n, points r1 n = points r n)
    by (intros n; unfold points, replica_ids; by rewrite F1, F2).
  assert (Hb : nodes ≫= points r1 = nodes ≫= points r).
  { clear -Hpts. induction nodes; [done|]. by rewrite !bind_cons, Hpts, IHnodes. }
  rewrite Hb in IH. destruct IH as (E1 & E2 & E3 & E4). fold (points r node) in F3, F4.
  split_and!; [congruence|congruence|by rewrite E3, F3, <- app_assoc|].
  intros p. destruct (E4 p) as [E4a E4b]. split.
  - intros Hp. destruct (decide (p ∈ nodes ≫= points r)) as [Hin|Hnin].
    + destruct (E4a Hin) as (n & Hn & ->). exists n. split; [by right|done].
    + exists node. split; [left|]. rewrite E4b, F4 by done.
      apply elem_of_app in Hp as [Hp|Hp]; [|done]. by rewrite decide_True.
  - intros Hp. rewrite not_elem_of_app in Hp. rewrite E4b, F4 by tauto. by rewrite decide_False by tauto.
Qed.

(** What [AddNode] does to the points and to their owners. *)
Lemma AddNode_spec nodes r :
  let r' := AddNode r nodes in
  r_hashFunc r' = r_hashFunc r /\ r_replicas r' = r_replicas r /\
  StronglySorted Z.le (r_keys r') /\
  r_keys r' ≡ₚ r_keys r ++ (nodes ≫= points r) /\
  forall p, (p ∈ (nodes ≫= points r) -> exists n, n ∈ nodes /\ r_hashMap r' !! p = Some n) /\
            (p ∉ (nodes ≫= points r) -> r_hashMap r' !! p = r_hashMap r !! p).
Proof.
  destruct (AddNode_fold nodes r) as (E1 & E2 & E3 & E4). unfold AddNode. simpl.
  split_and!; [done|done| |by rewrite merge_sort_Permutation, E3|done].
  apply StronglySorted_merge_sort; apply _.
Qed.

Lemma AddNode_one_spec node r :
  let r' := AddNode r [node] in
  r_hashFunc r' = r_hashFunc r /\ r_replicas r' = r_replicas r /\
  StronglySorted Z.le (r_keys r') /\ r_keys r' ≡ₚ r_keys r ++ points r node /\
  forall p, r_hashMap r' !! p = if decide (p ∈ points r node) then Some node else r_hashMap r !! p.
Proof.
  destruct (AddNode_spec [node] r) as (E1 & E2 & E3 & E4 & E5). cbv zeta.
  set (r' := AddNode r [node]) in *. clearbody r'.
  rewrite bind_cons in E4, E5. simpl in E4, E5. rewrite app_nil_r in E4, E5. split_and!; [done..|].
  intros p. destruct (E5 p) as [Ea Eb]. case_decide as Hd; [|auto].
  destruct (Ea Hd) as (n & ->%list_elem_of_singleton & Hm). done.
Qed.

(** ** Removing *)

Lemma RemoveNode_virtual_spec node r i :
  let h := r_hashFunc r (virtualNodeName i node) in
  let r' := RemoveNode_virtual node r i in
  StronglySorted Z.le (r_keys r) ->
  StronglySorted Z.le (r_keys r') /\
  (h ∈ r_keys r -> r_keys r ≡ₚ h :: r_keys r') /\ (h ∉ r_keys r -> r_keys r' = r_keys r) /\
  r_hashMap r' = delete h (r_hashMap r).
Proof.
  intros h r' Hs. destruct (SearchInts_spec (r_keys r) h Hs) as (B & Lo & Hi).
  subst r'. unfold RemoveNode_virtual. fold h. simpl. set (n := SearchInts (r_keys r) h) in *.
  case_decide as Hd.
  - pose proof (take_drop_middle _ _ _ Hd) as E. split_and!; [| | |done].
    + rewrite <- E in Hs. apply StronglySorted_app in Hs as (S1 & S2 & S3).
      apply StronglySorted_inv in S3 as [S3 _]. apply StronglySorted_app_2; [|done|done].
      intros x y Hx Hy. apply S1; [done|by right].
    + intros _. rewrite <- E at 1. by rewrite Permutation_middle.
    + intros []. eapply list_elem_of_lookup_2; eauto.
  - split_and!; [done| |done|done]. intros [j Hj]%list_elem_of_lookup. exfalso.
    destruct (decide (j < n)%nat) as [Hlt|]; [specialize (Lo j h Hj Hlt); lia|].
    pose proof (lookup_lt_Some _ _ _ Hj).
    destruct (lookup_lt_is_Some_2 (r_keys r) n ltac:(lia)) as [v Hv].
    assert (v <> h) by congruence. pose proof (Hi n v Hv ltac:(lia)).
    destruct (decide (j = n)) as [->|]; [congruence|].
    pose proof (StronglySorted_lookup Z.le _ n j v h Hs Hv Hj ltac:(lia)). lia.
Qed.

(** When the points of the node are on the ring, removing it takes out each of
    them once and forgets their owners. *)
Lemma RemoveNode_spec node r rest :
  StronglySorted Z.le (r_keys r) -> r_keys r ≡ₚ points r node ++ rest ->
  let r' := RemoveNode r node in
  r_hashFunc r' = r_hashFunc r /\ r_replicas r' = r_replicas r /\
  StronglySorted Z.le (r_keys r') /\ r_keys r' ≡ₚ rest /\
  forall p, r_hashMap r' !! p = if decide (p ∈ points r node) then None else r_hashMap r !! p.
Proof.
  unfold RemoveNode, points. generalize (replica_ids r). intros l.
  revert r. induction l as [|i l IH]; intros r Hs Hk; simpl in *; [by split_and!|].
  destruct (RemoveNode_virtual_spec node r i Hs) as (S1 & S2 & _ & S4).
  set (h := r_hashFunc r (virtualNodeName i node)) in *.
  set (r1 := RemoveNode_virtual node r i) in *.
  assert (Hh : h ∈ r_keys r) by (rewrite Hk; left). specialize (S2 Hh).
  assert (Hk1 : r_keys r1 ≡ₚ ((fun i => r_hashFunc r1 (virtualNodeName i node)) <$> l) ++ rest).
  { apply (Permutation_cons_inv (a := h)). by rewrite <- S2, Hk. }
  destruct (IH r1 S1 Hk1) as (E1 & E2 & E3 & E4 & E5).
  split_and!; [by rewrite E1|by rewrite E2|done|done|].
  intros p. rewrite E5, S4. change (r_hashFunc r1) with (r_hashFunc r).
  destruct (decide (p ∈ _ <$> l)).
  - by rewrite decide_True by set_solver.
  - destruct (decide (p = h)) as [->|].
    + rewrite lookup_delete_eq, decide_True by set_solver. done.
    + rewrite lookup_delete_ne, decide_False by set_solver. done.
Qed.

Lemma RemoveNode_sorted node r :
  StronglySorted Z.le (r_keys r) ->
  let r' := RemoveNode r node in
  r_hashFunc r' = r_hashFunc r /\ r_replicas r' = r_replicas r /\ StronglySorted Z.le (r_keys r') /\
  forall p, p ∈ r_keys r' -> p ∈ r_keys r.
Proof.
  unfold RemoveNode. generalize (replica_ids r). intros l. revert r.
  induction l as [|i l IH]; intros r Hs; simpl; [by split_and!|].
  destruct (RemoveNode_virtual_spec node r i Hs) as (S1 & S2 & S3 & S4).
  destruct (IH _ S1) as (E1 & E2 & E3 & E4). split_and!; [by rewrite E1|by rewrite E2|done|].
  intros p Hp. apply E4 in Hp.
  destruct (decide (r_hashFunc r (virtualNodeName i node) ∈ r_keys r)) as [Hin|Hin].
  - rewrite (S2 Hin). by right.
  - by rewrite <- (S3 Hin).
Qed.

(** ** Histories *)

(** A ring as the proxy builds it: [New], then additions and removals. *)
Inductive ring_op : Type := OpAdd (nodes : list bytes) | OpRemove (node : bytes).

Definition ring_step (r : ConsistentHashRing) (o : ring_op) : ConsistentHashRing :=
  match o with OpAdd nodes => AddNode r nodes | OpRemove node => RemoveNode r node end.

Definition ring_run (r : ConsistentHashRing) (ops : list ring_op) : ConsistentHashRing :=
  fold_left ring_step ops r.

Lemma ring_run_sorted r ops :
  StronglySorted Z.le (r_keys r) -> StronglySorted Z.le (r_keys (ring_run r ops)).
Proof.
  revert r. induction ops as [|o ops IH]; intros r Hs; [done|]. simpl. apply IH.
  destruct o; simpl; [apply AddNode_spec|by apply RemoveNode_sorted].
Qed.

Lemma New_run_sorted reps fn ops : StronglySorted Z.le (r_keys (ring_run (New reps fn) ops)).
Proof. apply ring_run_sorted. constructor. Qed.

Lemma ring_run_config r ops :
  StronglySorted Z.le (r_keys r) ->
  r_hashFunc (ring_run r ops) = r_hashFunc r /\ r_replicas (ring_run r ops) = r_replicas r.
Proof.
  revert r. induction ops as [|o ops IH]; intros r Hs; [done|]. cbn [ring_run fold_left].
  fold (ring_run (ring_step r o) ops). destruct (IH (ring_step r o)) as [-> ->].
  { apply (ring_run_sorted r [o] Hs). }
  destruct o; simpl; [split; apply AddNode_spec|].
  destruct (RemoveNode_sorted node r Hs) as (E1 & E2 & _). done.
Qed.

Lemma GetNode_empty r key : r_keys r = [] -> GetNode r key = [].
Proof. intros E. unfold GetNode, IsEmpty. by rewrite E. Qed.

(** The point of [key] and its owner change only towards the added nodes. *)
Lemma GetNode_AddNode r nodes key :
  StronglySorted Z.le (r_keys r) ->
  GetNode (AddNode r nodes) key ∈ nodes \/ GetNode (AddNode r nodes) key = GetNode r key.
Proof.
  intros Hs. destruct (AddNode_spec nodes r) as (E1 & E2 & E3 & E4 & E5).
  set (r' := AddNode r nodes) in *.
  destruct (decide (r_keys r' = [])) as [E|Hne].
  { right. rewrite !GetNode_empty; [done| |done].
    rewrite E in E4. apply Permutation_nil_l, eq_sym, app_nil in E4. by destruct E4. }
  destruct (GetNode_succ r' key E3 Hne) as (p & Hp & Hget). rewrite E1 in Hp.
  destruct (E5 p) as [Ea Eb].
  destruct (decide (p ∈ nodes ≫= points r)) as [Hin|Hnin].
  { left. destruct (Ea Hin) as (n & Hn & Hm). rewrite Hget, Hm. done. }
  right. pose proof Hp as [Hk _]. rewrite E4, elem_of_app in Hk. destruct Hk as [Hk|]; [|done].
  assert (Hne' : r_keys r <> []) by (intros E; rewrite E in Hk; by apply not_elem_of_nil in Hk).
  destruct (GetNode_succ r key Hs Hne') as (q & Hq & ->).
  assert (p = q) as ->; [|by rewrite Hget, (Eb Hnin)].
  eapply is_succ_unique; [|exact Hq]. eapply is_succ_mono; [|done|exact Hp].
  intros x Hx. rewrite E4, elem_of_app. by left.
Qed.

(** * Properties *)

(** C15: the routing function. On a ring built by any history of additions and
    removals, a key is served by the owner of the first point at or after the
    key's hash, going round the circle when no point follows it; so the binary
    search of [GetNode] computes the successor on the circle. *)
Theorem routing_is_clockwise_successor reps fn ops key :
  let r := ring_run (New reps fn) ops in
  r_keys r <> [] ->
  exists p, is_succ (r_keys r) (r_hashFunc r key) p /\
            (forall q, is_succ (r_keys r) (r_hashFunc r key) q -> q = p) /\
            GetNode r key = default [] (r_hashMap r !! p).
Proof.
  intros r Hne. destruct (GetNode_succ r key (New_run_sorted reps fn ops) Hne) as (p & Hp & Hg).
  exists p. split_and!; [done| |done]. intros q Hq. by eapply is_succ_unique.
Qed.

Lemma routing_is_clockwise_successor_witness :
  let r := ring_run (New 3 None) [OpAdd [$"a"; $"b"]; OpRemove ($"a")] in
  exists p, is_succ (r_keys r) (r_hashFunc r ($"user")) p /\
            (forall q, is_succ (r_keys r) (r_hashFunc r ($"user")) q -> q = p) /\
            GetNode r ($"user") = default [] (r_hashMap r !! p).
Proof.
  apply (routing_is_clockwise_successor 3 None [OpAdd [$"a"; $"b"]; OpRemove ($"a")] ($"user")).
  vm_compute. discriminate.
Defined.

(** C23: monotonicity of consistent hashing. Adding nodes to a ring, whatever
    its history, moves a key only to one of the added nodes: every other key
    keeps the node it had. *)
Theorem adding_moves_keys_only_to_new_nodes reps fn ops nodes key :
  let r := ring_run (New reps fn) ops in
  GetNode (AddNode r nodes) key ∈ nodes \/ GetNode (AddNode r nodes) key = GetNode r key.
Proof. apply GetNode_AddNode, New_run_sorted. Qed.

(** C25: adding a node whose points are new to the ring and removing it again
    gives back the very same ring. *)
Theorem remove_undoes_add reps fn ops node :
  let r := ring_run (New reps fn) ops in
  NoDup (points r node) ->
  (forall p, p ∈ points r node -> p ∉ r_keys r /\ r_hashMap r !! p = None) ->
  RemoveNode (AddNode r [node]) node = r.
Proof.
  intros r Hnd Hfresh. pose proof (New_run_sorted reps fn ops : StronglySorted Z.le (r_keys r)) as Hs.
  destruct (AddNode_one_spec node r) as (E1 & E2 & E3 & E4 & E5). set (r' := AddNode r [node]) in *.
  assert (Hp : points r' node = points r node) by (unfold points, replica_ids; by rewrite E1, E2).
  destruct (RemoveNode_spec node r' (r_keys r) E3) as (F1 & F2 & F3 & F4 & F5).
  { by rewrite Hp, E4, Permutation_app_comm. }
  clearbody r'. destruct (RemoveNode r' node) as [h1 n1 k1 m1].
  cbn [r_hashFunc r_replicas r_keys r_hashMap] in F1, F2, F3, F4, F5.
  assert (Ek : k1 = r_keys r) by (eapply (StronglySorted_unique Z.le); eauto).
  assert (Em : m1 = r_hashMap r).
  { apply map_eq. intros p. rewrite F5, Hp. case_decide as Hd; [by destruct (Hfresh p Hd)|].
    by rewrite E5, decide_False. }
  rewrite F1, F2, E1, E2, Ek, Em. by destruct r.
Qed.

Lemma remove_undoes_add_witness :
  let r := ring_run (New 3 None) [OpAdd [$"a"; $"b"]] in
  RemoveNode (AddNode r [$"c"]) ($"c") = r.
Proof.
  apply (remove_undoes_add 3 None [OpAdd [$"a"; $"b"]] ($"c")).
  - apply (bool_decide_unpack _). vm_compute. exact I.
  - apply Forall_forall, (bool_decide_unpack _). vm_compute. exact I.
Defined.

(** C24: removing a node whose points belong to it alone leaves every key of the
    other nodes where it was, and no key on the removed node. *)
Theorem removing_moves_only_its_keys reps fn ops node rest key :
  let r := ring_run (New reps fn) ops in
  r_keys r ≡ₚ points r node ++ rest ->
  (forall p, p ∈ points r node -> p ∉ rest) ->
  (forall p, p ∈ rest -> exists n, n <> node /\ r_hashMap r !! p = Some n) ->
  node <> [] -> (forall p, p ∈ points r node -> r_hashMap r !! p = Some node) ->
  GetNode (RemoveNode r node) key <> node /\
  (GetNode r key <> node -> GetNode (RemoveNode r node) key = GetNode r key).
Proof.
  intros r Hk Hdis Hrest Hn Hown.
  pose proof (New_run_sorted reps fn ops : StronglySorted Z.le (r_keys r)) as Hs.
  destruct (RemoveNode_spec node r rest Hs Hk) as (F1 & F2 & F3 & F4 & F5).
  set (r' := RemoveNode r node) in *. split.
  - destruct (decide (r_keys r' = [])) as [E|E]; [by rewrite GetNode_empty|].
    destruct (GetNode_succ r' key F3 E) as (p & [Hp _] & ->). rewrite F4 in Hp.
    destruct (Hrest p Hp) as (n & Hne & Hm).
    rewrite F5, decide_False by (intros Hin; by apply (Hdis p)). by rewrite Hm.
  - intros Hget. destruct (decide (r_keys r = [])) as [E|E].
    { rewrite !GetNode_empty; [done|done|]. rewrite E in Hk.
      apply Permutation_nil_l, eq_sym, app_nil in Hk as [_ ->]. by apply Permutation_nil_r in F4. }
    destruct (GetNode_succ r key Hs E) as (p & Hp & Hg). rewrite Hg in Hget |- *.
    assert (Hnp : p ∉ points r node) by (intros Hin; by rewrite (Hown p Hin) in Hget).
    assert (Hpr : p ∈ r_keys r').
    { rewrite F4. destruct Hp as [Hp _]. rewrite Hk, elem_of_app in Hp. tauto. }
    assert (E' : r_keys r' <> []) by (intros E'; rewrite E' in Hpr; by apply not_elem_of_nil in Hpr).
    destruct (GetNode_succ r' key F3 E') as (q & Hq & ->). rewrite F1 in Hq.
    assert (p = q) as <-; [|by rewrite F5, decide_False].
    eapply is_succ_unique; [|exact Hq]. eapply is_succ_mono; [|done|exact Hp].
    intros x Hx. rewrite F4 in Hx. rewrite Hk, elem_of_app. by right.
Qed.

Lemma removing_moves_only_its_keys_witness :
  let r := ring_run (New 2 None) [OpAdd [$"a"; $"b"]] in
  GetNode (RemoveNode r ($"a")) ($"user") <> $"a" /\
  (GetNode r ($"user") <> $"a" -> GetNode (RemoveNode r ($"a")) ($"user") = GetNode r ($"user")).
Proof.
  apply (removing_moves_only_its_keys 2 None [OpAdd [$"a"; $"b"]] ($"a")
    (points (ring_run (New 2 None) [OpAdd [$"a"; $"b"]]) ($"b"))).
  - apply (bool_decide_unpack _). vm_compute. exact I.
  - apply Forall_forall, (bool_decide_unpack _). vm_compute. exact I.
  - intros p Hp. exists ($"b"). split; [discriminate|]. revert p Hp.
    apply Forall_forall, (bool_decide_unpack _). vm_compute. exact I.
  - discriminate.
  - apply Forall_forall, (bool_decide_unpack _). vm_compute. exact I.
Defined.

(** A node added twice and removed once leaves points without an owner:
    the ring is not empty, yet no key is routed anywhere. *)
Theorem double_add_then_remove_loses_routing reps fn node key :
  0 < reps -> let r := New reps fn in
  let r' := ring_run r [OpAdd [node]; OpAdd [node]; OpRemove node] in
  IsEmpty r' = false /\ GetNode r' key = [].
Proof.
  intros Hr r r'. subst r'. simpl.
  destruct (AddNode_one_spec node r) as (A1 & A2 & A3 & A4 & A5).
  destruct (AddNode_one_spec node (AddNode r [node])) as (B1 & B2 & B3 & B4 & B5).
  set (r1 := AddNode r [node]) in *. set (r2 := AddNode r1 [node]) in *.
  assert (P1 : points r1 node = points r node) by (unfold points, replica_ids; by rewrite A1, A2).
  assert (P2 : points r2 node = points r node)
    by (unfold points, replica_ids; by rewrite B1, B2, A1, A2).
  rewrite P1 in B4, B5.
  destruct (RemoveNode_spec node r2 (points r node) B3) as (F1 & F2 & F3 & F4 & F5).
  { by rewrite P2, B4, A4. }
  set (r3 := RemoveNode r2 node) in *.
  assert (Hlen : length (r_keys r3) = Z.to_nat reps).
  { rewrite F4. unfold points, replica_ids. by rewrite !length_fmap, length_seq. }
  split; [unfold IsEmpty; rewrite Hlen; apply Nat.eqb_neq; lia|].
  destruct (GetNode_succ r3 key F3) as (p & [Hp _] & ->).
  { intros E. rewrite E in Hlen. simpl in Hlen. lia. }
  rewrite F4 in Hp. by rewrite F5, P2, decide_True.
Qed.

Lemma double_add_then_remove_loses_routing_witness :
  IsEmpty (ring_run (New 20 None) [OpAdd [$"a"]; OpAdd [$"a"]; OpRemove ($"a")]) = false /\
  GetNode (ring_run (New 20 None) [OpAdd [$"a"]; OpAdd [$"a"]; OpRemove ($"a")]) ($"user") = [].
Proof. apply (double_add_then_remove_loses_routing 20 None ($"a") ($"user")). lia. Defined.
