(* ===== verification/Store.v ===== *)
(** * The state of the database

    The struct [DB] of [db.go] and the struct [Batch] of [batch.go], with the
    locks and pools they use.  A batch's field [db] is the database the batch
    method runs on; the mutex inside a batch only makes its methods atomic,
    which the model takes for granted. *)
From S2P Require Import Prelude GoBinary Config GoOs WalLib Record BTreeLib Index Watch.
Open Scope Z_scope.

(** ** [github.com/bwmarrin/snowflake] *)
Class Snowflake : Type := {
  sf_node : Type;
  sf_NewNode : Z -> error + sf_node;
  sf_Generate : sf_node -> Z -> Z * sf_node;     (* the clock is read *)
  sf_Bytes : Z -> bytes;                         (* [ID.Bytes] *)
  sf_ParseBytes : bytes -> error + Z;
}.

(** Node 1 exists, an id is a positive [int64] with at most twenty digits, and
    parsing undoes [Bytes]. *)
Class SnowflakeLaws (SF : Snowflake) : Prop := {
  sf_NewNode_law : exists n, sf_NewNode 1 = inr n;
  sf_Generate_law : forall n clock, 0 < (sf_Generate n clock).1 < 2 ^ 63;
  sf_Bytes_law : forall id, 0 < id < 2 ^ 63 -> len (sf_Bytes id) <= 20;
  sf_ParseBytes_law : forall id, 0 < id < 2 ^ 63 -> sf_ParseBytes (sf_Bytes id) = inr id;
}.

(** ** [utils.MemHash], the hash of the Go runtime *)
Class MemHashLib : Type := { MemHash : bytes -> Z }.

(** ** [sync.RWMutex]

    A call of [Lock] that finds readers is announced: it waits for them to leave,
    and keeps new readers out meanwhile; readers that come while the lock is held
    or announced wait until it is released, and then all get in.  The state is
    who holds the lock, whether a [Lock] is announced, and how many [RLock]s wait.
    A second [Lock] waits for the first and leaves no trace.  The functions that
    take the lock return [Blocked] when the caller has to wait (a lock that can be
    taken at once has nobody waiting); what waiting leaves is [mu_Lock_waits] and [mu_RLock_waits], and what hands the lock to
    those who wait is the release.  Unlocking a free mutex is a fatal error. *)
Record RWMutex : Type := MkMutex {
  mu_writer : bool;
  mu_readers : nat;
  mu_announced : bool;
  mu_waiting : nat;
}.

(** Nobody waits. *)
Abbreviation MkRWMutex w r := (MkMutex w r false 0).

Definition mu_free : RWMutex := MkRWMutex false 0.

Definition mu_Lock (m : RWMutex) : outcome RWMutex :=
  if mu_writer m || mu_announced m || negb (Nat.eqb (mu_readers m) 0) then Blocked
  else Ret (MkRWMutex true 0).
Definition mu_Lock_waits (m : RWMutex) : RWMutex :=
  if mu_writer m || mu_announced m then m else MkMutex false (mu_readers m) true (mu_waiting m).
Definition mu_Unlock (m : RWMutex) : outcome RWMutex :=
  if mu_writer m then Ret (MkMutex false (mu_readers m + mu_waiting m) false 0) else Panic.
Definition mu_RLock (m : RWMutex) : outcome RWMutex :=
  if mu_writer m || mu_announced m then Blocked
  else Ret (MkRWMutex false (S (mu_readers m))).
Definition mu_RLock_waits (m : RWMutex) : RWMutex :=
  MkMutex (mu_writer m) (mu_readers m) (mu_announced m) (S (mu_waiting m)).
Definition mu_RUnlock (m : RWMutex) : outcome RWMutex :=
  match mu_readers m with
  | O => Panic
  | S O => Ret (MkMutex (mu_writer m || mu_announced m) 0 false (mu_waiting m))
  | S n => Ret (MkMutex (mu_writer m) n (mu_announced m) (mu_waiting m))
  end.

Section store.
Context {W : WalLib} {B : BTreeLib item item_less} {SF : Snowflake}.

(** ** [Batch] *)
Record Batch : Type := MkBatch {
  b_pendingWrites : list LogRecord;
  b_pendingWritesMap : gmap Z (list nat);
  b_options : BatchOptions;
  b_committed : bool;
  b_rollbacked : bool;
  b_batchId : option sf_node;      (* nil in a read-only batch *)
  b_buffers : list bytes;
}.

(** ** [DB] *)
Record DB : Type := MkDB {
  db_dataFiles : wal;
  db_hintFile : option wal;
  db_index : MemoryBTree;
  db_options : Options;
  db_mu : RWMutex;
  db_closed : bool;
  db_mergeRunning : bool;
  db_batchPool : list Batch;
  db_recordPool : list LogRecord;
  db_encodeHeader : bytes;
  db_watcher : option Watcher;
  db_expiredCursorKey : bytes;
}.

Definition set_dataFiles (w : wal) (d : DB) : DB :=
  MkDB w (db_hintFile d) (db_index d) (db_options d) (db_mu d) (db_closed d) (db_mergeRunning d)
    (db_batchPool d) (db_recordPool d) (db_encodeHeader d) (db_watcher d) (db_expiredCursorKey d).
Definition set_hintFile (h : option wal) (d : DB) : DB :=
  MkDB (db_dataFiles d) h (db_index d) (db_options d) (db_mu d) (db_closed d) (db_mergeRunning d)
    (db_batchPool d) (db_recordPool d) (db_encodeHeader d) (db_watcher d) (db_expiredCursorKey d).
Definition set_index (i : MemoryBTree) (d : DB) : DB :=
  MkDB (db_dataFiles d) (db_hintFile d) i (db_options d) (db_mu d) (db_closed d) (db_mergeRunning d)
    (db_batchPool d) (db_recordPool d) (db_encodeHeader d) (db_watcher d) (db_expiredCursorKey d).
Definition set_mu (m : RWMutex) (d : DB) : DB :=
  MkDB (db_dataFiles d) (db_hintFile d) (db_index d) (db_options d) m (db_closed d) (db_mergeRunning d)
    (db_batchPool d) (db_recordPool d) (db_encodeHeader d) (db_watcher d) (db_expiredCursorKey d).
Definition set_closed (c : bool) (d : DB) : DB :=
  MkDB (db_dataFiles d) (db_hintFile d) (db_index d) (db_options d) (db_mu d) c (db_mergeRunning d)
    (db_batchPool d) (db_recordPool d) (db_encodeHeader d) (db_watcher d) (db_expiredCursorKey d).
Definition set_mergeRunning (r : bool) (d : DB) : DB :=
  MkDB (db_dataFiles d) (db_hintFile d) (db_index d) (db_options d) (db_mu d) (db_closed d) r
    (db_batchPool d) (db_recordPool d) (db_encodeHeader d) (db_watcher d) (db_expiredCursorKey d).
Definition set_batchPool (p : list Batch) (d : DB) : DB :=
  MkDB (db_dataFiles d) (db_hintFile d) (db_index d) (db_options d) (db_mu d) (db_closed d)
    (db_mergeRunning d) p (db_recordPool d) (db_encodeHeader d) (db_watcher d) (db_expiredCursorKey d).
Definition set_recordPool (p : list LogRecord) (d : DB) : DB :=
  MkDB (db_dataFiles d) (db_hintFile d) (db_index d) (db_options d) (db_mu d) (db_closed d)
    (db_mergeRunning d) (db_batchPool d) p (db_encodeHeader d) (db_watcher d) (db_expiredCursorKey d).
Definition set_encodeHeader (h : bytes) (d : DB) : DB :=
  MkDB (db_dataFiles d) (db_hintFile d) (db_index d) (db_options d) (db_mu d) (db_closed d)
    (db_mergeRunning d) (db_batchPool d) (db_recordPool d) h (db_watcher d) (db_expiredCursorKey d).
Definition set_watcher (w : option Watcher) (d : DB) : DB :=
  MkDB (db_dataFiles d) (db_hintFile d) (db_index d) (db_options d) (db_mu d) (db_closed d)
    (db_mergeRunning d) (db_batchPool d) (db_recordPool d) (db_encodeHeader d) w (db_expiredCursorKey d).
Definition set_expiredCursorKey (k : bytes) (d : DB) : DB :=
  MkDB (db_dataFiles d) (db_hintFile d) (db_index d) (db_options d) (db_mu d) (db_closed d)
    (db_mergeRunning d) (db_batchPool d) (db_recordPool d) (db_encodeHeader d) (db_watcher d) k.

(** ** The store: a database and the disk under it *)
Record Store : Type := MkStore { st_db : DB; st_fs : FileSys }.

(** Database methods and batch methods. *)
Definition DbM (A : Type) : Type := GoM Store A.
Definition BatchM (A : Type) : Type := GoM (Batch * Store) A.

Definition db_get : DbM DB := fun s => Ret (st_db s, s).
Definition db_fs : DbM FileSys := fun s => Ret (st_fs s, s).
Definition db_modify (f : DB -> DB) : DbM unit := fun s => Ret (tt, MkStore (f (st_db s)) (st_fs s)).

(** Run a database computation inside a batch method. *)
Definition on_db {A} (m : DbM A) : BatchM A := fun '(b, s) =>
  match m s with Ret (a, s') => Ret (a, (b, s')) | Panic => Panic | Blocked => Blocked end.

Definition b_get : BatchM Batch := fun '(b, s) => Ret (b, (b, s)).
Definition b_put (b : Batch) : BatchM unit := fun '(_, s) => Ret (tt, (b, s)).
Definition b_modify (f : Batch -> Batch) : BatchM unit := fun '(b, s) => Ret (tt, (f b, s)).

(** Locking the database's mutex. *)
Definition db_with_mu (f : RWMutex -> outcome RWMutex) : DbM unit := fun s =>
  match f (db_mu (st_db s)) with
  | Ret m => Ret (tt, MkStore (set_mu m (st_db s)) (st_fs s))
  | Panic => Panic
  | Blocked => Blocked
  end.

(** [db.index.Delete(key)] and [db.index.Put(key, pos)], the results dropped. *)
Definition index_Delete (key : bytes) : DbM unit :=
  db_modify (fun d => set_index (MemoryBTree_Delete (db_index d) key).2 d).
Definition index_Put (key : bytes) (pos : ChunkPosition) : DbM unit :=
  db_modify (fun d => set_index (MemoryBTree_Put (db_index d) key (Some pos)).2 d).

(** [sync.Pool.Get] and [Put] of the record pool. *)
Definition newRecord : LogRecord := MkLogRecord [] [] LogRecordNormal 0 0.

Definition recordPool_Get : DbM LogRecord := fun s =>
  match db_recordPool (st_db s) with
  | r :: p => Ret (r, MkStore (set_recordPool p (st_db s)) (st_fs s))
  | [] => Ret (newRecord, s)
  end.
Definition recordPool_Put (r : LogRecord) : DbM unit :=
  db_modify (fun d => set_recordPool (r :: db_recordPool d) d).
End store.
