(* ===== verification/Batch.v ===== *)
(** * Batches

    [batch.go]: the operations of a batch.  Each definition is the method of the
    same name; the readings of the clock are the arguments [now] (and [now'] for
    a second reading), and [clock] is the reading the id generator makes.  A
    value with an error is a sum: on an error the Go method returns the zero
    value ([-1] for a duration). *)
From S2P Require Import Prelude GoBinary Config GoOs WalLib Record BTreeLib Index Watch Store.
Open Scope Z_scope.

Section batch.
Context {W : WalLib} {B : BTreeLib item item_less} {SF : Snowflake} {MH : MemHashLib}.

(** ** The pending writes *)

(** The loop of [lookupPendingWrites]: the entry of a key, a pointer into the
    pending writes. *)
Fixpoint lookup_entries (pend : list LogRecord) (key : bytes) (entries : list nat) :
    outcome (option nat) :=
  match entries with
  | [] => Ret None
  | entry :: entries =>
      match pend !! entry with
      | None => Panic
      | Some r => if decide (lr_Key r = key) then Ret (Some entry)
                  else lookup_entries pend key entries
      end
  end.

Definition lookupPendingWrites (b : Batch) (key : bytes) : outcome (option nat) :=
  if decide (b_pendingWritesMap b = ∅) then Ret None
  else lookup_entries (b_pendingWrites b) key (default [] (b_pendingWritesMap b !! MemHash key)).

Definition set_pending (p : list LogRecord) (m : gmap Z (list nat)) (b : Batch) : Batch :=
  MkBatch p m (b_options b) (b_committed b) (b_rollbacked b) (b_batchId b) (b_buffers b).

Definition appendPendingWrites (key : bytes) (record : LogRecord) (b : Batch) : Batch :=
  let pend := b_pendingWrites b ++ [record] in
  let hashKey := MemHash key in
  let m := b_pendingWritesMap b in
  set_pending pend (<[hashKey := default [] (m !! hashKey) ++ [(length pend - 1)%nat]]> m) b.

(** Writing through the pointer an entry is. *)
Definition update_pending (entry : nat) (f : LogRecord -> LogRecord) (b : Batch) : Batch :=
  set_pending (alter f entry (b_pendingWrites b)) (b_pendingWritesMap b) b.

Definition lookup_record (key : bytes) : BatchM (option (nat * LogRecord)) :=
  let! b := b_get in
  let! entry := glift (lookupPendingWrites b key) in
  gret (e ← entry; r ← b_pendingWrites b !! e; Some (e, r)).

(** ** Locks *)
Definition Batch_lock : BatchM unit :=
  let! b := b_get in
  on_db (db_with_mu (if bo_ReadOnly (b_options b) then mu_RLock else mu_Lock)).

(** What [b.lock()] leaves while its caller waits. *)
Definition Batch_lock_waits (b : Batch) (s : Store) : Store :=
  MkStore (set_mu ((if bo_ReadOnly (b_options b) then mu_RLock_waits else mu_Lock_waits) (db_mu (st_db s)))
    (st_db s)) (st_fs s).

Definition Batch_unlock : BatchM unit :=
  let! b := b_get in
  on_db (db_with_mu (if bo_ReadOnly (b_options b) then mu_RUnlock else mu_Unlock)).

(** [defer b.unlock()] *)
Definition defer_unlock {A} (m : BatchM A) : BatchM A :=
  let! a := m in Batch_unlock ;;; gret a.

(** ** Creation *)
Definition newBatch : outcome Batch :=
  match sf_NewNode 1 with
  | inl _ => Panic
  | inr node => Ret (MkBatch [] ∅ DefaultBatchOptions false false (Some node) [])
  end.

(** The batch [NewBatch] makes before it takes the lock. *)
Definition make_batch (options : BatchOptions) : outcome Batch :=
  node ← (if bo_ReadOnly options then Ret None
          else match sf_NewNode 1 with inl _ => Panic | inr node => Ret (Some node) end);
  Ret (MkBatch [] ∅ options false false node []).

(** [db.NewBatch(options)]: the batch holds the lock. *)
Definition NewBatch (options : BatchOptions) : DbM Batch := fun s =>
  b ← make_batch options;
  '(_, (b, s)) ← Batch_lock (b, s);
  Ret (b, s).

Definition Batch_init (rdonly sync : bool) : BatchM unit :=
  b_modify (fun b => MkBatch (b_pendingWrites b) (b_pendingWritesMap b) (MkBatchOptions sync rdonly)
    (b_committed b) (b_rollbacked b) (b_batchId b) (b_buffers b)) ;;;
  Batch_lock.

Definition Batch_reset : BatchM unit :=
  b_modify (fun b => MkBatch [] ∅ (b_options b) false false (b_batchId b) []).

(** ** Writing *)

(** The guards the writing methods share. *)
Definition write_guards (key : bytes) (m : BatchM (option error)) : BatchM (option error) :=
  if decide (len key = 0) then gret (Some ErrKeyIsEmpty) else
  let! db := on_db db_get in
  if db_closed db then gret (Some ErrDBClosed) else
  let! b := b_get in
  if bo_ReadOnly (b_options b) then gret (Some ErrReadOnlyBatch) else m.

(** The record of [key] in the pending writes, made if it is not there. *)
Definition put_record (key value : bytes) (expire : Z) : BatchM (option error) :=
  let set_it r := MkLogRecord key value LogRecordNormal (lr_BatchId r) expire in
  let! record := lookup_record key in
  match record with
  | Some (entry, _) => b_modify (update_pending entry set_it) ;;; gret None
  | None =>
      let! r := on_db recordPool_Get in
      b_modify (appendPendingWrites key (set_it r)) ;;; gret None
  end.

Definition Batch_Put (key value : bytes) : BatchM (option error) :=
  write_guards key (put_record key value 0).

Definition Batch_PutWithTTL (now : Z) (key value : bytes) (ttl : Z) : BatchM (option error) :=
  write_guards key (put_record key value (i64 (now + ttl))).

Definition Batch_Delete (key : bytes) : BatchM (option error) :=
  write_guards key (
    let! record := lookup_record key in
    match record with
    | Some (entry, _) =>
        b_modify (update_pending entry (fun r =>
          MkLogRecord (lr_Key r) [] LogRecordDeleted (lr_BatchId r) 0)) ;;; gret None
    | None => b_modify (appendPendingWrites key (MkLogRecord key [] LogRecordDeleted 0 0)) ;;; gret None
    end).

(** ** Reading *)

(** The position of a key in the index and the record it points to. *)
Definition read_index (key : bytes) : BatchM (error + option LogRecord) :=
  let! db := on_db db_get in
  match MemoryBTree_Get (db_index db) key with
  | None => gret (inr None)
  | Some position =>
      let! fs := on_db db_fs in
      match wal_Read (db_dataFiles db) fs position with
      | inl err => gret (inl err)
      | inr chunk => let! record := glift (decodeLogRecord chunk) in gret (inr (Some record))
      end
  end.

Definition Batch_Get (now : Z) (key : bytes) : BatchM (error + bytes) :=
  if decide (len key = 0) then gret (inl ErrKeyIsEmpty) else
  let! db := on_db db_get in
  if db_closed db then gret (inl ErrDBClosed) else
  let! record := lookup_record key in
  match record with
  | Some (_, record) =>
      if bool_decide (lr_Type record = LogRecordDeleted) || IsExpired record now
      then gret (inl ErrKeyNotFound) else gret (inr (lr_Value record))
  | None =>
      let! r := read_index key in
      match r with
      | inl err => gret (inl err)
      | inr None => gret (inl ErrKeyNotFound)
      | inr (Some record) =>
          if bool_decide (lr_Type record = LogRecordDeleted) then glift Panic
          else if IsExpired record now then
            on_db (index_Delete (lr_Key record)) ;;; gret (inl ErrKeyNotFound)
          else gret (inr (lr_Value record))
      end
  end.

Definition Batch_Exist (now : Z) (key : bytes) : BatchM (error + bool) :=
  if decide (len key = 0) then gret (inl ErrKeyIsEmpty) else
  let! db := on_db db_get in
  if db_closed db then gret (inl ErrDBClosed) else
  let! record := lookup_record key in
  match record with
  | Some (_, record) =>
      gret (inr (negb (bool_decide (lr_Type record = LogRecordDeleted)) && negb (IsExpired record now)))
  | None =>
      let! r := read_index key in
      match r with
      | inl err => gret (inl err)
      | inr None => gret (inr false)
      | inr (Some record) =>
          if bool_decide (lr_Type record = LogRecordDeleted) || IsExpired record now then
            on_db (index_Delete (lr_Key record)) ;;; gret (inr false)
          else gret (inr true)
      end
  end.

(** ** Expiry *)
Definition set_Expire (expire : Z) (r : LogRecord) : LogRecord :=
  MkLogRecord (lr_Key r) (lr_Value r) (lr_Type r) (lr_BatchId r) expire.

Definition Batch_Expire (now now' : Z) (key : bytes) (ttl : Z) : BatchM (option error) :=
  write_guards key (
    let! record := lookup_record key in
    match record with
    | Some (entry, record) =>
        if bool_decide (lr_Type record = LogRecordDeleted) || IsExpired record now
        then gret (Some ErrKeyNotFound)
        else b_modify (update_pending entry (set_Expire (i64 (now' + ttl)))) ;;; gret None
    | None =>
        let! r := read_index key in
        match r with
        | inl err => gret (Some err)
        | inr None => gret (Some ErrKeyNotFound)
        | inr (Some record) =>
            if bool_decide (lr_Type record = LogRecordDeleted) || IsExpired record now then
              on_db (index_Delete key) ;;; gret (Some ErrKeyNotFound)
            else
              b_modify (appendPendingWrites key (set_Expire (i64 (now + ttl)) record)) ;;; gret None
        end
    end).

Definition Batch_TTL (now : Z) (key : bytes) : BatchM (error + Z) :=
  if decide (len key = 0) then gret (inl ErrKeyIsEmpty) else
  let! db := on_db db_get in
  if db_closed db then gret (inl ErrDBClosed) else
  let! record := lookup_record key in
  match record with
  | Some (_, record) =>
      if decide (lr_Expire record = 0) then gret (inr (-1))
      else if bool_decide (lr_Type record = LogRecordDeleted) || IsExpired record now
      then gret (inl ErrKeyNotFound)
      else gret (inr (i64 (lr_Expire record - now)))
  | None =>
      let! r := read_index key in
      match r with
      | inl err => gret (inl err)
      | inr None => gret (inl ErrKeyNotFound)
      | inr (Some record) =>
          if bool_decide (lr_Type record = LogRecordDeleted) then gret (inl ErrKeyNotFound)
          else if IsExpired record now then
            on_db (index_Delete key) ;;; gret (inl ErrKeyNotFound)
          else if 0 <? lr_Expire record then gret (inr (i64 (lr_Expire record - now)))
          else gret (inr (-1))
      end
  end.

Definition Batch_Persist (now : Z) (key : bytes) : BatchM (option error) :=
  write_guards key (
    let! record := lookup_record key in
    match record with
    | Some (entry, record) =>
        if bool_decide (lr_Type record = LogRecordDeleted) || IsExpired record now
        then gret (Some ErrKeyNotFound)
        else b_modify (update_pending entry (set_Expire 0)) ;;; gret None
    | None =>
        let! r := read_index key in
        match r with
        | inl err => gret (Some err)
        | inr None => gret (Some ErrKeyNotFound)
        | inr (Some record) =>
            if bool_decide (lr_Type record = LogRecordDeleted) || IsExpired record now then
              on_db (index_Delete (lr_Key record)) ;;; gret (Some ErrKeyNotFound)
            else if decide (lr_Expire record = 0) then gret None
            else b_modify (appendPendingWrites key (set_Expire 0 record)) ;;; gret None
        end
    end).

(** ** Commit *)

(** The loop that encodes the pending records into the buffers of the log: the
    records with the batch id set, the shared header, the log, the buffers. *)
Fixpoint commit_encode (batchId : Z) (records : list LogRecord) (header : bytes) (w : wal)
    (buffers : list bytes) : outcome (list LogRecord * bytes * wal * list bytes) :=
  match records with
  | [] => Ret ([], header, w, buffers)
  | record :: records =>
      let record := MkLogRecord (lr_Key record) (lr_Value record) (lr_Type record)
                      (u64 batchId) (lr_Expire record) in
      '(header, encRecord) ← encodeLogRecord record header [];
      '(records, header, w, buffers) ←
        commit_encode batchId records header (wal_PendingWrites w encRecord) (buffers ++ [encRecord]);
      Ret (record :: records, header, w, buffers)
  end.

(** [b.db.watcher.putEvent(e)] when the watch is enabled. *)
Definition commit_event (record : LogRecord) (db : DB) : outcome DB :=
  if 0 <? o_WatchQueueSize (db_options db) then
    let action := if decide (lr_Type record = LogRecordDeleted)
                  then WatchActionDelete else WatchActionPut in
    match db_watcher db with
    | None => Panic
    | Some w =>
        w ← Watcher_putEvent w (MkEvent action (lr_Key record) (lr_Value record) (lr_BatchId record));
        Ret (set_watcher (Some w) db)
    end
  else Ret db.

(** The loop that writes the index, from record [i] on. *)
Fixpoint commit_index (now : Z) (records : list LogRecord) (i : nat) (positions : list ChunkPosition)
    (db : DB) : outcome DB :=
  match records with
  | [] => Ret db
  | record :: records =>
      db ← (if bool_decide (lr_Type record = LogRecordDeleted) || IsExpired record now
            then Ret (set_index (MemoryBTree_Delete (db_index db) (lr_Key record)).2 db)
            else match positions !! i with
                 | None => Panic
                 | Some p => Ret (set_index (MemoryBTree_Put (db_index db) (lr_Key record) (Some p)).2 db)
                 end);
      db ← commit_event record db;
      commit_index now records (S i) positions (set_recordPool (record :: db_recordPool db) db)
  end.

(** The record that marks the end of a batch. *)
Definition finish_record (batchId : Z) : LogRecord :=
  MkLogRecord (sf_Bytes batchId) [] LogRecordBatchFinished 0 0.

(** What [Commit] does between taking the batch's mutex and the deferred unlock. *)
Definition commit_body (clock now : Z) : BatchM (option error) := fun '(b, s) =>
  let db := st_db s in
  match b_batchId b with
  | None => Panic
  | Some node =>
      let '(batchId, node) := sf_Generate node clock in
      '(records, header, w, buffers) ←
        commit_encode batchId (b_pendingWrites b) (db_encodeHeader db) (db_dataFiles db) (b_buffers b);
      '(header, endRecord) ← encodeLogRecord (finish_record batchId) header [];
      let buffers := buffers ++ [endRecord] in
      let w := wal_PendingWrites w endRecord in
      let b := MkBatch records (b_pendingWritesMap b) (b_options b) (b_committed b) (b_rollbacked b)
                 (Some node) buffers in
      let db := set_encodeHeader header db in
      match wal_WriteAll w (st_fs s) with
      | (inl err, w, fs) =>
          Ret (Some err, (b, MkStore (set_dataFiles (wal_ClearPendingWrites w) db) fs))
      | (inr positions, w, fs) =>
          let db := set_dataFiles w db in
          if decide (length positions <> length (b_pendingWrites b) + 1)%nat then Panic else
          let '(err, fs) :=
            if bo_Sync (b_options b) && negb (o_Sync (db_options db)) then wal_Sync w fs else (None, fs) in
          match err with
          | Some err => Ret (Some err, (b, MkStore db fs))
          | None =>
              db ← commit_index now records 0 positions db;
              Ret (None, (MkBatch records (b_pendingWritesMap b) (b_options b) true (b_rollbacked b)
                            (b_batchId b) (b_buffers b), MkStore db fs))
          end
      end
  end.

Definition Batch_Commit (clock now : Z) : BatchM (option error) :=
  defer_unlock (
    let! db := on_db db_get in
    if db_closed db then gret (Some ErrDBClosed) else
    let! b := b_get in
    if bo_ReadOnly (b_options b) || Nat.eqb (length (b_pendingWrites b)) 0 then gret None else
    if b_committed b then gret (Some ErrBatchCommitted) else
    if b_rollbacked b then gret (Some ErrBatchRollbacked) else
    commit_body clock now).

(** ** Rollback *)
Definition Batch_Rollback : BatchM (option error) :=
  defer_unlock (
    let! db := on_db db_get in
    if db_closed db then gret (Some ErrDBClosed) else
    let! b := b_get in
    if b_committed b then gret (Some ErrBatchCommitted) else
    if b_rollbacked b then gret (Some ErrBatchRollbacked) else
    (if bo_ReadOnly (b_options b) then gret tt else
       on_db (db_modify (fun d => set_recordPool (rev (b_pendingWrites b) ++ db_recordPool d) d)) ;;;
       b_modify (set_pending [] ∅)) ;;;
    b_modify (fun b => MkBatch (b_pendingWrites b) (b_pendingWritesMap b) (b_options b)
                         (b_committed b) true (b_batchId b) (b_buffers b)) ;;;
    gret None).
End batch.
