(* ===== verification/DB.v ===== *)
(** * The database API

    [db.go] but for opening: the one-operation wrappers of batches, the
    traversals, statistics, closing, and the removal of expired keys. *)
From S2P Require Import Prelude GoBinary Config GoOs WalLib Record BTreeLib Index Watch Store Batch.
Open Scope Z_scope.

(** [regexp.Compile] and [Regexp.Match]. *)
Class Regexp : Type := { regexp_Compile : bytes -> error + (bytes -> bool) }.

Section db.
Context {W : WalLib} {B : BTreeLib item item_less} {SF : Snowflake} {MH : MemHashLib} {RX : Regexp}.

(** ** Wrappers of a batch *)
Definition batchPool_Get : DbM Batch := fun s =>
  match db_batchPool (st_db s) with
  | b :: p => Ret (b, MkStore (set_batchPool p (st_db s)) (st_fs s))
  | [] => b ← newBatch; Ret (b, s)
  end.
Definition batchPool_Put (b : Batch) : DbM unit :=
  db_modify (fun d => set_batchPool (b :: db_batchPool d) d).

(** Run batch methods on a batch of the pool; [batch.reset] and
    [db.batchPool.Put] are deferred. *)
Definition with_batch {A} (m : BatchM A) : DbM A := fun s =>
  '(b, s) ← batchPool_Get s;
  '(a, (b, s)) ← m (b, s);
  '(_, (b, s)) ← Batch_reset (b, s);
  '(_, s) ← batchPool_Put b s;
  Ret (a, s).

(** A writing method: the operation, then rollback on an error and commit
    otherwise. *)
Definition write_op (op : BatchM (option error)) (clock now : Z) : DbM (option error) :=
  with_batch (
    Batch_init false false ;;;
    let! err := op in
    match err with
    | Some err => let! _ := Batch_Rollback in gret (Some err)
    | None => Batch_Commit clock now
    end).

(** A reading method; the commit that releases the lock is deferred. *)
Definition read_op {A} (op : BatchM A) : DbM A :=
  with_batch (
    Batch_init true false ;;;
    let! a := op in
    let! _ := Batch_Commit 0 0 in gret a).

Definition DB_Put (clock now : Z) (key value : bytes) : DbM (option error) :=
  write_op (Batch_Put key value) clock now.
Definition DB_PutWithTTL (now clock now' : Z) (key value : bytes) (ttl : Z) : DbM (option error) :=
  write_op (Batch_PutWithTTL now key value ttl) clock now'.
Definition DB_Get (now : Z) (key : bytes) : DbM (error + bytes) := read_op (Batch_Get now key).
Definition DB_Delete (clock now : Z) (key : bytes) : DbM (option error) :=
  write_op (Batch_Delete key) clock now.
Definition DB_Exist (now : Z) (key : bytes) : DbM (error + bool) := read_op (Batch_Exist now key).
Definition DB_Expire (now now2 clock now' : Z) (key : bytes) (ttl : Z) : DbM (option error) :=
  write_op (Batch_Expire now now2 key ttl) clock now'.
Definition DB_TTL (now : Z) (key : bytes) : DbM (error + Z) := read_op (Batch_TTL now key).
Definition DB_Persist (now clock now' : Z) (key : bytes) : DbM (option error) :=
  write_op (Batch_Persist now key) clock now'.

(** [db.Watch]: the channel is the one the watcher's goroutine feeds. *)
Definition DB_Watch : DbM (option error) :=
  let! db := db_get in
  if o_WatchQueueSize (db_options db) <=? 0 then gret (Some ErrWatchDisabled) else gret None.

(** ** Maintenance *)
Definition with_lock {A} (m : DbM A) : DbM A :=
  db_with_mu mu_Lock ;;; let! a := m in db_with_mu mu_Unlock ;;; gret a.
Definition with_rlock {A} (m : DbM A) : DbM A :=
  db_with_mu mu_RLock ;;; let! a := m in db_with_mu mu_RUnlock ;;; gret a.

Definition DB_Sync : DbM (option error) := with_lock (fun s =>
  let '(err, fs) := wal_Sync (db_dataFiles (st_db s)) (st_fs s) in Ret (err, MkStore (st_db s) fs)).

Record Stat : Type := MkStat { KeysNum : Z; DiskSize : Z }.

(** [utils.DirSize]: the sizes of the files of a directory that exists. *)
Definition DirSize (fs : FileSys) (dirPath : bytes) : option Z :=
  if os_dir_exists fs dirPath
  then Some (map_fold (fun p c size => if decide (p.1 = dirPath) then size + len c else size) 0
               (fs_files fs))
  else None.

Definition DB_Stat : DbM Stat := with_lock (fun s =>
  match DirSize (st_fs s) (o_DirPath (db_options (st_db s))) with
  | None => Panic
  | Some diskSize => Ret (MkStat (MemoryBTree_Size (db_index (st_db s))) diskSize, s)
  end).

(** [db.closeFiles] *)
Definition closeFiles : DbM (option error) := fun s =>
  let '(err, w, fs) := wal_Close (db_dataFiles (st_db s)) (st_fs s) in
  let s := MkStore (set_dataFiles w (st_db s)) fs in
  match err with
  | Some err => Ret (Some err, s)
  | None =>
      match db_hintFile (st_db s) with
      | None => Ret (None, s)
      | Some h =>
          let '(err, h, fs) := wal_Close h (st_fs s) in
          Ret (err, MkStore (set_hintFile (Some h) (st_db s)) fs)
      end
  end.

(** [db.Close]; [unlock_err] is what releasing the file lock returns.  A merge
    that is running is waited for. *)
Definition DB_Close (unlock_err : option error) : DbM (option error) := fun s =>
  if db_mergeRunning (st_db s) then Blocked else
  with_lock (
    let! err := closeFiles in
    match err with
    | Some err => gret (Some err)
    | None =>
        match unlock_err with
        | Some err => gret (Some err)
        | None =>
            let! db := db_get in
            (if 0 <? o_WatchQueueSize (db_options db) then
               match db_watcher db with
               | None => glift Panic
               | Some w => let! w := glift (Watcher_Close w) in db_modify (set_watcher (Some w))
               end
             else gret tt) ;;;
            db_modify (set_closed true) ;;;
            gret None
        end
    end) s.

(** ** Traversals

    The callback works on a state [S]; [clock] gives the reading of the clock at
    each key.  A panic in the middle ends the traversal. *)
Definition checkValue (now : Z) (chunk : bytes) : outcome (option bytes) :=
  record ← decodeLogRecord chunk;
  Ret (if negb (bool_decide (lr_Type record = LogRecordDeleted)) && negb (IsExpired record now)
       then Some (lr_Value record) else None).

Definition kv_fn (S : Type) : Type := bytes -> bytes -> S -> (bool * option error) * S.
Definition key_fn (S : Type) : Type := bytes -> S -> (bool * option error) * S.

(** [db.dataFiles.Read(pos)]: a nil position panics. *)
Definition read_pos (db : DB) (fs : FileSys) (pos : option ChunkPosition) : outcome (error + bytes) :=
  match pos with None => Panic | Some pos => Ret (wal_Read (db_dataFiles db) fs pos) end.

Section traversal.
Context {S : Type} (db : DB) (fs : FileSys) (clock : bytes -> Z).

(** The callbacks of the index traversals; [onerr] is the error they return
    when the log cannot be read. *)
Definition value_fn (onerr : error -> option error) (handleFn : kv_fn S) : handle_fn (outcome S) :=
  fun key pos st =>
    match st with
    | Panic | Blocked => ((false, None), st)
    | Ret s =>
        match read_pos db fs pos with
        | Panic | Blocked => ((false, None), Panic)
        | Ret (inl err) => ((false, onerr err), st)
        | Ret (inr chunk) =>
            match checkValue (clock key) chunk with
            | Panic | Blocked => ((false, None), Panic)
            | Ret (Some value) => let '(r, s) := handleFn key value s in (r, Ret s)
            | Ret None => ((true, None), st)
            end
        end
    end.

Definition keys_fn (reg : option (bytes -> bool)) (filterExpired : bool) (handleFn : key_fn S) :
    handle_fn (outcome S) :=
  fun key pos st =>
    match st with
    | Panic | Blocked => ((false, None), st)
    | Ret s =>
        if match reg with Some m => negb (m key) | None => false end then ((true, None), st) else
        if filterExpired then
          match read_pos db fs pos with
          | Panic | Blocked => ((false, None), Panic)
          | Ret (inl err) => ((false, Some err), st)
          | Ret (inr chunk) =>
              match checkValue (clock key) chunk with
              | Panic | Blocked => ((false, None), Panic)
              | Ret None => ((true, None), st)
              | Ret (Some _) => let '(r, s) := handleFn key s in (r, Ret s)
              end
          end
        else let '(r, s) := handleFn key s in (r, Ret s)
    end.
End traversal.

(** A traversal of the index under the read lock. *)
Definition traverse {S} (go : MemoryBTree -> handle_fn (outcome S) -> outcome S -> outcome S)
    (f : DB -> FileSys -> handle_fn (outcome S)) (s : S) : DbM S :=
  with_rlock (fun st => r ← go (db_index (st_db st)) (f (st_db st) (st_fs st)) (Ret s); Ret (r, st)).

Definition DB_Ascend {S} (clock : bytes -> Z) (handleFn : kv_fn S) (s : S) : DbM S :=
  traverse MemoryBTree_Ascend (fun db fs => value_fn db fs clock Some handleFn) s.
Definition DB_AscendRange {S} (clock : bytes -> Z) (startKey endKey : bytes) (handleFn : kv_fn S) (s : S) :
    DbM S :=
  traverse (fun mt => MemoryBTree_AscendRange mt startKey endKey)
    (fun db fs => value_fn db fs clock (fun _ => None) handleFn) s.
Definition DB_AscendGreaterOrEqual {S} (clock : bytes -> Z) (key : bytes) (handleFn : kv_fn S) (s : S) :
    DbM S :=
  traverse (fun mt => MemoryBTree_AscendGreaterOrEqual mt key)
    (fun db fs => value_fn db fs clock (fun _ => None) handleFn) s.
Definition DB_Descend {S} (clock : bytes -> Z) (handleFn : kv_fn S) (s : S) : DbM S :=
  traverse MemoryBTree_Descend (fun db fs => value_fn db fs clock (fun _ => None) handleFn) s.
Definition DB_DescendRange {S} (clock : bytes -> Z) (startKey endKey : bytes) (handleFn : kv_fn S) (s : S) :
    DbM S :=
  traverse (fun mt => MemoryBTree_DescendRange mt startKey endKey)
    (fun db fs => value_fn db fs clock (fun _ => None) handleFn) s.
Definition DB_DescendLessOrEqual {S} (clock : bytes -> Z) (key : bytes) (handleFn : kv_fn S) (s : S) :
    DbM S :=
  traverse (fun mt => MemoryBTree_DescendLessOrEqual mt key)
    (fun db fs => value_fn db fs clock (fun _ => None) handleFn) s.

(** The compiled pattern of the key traversals; none for an empty one. *)
Definition compile_pattern (pattern : bytes) : error + option (bytes -> bool) :=
  if decide (0 < len pattern) then
    match regexp_Compile pattern with inl err => inl err | inr m => inr (Some m) end
  else inr None.

Definition traverse_keys {S} (go : MemoryBTree -> handle_fn (outcome S) -> outcome S -> outcome S)
    (clock : bytes -> Z) (pattern : bytes) (filterExpired : bool) (handleFn : key_fn S) (s : S) :
    DbM (option error * S) :=
  with_rlock (
    match compile_pattern pattern with
    | inl err => gret (Some err, s)
    | inr reg => fun st =>
        r ← go (db_index (st_db st)) (keys_fn (st_db st) (st_fs st) clock reg filterExpired handleFn) (Ret s);
        Ret ((None, r), st)
    end).

Definition DB_AscendKeys {S} (clock : bytes -> Z) (pattern : bytes) (filterExpired : bool)
    (handleFn : key_fn S) (s : S) : DbM (option error * S) :=
  traverse_keys MemoryBTree_Ascend clock pattern filterExpired handleFn s.
Definition DB_AscendKeysRange {S} (clock : bytes -> Z) (startKey endKey pattern : bytes)
    (filterExpired : bool) (handleFn : key_fn S) (s : S) : DbM (option error * S) :=
  traverse_keys (fun mt => MemoryBTree_AscendRange mt startKey endKey) clock pattern filterExpired handleFn s.
Definition DB_DescendKeys {S} (clock : bytes -> Z) (pattern : bytes) (filterExpired : bool)
    (handleFn : key_fn S) (s : S) : DbM (option error * S) :=
  traverse_keys MemoryBTree_Descend clock pattern filterExpired handleFn s.
Definition DB_DescendKeysRange {S} (clock : bytes -> Z) (startKey endKey pattern : bytes)
    (filterExpired : bool) (handleFn : key_fn S) (s : S) : DbM (option error * S) :=
  traverse_keys (fun mt => MemoryBTree_DescendRange mt startKey endKey) clock pattern filterExpired handleFn s.

(** ** [DeleteExpiredKeys] *)

(** The callback that selects the next positions, at most a hundred. *)
Definition select_fn : handle_fn (list (option ChunkPosition)) := fun _ pos positions =>
  let positions := positions ++ [pos] in
  ((negb (100 <=? len positions), None), positions).

(** The loop over the selected positions. *)
Fixpoint expire_positions (now : Z) (positions : list (option ChunkPosition)) : DbM (option error) :=
  match positions with
  | [] => gret None
  | pos :: positions => fun s =>
      r ← read_pos (st_db s) (st_fs s) pos;
      match r with
      | inl err => Ret (Some err, s)
      | inr chunk =>
          record ← decodeLogRecord chunk;
          '(_, s) ← (if IsExpired record now then index_Delete (lr_Key record) s else Ret (tt, s));
          '(_, s) ← db_modify (set_expiredCursorKey (lr_Key record)) s;
          expire_positions now positions s
      end
  end.

(** The loop of the goroutine: [Some err] when it sends [err] on the channel,
    [None] when it is still running after [fuel] rounds. *)
Fixpoint expire_loop (fuel : nat) (now : Z) : DbM (option (option error)) :=
  match fuel with
  | O => gret None
  | S fuel =>
      let! db := db_get in
      let positions :=
        MemoryBTree_AscendGreaterOrEqual (db_index db) (db_expiredCursorKey db) select_fn [] in
      if decide (len positions = 0) then
        db_modify (set_expiredCursorKey []) ;;; gret (Some None)
      else
        let! err := expire_positions now positions in
        match err with
        | Some err => gret (Some (Some err))
        | None => expire_loop fuel now
        end
  end.

(** The goroutine: it holds the lock until the loop ends. *)
Definition expire_task (fuel : nat) (now : Z) : DbM (option (option error)) :=
  db_with_mu mu_Lock ;;;
  let! r := expire_loop fuel now in
  match r with
  | Some _ => db_with_mu mu_Unlock ;;; gret r
  | None => gret None
  end.

(** [db.DeleteExpiredKeys]: the caller returns nil when the timeout comes first,
    and the goroutine goes on; [fuel] is the number of rounds run by then. *)
Definition DB_DeleteExpiredKeys (fuel : nat) (now : Z) : DbM (option error) :=
  let! r := expire_task fuel now in
  match r with Some err => gret err | None => gret None end.
End db.
