(* ===== verification/Open.v ===== *)
(** * Opening a database

    [Open], [openWalFiles], [loadIndex] and [loadIndexFromWAL] of [db.go], with
    [loadMergeFiles], [getMergeFinSegmentId] and [loadIndexFromHintFile] of
    [merge.go].  A loop over a reader takes [fuel] rounds at most; running out of
    fuel is [Blocked].  The file [FLOCK] is not on the modelled disk: what its
    lock answers is an argument. *)
From S2P Require Import Prelude GoBinary Config GoOs Filepath WalLib Record BTreeLib Index Watch Store Batch DB.
Open Scope Z_scope.

(** The records of batches not yet seen to end, by batch id. *)
Abbreviation index_records := (gmap Z (list IndexRecord)).

Section open.
Context {W : WalLib} {B : BTreeLib item item_less} {SF : Snowflake} {MH : MemHashLib}.

(** ** Merged files

    A file that cannot be opened, for whatever reason, means no finished merge. *)
Definition getMergeFinSegmentId (fs : FileSys) (mergePath : bytes) : outcome (error + Z) :=
  let file := SegmentFileName mergePath mergeFinNameSuffix 1 in
  match os_Open fs file with
  | inl _ => Ret (inr 0)
  | inr mergeFinFile =>
      match fs_denies fs (OsRead file) with
      | Some err => Ret (inl err)
      | None =>
          match os_ReadAt mergeFinFile 7 4 with
          | None => Ret (inl io_EOF)
          | Some mergeFinBuf => id ← LittleEndian_Uint32 mergeFinBuf; Ret (inr id)
          end
      end
  end.

(** The closure [copyFile] of [loadMergeFiles]; the error of [os.Rename] is
    dropped. *)
Definition copyFile (mergeDir dirPath suffix : bytes) (fileId : Z) (force : bool) (fs : FileSys) :
    outcome FileSys :=
  let srcFile := SegmentFileName mergeDir suffix fileId in
  match os_Stat fs srcFile with
  | StatNotExist => Ret fs
  | StatError _ => Panic
  | StatOk size =>
      if negb force && (size =? 0) then Ret fs
      else Ret (os_Rename fs srcFile (SegmentFileName dirPath suffix fileId)).2
  end.

(** One round of the loop over the merged segments. *)
Definition load_segment (mergeDir dirPath : bytes) (fileId : Z) (fs : FileSys) :
    outcome (option error * FileSys) :=
  let destFile := SegmentFileName dirPath dataFileNameSuffix fileId in
  let '(err, fs) := match os_Stat fs destFile with
                    | StatOk _ => os_Remove fs destFile
                    | _ => (None, fs)
                    end in
  match err with
  | Some err => Ret (Some err, fs)
  | None => fs ← copyFile mergeDir dirPath dataFileNameSuffix fileId false fs; Ret (None, fs)
  end.

Fixpoint load_segments (mergeDir dirPath : bytes) (fileIds : list Z) (fs : FileSys) :
    outcome (option error * FileSys) :=
  match fileIds with
  | [] => Ret (None, fs)
  | fileId :: fileIds =>
      '(err, fs) ← load_segment mergeDir dirPath fileId fs;
      match err with
      | Some err => Ret (Some err, fs)
      | None => load_segments mergeDir dirPath fileIds fs
      end
  end.

(** The segment ids [1, ..., n]. *)
Definition ids_to (n : Z) : list Z := (fun i => Z.of_nat i + 1) <$> seq 0 (Z.to_nat n).

(** Once there is a merge directory it is removed in the end, whatever happens;
    the error of that is dropped.  The counter is a [uint32]: counting up to its
    last value never ends. *)
Definition loadMergeFiles (dirPath : bytes) (fs : FileSys) : outcome (option error * FileSys) :=
  let mergeDir := mergeDirPath dirPath in
  match os_StatDir fs mergeDir with
  | StatNotExist => Ret (None, fs)
  | StatError err => Ret (Some err, fs)
  | StatOk _ =>
      fin ← getMergeFinSegmentId fs mergeDir;
      match fin with
      | inl err => Ret (Some err, (os_RemoveAll fs mergeDir).2)
      | inr mergeFinSegmentId =>
          '(err, fs) ← load_segments mergeDir dirPath (ids_to mergeFinSegmentId) fs;
          match err with
          | Some err => Ret (Some err, (os_RemoveAll fs mergeDir).2)
          | None =>
              if decide (mergeFinSegmentId = 2 ^ 32 - 1) then Blocked else
              fs ← copyFile mergeDir dirPath mergeFinNameSuffix 1 true fs;
              fs ← copyFile mergeDir dirPath hintFileNameSuffix 1 true fs;
              Ret (None, (os_RemoveAll fs mergeDir).2)
          end
      end
  end.

(** ** Loading the index *)
Fixpoint load_hint_loop (fuel : nat) (reader : wal_reader) (index : MemoryBTree) :
    outcome (option error * MemoryBTree) :=
  match fuel with
  | O => Blocked
  | S fuel =>
      match reader_Next reader with
      | (inl err, _) => Ret (if decide (err = io_EOF) then None else Some err, index)
      | (inr (chunk, _), reader) =>
          '(key, position) ← decodeHintRecord chunk;
          load_hint_loop fuel reader (MemoryBTree_Put index key (Some position)).2
      end
  end.

Definition hint_options (dirPath : bytes) : WalOptions :=
  MkWalOptions dirPath MaxInt64 hintFileNameSuffix false 0.

Definition loadIndexFromHintFile (fuel : nat) (dirPath : bytes) (index : MemoryBTree) (fs : FileSys) :
    outcome (option error * MemoryBTree * FileSys) :=
  match wal_Open (hint_options dirPath) fs with
  | (inl err, fs) => Ret (Some err, index, fs)
  | (inr hintFile, fs) =>
      let reader := wal_NewReader hintFile fs in
      let hintFile := wal_SetIsStartupTraversal hintFile true in
      '(err, index) ← load_hint_loop fuel reader index;
      let '(_, _, fs) := wal_Close hintFile fs in
      Ret (err, index, fs)
  end.

(** One record of a finished batch. *)
Definition index_record (index : MemoryBTree) (r : IndexRecord) : MemoryBTree :=
  let index := if decide (ir_recordType r = LogRecordNormal)
               then (MemoryBTree_Put index (ir_key r) (Some (ir_position r))).2 else index in
  if decide (ir_recordType r = LogRecordDeleted)
  then (MemoryBTree_Delete index (ir_key r)).2 else index.

Definition mergeFinishedBatchID : Z := 0.

(** What [loadIndexFromWAL] does with one record. *)
Definition load_record (now : Z) (record : LogRecord) (position : ChunkPosition)
    (index : MemoryBTree) (indexRecords : index_records) : error + MemoryBTree * index_records :=
  if decide (lr_Type record = LogRecordBatchFinished) then
    match sf_ParseBytes (lr_Key record) with
    | inl err => inl err
    | inr batchId =>
        inr (fold_left index_record (default [] (indexRecords !! u64 batchId)) index,
             delete (u64 batchId) indexRecords)
    end
  else if decide (lr_Type record = LogRecordNormal /\ lr_BatchId record = mergeFinishedBatchID) then
    inr ((MemoryBTree_Put index (lr_Key record) (Some position)).2, indexRecords)
  else if IsExpired record now then
    inr ((MemoryBTree_Delete index (lr_Key record)).2, indexRecords)
  else
    inr (index,
         <[lr_BatchId record := default [] (indexRecords !! lr_BatchId record)
             ++ [MkIndexRecord (lr_Key record) (lr_Type record) position]]> indexRecords).

Fixpoint load_wal_loop (fuel : nat) (now mergeFinSegmentId : Z) (reader : wal_reader)
    (index : MemoryBTree) (indexRecords : index_records) : outcome (option error * MemoryBTree) :=
  match fuel with
  | O => Blocked
  | S fuel =>
      id ← reader_CurrentSegmentId reader;
      if id <=? mergeFinSegmentId
      then load_wal_loop fuel now mergeFinSegmentId (reader_SkipCurrentSegment reader) index indexRecords
      else
        match reader_Next reader with
        | (inl err, _) => Ret (if decide (err = io_EOF) then None else Some err, index)
        | (inr (chunk, position), reader) =>
            record ← decodeLogRecord chunk;
            match load_record now record position index indexRecords with
            | inl err => Ret (Some err, index)
            | inr (index, indexRecords) =>
                load_wal_loop fuel now mergeFinSegmentId reader index indexRecords
            end
        end
  end.

Definition loadIndexFromWAL (fuel : nat) (now : Z) (dirPath : bytes) (dataFiles : wal)
    (index : MemoryBTree) (fs : FileSys) : outcome (option error * MemoryBTree * wal) :=
  fin ← getMergeFinSegmentId fs dirPath;
  match fin with
  | inl err => Ret (Some err, index, dataFiles)
  | inr mergeFinSegmentId =>
      let reader := wal_NewReader dataFiles fs in
      let dataFiles := wal_SetIsStartupTraversal dataFiles true in
      '(err, index) ← load_wal_loop fuel now mergeFinSegmentId reader index ∅;
      Ret (err, index, match err with
                       | Some _ => dataFiles | None => wal_SetIsStartupTraversal dataFiles false end)
  end.

Definition loadIndex (fuel : nat) (now : Z) (db : DB) (fs : FileSys) : outcome (option error * DB * FileSys) :=
  let dirPath := o_DirPath (db_options db) in
  '(err, index, fs) ← loadIndexFromHintFile fuel dirPath (db_index db) fs;
  let db := set_index index db in
  match err with
  | Some err => Ret (Some err, db, fs)
  | None =>
      '(err, index, w) ← loadIndexFromWAL fuel now dirPath (db_dataFiles db) (db_index db) fs;
      Ret (err, set_dataFiles w (set_index index db), fs)
  end.

(** ** Opening *)
Definition wal_options (options : Options) : WalOptions :=
  MkWalOptions (o_DirPath options) (o_SegmentSize options) dataFileNameSuffix
    (o_Sync options) (o_BytesPerSync options).

Definition openWalFiles (options : Options) (fs : FileSys) : (error + wal) * FileSys :=
  wal_Open (wal_options options) fs.

(** The [DB] value [Open] makes, its data files open. *)
Definition new_db (options : Options) (dataFiles : wal) : DB :=
  MkDB dataFiles None NewIndexer options mu_free false false [] []
    (replicate (Z.to_nat maxLogRecordHeaderSize) x00) None [].

(** The directory [Open] makes when [os.Stat] does not find it. *)
Definition open_dir (dirPath : bytes) (fs : FileSys) : option error * FileSys :=
  match os_StatDir fs dirPath with StatOk _ => (None, fs) | _ => os_MkdirAll fs dirPath end.

(** [Open(options)]: [hold] is what trying the file lock returns, [cron_Parse]
    and [cron_AddFunc] are the parsers of the scheduler. *)
Definition DB_Open (cron_Parse cron_AddFunc : bytes -> option error) (hold : error + bool)
    (fuel : nat) (now : Z) (options : Options) (fs : FileSys) : outcome ((error + DB) * FileSys) :=
  match checkOptions cron_Parse options with
  | Some err => Ret (inl err, fs)
  | None =>
      match open_dir (o_DirPath options) fs with
      | (Some err, fs) => Ret (inl err, fs)
      | (None, fs) =>
          match hold with
          | inl err => Ret (inl err, fs)
          | inr false => Ret (inl ErrDatabaseIsUsing, fs)
          | inr true =>
              '(err, fs) ← loadMergeFiles (o_DirPath options) fs;
              match err with
              | Some err => Ret (inl err, fs)
              | None =>
                  match openWalFiles options fs with
                  | (inl err, fs) => Ret (inl err, fs)
                  | (inr dataFiles, fs) =>
                      '(err, db, fs) ← loadIndex fuel now (new_db options dataFiles) fs;
                      match err with
                      | Some err => Ret (inl err, fs)
                      | None =>
                          let db := if 0 <? o_WatchQueueSize options
                                    then set_watcher (Some (NewWatcher (o_WatchQueueSize options))) db
                                    else db in
                          match (if 0 <? len (o_AutoMergeCronExpr options)
                                 then cron_AddFunc (o_AutoMergeCronExpr options) else None) with
                          | Some err => Ret (inl err, fs)
                          | None => Ret (inr db, fs)
                          end
                      end
                  end
              end
          end
      end
  end.
End open.
