(* ===== verification/View.v ===== *)
(** * What a store means: maps of live keys

    The specification the database is measured against: a map from keys to
    values with an expiry time, read at a time [t] through [live t].  Two maps
    with the same live entries at [t] are equivalent, and stay so later; the
    equivalence is what lazily removed expired keys require.

    [db_view] is the map a database shows, [batch_view] the map a batch shows;
    [db_inv] and [batch_inv] are the invariants the operations keep. *)
From S2P Require Import Prelude GoBinary Config GoOs WalLib Record BTreeLib Index Watch Store Batch.
Open Scope Z_scope.

(** ** Maps with expiry *)
Abbreviation vmap := (gmap bytes (bytes * Z)).

Definition expired (e t : Z) : bool := (0 <? e) && (e <=? t).

Definition live (t : Z) (m : vmap) : vmap := filter (fun kv => expired kv.2.2 t = false) m.

Definition live_eq (t : Z) (m m' : vmap) : Prop := live t m = live t m'.

Definition rec_val (r : LogRecord) : bytes * Z := (lr_Value r, lr_Expire r).

(** The effect of a record on the map. *)
Definition apply_record (m : vmap) (r : LogRecord) : vmap :=
  if decide (lr_Type r = LogRecordDeleted) then delete (lr_Key r) m
  else <[lr_Key r := rec_val r]> m.

Lemma IsExpired_expired r t : IsExpired r t = expired (lr_Expire r) t.
Proof. done. Qed.

Lemma expired_mono e t t' : t <= t' -> expired e t = true -> expired e t' = true.
Proof. unfold expired. rewrite !andb_true_iff, !Z.ltb_lt, !Z.leb_le. lia. Qed.

Lemma live_lookup t m k :
  live t m !! k = match m !! k with
                  | Some (v, e) => if expired e t then None else Some (v, e)
                  | None => None
                  end.
Proof.
  unfold live. destruct (m !! k) as [[v e]|] eqn:E.
  - destruct (expired e t) eqn:Ex.
    + apply map_lookup_filter_None_2. right. intros x Hx. simplify_eq. simpl. congruence.
    + apply map_lookup_filter_Some_2; done.
  - apply map_lookup_filter_None_2. by left.
Qed.

#[export] Instance live_eq_equivalence t : Equivalence (live_eq t).
Proof. unfold live_eq. split; [by intros m|by intros m m'|intros m1 m2 m3; congruence]. Qed.

Lemma live_eq_lookup t m m' : live_eq t m m' <-> forall k, live t m !! k = live t m' !! k.
Proof. unfold live_eq. split; [by intros -> k|]. intros H. by apply map_eq. Qed.

#[export] Instance insert_live_eq t k v : Proper (live_eq t ==> live_eq t) (<[k := v]>).
Proof.
  intros m m' H. apply live_eq_lookup. intros j. rewrite live_eq_lookup in H. specialize (H j).
  rewrite !live_lookup in *. destruct (decide (j = k)) as [->|Hne].
  - by rewrite !lookup_insert_eq.
  - by rewrite !lookup_insert_ne.
Qed.

#[export] Instance delete_live_eq t k : Proper (live_eq t ==> live_eq t) (delete k).
Proof.
  intros m m' H. apply live_eq_lookup. intros j. rewrite live_eq_lookup in H. specialize (H j).
  rewrite !live_lookup in *. destruct (decide (j = k)) as [->|Hne].
  - by rewrite !lookup_delete_eq.
  - by rewrite !lookup_delete_ne.
Qed.

#[export] Instance apply_record_live_eq t :
  Proper (live_eq t ==> (=) ==> live_eq t) apply_record.
Proof.
  intros m m' H r r' <-. unfold apply_record. case_decide.
  - by apply delete_live_eq.
  - by apply insert_live_eq.
Qed.

#[export] Instance apply_records_live_eq t :
  Proper ((=) ==> live_eq t ==> live_eq t) (fold_left apply_record).
Proof.
  intros rs rs' <- m m' H. revert m m' H. induction rs as [|r rs IH]; intros m m' H; [done|].
  simpl. apply IH. by rewrite H.
Qed.

#[export] Instance live_live_eq t : Proper (live_eq t ==> (=)) (live t).
Proof. by intros m m' H. Qed.

Lemma live_live t t' m : t <= t' -> live t' (live t m) = live t' m.
Proof.
  intros Ht. apply map_eq. intros k. rewrite !live_lookup.
  destruct (m !! k) as [[v e]|]; [|done]. destruct (expired e t) eqn:E; [|done].
  by rewrite (expired_mono e t t' Ht E).
Qed.

Lemma live_eq_mono t t' m m' : t <= t' -> live_eq t m m' -> live_eq t' m m'.
Proof. unfold live_eq. intros Ht E. by rewrite <- (live_live t t' m), E, live_live. Qed.

(** Dropping an entry that has expired, and adding one. *)
Lemma live_eq_delete_expired t k m v e :
  m !! k = Some (v, e) -> expired e t = true -> live_eq t (delete k m) m.
Proof.
  intros Hk He. apply live_eq_lookup. intros j. rewrite !live_lookup.
  destruct (decide (j = k)) as [->|Hne].
  - by rewrite lookup_delete_eq, Hk, He.
  - by rewrite lookup_delete_ne.
Qed.

Lemma live_eq_insert_expired t k m v e :
  expired e t = true -> live_eq t (<[k := (v, e)]> m) (delete k m).
Proof.
  intros He. apply live_eq_lookup. intros j. rewrite !live_lookup.
  destruct (decide (j = k)) as [->|Hne].
  - by rewrite lookup_delete_eq, lookup_insert_eq, He.
  - by rewrite lookup_delete_ne, lookup_insert_ne.
Qed.

(** ** The pending writes as a map *)
Definition pend_view (pend : list LogRecord) : gmap bytes LogRecord :=
  list_to_map ((fun r => (lr_Key r, r)) <$> pend).

Definition rec_opt (r : LogRecord) : option (bytes * Z) :=
  if decide (lr_Type r = LogRecordDeleted) then None else Some (rec_val r).

Lemma apply_record_lookup m r k :
  apply_record m r !! k = if decide (lr_Key r = k) then rec_opt r else m !! k.
Proof.
  unfold apply_record, rec_opt. case_decide; case_decide; subst.
  - apply lookup_delete_eq.
  - by apply lookup_delete_ne.
  - apply lookup_insert_eq.
  - by apply lookup_insert_ne.
Qed.

Lemma pend_view_fst pend : ((fun r => (lr_Key r, r)) <$> pend).*1 = lr_Key <$> pend.
Proof. by rewrite <- list_fmap_compose. Qed.

Lemma pend_view_Some pend k r :
  NoDup (lr_Key <$> pend) -> pend_view pend !! k = Some r <-> r ∈ pend /\ lr_Key r = k.
Proof.
  intros Hnd. unfold pend_view. rewrite <- elem_of_list_to_map by (by rewrite pend_view_fst).
  rewrite list_elem_of_fmap. split.
  - by intros (r' & [= -> ->] & Hr).
  - intros [Hr <-]. by exists r.
Qed.

Lemma pend_view_None pend k : pend_view pend !! k = None <-> k ∉ lr_Key <$> pend.
Proof. unfold pend_view. rewrite <- not_elem_of_list_to_map. by rewrite pend_view_fst. Qed.

Lemma apply_records_lookup pend m k :
  NoDup (lr_Key <$> pend) ->
  fold_left apply_record pend m !! k
    = match pend_view pend !! k with Some r => rec_opt r | None => m !! k end.
Proof.
  revert m. induction pend as [|r pend IH]; intros m Hnd; [done|].
  rewrite fmap_cons, NoDup_cons in Hnd. destruct Hnd as [Hr Hnd]. simpl.
  rewrite IH by done. unfold pend_view. rewrite fmap_cons. simpl. fold (pend_view pend).
  destruct (decide (lr_Key r = k)) as [<-|Hne].
  - rewrite lookup_insert_eq. apply pend_view_None in Hr. rewrite Hr.
    by rewrite apply_record_lookup, decide_True.
  - rewrite lookup_insert_ne by done. destruct (pend_view pend !! k); [done|].
    by rewrite apply_record_lookup, decide_False.
Qed.

(** A new record, or a record in the place of one of the same key, acts on top. *)
Lemma apply_records_update pend pend' r m :
  NoDup (lr_Key <$> pend) -> NoDup (lr_Key <$> pend') ->
  pend_view pend' = <[lr_Key r := r]> (pend_view pend) ->
  fold_left apply_record pend' m = apply_record (fold_left apply_record pend m) r.
Proof.
  intros H H' E. apply map_eq. intros k.
  rewrite apply_record_lookup, !apply_records_lookup, E by done.
  case_decide as Hk.
  - by rewrite Hk, lookup_insert_eq.
  - by rewrite lookup_insert_ne.
Qed.

Section view.
Context {W : WalLib} {WL : WalLaws W} {B : BTreeLib item item_less} {BL : BTreeLaws B}
  {SF : Snowflake} {MH : MemHashLib}.
Implicit Types (s : Store) (b : Batch) (k : bytes) (r : LogRecord).

(** ** What a store shows *)

(** The record a position points to. *)
Definition fetch (w : wal) (fs : FileSys) (p : ChunkPosition) : option LogRecord :=
  match wal_Read w fs p with
  | inr chunk => match decodeLogRecord chunk with Ret r => Some r | _ => None end
  | inl _ => None
  end.

Definition db_rec s k : option LogRecord :=
  p ← mt_map (db_index (st_db s)) !! k ≫= id; fetch (db_dataFiles (st_db s)) (st_fs s) p.

Definition db_view s : vmap :=
  omap (fun op : option ChunkPosition => p ← op; rec_val <$> fetch (db_dataFiles (st_db s)) (st_fs s) p)
    (mt_map (db_index (st_db s))).

Definition batch_view b s : vmap := fold_left apply_record (b_pendingWrites b) (db_view s).

Lemma db_view_lookup s k : db_view s !! k = rec_val <$> db_rec s k.
Proof.
  unfold db_view, db_rec. rewrite lookup_omap.
  destruct (mt_map _ !! k) as [[p|]|]; simpl; [|done|done]. by destruct (fetch _ _ p).
Qed.

(** ** Invariants *)
Definition rec_ok r : Prop := LogRecord_ok r /\ lr_Key r <> [] /\ 
  (lr_Type r = LogRecordNormal \/ lr_Type r = LogRecordDeleted).

(** An entry of the index points to a chunk of the log that holds its key. *)
Definition entry_ok (log : list (ChunkPosition * bytes)) k (op : option ChunkPosition) : Prop :=
  exists p r, op = Some p /\ (p, record_bytes r) ∈ log /\ rec_ok r /\ lr_Key r = k /\
              lr_Type r = LogRecordNormal.

Record db_inv s : Prop := {
  di_wal : wal_ok (db_dataFiles (st_db s)) (st_fs s);
  di_pend : wal_pend (db_dataFiles (st_db s)) = [];
  di_index : forall k op, mt_map (db_index (st_db s)) !! k = Some op ->
    entry_ok (wal_log (db_dataFiles (st_db s)) (st_fs s)) k op;
  di_header : len (db_encodeHeader (st_db s)) = maxLogRecordHeaderSize;
  di_watch : 0 < o_WatchQueueSize (db_options (st_db s)) ->
    exists w, db_watcher (st_db s) = Some w /\ watcher_wf w;
}.

Record batch_inv b : Prop := {
  bi_keys : NoDup (lr_Key <$> b_pendingWrites b);
  bi_recs : Forall rec_ok (b_pendingWrites b);
  bi_entries : forall h e, e ∈ default [] (b_pendingWritesMap b !! h) ->
    (e < length (b_pendingWrites b))%nat;
  bi_find : forall e r, b_pendingWrites b !! e = Some r ->
    e ∈ default [] (b_pendingWritesMap b !! MemHash (lr_Key r));
}.

Lemma empty_batch_inv o c rb id bufs : batch_inv (MkBatch [] ∅ o c rb id bufs).
Proof.
  split; simpl; [constructor|constructor| |done]. intros h e. rewrite lookup_empty. simpl. set_solver.
Qed.

(** ** Lookups *)
Lemma fetch_log w fs p r :
  wal_ok w fs -> (p, record_bytes r) ∈ wal_log w fs -> LogRecord_ok r -> fetch w fs p = Some r.
Proof.
  intros Hw Hin Hr. unfold fetch. rewrite (wal_Read_law w fs p _ Hw Hin).
  by rewrite decodeLogRecord_spec.
Qed.

Lemma db_rec_ok s k r :
  db_inv s -> db_rec s k = Some r -> rec_ok r /\ lr_Key r = k /\ lr_Type r = LogRecordNormal.
Proof.
  intros Hi. unfold db_rec. destruct (mt_map _ !! k) as [op|] eqn:E; [|done].
  destruct (di_index s Hi k op E) as (p & r' & -> & Hin & Hr & Hk & Ht). simpl.
  rewrite (fetch_log _ _ _ r') by (try apply Hi; try apply Hr; done). by intros [= <-].
Qed.

(** The read of a key: in a good store it finds the record the view shows. *)
Lemma read_index_spec b s k :
  db_inv s -> read_index k (b, s) = Ret (inr (db_rec s k), (b, s)).
Proof.
  intros Hi. unfold read_index, db_rec, gbind, on_db, db_get. rewrite MemoryBTree_Get_map.
  destruct (mt_map _ !! k) as [op|] eqn:E; [|done].
  destruct (di_index s Hi k op E) as (p & r & -> & Hin & Hr & Hk & Ht). simpl.
  rewrite (wal_Read_law _ _ p _ (di_wal s Hi) Hin).
  rewrite (fetch_log _ _ _ r) by (try apply Hi; try apply Hr; done).
  unfold glift. rewrite decodeLogRecord_spec by apply Hr. done.
Qed.

Lemma lookup_entries_spec pend k entries :
  (forall e, e ∈ entries -> (e < length pend)%nat) ->
  exists o, lookup_entries pend k entries = Ret o /\
    match o with
    | Some e => exists r, pend !! e = Some r /\ lr_Key r = k
    | None => forall e r, e ∈ entries -> pend !! e = Some r -> lr_Key r <> k
    end.
Proof.
  induction entries as [|e entries IH]; intros He; simpl.
  { exists None. split; [done|]. intros ? ? H. by apply not_elem_of_nil in H. }
  destruct (lookup_lt_is_Some_2 pend e) as [r Hr]; [apply He; left|]. rewrite Hr.
  destruct IH as (o & Ho & Hspec); [intros; apply He; by right|].
  case_decide as Hk; [exists (Some e); eauto|]. exists o. split; [done|].
  destruct o as [e'|]; [done|]. intros e' r' [->|Hin]%elem_of_cons Hr'; [congruence|eauto].
Qed.

Lemma lookup_record_spec b s k :
  batch_inv b ->
  exists o, lookup_record k (b, s) = Ret (o, (b, s)) /\
    match o with
    | Some (e, r) => b_pendingWrites b !! e = Some r /\ lr_Key r = k /\
                     pend_view (b_pendingWrites b) !! k = Some r
    | None => pend_view (b_pendingWrites b) !! k = None
    end.
Proof.
  intros [Hnd Hrec Hent Hfind].
  assert (Hnone : (forall e r, e ∈ default [] (b_pendingWritesMap b !! MemHash k) ->
    b_pendingWrites b !! e = Some r -> lr_Key r <> k) -> pend_view (b_pendingWrites b) !! k = None).
  { intros H. apply pend_view_None. intros Hin. apply list_elem_of_fmap in Hin as (r & -> & Hin).
    apply list_elem_of_lookup in Hin as [e He]. by apply (H e r (Hfind e r He)). }
  unfold lookup_record, gbind, b_get, glift, lookupPendingWrites. case_decide as Hm.
  { exists None. split; [done|]. apply Hnone. intros e r. rewrite Hm, lookup_empty. simpl.
    intros H. by apply not_elem_of_nil in H. }
  destruct (lookup_entries_spec (b_pendingWrites b) k (default [] (b_pendingWritesMap b !! MemHash k)))
    as (o & -> & Ho); [by eauto|].
  destruct o as [e|]; simpl; [|exists None; split; [done|]; by apply Hnone].
  destruct Ho as (r & Hr & Hk). rewrite Hr. simpl. exists (Some (e, r)). split; [done|].
  split_and!; [done..|].
  apply pend_view_Some; [done|]. split; [|done]. by eapply list_elem_of_lookup_2.
Qed.

Lemma batch_view_lookup b s k :
  batch_inv b ->
  batch_view b s !! k = match pend_view (b_pendingWrites b) !! k with
                        | Some r => rec_opt r | None => db_view s !! k end.
Proof. intros Hb. apply apply_records_lookup, Hb. Qed.

(** ** Updates of the pending writes *)
Lemma append_inv b k r :
  batch_inv b -> rec_ok r -> lr_Key r = k -> pend_view (b_pendingWrites b) !! k = None ->
  batch_inv (appendPendingWrites k r b) /\
  forall s, batch_view (appendPendingWrites k r b) s = apply_record (batch_view b s) r.
Proof.
  intros [Hnd Hrec Hent Hfind] Hr <- Hnone. apply pend_view_None in Hnone.
  assert (Hnd' : NoDup (lr_Key <$> b_pendingWrites b ++ [r])).
  { rewrite fmap_app, NoDup_app. split_and!; [done| |apply NoDup_singleton].
    intros x Hx ->%list_elem_of_singleton. done. }
  split.
  - unfold appendPendingWrites, set_pending. split; simpl.
    + done.
    + by rewrite Forall_app, Forall_singleton.
    + intros h e. rewrite length_app. simpl. destruct (decide (h = MemHash (lr_Key r))) as [->|Hne].
      * rewrite lookup_insert_eq. simpl. rewrite elem_of_app. intros [He|He%list_elem_of_singleton].
        -- specialize (Hent _ _ He). lia.
        -- lia.
      * rewrite lookup_insert_ne by done. intros He. specialize (Hent _ _ He). lia.
    + intros e r' Hr'. rewrite length_app. simpl.
      destruct (decide (e = length (b_pendingWrites b))) as [->|Hne].
      * rewrite lookup_app_r, Nat.sub_diag in Hr' by lia. simplify_eq/=.
        rewrite lookup_insert_eq. simpl. rewrite elem_of_app. right.
        apply list_elem_of_singleton. lia.
      * pose proof (lookup_lt_Some _ _ _ Hr') as Hlt. rewrite length_app in Hlt. simpl in Hlt.
        rewrite lookup_app_l in Hr' by lia. specialize (Hfind e r' Hr').
        destruct (decide (MemHash (lr_Key r') = MemHash (lr_Key r))) as [E|].
        -- rewrite E in *. rewrite lookup_insert_eq. simpl in *. rewrite elem_of_app. by left.
        -- by rewrite lookup_insert_ne.
  - intros s. unfold batch_view. simpl. by rewrite fold_left_app.
Qed.

Lemma update_inv b e r f :
  batch_inv b -> b_pendingWrites b !! e = Some r -> lr_Key (f r) = lr_Key r -> rec_ok (f r) ->
  batch_inv (update_pending e f b) /\
  forall s, batch_view (update_pending e f b) s = apply_record (batch_view b s) (f r).
Proof.
  intros [Hnd Hrec Hent Hfind] He Hk Hr.
  assert (Hlook : forall i r', alter f e (b_pendingWrites b) !! i = Some r' ->
    exists r0, b_pendingWrites b !! i = Some r0 /\ lr_Key r' = lr_Key r0 /\ (r' = r0 /\ i <> e \/ i = e /\ r' = f r)).
  { intros i r' Hi. destruct (decide (i = e)) as [->|Hne].
    - rewrite list_lookup_alter_eq, He in Hi. simpl in Hi. simplify_eq. exists r. auto.
    - rewrite list_lookup_alter_ne in Hi by done. exists r'. auto. }
  assert (Hkeys : lr_Key <$> alter f e (b_pendingWrites b) = lr_Key <$> b_pendingWrites b).
  { apply (list_eq_same_length _ _ (length (b_pendingWrites b)));
      [by rewrite length_fmap|by rewrite length_fmap, length_alter|].
    intros i x y _. rewrite !list_lookup_fmap.
    destruct (alter f e (b_pendingWrites b) !! i) as [r'|] eqn:Hi; [|done].
    destruct (Hlook i r' Hi) as (r0 & H0 & Hk0 & _). rewrite H0. simpl. congruence. }
  assert (Hnd' : NoDup (lr_Key <$> alter f e (b_pendingWrites b))) by (by rewrite Hkeys).
  split.
  - unfold update_pending, set_pending. split; simpl; [done| | |].
    + apply Forall_lookup. intros i r' Hi. destruct (Hlook i r' Hi) as (r0 & H0 & _ & [[-> _]|[_ ->]]); [|done].
      rewrite Forall_lookup in Hrec. eauto.
    + intros h i Hi. rewrite length_alter. eauto.
    + intros i r' Hi. destruct (Hlook i r' Hi) as (r0 & H0 & -> & _). eauto.
  - intros s. unfold batch_view. simpl.
    apply apply_records_update; [done|done|]. apply map_eq. intros k.
    destruct (decide (lr_Key (f r) = k)) as [<-|Hne].
    + rewrite lookup_insert_eq. apply pend_view_Some; [done|]. split; [|done].
      apply (list_elem_of_lookup_2 _ e). by rewrite list_lookup_alter_eq, He.
    + rewrite lookup_insert_ne by done. apply option_eq. intros r'.
      rewrite !pend_view_Some by done. split; intros [[i Hi]%list_elem_of_lookup Hk']; (split; [|done]).
      * destruct (Hlook i r' Hi) as (r0 & H0 & _ & [[-> _]|[_ ->]]); [|done].
        by eapply list_elem_of_lookup_2.
      * apply (list_elem_of_lookup_2 _ i). rewrite list_lookup_alter_ne; [done|].
        intros <-. simplify_eq.
Qed.

(** ** Updates of the index *)
Definition with_index (f : MemoryBTree -> MemoryBTree) s : Store :=
  MkStore (set_index (f (db_index (st_db s))) (st_db s)) (st_fs s).

Lemma index_Delete_eq k s : index_Delete k s = Ret (tt, with_index (fun i => (MemoryBTree_Delete i k).2) s).
Proof. done. Qed.

Lemma index_Delete_inv k s :
  db_inv s ->
  let s' := with_index (fun i => (MemoryBTree_Delete i k).2) s in
  db_inv s' /\ db_view s' = delete k (db_view s).
Proof.
  intros [H1 H2 H3 H4 H5] s'. destruct (MemoryBTree_Delete_map (db_index (st_db s)) k) as [E _]. split.
  - split; [done|done| |done|done]. intros j op. simpl. rewrite E, lookup_delete_Some. intros [_ Hj]. by apply H3.
  - unfold db_view. simpl. rewrite E. apply omap_delete.
Qed.

Lemma index_Put_inv p r s :
  db_inv s -> (p, record_bytes r) ∈ wal_log (db_dataFiles (st_db s)) (st_fs s) -> rec_ok r ->
  lr_Type r = LogRecordNormal ->
  let s' := with_index (fun i => (MemoryBTree_Put i (lr_Key r) (Some p)).2) s in
  db_inv s' /\ db_view s' = <[lr_Key r := rec_val r]> (db_view s).
Proof.
  intros [H1 H2 H3 H4 H5] Hin Hr Ht s'.
  destruct (MemoryBTree_Put_map (db_index (st_db s)) (lr_Key r) (Some p)) as [E _]. split.
  - split; [done|done| |done|done]. intros j op. simpl. rewrite E, lookup_insert_Some.
    intros [[<- <-]|[_ Hj]]; [|by apply H3]. exists p, r. done.
  - unfold db_view. simpl. rewrite E. apply omap_insert_Some. simpl.
    rewrite (fetch_log _ _ _ r); [done|done|done|apply Hr].
Qed.
End view.
