(* ===== verification/BatchSpec.v ===== *)
(** * What the operations of a batch do

    Each operation of [Batch], on a batch and a store that meet their
    invariants, is the operation of the same name on the map the batch shows:
    the pending writes over the live keys of the database. *)
From S2P Require Import Prelude GoBinary Config GoOs WalLib Record BTreeLib Index Watch Store Batch View.
Open Scope Z_scope.

(** One step of a state-passing computation. *)
Ltac gstep := erewrite gbind_Ret; [|first [eassumption | reflexivity]]; cbn beta iota.

(** ** The abstract operations

    [live now m !! k] is what a key is worth at [now]. *)
Definition spec_get (now : Z) (m : vmap) (k : bytes) : error + bytes :=
  match live now m !! k with Some (v, _) => inr v | None => inl ErrKeyNotFound end.

Definition spec_exist (now : Z) (m : vmap) (k : bytes) : error + bool :=
  inr (bool_decide (is_Some (live now m !! k))).

Definition spec_ttl (now : Z) (m : vmap) (k : bytes) : error + Z :=
  match live now m !! k with
  | Some (_, e) => inr (if 0 <? e then i64 (e - now) else -1)
  | None => inl ErrKeyNotFound
  end.

(** Changing the expiry time of a live key. *)
Definition spec_set_expire (now : Z) (m : vmap) (k : bytes) (e : Z) : option error * vmap :=
  match live now m !! k with
  | Some (v, _) => (None, <[k := (v, e)]> m)
  | None => (Some ErrKeyNotFound, m)
  end.

(** The records the format can hold. *)
Definition kv_ok (k v : bytes) (e : Z) : Prop :=
  k <> [] /\ maxLogRecordHeaderSize + len k + len v < 2 ^ 32 /\ - 2 ^ 63 <= e < 2 ^ 63.

Section batch_spec.
Context {W : WalLib} {WL : WalLaws W} {B : BTreeLib item item_less} {BL : BTreeLaws B}
  {SF : Snowflake} {MH : MemHashLib}.
Implicit Types (s : Store) (b : Batch) (k v : bytes) (r : LogRecord).

(** Only the index and the record pool change. *)
Definition same_but_index s s' : Prop :=
  exists i p, s' = MkStore (set_recordPool p (set_index i (st_db s))) (st_fs s).

Lemma same_but_index_refl s : same_but_index s s.
Proof. exists (db_index (st_db s)), (db_recordPool (st_db s)). by destruct s as [[] ?]. Qed.

Lemma same_but_index_trans s1 s2 s3 :
  same_but_index s1 s2 -> same_but_index s2 s3 -> same_but_index s1 s3.
Proof. intros (i & p & ->) (j & q & ->). by exists j, q. Qed.

Lemma same_with_index f s : same_but_index s (with_index f s).
Proof. exists (f (db_index (st_db s))), (db_recordPool (st_db s)). by destruct s as [[] ?]. Qed.

(** Only the record pool changes. *)
Definition same_but_pool s s' : Prop :=
  exists p, s' = MkStore (set_recordPool p (st_db s)) (st_fs s).

Lemma same_but_pool_refl s : same_but_pool s s.
Proof. exists (db_recordPool (st_db s)). by destruct s as [[] ?]. Qed.

Lemma same_but_pool_index s s' : same_but_pool s s' -> same_but_index s s'.
Proof. intros (p & ->). exists (db_index (st_db s)), p. by destruct s as [[] ?]. Qed.

(** What one operation leaves: good states, the same live keys; the index may
    have lost entries. *)
Definition reads_as (now : Z) b s s' : Prop :=
  db_inv s' /\ live_eq now (db_view s') (db_view s) /\
  exists f, s' = with_index f s /\ mt_map (db_index (st_db s')) ⊆ mt_map (db_index (st_db s)).

Lemma reads_as_refl now b s : db_inv s -> reads_as now b s s.
Proof. intros H. split_and!; [done|done|]. exists (fun i => i). split; [by destruct s as [[] ?]|done]. Qed.

Lemma reads_as_view now b s s' :
  reads_as now b s s' -> live_eq now (batch_view b s') (batch_view b s).
Proof. intros (_ & H & _). unfold batch_view. by rewrite H. Qed.

Lemma reads_as_same now b s s' : reads_as now b s s' -> same_but_index s s'.
Proof. intros (_ & _ & f & -> & _). apply same_with_index. Qed.

Lemma rec_ok_key r : rec_ok r -> lr_Key r <> [].
Proof. by intros (_ & ? & _). Qed.

(** Dropping the index entry of an expired record changes no live key. *)
Lemma drop_expired now b s k r :
  db_inv s -> db_rec s k = Some r -> IsExpired r now = true ->
  reads_as now b s (with_index (fun i => (MemoryBTree_Delete i k).2) s).
Proof.
  intros Hs Hr He. destruct (index_Delete_inv k s Hs) as [H1 H2].
  split_and!; [done| |].
  2: { eexists. split; [reflexivity|]. simpl.
       destruct (MemoryBTree_Delete_map (db_index (st_db s)) k) as [-> _]. apply delete_subseteq. }
  rewrite H2.
  apply (live_eq_delete_expired now k _ (lr_Value r) (lr_Expire r)); [|done].
  by rewrite db_view_lookup, Hr.
Qed.

Lemma live_pending now b s k r :
  batch_inv b -> pend_view (b_pendingWrites b) !! k = Some r ->
  live now (batch_view b s) !! k
    = if bool_decide (lr_Type r = LogRecordDeleted) || IsExpired r now then None else Some (rec_val r).
Proof.
  intros Hb Hp. rewrite live_lookup, batch_view_lookup, Hp by done. unfold rec_opt, rec_val.
  case_decide as Hd; [by rewrite bool_decide_eq_true_2|]. by rewrite bool_decide_eq_false_2.
Qed.

Lemma live_indexed now b s k :
  batch_inv b -> pend_view (b_pendingWrites b) !! k = None ->
  live now (batch_view b s) !! k
    = match db_rec s k with
      | Some r => if IsExpired r now then None else Some (rec_val r) | None => None end.
Proof.
  intros Hb Hp. rewrite live_lookup, batch_view_lookup, Hp, db_view_lookup by done.
  by destruct (db_rec s k).
Qed.

Lemma normal_not_deleted r :
  lr_Type r = LogRecordNormal -> bool_decide (lr_Type r = LogRecordDeleted) = false.
Proof. intros E. apply bool_decide_eq_false_2. by rewrite E. Qed.

Lemma key_guard {A} k (x y : A) : k <> [] -> (if decide (len k = 0) then x else y) = y.
Proof. intros Hk. rewrite decide_False; [done|]. destruct k; [done|]. unfold len. simpl. lia. Qed.

(** *** Reads *)
Lemma Batch_Get_spec now k b s :
  batch_inv b -> db_inv s -> db_closed (st_db s) = false -> k <> [] ->
  exists s', Batch_Get now k (b, s) = Ret (spec_get now (batch_view b s) k, (b, s')) /\
             reads_as now b s s'.
Proof.
  intros Hb Hs Hc Hk. unfold Batch_Get, spec_get. rewrite key_guard by done. gstep. rewrite Hc.
  destruct (lookup_record_spec b s k Hb) as (o & Ho & Hspec). gstep.
  destruct o as [[e r]|].
  - destruct Hspec as (_ & _ & Hp). rewrite (live_pending now b s k r) by done.
    exists s. split; [|by apply reads_as_refl].
    by destruct (bool_decide _ || _).
  - pose proof (read_index_spec b s k Hs) as Hread. gstep. rewrite live_indexed by done.
    destruct (db_rec s k) as [r|] eqn:Er; [|exists s; split; [done|by apply reads_as_refl]].
    destruct (db_rec_ok s k r Hs Er) as (Hr & Hkey & Ht). rewrite normal_not_deleted by done.
    destruct (IsExpired r now) eqn:He; [|exists s; split; [done|by apply reads_as_refl]].
    rewrite Hkey. eexists. split; [done|]. by apply (drop_expired now b s k r).
Qed.

Lemma Batch_Exist_spec now k b s :
  batch_inv b -> db_inv s -> db_closed (st_db s) = false -> k <> [] ->
  exists s', Batch_Exist now k (b, s) = Ret (spec_exist now (batch_view b s) k, (b, s')) /\
             reads_as now b s s'.
Proof.
  intros Hb Hs Hc Hk. unfold Batch_Exist, spec_exist. rewrite key_guard by done. gstep. rewrite Hc.
  destruct (lookup_record_spec b s k Hb) as (o & Ho & Hspec). gstep.
  destruct o as [[e r]|].
  - destruct Hspec as (_ & _ & Hp). rewrite (live_pending now b s k r) by done.
    exists s. split; [|by apply reads_as_refl]. rewrite <- negb_orb.
    by destruct (bool_decide (lr_Type r = LogRecordDeleted) || _).
  - pose proof (read_index_spec b s k Hs) as Hread. gstep. rewrite live_indexed by done.
    destruct (db_rec s k) as [r|] eqn:Er; [|exists s; split; [done|by apply reads_as_refl]].
    destruct (db_rec_ok s k r Hs Er) as (Hr & Hkey & Ht). rewrite normal_not_deleted by done.
    destruct (IsExpired r now) eqn:He; [|exists s; split; [done|by apply reads_as_refl]].
    rewrite Hkey. eexists. split; [done|]. by apply (drop_expired now b s k r).
Qed.

(** [TTL] has no special case for a key the batch has deleted: its expiry time
    is 0, which reads as a key without expiry. *)
Definition pending_deleted b k : bool :=
  match pend_view (b_pendingWrites b) !! k with
  | Some r => bool_decide (lr_Type r = LogRecordDeleted)
  | None => false
  end.

Lemma Batch_TTL_spec now k b s :
  batch_inv b -> db_inv s -> db_closed (st_db s) = false -> k <> [] ->
  (forall r, r ∈ b_pendingWrites b -> 0 <= lr_Expire r /\
     (lr_Type r = LogRecordDeleted -> lr_Expire r = 0)) ->
  exists s', Batch_TTL now k (b, s)
      = Ret (if pending_deleted b k then inr (-1) else spec_ttl now (batch_view b s) k, (b, s')) /\
    reads_as now b s s'.
Proof.
  intros Hb Hs Hc Hk Hexp. unfold Batch_TTL, spec_ttl, pending_deleted.
  rewrite key_guard by done. gstep. rewrite Hc.
  destruct (lookup_record_spec b s k Hb) as (o & Ho & Hspec). gstep.
  destruct o as [[e r]|].
  - destruct Hspec as (Hl & _ & Hp). rewrite (live_pending now b s k r), Hp by done.
    apply list_elem_of_lookup_2, Hexp in Hl as [He Hd].
    exists s. split; [|by apply reads_as_refl].
    case_bool_decide as Ht; [by rewrite decide_True by auto|]. simpl. unfold IsExpired, rec_val.
    case_decide as H0; [by rewrite H0|].
    assert (Hlt : (0 <? lr_Expire r) = true) by lia. rewrite Hlt. simpl.
    destruct (lr_Expire r <=? now); [done|]. by rewrite Hlt.
  - pose proof (read_index_spec b s k Hs) as Hread. gstep. rewrite live_indexed, Hspec by done.
    destruct (db_rec s k) as [r|] eqn:Er; [|exists s; split; [done|by apply reads_as_refl]].
    destruct (db_rec_ok s k r Hs Er) as (Hr & Hkey & Ht). rewrite normal_not_deleted by done.
    destruct (IsExpired r now) eqn:He.
    + eexists. split; [done|]. by apply (drop_expired now b s k r).
    + exists s. split; [|by apply reads_as_refl]. simpl. by destruct (0 <? lr_Expire r).
Qed.

(** *** Writes *)

(** The frame of a write: the batch keeps its options, flags and id. *)
Definition same_settings b b' : Prop :=
  b_options b' = b_options b /\ b_committed b' = b_committed b /\
  b_rollbacked b' = b_rollbacked b /\ b_batchId b' = b_batchId b /\ b_buffers b' = b_buffers b.

(** The batch and the store accept writes. *)
Definition writable b s : Prop :=
  batch_inv b /\ db_inv s /\ db_closed (st_db s) = false /\ bo_ReadOnly (b_options b) = false.

Lemma write_guards_pass k m b s :
  writable b s -> k <> [] -> write_guards k m (b, s) = m (b, s).
Proof.
  intros (_ & _ & Hc & Hr) Hk. unfold write_guards. rewrite key_guard by done.
  gstep. rewrite Hc. gstep. by rewrite Hr.
Qed.

Lemma kv_record_ok k v e t id :
  kv_ok k v e -> (t = LogRecordNormal \/ t = LogRecordDeleted) -> 0 <= id < 2 ^ 64 ->
  rec_ok (MkLogRecord k v t id e).
Proof. intros (Hk & Hl & He) Ht Hid. split_and!; try done; simpl; lia. Qed.

Lemma rec_ok_id r : rec_ok r -> 0 <= lr_BatchId r < 2 ^ 64.
Proof. by intros ((? & _) & _). Qed.

(** The records of the pool carry a batch id; nothing else of them is used. *)
Definition pool_ok s : Prop := Forall (fun r => 0 <= lr_BatchId r < 2 ^ 64) (db_recordPool (st_db s)).

Lemma pool_ok_index i s : pool_ok s -> pool_ok (with_index i s).
Proof. done. Qed.

Lemma recordPool_Get_spec s :
  db_inv s -> pool_ok s ->
  exists r s', recordPool_Get s = Ret (r, s') /\ 0 <= lr_BatchId r < 2 ^ 64 /\
    db_inv s' /\ pool_ok s' /\ db_view s' = db_view s /\ same_but_pool s s'.
Proof.
  intros Hs Hp. unfold recordPool_Get. destruct (db_recordPool (st_db s)) as [|r p] eqn:E.
  - eexists _, s. split_and!; try done; try (simpl; lia). apply same_but_pool_refl.
  - unfold pool_ok in Hp. rewrite E in Hp. apply Forall_cons in Hp as [Hr Hp].
    eexists _, _. split; [reflexivity|]. split_and!; [lia|lia| | |done|].
    + destruct Hs as [H1 H2 H3 H4 H5]. by split.
    + done.
    + by exists p.
Qed.

(** What a write leaves behind, the batch showing [m]. *)
Definition writes_as (m : vmap) b s b' s' : Prop :=
  batch_inv b' /\ db_inv s' /\ pool_ok s' /\ batch_view b' s' = m /\
  same_settings b b' /\ same_but_pool s s'.

Lemma put_record_spec k v e b s :
  writable b s -> pool_ok s -> kv_ok k v e ->
  exists b' s', put_record k v e (b, s) = Ret (None, (b', s')) /\
    writes_as (<[k := (v, e)]> (batch_view b s)) b s b' s'.
Proof.
  intros (Hb & Hs & _ & _) Hp Hkv. unfold put_record.
  destruct (lookup_record_spec b s k Hb) as (o & Ho & Hspec). gstep. destruct o as [[i r]|].
  - destruct Hspec as (Hl & Hk & _).
    assert (Hr : rec_ok r) by (pose proof (bi_recs b Hb) as H; rewrite Forall_lookup in H; eauto).
    destruct (update_inv b i r (fun r => MkLogRecord k v LogRecordNormal (lr_BatchId r) e) Hb Hl)
      as [H1 H2]; [done|apply kv_record_ok; auto; by apply rec_ok_id|].
    eexists _, s. split; [reflexivity|]. split_and!; try apply same_but_pool_refl; try done; by rewrite H2.
  - destruct (recordPool_Get_spec s Hs Hp) as (r & s' & Hg & Hid & Hs' & Hp' & Hv & Hsame).
    erewrite gbind_Ret; [|unfold on_db; rewrite Hg; reflexivity]. cbn beta iota.
    destruct (append_inv b k (MkLogRecord k v LogRecordNormal (lr_BatchId r) e) Hb) as [H1 H2];
      [apply kv_record_ok; auto|done|done|].
    eexists _, s'. split; [reflexivity|]. split_and!; try done.
    rewrite H2. unfold batch_view. by rewrite Hv.
Qed.

Lemma Batch_Put_spec k v b s :
  writable b s -> pool_ok s -> kv_ok k v 0 ->
  exists b' s', Batch_Put k v (b, s) = Ret (None, (b', s')) /\
    writes_as (<[k := (v, 0)]> (batch_view b s)) b s b' s'.
Proof.
  intros Hw Hp Hkv. unfold Batch_Put. rewrite write_guards_pass by (done || apply Hkv).
  by apply put_record_spec.
Qed.

Lemma Batch_PutWithTTL_spec now k v ttl b s :
  writable b s -> pool_ok s -> kv_ok k v 0 ->
  exists b' s', Batch_PutWithTTL now k v ttl (b, s) = Ret (None, (b', s')) /\
    writes_as (<[k := (v, i64 (now + ttl))]> (batch_view b s)) b s b' s'.
Proof.
  intros Hw Hp (H1 & H2 & H3). unfold Batch_PutWithTTL. rewrite write_guards_pass by done.
  apply put_record_spec; [done|done|]. split_and!; try done; apply i64_range.
Qed.

Lemma Batch_Delete_spec k b s :
  writable b s -> pool_ok s -> kv_ok k [] 0 ->
  exists b' s', Batch_Delete k (b, s) = Ret (None, (b', s')) /\
    writes_as (delete k (batch_view b s)) b s b' s'.
Proof.
  intros Hw Hp Hkv. unfold Batch_Delete. rewrite write_guards_pass by (done || apply Hkv).
  destruct Hw as (Hb & Hs & _ & _).
  destruct (lookup_record_spec b s k Hb) as (o & Ho & Hspec). gstep. destruct o as [[i r]|].
  - destruct Hspec as (Hl & Hk & _).
    assert (Hr : rec_ok r) by (pose proof (bi_recs b Hb) as H; rewrite Forall_lookup in H; eauto).
    destruct (update_inv b i r (fun r => MkLogRecord (lr_Key r) [] LogRecordDeleted (lr_BatchId r) 0) Hb Hl)
      as [H1 H2]; [done|apply kv_record_ok; auto; [by rewrite Hk|by apply rec_ok_id]|].
    eexists _, s. split; [reflexivity|]. split_and!; try apply same_but_pool_refl; try done.
    rewrite H2. unfold apply_record. simpl. by rewrite Hk.
  - destruct (append_inv b k (MkLogRecord k [] LogRecordDeleted 0 0) Hb) as [H1 H2];
      [apply kv_record_ok; auto; lia|done|done|].
    eexists _, s. split; [reflexivity|]. split_and!; try apply same_but_pool_refl; try done; by rewrite H2.
Qed.

(** *** Expiry *)
Lemma set_Expire_ok r e : rec_ok r -> - 2 ^ 63 <= e < 2 ^ 63 -> rec_ok (set_Expire e r).
Proof. intros ((H1 & H2 & H3) & H4 & H5) He. split_and!; try done; simpl; lia. Qed.

(** The batch after an operation that may find the key missing. *)
Definition may_write (now : Z) (res : option error * vmap) b s b' s' : Prop :=
  match res.1 with
  | None => writes_as res.2 b s b' s'
  | Some _ => b' = b /\ reads_as now b s s' /\ pool_ok s'
  end.

Lemma apply_set_expire m r e :
  lr_Type r <> LogRecordDeleted -> apply_record m (set_Expire e r) = <[lr_Key r := (lr_Value r, e)]> m.
Proof. intros Ht. unfold apply_record, set_Expire. simpl. by rewrite decide_False. Qed.

Lemma update_expire e b s k i r now :
  batch_inv b -> db_inv s -> pool_ok s -> b_pendingWrites b !! i = Some r -> lr_Key r = k ->
  pend_view (b_pendingWrites b) !! k = Some r -> - 2 ^ 63 <= e < 2 ^ 63 ->
  (bool_decide (lr_Type r = LogRecordDeleted) || IsExpired r now) = false ->
  may_write now (spec_set_expire now (batch_view b s) k e) b s (update_pending i (set_Expire e) b) s.
Proof.
  intros Hb Hs Hp Hl Hk Hv He Hlive.
  assert (Hr : rec_ok r) by (pose proof (bi_recs b Hb) as H; rewrite Forall_lookup in H; eauto).
  destruct (update_inv b i r (set_Expire e) Hb Hl) as [H1 H2]; [done|by apply set_Expire_ok|].
  unfold spec_set_expire. rewrite (live_pending now b s k r), Hlive by done. simpl.
  split_and!; try apply same_but_pool_refl; try done.
  rewrite H2, apply_set_expire, Hk; [done|]. intros Ht. by rewrite bool_decide_eq_true_2 in Hlive.
Qed.

Lemma append_expire e b s k r now :
  batch_inv b -> db_inv s -> pool_ok s -> db_rec s k = Some r ->
  pend_view (b_pendingWrites b) !! k = None -> - 2 ^ 63 <= e < 2 ^ 63 -> IsExpired r now = false ->
  may_write now (spec_set_expire now (batch_view b s) k e) b s (appendPendingWrites k (set_Expire e r) b) s.
Proof.
  intros Hb Hs Hp Er Hv He Hlive. destruct (db_rec_ok s k r Hs Er) as (Hr & Hkey & Ht).
  destruct (append_inv b k (set_Expire e r) Hb) as [H1 H2]; [by apply set_Expire_ok|done|done|].
  unfold spec_set_expire. rewrite live_indexed, Er, Hlive by done. simpl.
  split_and!; try apply same_but_pool_refl; try done.
  rewrite H2, apply_set_expire, Hkey; [done|]. by rewrite Ht.
Qed.

(** The pending path of [Expire] reads the clock a second time. *)
Lemma Batch_Expire_spec now now' k ttl b s :
  writable b s -> pool_ok s -> k <> [] ->
  let e := i64 ((if pend_view (b_pendingWrites b) !! k then now' else now) + ttl) in
  exists b' s', Batch_Expire now now' k ttl (b, s)
      = Ret ((spec_set_expire now (batch_view b s) k e).1, (b', s')) /\
    may_write now (spec_set_expire now (batch_view b s) k e) b s b' s'.
Proof.
  intros Hw Hp Hk. unfold Batch_Expire. rewrite write_guards_pass by done.
  destruct Hw as (Hb & Hs & _ & _).
  destruct (lookup_record_spec b s k Hb) as (o & Ho & Hspec). gstep. destruct o as [[i r]|].
  - destruct Hspec as (Hl & Hkey & Hv). rewrite Hv. cbv zeta.
    set (e := i64 (now' + ttl)).
    destruct (bool_decide (lr_Type r = LogRecordDeleted) || IsExpired r now) eqn:Hlive.
    + exists b, s. unfold spec_set_expire, may_write. rewrite (live_pending now b s k r), Hlive by done.
      split; [done|]. split_and!; [done|by apply reads_as_refl|done].
    + pose proof (update_expire e b s k i r now Hb Hs Hp Hl Hkey Hv (i64_range _) Hlive) as Hm.
      eexists _, s. split; [|exact Hm].
      unfold spec_set_expire. rewrite (live_pending now b s k r), Hlive by done. done.
  - rewrite Hspec. cbv zeta. set (e := i64 (now + ttl)).
    pose proof (read_index_spec b s k Hs) as Hread. gstep.
    destruct (db_rec s k) as [r|] eqn:Er.
    + destruct (db_rec_ok s k r Hs Er) as (Hr & Hkey & Ht). rewrite normal_not_deleted by done.
      destruct (IsExpired r now) eqn:He.
      * eexists b, _. unfold spec_set_expire, may_write. rewrite live_indexed, Er, He by done.
        split; [reflexivity|]. split_and!; [done|by apply (drop_expired now b s k r)|done].
      * pose proof (append_expire e b s k r now Hb Hs Hp Er Hspec (i64_range _) He) as Hm.
        eexists _, s. split; [|exact Hm].
        unfold spec_set_expire. rewrite live_indexed, Er, He by done. done.
    + exists b, s. unfold spec_set_expire, may_write. rewrite live_indexed, Er by done.
      split; [done|]. split_and!; [done|by apply reads_as_refl|done].
Qed.

Lemma Batch_Persist_spec now k b s :
  writable b s -> pool_ok s -> k <> [] ->
  exists b' s', Batch_Persist now k (b, s)
      = Ret ((spec_set_expire now (batch_view b s) k 0).1, (b', s')) /\
    may_write now (spec_set_expire now (batch_view b s) k 0) b s b' s'.
Proof.
  intros Hw Hp Hk. unfold Batch_Persist. rewrite write_guards_pass by done.
  destruct Hw as (Hb & Hs & _ & _). assert (H0 : - 2 ^ 63 <= 0 < 2 ^ 63) by lia.
  destruct (lookup_record_spec b s k Hb) as (o & Ho & Hspec). gstep. destruct o as [[i r]|].
  - destruct Hspec as (Hl & Hkey & Hv).
    destruct (bool_decide (lr_Type r = LogRecordDeleted) || IsExpired r now) eqn:Hlive.
    + exists b, s. unfold spec_set_expire, may_write. rewrite (live_pending now b s k r), Hlive by done.
      split; [done|]. split_and!; [done|by apply reads_as_refl|done].
    + pose proof (update_expire 0 b s k i r now Hb Hs Hp Hl Hkey Hv H0 Hlive) as Hm.
      eexists _, s. split; [|exact Hm].
      unfold spec_set_expire. rewrite (live_pending now b s k r), Hlive by done. done.
  - pose proof (read_index_spec b s k Hs) as Hread. gstep.
    destruct (db_rec s k) as [r|] eqn:Er.
    + destruct (db_rec_ok s k r Hs Er) as (Hr & Hkey & Ht). rewrite normal_not_deleted by done.
      destruct (IsExpired r now) eqn:He; simpl.
      * eexists b, _. unfold spec_set_expire, may_write. rewrite live_indexed, Er, He by done.
        rewrite Hkey. split; [reflexivity|].
        split_and!; [done|by apply (drop_expired now b s k r)|done].
      * pose proof (append_expire 0 b s k r now Hb Hs Hp Er Hspec H0 He) as Hm.
        assert (E : spec_set_expire now (batch_view b s) k 0
                    = (None, <[k := (lr_Value r, 0)]> (batch_view b s))).
        { unfold spec_set_expire. by rewrite live_indexed, Er, He by done. }
        case_decide as Hz; [|eexists _, s; split; [by rewrite E|exact Hm]].
        exists b, s. rewrite E. split; [done|].
        split_and!; try apply same_but_pool_refl; try done. simpl. symmetry. apply insert_id.
        rewrite batch_view_lookup, Hspec, db_view_lookup, Er by done. simpl. unfold rec_val. by rewrite Hz.
    + exists b, s. unfold spec_set_expire, may_write. rewrite live_indexed, Er by done.
      split; [done|]. split_and!; [done|by apply reads_as_refl|done].
Qed.

(** ** A batch as a map: histories of operations *)
Inductive bop : Type :=
| BPut (k v : bytes)
| BPutWithTTL (k v : bytes) (ttl : Z)
| BGet (k : bytes)
| BDelete (k : bytes)
| BExist (k : bytes)
| BExpire (k : bytes) (ttl : Z)
| BPersist (k : bytes).

Inductive bres : Type :=
| RErr (e : option error)
| RGet (x : error + bytes)
| RExist (x : error + bool).

(** One operation, with the two readings of the clock it may make. *)
Definition bop_run (now now' : Z) (op : bop) : BatchM bres :=
  match op with
  | BPut k v => let! e := Batch_Put k v in gret (RErr e)
  | BPutWithTTL k v ttl => let! e := Batch_PutWithTTL now k v ttl in gret (RErr e)
  | BGet k => let! x := Batch_Get now k in gret (RGet x)
  | BDelete k => let! e := Batch_Delete k in gret (RErr e)
  | BExist k => let! x := Batch_Exist now k in gret (RExist x)
  | BExpire k ttl => let! e := Batch_Expire now now' k ttl in gret (RErr e)
  | BPersist k => let! e := Batch_Persist now k in gret (RErr e)
  end.

(** The same operation on a map; [Expire] may count from either reading. *)
Inductive bspec (now now' : Z) : bop -> vmap -> bres -> vmap -> Prop :=
| bs_put k v m : bspec now now' (BPut k v) m (RErr None) (<[k := (v, 0)]> m)
| bs_put_ttl k v ttl m :
    bspec now now' (BPutWithTTL k v ttl) m (RErr None) (<[k := (v, i64 (now + ttl))]> m)
| bs_get k m : bspec now now' (BGet k) m (RGet (spec_get now m k)) m
| bs_delete k m : bspec now now' (BDelete k) m (RErr None) (delete k m)
| bs_exist k m : bspec now now' (BExist k) m (RExist (spec_exist now m k)) m
| bs_expire k ttl m t res : t = now \/ t = now' ->
    res = spec_set_expire now m k (i64 (t + ttl)) ->
    bspec now now' (BExpire k ttl) m (RErr res.1) res.2
| bs_persist k m res : res = spec_set_expire now m k 0 ->
    bspec now now' (BPersist k) m (RErr res.1) res.2.

Definition bop_ok (op : bop) : Prop :=
  match op with
  | BPut k v | BPutWithTTL k v _ => kv_ok k v 0
  | BDelete k => kv_ok k [] 0
  | BGet k | BExist k | BExpire k _ | BPersist k => k <> []
  end.

Fixpoint bops_run (ops : list (Z * Z * bop)) : BatchM (list bres) :=
  match ops with
  | [] => gret []
  | (now, now', op) :: ops =>
      let! x := bop_run now now' op in let! xs := bops_run ops in gret (x :: xs)
  end.

Inductive bspec_run : list (Z * Z * bop) -> vmap -> list bres -> vmap -> Prop :=
| bsr_nil m : bspec_run [] m [] m
| bsr_cons now now' op ops m x m1 xs m2 :
    bspec now now' op m x m1 -> bspec_run ops m1 xs m2 ->
    bspec_run ((now, now', op) :: ops) m (x :: xs) m2.

(** The clock does not go back, and where it ends. *)
Fixpoint clock_ok (T : Z) (ops : list (Z * Z * bop)) : Prop :=
  match ops with
  | [] => True
  | (now, now', _) :: ops => T <= now <= now' /\ clock_ok now' ops
  end.
Fixpoint clock_end (T : Z) (ops : list (Z * Z * bop)) : Z :=
  match ops with [] => T | (_, now', _) :: ops => clock_end now' ops end.

Lemma clock_end_le T ops : clock_ok T ops -> T <= clock_end T ops.
Proof.
  revert T. induction ops as [|[[now now'] op] ops IH]; intros T; simpl; [lia|].
  intros [H1 H2%IH]. lia.
Qed.

Lemma spec_set_expire_live_eq now m m' k e :
  live_eq now m m' ->
  (spec_set_expire now m k e).1 = (spec_set_expire now m' k e).1 /\
  live_eq now (spec_set_expire now m k e).2 (spec_set_expire now m' k e).2.
Proof.
  intros E. unfold spec_set_expire. rewrite (E : live now m = live now m').
  destruct (live now m' !! k) as [[v e']|]; simpl; [|done]. split; [done|]. by rewrite E.
Qed.

(** Equivalent maps answer alike. *)
Lemma bspec_live_eq now now' op m m' (r : bres) m1 :
  live_eq now m m' -> bspec now now' op m r m1 ->
  exists m1', bspec now now' op m' r m1' /\ live_eq now m1 m1'.
Proof.
  intros E H. destruct H.
  - eexists. split; [constructor|]. by rewrite E.
  - eexists. split; [constructor|]. by rewrite E.
  - exists m'. split; [|done]. unfold spec_get. rewrite (E : live now m = live now m'). constructor.
  - eexists. split; [constructor|]. by rewrite E.
  - exists m'. split; [|done]. unfold spec_exist. rewrite (E : live now m = live now m'). constructor.
  - subst res. destruct (spec_set_expire_live_eq now m m' k (i64 (t + ttl)) E) as [-> E2].
    eexists. split; [by eapply bs_expire|done].
  - subst res. destruct (spec_set_expire_live_eq now m m' k 0 E) as [-> E2].
    eexists. split; [by apply bs_persist|done].
Qed.

(** The batch and the store after some operations. *)
Definition batch_sim (T : Z) (m : vmap) b0 s0 b s : Prop :=
  writable b s /\ pool_ok s /\ live_eq T (batch_view b s) m /\
  same_settings b0 b /\ same_but_index s0 s /\ live_eq T (db_view s) (db_view s0).

Lemma same_settings_trans b1 b2 b3 :
  same_settings b1 b2 -> same_settings b2 b3 -> same_settings b1 b3.
Proof. intros (A1 & A2 & A3 & A4 & A5) (B1 & B2 & B3 & B4 & B5). split_and!; congruence. Qed.

Lemma same_but_index_closed s s' :
  same_but_index s s' -> db_closed (st_db s') = db_closed (st_db s).
Proof. by intros (i & p & ->). Qed.

Lemma writable_same b s b' s' :
  writable b s -> batch_inv b' -> db_inv s' -> same_settings b b' -> same_but_index s s' ->
  writable b' s'.
Proof.
  intros (_ & _ & Hc & Hr) Hb Hs (E & _) Hi. split_and!; [done|done| |by rewrite E].
  by rewrite (same_but_index_closed s s').
Qed.

(** One operation does what its specification says, on the map the batch shows. *)
Lemma bop_step now now' op b s :
  writable b s -> pool_ok s -> bop_ok op ->
  exists x b' s' m', bop_run now now' op (b, s) = Ret (x, (b', s')) /\
    bspec now now' op (batch_view b s) x m' /\ batch_sim now m' b s b' s'.
Proof.
  intros Hw Hp Hop.
  assert (Wr : forall m b' s', writes_as m b s b' s' -> batch_sim now m b s b' s').
  { intros m b' s' (H1 & H2 & H3 & <- & H5 & H6). pose proof (same_but_pool_index _ _ H6) as H7.
    split_and!; try done; [by eapply writable_same|]. by destruct H6 as (p & ->). }
  assert (Rd : forall s', reads_as now b s s' -> batch_sim now (batch_view b s) b s b s').
  { intros s' Hr. pose proof (reads_as_same now b s s' Hr) as Hi.
    pose proof (reads_as_view now b s s' Hr) as Hv. destruct Hr as (H1 & H2 & f & -> & _).
    split_and!; try done. by eapply (writable_same b s); try apply Hw. }
  assert (Mw : forall e k b' s', may_write now (spec_set_expire now (batch_view b s) k e) b s b' s' ->
    batch_sim now (spec_set_expire now (batch_view b s) k e).2 b s b' s').
  { intros e k b' s'. unfold may_write, spec_set_expire.
    destruct (live now (batch_view b s) !! k) as [[v e']|]; simpl; [apply Wr|].
    intros (-> & Hr & _). by apply Rd. }
  pose proof Hw as (Hb & Hs & Hc & Hro).
  destruct op as [k v|k v ttl|k|k|k|k ttl|k]; simpl in Hop; unfold bop_run.
  - destruct (Batch_Put_spec k v b s Hw Hp Hop) as (b' & s' & E & H). gstep.
    eexists _, b', s', _. split; [done|]. split; [constructor|auto].
  - destruct (Batch_PutWithTTL_spec now k v ttl b s Hw Hp Hop) as (b' & s' & E & H). gstep.
    eexists _, b', s', _. split; [done|]. split; [constructor|auto].
  - destruct (Batch_Get_spec now k b s Hb Hs Hc Hop) as (s' & E & H). gstep.
    eexists _, b, s', _. split; [done|]. split; [constructor|auto].
  - destruct (Batch_Delete_spec k b s Hw Hp Hop) as (b' & s' & E & H). gstep.
    eexists _, b', s', _. split; [done|]. split; [constructor|auto].
  - destruct (Batch_Exist_spec now k b s Hb Hs Hc Hop) as (s' & E & H). gstep.
    eexists _, b, s', _. split; [done|]. split; [constructor|auto].
  - destruct (Batch_Expire_spec now now' k ttl b s Hw Hp Hop) as (b' & s' & E & H). gstep.
    eexists _, b', s', _. split; [done|]. split; [|by apply Mw].
    eapply bs_expire; [|reflexivity]. destruct (pend_view _ !! k); auto.
  - destruct (Batch_Persist_spec now k b s Hw Hp Hop) as (b' & s' & E & H). gstep.
    eexists _, b', s', _. split; [done|]. split; [|by apply Mw]. by apply bs_persist.
Qed.

Lemma bops_run_spec T ops b s m :
  writable b s -> pool_ok s -> live_eq T (batch_view b s) m ->
  clock_ok T ops -> Forall (fun x => bop_ok x.2) ops ->
  exists rs b' s' m', bops_run ops (b, s) = Ret (rs, (b', s')) /\
    bspec_run ops m rs m' /\ batch_sim (clock_end T ops) m' b s b' s'.
Proof.
  revert T b s m. induction ops as [|[[now now'] op] ops IH]; intros T b s m Hw Hp Hm Hclk Hops.
  { eexists _, b, s, m. split; [done|]. split; [constructor|].
    split_and!; try done. apply same_but_index_refl. }
  destruct Hclk as [Hnow Hclk]. apply Forall_cons in Hops as [Hop Hops].
  destruct (bop_step now now' op b s Hw Hp Hop) as (r & b1 & s1 & m1 & E1 & Hs1 & Hsim).
  destruct Hsim as (Hw1 & Hp1 & Hv1 & Hset & Hsame & Hdb).
  destruct (bspec_live_eq now now' op (batch_view b s) m r m1) as (m1' & Hs1' & Em1); [|done|].
  { apply (live_eq_mono T); [lia|done]. }
  destruct (IH now' b1 s1 m1' Hw1 Hp1) as (rs & b2 & s2 & m2 & E2 & Hs2 & Hsim2); [|done|done|].
  { apply (live_eq_mono now); [lia|]. by rewrite Hv1. }
  exists (r :: rs), b2, s2, m2. simpl. gstep. gstep. split; [done|].
  split; [by eapply bsr_cons|]. destruct Hsim2 as (? & ? & ? & ? & ? & Hdb2).
  split_and!; [done|done|done|by eapply same_settings_trans|by eapply same_but_index_trans|].
  simpl. etransitivity; [exact Hdb2|]. apply (live_eq_mono now); [|exact Hdb].
  pose proof (clock_end_le now' ops Hclk). lia.
Qed.
End batch_spec.
