(* ===== verification/CommitSpec.v ===== *)
(** * Commit and rollback

    What [Batch_Commit] does: it appends to the log one chunk per pending write
    and an end mark, in one segment, then makes the index show the batch.  When
    the log refuses the write the index is left alone. *)
From S2P Require Import Prelude GoBinary Config GoOs WalLib Record BTreeLib Index Watch Store Batch View BatchSpec.
Open Scope Z_scope.

Section commit_spec.
Context {W : WalLib} {WL : WalLaws W} {B : BTreeLib item item_less} {BL : BTreeLaws B}
  {SF : Snowflake} {SL : SnowflakeLaws SF} {MH : MemHashLib}.
Implicit Types (s : Store) (b : Batch) (k v : bytes) (r : LogRecord).

(** ** Encoding *)
Definition set_id (id : Z) r : LogRecord :=
  MkLogRecord (lr_Key r) (lr_Value r) (lr_Type r) id (lr_Expire r).

(** The chunks of a batch in the log: its records, then the end mark. *)
Definition batch_records (id : Z) (rs : list LogRecord) : list LogRecord :=
  (set_id id <$> rs) ++ [finish_record id].

(** The chunks handed to the log as pending writes. *)
Definition pended (w : wal) (chunks : list bytes) : wal := fold_left wal_PendingWrites chunks w.

(** The log refuses to write [chunks] as one batch: with the error [e] of
    [WriteAll], or of the [Sync] that follows it. *)
Definition log_refuses (w : wal) (fs : FileSys) (chunks : list bytes) (e : error) : Prop :=
  (exists w' fs', wal_WriteAll (pended w chunks) fs = (inl e, w', fs')) \/
  (exists ps w' fs', wal_WriteAll (pended w chunks) fs = (inr ps, w', fs') /\ wal_Sync w' fs' = (Some e, fs')).

(** The same log, under another handle. *)
Definition same_log (w w' : wal) (fs : FileSys) : Prop :=
  wal_ok w' fs /\ wal_segs w' fs = wal_segs w fs /\ wal_dir w' = wal_dir w /\ wal_ext w' = wal_ext w.

Lemma set_id_ok id r : rec_ok r -> 0 <= id < 2 ^ 64 -> rec_ok (set_id id r).
Proof. intros ((H1 & H2 & H3) & H4 & H5) Hid. by split_and!. Qed.

Lemma finish_record_ok id : 0 < id < 2 ^ 63 -> LogRecord_ok (finish_record id).
Proof.
  intros Hid. pose proof (sf_Bytes_law id Hid). unfold LogRecord_ok, finish_record. simpl.
  pose proof (len_nonneg (sf_Bytes id)). change (len []) with 0.
  change maxLogRecordHeaderSize with 31. lia.
Qed.

Lemma commit_encode_spec id rs header w bufs fs :
  Forall rec_ok rs -> 0 < id < 2 ^ 63 -> len header = maxLogRecordHeaderSize -> wal_ok w fs ->
  exists header' w',
    commit_encode id rs header w bufs
      = Ret (set_id id <$> rs, header', w', bufs ++ (record_bytes <$> (set_id id <$> rs))) /\
    len header' = maxLogRecordHeaderSize /\ same_log w w' fs /\
    wal_pend w' = wal_pend w ++ (record_bytes <$> (set_id id <$> rs)) /\
    w' = pended w (record_bytes <$> (set_id id <$> rs)).
Proof.
  revert header w bufs. induction rs as [|r rs IH]; intros header w bufs Hrs Hid Hh Hw.
  { exists header, w. simpl. rewrite !app_nil_r. by split_and!. }
  apply Forall_cons in Hrs as [Hr Hrs]. cbn [commit_encode]. rewrite u64_small by lia.
  fold (set_id id r). assert (Hr' : rec_ok (set_id id r)) by (apply set_id_ok; [done|lia]).
  destruct (encodeLogRecord_spec (set_id id r) header []) as (h1 & -> & Hh1); [apply Hr'|done|].
  cbn [mbind outcome_bind]. simpl app.
  destruct (wal_PendingWrites_law w (record_bytes (set_id id r)) fs Hw) as (P1 & P2 & P3 & P4 & P5).
  destruct (IH h1 (wal_PendingWrites w (record_bytes (set_id id r)))
              (bufs ++ [record_bytes (set_id id r)]) Hrs Hid Hh1 P1)
    as (h2 & w2 & -> & Hh2 & (S1 & S2 & S3 & S4) & Hp2 & Ew2).
  cbn [mbind outcome_bind]. exists h2, w2. rewrite !fmap_cons, <- (assoc_L (++)).
  split; [done|]. split; [done|]. split; [split_and!; [done|congruence..]|].
  split; [by rewrite Hp2, P5, <- (assoc_L (++))|exact Ew2].
Qed.

(** ** The index *)

(** Fields of the database a commit leaves alone. *)
Definition db_static (d d' : DB) : Prop :=
  db_hintFile d' = db_hintFile d /\ db_options d' = db_options d /\ db_closed d' = db_closed d /\
  db_mergeRunning d' = db_mergeRunning d /\ db_batchPool d' = db_batchPool d /\
  db_expiredCursorKey d' = db_expiredCursorKey d.

Lemma db_static_trans d1 d2 d3 : db_static d1 d2 -> db_static d2 d3 -> db_static d1 d3.
Proof. intros (A1 & A2 & A3 & A4 & A5 & A6) (B1 & B2 & B3 & B4 & B5 & B6). split_and!; congruence. Qed.

Lemma commit_event_spec r s :
  db_inv s ->
  exists d, commit_event r (st_db s) = Ret d /\ db_inv (MkStore d (st_fs s)) /\
    exists w, d = set_watcher w (st_db s).
Proof.
  intros [H1 H2 H3 H4 H5]. unfold commit_event. destruct (0 <? _) eqn:E.
  - destruct (H5 ltac:(lia)) as (w & -> & Hw).
    destruct (putEvent_wf w (MkEvent (if decide (lr_Type r = LogRecordDeleted) then WatchActionDelete
      else WatchActionPut) (lr_Key r) (lr_Value r) (lr_BatchId r)) Hw) as (w' & -> & Hw').
    cbn [mbind outcome_bind]. eexists. split; [done|]. split; [|by eexists].
    split; try done. simpl. intros _. by exists w'.
  - eexists. split; [done|]. split; [by destruct s|].
    exists (db_watcher (st_db s)). by destruct (st_db s).
Qed.

(** What a commit does to the index: the keys it writes go to new positions or
    away, the others stay. *)
Definition index_follows (keys : list bytes) (ps : list ChunkPosition) (i i' : MemoryBTree) : Prop :=
  forall j, (j ∉ keys -> mt_map i' !! j = mt_map i !! j) /\
            (j ∈ keys -> mt_map i' !! j = None \/ exists p, mt_map i' !! j = Some (Some p) /\ p ∈ ps).

Lemma index_follows_cons key keys ps i1 i2 i3 :
  index_follows [key] ps i1 i2 -> index_follows keys ps i2 i3 -> index_follows (key :: keys) ps i1 i3.
Proof.
  intros H1 H2 j. destruct (H1 j) as [A1 A2], (H2 j) as [B1 B2]. split.
  - intros [Hne Hn]%not_elem_of_cons. rewrite B1, A1; [done| |done]. by rewrite list_elem_of_singleton.
  - intros Hin. destruct (decide (j ∈ keys)) as [Hj|Hj]; [auto|].
    apply elem_of_cons in Hin as [->|]; [|done]. rewrite B1 by done. apply A2. by left.
Qed.

(** The index entry of one record. *)
Lemma commit_entry_spec now r (ps : list ChunkPosition) i p s :
  db_inv s -> rec_ok r -> ps !! i = Some p ->
  (p, record_bytes r) ∈ wal_log (db_dataFiles (st_db s)) (st_fs s) ->
  exists f,
    (if bool_decide (lr_Type r = LogRecordDeleted) || IsExpired r now
     then Ret (set_index (MemoryBTree_Delete (db_index (st_db s)) (lr_Key r)).2 (st_db s))
     else match ps !! i with
          | None => Panic
          | Some p => Ret (set_index (MemoryBTree_Put (db_index (st_db s)) (lr_Key r) (Some p)).2 (st_db s))
          end) = Ret (st_db (with_index f s)) /\
    db_inv (with_index f s) /\ live_eq now (db_view (with_index f s)) (apply_record (db_view s) r) /\
    index_follows [lr_Key r] ps (db_index (st_db s)) (f (db_index (st_db s))).
Proof.
  intros Hs Hr Hpi Hin. destruct (index_Delete_inv (lr_Key r) s Hs) as [D1 D2].
  assert (Hdel : index_follows [lr_Key r] ps (db_index (st_db s))
    (MemoryBTree_Delete (db_index (st_db s)) (lr_Key r)).2).
  { intros j. destruct (MemoryBTree_Delete_map (db_index (st_db s)) (lr_Key r)) as [-> _].
    rewrite list_elem_of_singleton. split; [intros Hne; by apply lookup_delete_ne|].
    intros ->. left. apply lookup_delete_eq. }
  unfold apply_record. case_bool_decide as Ht; simpl.
  - exists (fun i => (MemoryBTree_Delete i (lr_Key r)).2). split; [done|].
    split; [done|]. split; [by rewrite decide_True, D2|done].
  - rewrite decide_False by done. destruct (IsExpired r now) eqn:He.
    + exists (fun i => (MemoryBTree_Delete i (lr_Key r)).2). split; [done|].
      split; [done|]. split; [|done]. rewrite D2. symmetry. by apply live_eq_insert_expired.
    + rewrite Hpi. exists (fun i => (MemoryBTree_Put i (lr_Key r) (Some p)).2). split; [done|].
      destruct (index_Put_inv p r s Hs Hin Hr) as [H1 H2]; [by destruct Hr as (_ & _ & [|])|].
      split; [done|]. split; [by rewrite H2|]. intros j.
      destruct (MemoryBTree_Put_map (db_index (st_db s)) (lr_Key r) (Some p)) as [-> _].
      rewrite list_elem_of_singleton. split; [intros Hne; by apply lookup_insert_ne|].
      intros ->. right. exists p. split; [apply lookup_insert_eq|]. by apply (list_elem_of_lookup_2 _ i).
Qed.

Lemma commit_index_spec now rs i (ps : list ChunkPosition) s :
  db_inv s -> pool_ok s -> Forall rec_ok rs ->
  (forall j r, rs !! j = Some r -> exists p, ps !! (i + j)%nat = Some p /\
     (p, record_bytes r) ∈ wal_log (db_dataFiles (st_db s)) (st_fs s)) ->
  exists d, commit_index now rs i ps (st_db s) = Ret d /\
    let s' := MkStore d (st_fs s) in
    db_inv s' /\ pool_ok s' /\ live_eq now (db_view s') (fold_left apply_record rs (db_view s)) /\
    db_static (st_db s) d /\ db_mu d = db_mu (st_db s) /\ db_dataFiles d = db_dataFiles (st_db s) /\
    index_follows (lr_Key <$> rs) ps (db_index (st_db s)) (db_index d).
Proof.
  revert i s. induction rs as [|r rs IH]; intros i s Hs Hp Hrs Hps.
  { exists (st_db s). split; [done|]. destruct s. split_and!; try done.
    intros j. split; [done|]. intros H. by apply not_elem_of_nil in H. }
  apply Forall_cons in Hrs as [Hr Hrs]. cbn [commit_index].
  destruct (Hps 0%nat r eq_refl) as (p & Hpi & Hin). rewrite Nat.add_0_r in Hpi.
  destruct (commit_entry_spec now r ps i p s Hs Hr Hpi Hin) as (f & -> & Hs1 & Hv1 & Hf1).
  cbn [mbind outcome_bind].
  destruct (commit_event_spec r (with_index f s) Hs1) as (d2 & -> & Hs2 & ww & Ed2).
  cbn [mbind outcome_bind].
  set (s3 := MkStore (set_recordPool (r :: db_recordPool d2) d2) (st_fs s)).
  assert (Hs3 : db_inv s3) by (destruct Hs2 as [A1 A2 A3 A4 A5]; by split).
  assert (Hp3 : pool_ok s3).
  { unfold pool_ok, s3. simpl. rewrite Ed2. simpl. constructor; [|done]. by apply rec_ok_id. }
  destruct (IH (S i) s3 Hs3 Hp3 Hrs) as (d & E & Hs' & Hp' & Hv' & Hst & Hmu & Hdf & Hfol).
  { intros j r' Hj. destruct (Hps (S j) r' Hj) as (p' & Hp' & Hin').
    exists p'. split; [by rewrite <- Hp'; f_equal; lia|]. subst s3. rewrite Ed2. done. }
  exists d. split; [done|]. subst s3. rewrite Ed2 in *.
  split_and!; [done|done| |done|done|done|].
  - rewrite Hv'. simpl. rewrite <- Hv1. done.
  - rewrite fmap_cons. by apply (index_follows_cons _ _ _ _ (f (db_index (st_db s)))).

Qed.

(** ** A longer log *)
Lemma db_inv_extend w' fs' s :
  db_inv s -> wal_ok w' fs' -> wal_pend w' = [] ->
  (forall x, x ∈ wal_log (db_dataFiles (st_db s)) (st_fs s) -> x ∈ wal_log w' fs') ->
  let s' := MkStore (set_dataFiles w' (st_db s)) fs' in
  db_inv s' /\ db_view s' = db_view s.
Proof.
  intros [H1 H2 H3 H4 H5] Hw Hp Hsub s'. split.
  - split; [done|done| |done|done]. intros k op Hk. destruct (H3 k op Hk) as (p & r & ? & Hin & ?).
    exists p, r. split_and!; try tauto. by apply Hsub.
  - apply map_eq. intros k. rewrite !db_view_lookup. f_equal. unfold db_rec. simpl.
    destruct (mt_map _ !! k) as [op|] eqn:Ek; [|done].
    destruct (H3 k op Ek) as (p & r & -> & Hin & Hr & _). simpl.
    rewrite (fetch_log w' fs' p r), (fetch_log _ _ p r); try done; try apply Hr. by apply Hsub.
Qed.

Lemma db_inv_header h s :
  db_inv s -> len h = maxLogRecordHeaderSize -> db_inv (MkStore (set_encodeHeader h (st_db s)) (st_fs s)).
Proof. intros [H1 H2 H3 H4 H5] Hh. by split. Qed.

Lemma batch_chunks id rs (ps : list ChunkPosition) :
  length ps = (length rs + 1)%nat ->
  forall j r, (set_id id <$> rs) !! j = Some r ->
    exists p, ps !! j = Some p /\ (p, record_bytes r) ∈ zip ps (record_bytes <$> batch_records id rs).
Proof.
  intros Hlen j r Hj. pose proof (lookup_lt_Some _ _ _ Hj) as Hlt. rewrite length_fmap in Hlt.
  destruct (lookup_lt_is_Some_2 ps j) as [p Hp]; [lia|]. exists p. split; [done|].
  apply (list_elem_of_lookup_2 _ j), lookup_zip_Some. split; [done|].
  unfold batch_records. rewrite fmap_app, lookup_app_l by (rewrite !length_fmap; lia).
  by rewrite list_lookup_fmap, Hj.
Qed.

(** ** Commit *)

(** What a successful commit leaves: the batch is in the log, contiguous and
    with its end mark, and the index shows it. *)
Definition committed_as (now : Z) b s b' s' : Prop :=
  b_committed b' = true /\ db_inv s' /\ pool_ok s' /\
  live_eq now (db_view s') (batch_view b s) /\
  wal_dir (db_dataFiles (st_db s')) = wal_dir (db_dataFiles (st_db s)) /\
  wal_ext (db_dataFiles (st_db s')) = wal_ext (db_dataFiles (st_db s)) /\
  fs_frame (wal_dir (db_dataFiles (st_db s))) (wal_ext (db_dataFiles (st_db s))) (st_fs s) (st_fs s') /\
  fs_dirs (st_fs s') = fs_dirs (st_fs s) /\
  exists id ps, 0 < id < 2 ^ 63 /\ length ps = (length (b_pendingWrites b) + 1)%nat /\
    segs_append (zip ps (record_bytes <$> batch_records id (b_pendingWrites b)))
      (wal_segs (db_dataFiles (st_db s)) (st_fs s)) (wal_segs (db_dataFiles (st_db s')) (st_fs s')) /\
    index_follows (lr_Key <$> b_pendingWrites b) ps (db_index (st_db s)) (db_index (st_db s')).

(** What a refused one leaves: the error [e] is the log's, to the chunks of the
    records [rs] and their end mark; the index, the watcher and the map shown are
    as before. *)
Definition refused_as (rs : list LogRecord) (e : error) s s' : Prop :=
  (exists id, 0 < id < 2 ^ 63 /\
     log_refuses (db_dataFiles (st_db s)) (st_fs s) (record_bytes <$> batch_records id rs) e) /\
  db_index (st_db s') = db_index (st_db s) /\ db_watcher (st_db s') = db_watcher (st_db s) /\
  db_view s' = db_view s.

(** A log from which the chunks of the old one can be read shows the same map. *)
Lemma view_readable s s' :
  db_inv s -> db_index (st_db s') = db_index (st_db s) ->
  (forall p c, (p, c) ∈ wal_log (db_dataFiles (st_db s)) (st_fs s) ->
     wal_Read (db_dataFiles (st_db s')) (st_fs s') p = inr c) ->
  db_view s' = db_view s.
Proof.
  intros [H1 H2 H3 H4 H5] Ei Hread. apply map_eq. intros k. rewrite !db_view_lookup. f_equal. unfold db_rec.
  rewrite Ei. destruct (mt_map (db_index (st_db s)) !! k) as [op|] eqn:Ek; [|done].
  destruct (H3 k op Ek) as (p & r & -> & Hin & _). simpl. unfold fetch.
  by rewrite (Hread _ _ Hin), (wal_Read_law _ _ _ _ H1 Hin).
Qed.

Lemma live_eq_batch_records now id rs m :
  live_eq now (fold_left apply_record (set_id id <$> rs) m) (fold_left apply_record rs m).
Proof.
  revert m. induction rs as [|r rs IH]; intros m; [done|]. simpl. by rewrite IH.
Qed.

Lemma commit_body_spec clock now b s node :
  writable b s -> pool_ok s -> b_batchId b = Some node ->
  exists res b' s', commit_body clock now (b, s) = Ret (res, (b', s')) /\
    b_options b' = b_options b /\ is_Some (b_batchId b') /\ db_mu (st_db s') = db_mu (st_db s) /\
    db_static (st_db s) (st_db s') /\
    match res with None => committed_as now b s b' s' | Some e => refused_as (b_pendingWrites b) e s s' end.
Proof.
  intros (Hb & Hs & Hc & Hro) Hp Hnode. unfold commit_body. rewrite Hnode.
  pose proof (sf_Generate_law node clock) as Hid. destruct (sf_Generate node clock) as [id node'] eqn:Eg.
  simpl in Hid. pose proof Hs as [H1 H2 H3 H4 H5].
  destruct (commit_encode_spec id (b_pendingWrites b) (db_encodeHeader (st_db s))
    (db_dataFiles (st_db s)) (b_buffers b) (st_fs s) (bi_recs b Hb) Hid H4 H1)
    as (h1 & w1 & -> & Hh1 & (S1 & S2 & S3 & S4) & Hp1 & Ew1). cbn [mbind outcome_bind].
  destruct (encodeLogRecord_spec (finish_record id) h1 [])
    as (h2 & -> & Hh2); [by apply finish_record_ok|done|]. cbn [mbind outcome_bind]. simpl app.
  set (end_ := record_bytes (finish_record id)). set (w2 := wal_PendingWrites w1 end_).
  destruct (wal_PendingWrites_law w1 end_ (st_fs s) S1) as (P1 & P2 & P3 & P4 & P5). fold w2 in P1, P2, P3, P4, P5.
  assert (Hpend : wal_pend w2 = record_bytes <$> batch_records id (b_pendingWrites b)).
  { rewrite P5, Hp1, H2. unfold batch_records. rewrite fmap_app. done. }
  assert (Ew2 : w2 = pended (db_dataFiles (st_db s)) (record_bytes <$> batch_records id (b_pendingWrites b))).
  { unfold w2, batch_records. rewrite Ew1, fmap_app. unfold pended. by rewrite fold_left_app. }
  destruct (wal_WriteAll w2 (st_fs s)) as [[[e|ps] w3] fs3] eqn:Ew.
  { eexists _, _, _. split; [reflexivity|]. split; [done|]. split; [by eexists|]. split; [done|]. split; [done|].
    split; [exists id; split; [done|]; left; rewrite <- Ew2; by eexists _, _|]. split; [done|]. split; [done|].
    apply view_readable; [done|done|]. destruct (wal_WriteAll_fails _ _ _ _ _ P1 Ew) as (_ & Hread).
    rewrite P2, S2 in Hread. exact Hread. }
  destruct (wal_WriteAll_law _ _ _ _ _ P1 Ew) as (W1 & W2 & W3 & W4 & W5 & W6 & W7 & W8).
  rewrite Hpend in W1, W6. unfold batch_records in W1.
  rewrite length_fmap, length_app, length_fmap in W1. simpl in W1. simpl.
  rewrite length_fmap, decide_False by lia.
  destruct (if bo_Sync _ && _ then wal_Sync w3 fs3 else (None, fs3)) as [err fs4] eqn:Esync.
  assert (fs4 = fs3) as ->.
  { destruct (bo_Sync _ && _); [by eapply wal_Sync_law|congruence]. }
  (* the log is written *)
  assert (Hlog : wal_log w3 fs3 = wal_log (db_dataFiles (st_db s)) (st_fs s)
    ++ zip ps (record_bytes <$> batch_records id (b_pendingWrites b))).
  { unfold wal_log. rewrite (segs_append_log _ _ _ W6). by rewrite P2, S2. }
  destruct (db_inv_extend w3 fs3 (MkStore (set_encodeHeader h2 (st_db s)) (st_fs s)))
    as [I1 I2]; [by apply db_inv_header|done|done| |].
  { intros x Hx. simpl. rewrite Hlog, elem_of_app. by left. }
  simpl in I1, I2. set (s3 := MkStore (set_dataFiles w3 (set_encodeHeader h2 (st_db s))) fs3) in *.
  destruct err as [e|].
  { assert (Es : wal_Sync w3 fs3 = (Some e, fs3)) by (by destruct (bo_Sync _ && _)).
    eexists _, _, _. split; [reflexivity|]. split; [done|]. split; [by eexists|]. split; [done|]. split; [done|].
    split; [exists id; split; [done|]; right; rewrite <- Ew2; by eexists _, _, _|]. split; [done|]. split; [done|].
    exact I2. }
  destruct (commit_index_spec now (set_id id <$> b_pendingWrites b) 0 ps s3 I1)
    as (d & E & J1 & J2 & J3 & J4 & J5 & J6 & J7).
  { done. }
  { apply Forall_fmap. eapply Forall_impl; [apply Hb|]. intros r Hr. apply set_id_ok; [done|lia]. }
  { intros j r Hj. destruct (batch_chunks id (b_pendingWrites b) ps W1 j r Hj) as (p & Hpj & Hin).
    exists p. split; [done|]. simpl. rewrite Hlog, elem_of_app. by right. }
  simpl in E. rewrite E. cbn [mbind outcome_bind]. eexists _, _, _. split; [reflexivity|].
  simpl in J5, J6. split; [done|]. split; [by eexists|]. split; [done|]. split; [exact J4|].
  split_and!; [done|done|done| | | | |done|].
  - etransitivity; [exact J3|]. etransitivity; [apply live_eq_batch_records|].
    unfold batch_view. by rewrite I2.
  - simpl. rewrite J6. simpl. congruence.
  - simpl. rewrite J6. simpl. congruence.
  - simpl. by rewrite <- S3, <- S4, <- P3, <- P4.
  - exists id, ps. split; [done|]. split; [done|]. simpl. rewrite J6. simpl.
    rewrite <- S2, <- P2. split; [done|]. by rewrite <- list_fmap_compose in J7.
Qed.

Lemma defer_unlock_eq {A} (m : BatchM A) b s a b' s' mu' :
  m (b, s) = Ret (a, (b', s')) ->
  (if bo_ReadOnly (b_options b') then mu_RUnlock else mu_Unlock) (db_mu (st_db s')) = Ret mu' ->
  defer_unlock m (b, s) = Ret (a, (b', MkStore (set_mu mu' (st_db s')) (st_fs s'))).
Proof.
  intros Hm Hu. unfold defer_unlock. rewrite (gbind_Ret _ _ _ _ _ Hm).
  unfold Batch_unlock, gbind, b_get, on_db, db_with_mu. by rewrite Hu.
Qed.

Lemma defer_unlock_free {A} (m : BatchM A) b s a b' s' :
  m (b, s) = Ret (a, (b', s')) -> db_mu (st_db s') = mu_free -> defer_unlock m (b, s) = Panic.
Proof.
  intros Hm Hu. unfold defer_unlock. rewrite (gbind_Ret _ _ _ _ _ Hm).
  unfold Batch_unlock, gbind, b_get, on_db, db_with_mu. rewrite Hu. by destruct (bo_ReadOnly _).
Qed.

(** Releasing the lock changes nothing else. *)
Lemma committed_as_unlock now b s b' s' m :
  committed_as now b s b' s' -> committed_as now b s b' (MkStore (set_mu m (st_db s')) (st_fs s')).
Proof.
  unfold committed_as. simpl. intros (C1 & [A1 A2 A3 A4 A5] & C3 & C4 & C5).
  split; [done|]. split; [by split|]. split; [done|]. split; [exact C4|exact C5].
Qed.

(** The batch holds the write lock and has writes to commit. *)
Definition can_commit b s : Prop :=
  writable b s /\ pool_ok s /\ db_mu (st_db s) = MkRWMutex true 0 /\ b_pendingWrites b <> [] /\
  b_committed b = false /\ b_rollbacked b = false /\ is_Some (b_batchId b).

(** Whoever waits for the lock, the commit does the same and hands the lock on. *)
Lemma Batch_Commit_writes clock now b s mu' :
  writable b s -> pool_ok s -> mu_Unlock (db_mu (st_db s)) = Ret mu' -> b_pendingWrites b <> [] ->
  b_committed b = false -> b_rollbacked b = false -> is_Some (b_batchId b) ->
  exists res b' s', Batch_Commit clock now (b, s) = Ret (res, (b', s')) /\
    b_options b' = b_options b /\ is_Some (b_batchId b') /\ db_mu (st_db s') = mu' /\
    db_static (st_db s) (st_db s') /\
    match res with None => committed_as now b s b' s' | Some e => refused_as (b_pendingWrites b) e s s' end.
Proof.
  intros Hw Hp Hmu Hne Hcm Hrb [node Hnode].
  destruct (commit_body_spec clock now b s node Hw Hp Hnode)
    as (res & b' & s' & E & Ho & Hid' & Hmu' & Hst & Hres).
  pose proof Hw as (_ & _ & Hc & Hro).
  exists res, b', (MkStore (set_mu mu' (st_db s')) (st_fs s')). split.
  - unfold Batch_Commit. apply defer_unlock_eq; [|rewrite Ho, Hro, Hmu', Hmu; done].
    gstep. rewrite Hc. gstep. rewrite Hro, Hcm, Hrb. simpl.
    destruct (b_pendingWrites b); [done|]. simpl. exact E.
  - split_and!; [done|done|done|by destruct Hst as (?&?&?&?&?&?)|].
    destruct res; [exact Hres|]. by apply committed_as_unlock.
Qed.

Lemma Batch_Commit_spec clock now b s :
  can_commit b s ->
  exists res b' s', Batch_Commit clock now (b, s) = Ret (res, (b', s')) /\
    b_options b' = b_options b /\ is_Some (b_batchId b') /\ db_mu (st_db s') = mu_free /\
    db_static (st_db s) (st_db s') /\
    match res with None => committed_as now b s b' s' | Some e => refused_as (b_pendingWrites b) e s s' end.
Proof. intros (Hw & Hp & Hmu & Hne & Hcm & Hrb & Hid). apply Batch_Commit_writes; try done. by rewrite Hmu. Qed.

(** The commit of an empty or read-only batch only releases the lock. *)
Lemma Batch_Commit_nothing clock now b s mu' :
  db_closed (st_db s) = false -> bo_ReadOnly (b_options b) = true \/ b_pendingWrites b = [] ->
  (if bo_ReadOnly (b_options b) then mu_RUnlock else mu_Unlock) (db_mu (st_db s)) = Ret mu' ->
  Batch_Commit clock now (b, s) = Ret (None, (b, MkStore (set_mu mu' (st_db s)) (st_fs s))).
Proof.
  intros Hc He Hmu. unfold Batch_Commit. apply defer_unlock_eq; [|done]. gstep. rewrite Hc. gstep.
  destruct He as [-> | ->]; [done|]. by rewrite orb_true_r.
Qed.

Lemma Batch_Rollback_writes b s mu' :
  writable b s -> pool_ok s -> mu_Unlock (db_mu (st_db s)) = Ret mu' ->
  b_committed b = false -> b_rollbacked b = false ->
  exists b' s', Batch_Rollback (b, s) = Ret (None, (b', s')) /\
    b_options b' = b_options b /\ b_rollbacked b' = true /\ b_pendingWrites b' = [] /\ batch_inv b' /\ b_batchId b' = b_batchId b /\
    db_index (st_db s') = db_index (st_db s) /\
    db_mu (st_db s') = mu' /\ db_static (st_db s) (st_db s') /\ db_inv s' /\ pool_ok s' /\
    db_view s' = db_view s /\ st_fs s' = st_fs s /\
    db_dataFiles (st_db s') = db_dataFiles (st_db s).
Proof.
  intros (Hb & Hs & Hc & Hro) Hp Hmu Hcm Hrb. eexists _, _. split.
  - unfold Batch_Rollback. apply defer_unlock_eq.
    + gstep. rewrite Hc. gstep. rewrite Hcm, Hrb, Hro. gstep. gstep. done.
    + simpl. by rewrite Hro, Hmu.
  - simpl. split_and!; try done.
    + apply empty_batch_inv.
    + destruct Hs as [H1 H2 H3 H4 H5]. by split.
    + unfold pool_ok in *. simpl. apply Forall_app. split; [|done]. apply Forall_rev.
      eapply Forall_impl; [apply Hb|]. apply rec_ok_id.
Qed.

Lemma Batch_Rollback_spec b s :
  writable b s -> pool_ok s -> db_mu (st_db s) = MkRWMutex true 0 ->
  b_committed b = false -> b_rollbacked b = false ->
  exists b' s', Batch_Rollback (b, s) = Ret (None, (b', s')) /\
    b_options b' = b_options b /\ b_rollbacked b' = true /\ b_pendingWrites b' = [] /\ batch_inv b' /\ b_batchId b' = b_batchId b /\
    db_index (st_db s') = db_index (st_db s) /\
    db_mu (st_db s') = mu_free /\ db_static (st_db s) (st_db s') /\ db_inv s' /\ pool_ok s' /\
    db_view s' = db_view s /\ st_fs s' = st_fs s /\
    db_dataFiles (st_db s') = db_dataFiles (st_db s).
Proof. intros Hw Hp Hmu Hcm Hrb. apply Batch_Rollback_writes; try done. by rewrite Hmu. Qed.
End commit_spec.
