(* ===== verification/Recovery.v ===== *)
(** * Recovery

    What [loadIndex] computes.  The log is a sequence of blocks: a finished
    batch, or one merged record.  Reading them in order gives a map, and the
    index the loader builds shows that map, as far as live keys go. *)
From S2P Require Import Prelude GoBinary Config GoOs Filepath WalLib Record BTreeLib Index Watch.
From S2P Require Import Store Batch DB Open View BatchSpec CommitSpec.
Open Scope Z_scope.

Section recovery.
Context {W : WalLib} {WL : WalLaws W} {B : BTreeLib item item_less} {BL : BTreeLaws B}
  {SF : Snowflake} {SL : SnowflakeLaws SF} {MH : MemHashLib}.
Implicit Types (s : Store) (k v : bytes) (r : LogRecord).

(** ** Blocks *)
Inductive block : Type :=
| Finished (id : Z) (rs : list LogRecord)      (* a committed batch *)
| Merged (r : LogRecord).                      (* a record a merge rewrote *)

Definition block_records (b : block) : list LogRecord :=
  match b with Finished id rs => batch_records id rs | Merged r => [r] end.

Definition block_ok (b : block) : Prop :=
  match b with
  | Finished id rs => 0 < id < 2 ^ 63 /\ Forall rec_ok rs /\ NoDup (lr_Key <$> rs)
  | Merged r => rec_ok r /\ lr_Type r = LogRecordNormal /\ lr_BatchId r = 0
  end.

(** The effect of a block on the map. *)
Definition apply_block (m : vmap) (b : block) : vmap :=
  match b with
  | Finished id rs => fold_left apply_record rs m
  | Merged r => apply_record m r
  end.

#[export] Instance apply_blocks_live_eq t :
  Proper ((=) ==> live_eq t ==> live_eq t) (fold_left apply_block).
Proof.
  intros bs bs' <- m m' H. revert m m' H. induction bs as [|b bs IH]; intros m m' H; [done|].
  simpl. apply IH. destruct b as [id rs|r]; simpl.
  - by apply apply_records_live_eq.
  - by apply apply_record_live_eq.
Qed.

(** The records of a log with their positions. *)
Definition log_items (log : list (ChunkPosition * bytes)) (items : list (ChunkPosition * LogRecord)) : Prop :=
  Forall2 (fun pc it => it.1 = pc.1 /\ pc.2 = record_bytes it.2 /\ LogRecord_ok it.2) log items.

(** ** The loop over the log *)
Fixpoint load_all (now : Z) (items : list (ChunkPosition * LogRecord)) (index : MemoryBTree)
    (irs : index_records) : error + MemoryBTree * index_records :=
  match items with
  | [] => inr (index, irs)
  | (p, r) :: items =>
      match load_record now r p index irs with
      | inl err => inl err
      | inr (index, irs) => load_all now items index irs
      end
  end.

Lemma load_all_app now a b index irs :
  load_all now (a ++ b) index irs
    = match load_all now a index irs with
      | inl err => inl err | inr (index, irs) => load_all now b index irs end.
Proof.
  revert index irs. induction a as [|[p r] a IH]; intros index irs; simpl; [done|].
  destruct (load_record now r p index irs) as [|[i s]]; [done|]. apply IH.
Qed.

Lemma load_wal_loop_spec now fin items segs fuel reader index irs index' irs' :
  reader_segs reader = segs -> segs <> [] -> Forall (fun sg : seg => fin < sg.1) segs ->
  log_items (segs_log segs) items -> (length items < fuel)%nat ->
  load_all now items index irs = inr (index', irs') ->
  load_wal_loop fuel now fin reader index irs = Ret (None, index').
Proof.
  revert segs fuel reader index irs.
  induction items as [|[p r] items IH]; intros segs fuel reader index irs Hr Hne Hall Hit Hf Hl;
    (destruct fuel as [|fuel]; [simpl in Hf; lia|]); cbn [load_wal_loop];
    rewrite reader_CurrentSegmentId_law, Hr; (destruct segs as [|[id cs] segs]; [done|]);
    cbn [mbind outcome_bind]; pose proof (Forall_inv Hall) as Hid; simpl in Hid;
    rewrite (proj2 (Z.leb_gt _ _)) by (simpl; lia);
    pose proof (segs_next_log ((id, cs) :: segs)) as Hn;
    destruct (reader_Next reader) as [res reader'] eqn:En;
    destruct (reader_Next_law _ _ _ En) as [-> Hr']; rewrite Hr in *;
    destruct (segs_next ((id, cs) :: segs)) as [[[q c]|] segs'] eqn:Es; simpl fst in *; simpl snd in *.
  - rewrite Hn in Hit. by apply Forall2_nil_inv_r in Hit.
  - simpl in Hl. simplify_eq. cbn beta iota. by rewrite decide_True.
  - destruct (segs_next_ids _ _ _ Es) as [Hne' Hsub].
    rewrite Hn in Hit. apply Forall2_cons in Hit as [(Hp & Hc & Hok) Hit].
    clear Es Hn. simpl in *. subst p c.
    rewrite decodeLogRecord_spec by done. cbn [mbind outcome_bind].
    destruct (load_record now r q index irs) as [e|[i2 irs2]]; [done|].
    apply (IH segs'); try done; try lia.
    rewrite Forall_forall in *. intros x Hx. destruct (Hsub x Hx) as (y & Hy & <-). by apply Hall.
  - destruct Hn as [Hn _]. rewrite Hn in Hit. by apply Forall2_nil_inv_l in Hit.
Qed.

(** ** What one batch does to the index *)

(** The store with another index. *)
Definition at_index (i : MemoryBTree) s : Store := with_index (fun _ => i) s.

(** The records of [items] are in the log of [s]. *)
Definition items_in s (items : list (ChunkPosition * LogRecord)) : Prop :=
  Forall (fun it => (it.1, record_bytes it.2) ∈ wal_log (db_dataFiles (st_db s)) (st_fs s) /\ rec_ok it.2)
    items.

Definition to_index_record (it : ChunkPosition * LogRecord) : IndexRecord :=
  MkIndexRecord (lr_Key it.2) (lr_Type it.2) it.1.

Lemma index_Delete_at k i s :
  db_inv (at_index i s) ->
  db_inv (at_index (MemoryBTree_Delete i k).2 s) /\
  db_view (at_index (MemoryBTree_Delete i k).2 s) = delete k (db_view (at_index i s)).
Proof. intros H. exact (index_Delete_inv k (at_index i s) H). Qed.

Lemma index_Put_at p r i s :
  db_inv (at_index i s) -> (p, record_bytes r) ∈ wal_log (db_dataFiles (st_db s)) (st_fs s) ->
  rec_ok r -> lr_Type r = LogRecordNormal ->
  db_inv (at_index (MemoryBTree_Put i (lr_Key r) (Some p)).2 s) /\
  db_view (at_index (MemoryBTree_Put i (lr_Key r) (Some p)).2 s)
    = <[lr_Key r := rec_val r]> (db_view (at_index i s)).
Proof. intros H Hin Hr Ht. exact (index_Put_inv p r (at_index i s) H Hin Hr Ht). Qed.

Lemma index_records_spec items i s :
  items_in s items -> db_inv (at_index i s) ->
  let i' := fold_left index_record (to_index_record <$> items) i in
  db_inv (at_index i' s) /\
  db_view (at_index i' s) = fold_left apply_record items.*2 (db_view (at_index i s)).
Proof.
  revert i. induction items as [|[p r] items IH]; intros i Hin Hi; [done|].
  apply Forall_cons in Hin as [[Hp Hr] Hin]. simpl in Hp, Hr.
  rewrite !fmap_cons. cbn [fold_left].
  assert (H : db_inv (at_index (index_record i (to_index_record (p, r))) s) /\
    db_view (at_index (index_record i (to_index_record (p, r))) s)
      = apply_record (db_view (at_index i s)) r).
  { unfold index_record, apply_record, to_index_record. simpl. pose proof Hr as (_ & _ & Ht).
    destruct Ht as [Ht|Ht]; rewrite Ht; repeat case_decide; try done.
    - by apply index_Put_at.
    - by apply index_Delete_at. }
  destruct H as [H1 H2]. simpl. rewrite <- H2. by apply IH.
Qed.

(** The early removal of expired records. *)
Definition drop_if_expired (now : Z) (m : vmap) r : vmap :=
  if IsExpired r now then delete (lr_Key r) m else m.

Lemma rec_ok_not_finished r : rec_ok r -> lr_Type r <> LogRecordBatchFinished.
Proof. intros (_ & _ & [E|E]); rewrite E; discriminate. Qed.

Lemma load_batch_records now id items i irs s :
  items_in s items -> db_inv (at_index i s) -> 0 < id -> Forall (fun it => lr_BatchId it.2 = id) items ->
  exists i' irs', load_all now items i irs = inr (i', irs') /\ db_inv (at_index i' s) /\
    db_view (at_index i' s) = fold_left (drop_if_expired now) items.*2 (db_view (at_index i s)) /\
    default [] (irs' !! id) = default [] (irs !! id)
      ++ (to_index_record <$> filter (fun it => IsExpired it.2 now = false) items) /\
    delete id irs' = delete id irs.
Proof.
  revert i irs. induction items as [|[p r] items IH]; intros i irs Hin Hi Hid Hids.
  { exists i, irs. simpl. by rewrite app_nil_r. }
  apply Forall_cons in Hin as [[Hp Hr] Hin]. apply Forall_cons in Hids as [Hr_id Hids].
  cbn [fst snd] in Hp, Hr, Hr_id. rewrite fmap_cons. cbn [load_all fold_left snd]. unfold load_record. rewrite decide_False by (by apply rec_ok_not_finished).
  rewrite decide_False by (intros [_ E]; unfold mergeFinishedBatchID in E; lia).
  rewrite filter_cons. cbn [snd]. destruct (IsExpired r now) eqn:He.
  - destruct (index_Delete_at (lr_Key r) i s Hi) as [H1 H2].
    destruct (IH (MemoryBTree_Delete i (lr_Key r)).2 irs Hin H1 Hid Hids) as (i' & irs' & E & A1 & A2 & A3 & A4).
    exists i', irs'. rewrite decide_False by done. rewrite A2, H2. unfold drop_if_expired at 3.
    rewrite He. by split_and!.
  - rewrite Hr_id, decide_True by done. unfold drop_if_expired at 2. rewrite He.
    destruct (IH i (<[id := default [] (irs !! id) ++ [MkIndexRecord (lr_Key r) (lr_Type r) p]]> irs)
      Hin Hi Hid Hids) as (i' & irs' & E & A1 & A2 & A3 & A4).
    exists i', irs'. rewrite lookup_insert_eq in A3. simpl in A3. rewrite delete_insert_eq in A4.
    split_and!; try done. rewrite A3, <- (assoc_L (++)). done.
Qed.

(** With distinct keys, removing the expired records early or at the end of the
    batch leaves the same live keys. *)
Lemma drops_lookup now rs m k :
  fold_left (drop_if_expired now) rs m !! k
    = if decide (k ∈ lr_Key <$> filter (fun r => IsExpired r now = true) rs) then None else m !! k.
Proof.
  revert m. induction rs as [|r rs IH]; intros m.
  { by rewrite decide_False by (apply not_elem_of_nil). }
  cbn [fold_left]. rewrite IH, filter_cons. unfold drop_if_expired.
  destruct (IsExpired r now) eqn:He; [|done]. rewrite (decide_True (P := true = true)) by done.
  rewrite fmap_cons. destruct (decide (lr_Key r = k)) as [Hk|Hk].
  - rewrite (decide_True (P := k ∈ lr_Key r :: _)) by (rewrite Hk; left).
    case_decide; [done|]. by rewrite Hk, lookup_delete_eq.
  - rewrite lookup_delete_ne by done. case_decide as H1; case_decide as H2; try done.
    + destruct H2. by right.
    + apply elem_of_cons in H2 as [?|?]; congruence.
Qed.

Lemma early_drop now rs m :
  NoDup (lr_Key <$> rs) ->
  live_eq now (fold_left apply_record (filter (fun r => IsExpired r now = false) rs)
                 (fold_left (drop_if_expired now) rs m))
              (fold_left apply_record rs m).
Proof.
  intros Hnd. set (rs' := filter _ rs).
  assert (Hsub : forall r, r ∈ rs' <-> IsExpired r now = false /\ r ∈ rs)
    by (intros r; unfold rs'; by rewrite list_elem_of_filter).
  assert (Hnd' : NoDup (lr_Key <$> rs')).
  { eapply sublist_NoDup; [exact Hnd|]. apply fmap_sublist, sublist_filter. }
  apply live_eq_lookup. intros k. rewrite !live_lookup, !apply_records_lookup, drops_lookup by done.
  destruct (pend_view rs !! k) as [r|] eqn:E.
  - apply (pend_view_Some _ _ _ Hnd) in E as [Hr Hk]. destruct (IsExpired r now) eqn:He.
    + assert (E' : pend_view rs' !! k = None).
      { destruct (pend_view rs' !! k) as [x|] eqn:Ex; [|done].
        apply (pend_view_Some _ _ _ Hnd') in Ex as [Hx Hkx]. apply Hsub in Hx as [Hx Hxin].
        assert (Er : pend_view rs !! k = Some r) by (by apply (pend_view_Some _ _ _ Hnd)).
        assert (Ex : pend_view rs !! k = Some x) by (by apply (pend_view_Some _ _ _ Hnd)).
        congruence. }
      rewrite E', decide_True; [unfold rec_opt, rec_val|].
      * case_decide; [done|]. rewrite IsExpired_expired in He. by rewrite He.
      * apply list_elem_of_fmap. exists r. split; [done|]. by apply list_elem_of_filter.
    + assert (E' : pend_view rs' !! k = Some r); [|by rewrite E'].
      apply (pend_view_Some _ _ _ Hnd'). split; [|done]. by apply Hsub.
  - apply pend_view_None in E.
    assert (E' : pend_view rs' !! k = None).
    { apply pend_view_None. intros Hin. apply E. apply list_elem_of_fmap in Hin as (r & -> & Hr).
      apply Hsub in Hr as [_ Hr]. apply list_elem_of_fmap. by exists r. }
    rewrite E', decide_False; [done|]. intros Hin. apply E.
    apply list_elem_of_fmap in Hin as (r & -> & Hr). apply list_elem_of_filter in Hr as [_ Hr].
    apply list_elem_of_fmap. by exists r.
Qed.

(** ** Blocks *)

(** Items of a log: the chunk of each is at its position. *)
Definition in_log s (items : list (ChunkPosition * LogRecord)) : Prop :=
  Forall (fun it => (it.1, record_bytes it.2) ∈ wal_log (db_dataFiles (st_db s)) (st_fs s)) items.

Lemma load_finished now id rs items i irs s :
  block_ok (Finished id rs) -> items.*2 = batch_records id rs -> in_log s items ->
  db_inv (at_index i s) -> irs !! id = None ->
  exists i', load_all now items i irs = inr (i', irs) /\ db_inv (at_index i' s) /\
    live_eq now (db_view (at_index i' s)) (fold_left apply_record rs (db_view (at_index i s))).
Proof.
  intros (Hid & Hrs & Hnd) Hits Hin Hi Hirs. unfold batch_records in Hits.
  destruct (fmap_app_inv _ _ _ _ Hits) as (its & fin & E1 & E2 & ->).
  apply (eq_sym) in E2. destruct fin as [|[pf rf] [|]]; try done. simpl in E2. injection E2 as ->.
  apply Forall_app in Hin as [Hin _].
  assert (Hin' : items_in s its).
  { apply Forall_forall. intros it Hit. unfold in_log in Hin. rewrite Forall_forall in Hin. split; [auto|].
    assert (H : it.2 ∈ its.*2) by (apply list_elem_of_fmap; by exists it). rewrite <- E1 in H.
    apply list_elem_of_fmap in H as (r & -> & Hr). rewrite Forall_forall in Hrs.
    apply set_id_ok; [auto|lia]. }
  assert (Hids : Forall (fun it : ChunkPosition * LogRecord => lr_BatchId it.2 = id) its).
  { apply Forall_forall. intros it Hit.
    assert (H : it.2 ∈ its.*2) by (apply list_elem_of_fmap; by exists it). rewrite <- E1 in H.
    by apply list_elem_of_fmap in H as (r & -> & Hr). }
  destruct (load_batch_records now id its i irs s Hin' Hi ltac:(lia) Hids)
    as (i1 & irs1 & El & A1 & A2 & A3 & A4).
  rewrite load_all_app, El. cbn [load_all]. unfold load_record. rewrite decide_True by done.
  simpl lr_Key. rewrite sf_ParseBytes_law by done. rewrite u64_small by lia. rewrite A3, Hirs, A4.
  simpl. rewrite delete_id by done.
  assert (Hin2 : items_in s (filter (fun it => IsExpired it.2 now = false) its)).
  { apply Forall_forall. intros it Hit. apply list_elem_of_filter in Hit as [_ Hit].
    unfold items_in in Hin'. rewrite Forall_forall in Hin'. auto. }
  destruct (index_records_spec _ i1 s Hin2 A1) as [B1 B2].
  eexists. split; [reflexivity|]. split; [exact B1|]. rewrite B2, A2.
  assert (Ef := filter_snd_fmap its (fun r => IsExpired r now = false)). rewrite Ef, <- E1.
  etransitivity; [apply early_drop|apply live_eq_batch_records].
  rewrite <- list_fmap_compose. exact Hnd.
Qed.

Lemma load_merged now r items i irs s :
  block_ok (Merged r) -> items.*2 = [r] -> in_log s items -> db_inv (at_index i s) ->
  exists i', load_all now items i irs = inr (i', irs) /\ db_inv (at_index i' s) /\
    db_view (at_index i' s) = apply_record (db_view (at_index i s)) r.
Proof.
  intros (Hr & Ht & Hb) Hits Hin Hi. destruct items as [|[p r'] [|]]; try done.
  simpl in Hits. injection Hits as ->. apply Forall_cons in Hin as [Hin _]. simpl in Hin.
  destruct (index_Put_at p r i s Hi Hin Hr Ht) as [P1 P2].
  exists (MemoryBTree_Put i (lr_Key r) (Some p)).2. cbn [load_all]. unfold load_record.
  rewrite decide_False by (by apply rec_ok_not_finished). rewrite decide_True by done.
  split; [done|]. split; [done|]. rewrite P2. unfold apply_record.
  rewrite decide_False; [done|]. rewrite Ht. discriminate.
Qed.

Lemma load_blocks now bs items i s m :
  Forall block_ok bs -> items.*2 = bs ≫= block_records -> in_log s items ->
  db_inv (at_index i s) -> live_eq now (db_view (at_index i s)) m ->
  exists i', load_all now items i ∅ = inr (i', ∅) /\ db_inv (at_index i' s) /\
    live_eq now (db_view (at_index i' s)) (fold_left apply_block bs m).
Proof.
  revert items i m. induction bs as [|b bs IH]; intros items i m Hbs Hits Hin Hi Hm.
  { simpl in Hits. apply fmap_nil_inv in Hits as ->. by exists i. }
  apply Forall_cons in Hbs as [Hb Hbs]. rewrite bind_cons in Hits.
  destruct (fmap_app_inv _ _ _ _ Hits) as (its1 & its2 & E1 & E2 & ->).
  apply Forall_app in Hin as [Hin1 Hin2]. symmetry in E1, E2.
  assert (H : exists i1, load_all now its1 i ∅ = inr (i1, ∅) /\ db_inv (at_index i1 s) /\
    live_eq now (db_view (at_index i1 s)) (apply_block m b)).
  { destruct b as [id rs|r]; simpl in E1.
    - destruct (load_finished now id rs its1 i ∅ s) as (i1 & L1 & L2 & L3); try done.
      exists i1. split_and!; [done|done|]. etransitivity; [exact L3|].
      by apply apply_records_live_eq.
    - destruct (load_merged now r its1 i ∅ s) as (i1 & L1 & L2 & L3); try done.
      exists i1. split_and!; [done|done|]. rewrite L3. by apply apply_record_live_eq. }
  destruct H as (i1 & L1 & L2 & L3). rewrite load_all_app, L1. cbn [fold_left].
  by apply IH.
Qed.

(** ** The disk *)

(** A segment that holds whole blocks. *)
Definition seg_blocks (sg : seg) (bs : list block) : Prop :=
  Forall block_ok bs /\ sg.2.*2 = record_bytes <$> (bs ≫= block_records).

(** The chunk is the encoding of a record. *)
Definition is_record (c : bytes) : Prop := exists r, c = record_bytes r /\ LogRecord_ok r.

(** The hint file never grows a second segment. *)
Definition one_segment (segs : list seg) : Prop := segs = [] \/ exists cs, segs = [(1, cs)].

(** The data directory: the segments [pre] a merge has rewritten, up to segment
    [fin], which the hints stand for, and the segments [post] written since. *)
Record disk_rep (dir : bytes) (fs : FileSys) (pre post : list seg) (bss : list (list block)) (fin : Z)
    (hints : list (ChunkPosition * LogRecord)) : Prop := {
  dr_segs : dir_segs seg_ok seg_chunks dir dataFileNameSuffix fs (pre ++ post);
  dr_fin : getMergeFinSegmentId fs dir = Ret (inr fin);
  dr_fin_range : 0 <= fin;
  dr_pre : Forall (fun sg : seg => sg.1 <= fin) pre;
  dr_post : Forall (fun sg : seg => fin < sg.1) post;
  dr_active : post = [] -> pre = [] /\ fin = 0;
  dr_blocks : Forall2 seg_blocks post bss;
  dr_hint_segs : exists hsegs, dir_segs seg_ok seg_chunks dir hintFileNameSuffix fs hsegs /\
    (segs_log hsegs).*2 = (fun h => hint_bytes (lr_Key h.2) h.1) <$> hints /\ one_segment hsegs;
  dr_hints : Forall (fun h => (h.1, record_bytes h.2) ∈ segs_log pre /\ rec_ok h.2 /\
                              lr_Type h.2 = LogRecordNormal) hints;
  dr_pre_records : Forall (fun pc => is_record pc.2) (segs_log pre);
}.

(** What the disk stands for. *)
Definition disk_view (bss : list (list block)) (hints : list (ChunkPosition * LogRecord)) : vmap :=
  fold_left apply_block (concat bss) (fold_left apply_record hints.*2 ∅).

Lemma batch_records_ok id rs :
  0 < id < 2 ^ 63 -> Forall rec_ok rs -> Forall LogRecord_ok (batch_records id rs).
Proof.
  intros Hid Hrs. unfold batch_records. apply Forall_app. split.
  - apply Forall_fmap. eapply Forall_impl; [exact Hrs|]. intros r Hr.
    apply (set_id_ok id r Hr). lia.
  - apply Forall_singleton. by apply finish_record_ok.
Qed.

Lemma block_records_ok b : block_ok b -> Forall LogRecord_ok (block_records b).
Proof.
  destruct b as [id rs|r]; simpl.
  - intros (Hid & Hrs & _). by apply batch_records_ok.
  - intros (Hr & _). apply Forall_singleton. apply Hr.
Qed.

(** The items of a log that holds the encodings of [rs]. *)
Lemma log_items_zip (log : list (ChunkPosition * bytes)) (rs : list LogRecord) :
  log.*2 = record_bytes <$> rs -> Forall LogRecord_ok rs ->
  log_items log (zip log.*1 rs) /\ (zip log.*1 rs).*2 = rs /\
  (forall it, it ∈ zip log.*1 rs -> (it.1, record_bytes it.2) ∈ log) /\
  length (zip log.*1 rs) = length log.
Proof.
  intros Hlog Hrs.
  assert (Hlen : length log.*1 = length rs).
  { by rewrite length_fmap, <- (length_fmap snd), Hlog, length_fmap. }
  assert (Hit : log_items log (zip log.*1 rs)).
  { unfold log_items. apply Forall2_same_length_lookup_2.
    { by rewrite length_zip_with_l_eq, length_fmap. }
    intros i [p c] [q r] Hc Hz. apply lookup_zip_Some in Hz as [Hq Hr].
    rewrite list_lookup_fmap, Hc in Hq. simpl in Hq. simplify_eq. simpl.
    split; [done|]. split; [|rewrite Forall_lookup in Hrs; by eapply Hrs].
    assert (E : log.*2 !! i = Some c) by (by rewrite list_lookup_fmap, Hc).
    rewrite Hlog, list_lookup_fmap, Hr in E. by simplify_eq/=. }
  split_and!; [done|apply snd_zip; lia| |by rewrite length_zip_with_l_eq, length_fmap].
  intros it Hin. apply list_elem_of_lookup in Hin as [i Hi].
  destruct (Forall2_lookup_r _ _ _ _ _ Hit Hi) as ([p c] & Hc & E1 & E2 & _). simpl in *. subst.
  destruct it as [q r]. simpl in *. subst. by eapply list_elem_of_lookup_2.
Qed.

(** The items of segments that hold blocks. *)
Lemma segs_blocks_items segs bss :
  Forall2 seg_blocks segs bss ->
  exists items, log_items (segs_log segs) items /\ items.*2 = concat bss ≫= block_records /\
    (forall it, it ∈ items -> (it.1, record_bytes it.2) ∈ segs_log segs) /\
    length items = length (segs_log segs) /\ Forall block_ok (concat bss).
Proof.
  induction 1 as [|[id cs] bs segs bss [Hok Hcs] _ (items & I1 & I2 & I3 & I4 & I5)].
  { exists []. split_and!; try done;
      [unfold log_items, segs_log; simpl; constructor|intros ? H; by apply not_elem_of_nil in H]. }
  simpl in Hcs. set (rs := bs ≫= block_records) in *.
  assert (Hrs : Forall LogRecord_ok rs).
  { subst rs. apply Forall_bind. eapply Forall_impl; [exact Hok|]. apply block_records_ok. }
  destruct (log_items_zip cs rs Hcs Hrs) as (J1 & J2 & J3 & J4).
  exists (zip cs.*1 rs ++ items). rewrite segs_log_cons. split_and!.
  - by apply Forall2_app.
  - rewrite fmap_app, I2, J2. simpl concat. by rewrite bind_app.
  - intros it [Hin|Hin]%elem_of_app; apply elem_of_app; [left; auto|right; auto].
  - by rewrite !length_app, I4, J4.
  - simpl concat. by apply Forall_app.
Qed.

(** ** The hint file *)
Lemma load_hint_loop_spec hints hsegs fuel reader i s :
  reader_segs reader = hsegs ->
  (segs_log hsegs).*2 = (fun h => hint_bytes (lr_Key h.2) h.1) <$> hints ->
  Forall (fun h => (h.1, record_bytes h.2) ∈ wal_log (db_dataFiles (st_db s)) (st_fs s) /\ rec_ok h.2 /\
                   lr_Type h.2 = LogRecordNormal) hints ->
  (length hints < fuel)%nat -> db_inv (at_index i s) ->
  exists i', load_hint_loop fuel reader i = Ret (None, i') /\ db_inv (at_index i' s) /\
    db_view (at_index i' s) = fold_left apply_record hints.*2 (db_view (at_index i s)).
Proof.
  revert hsegs fuel reader i.
  induction hints as [|[p r] hints IH]; intros hsegs fuel reader i Hr Hlog Hh Hf Hi;
    (destruct fuel as [|fuel]; [simpl in Hf; lia|]); cbn [load_hint_loop];
    pose proof (segs_next_log hsegs) as Hn;
    destruct (reader_Next reader) as [res reader'] eqn:En;
    destruct (reader_Next_law _ _ _ En) as [-> Hr']; rewrite Hr in *;
    destruct (segs_next hsegs) as [[[q c]|] segs'] eqn:Es; simpl fst in *; simpl snd in *.
  - rewrite Hn in Hlog. done.
  - exists i. by rewrite decide_True.
  - rewrite Hn, !fmap_cons in Hlog. simpl in Hlog. injection Hlog as Hc Hlog.
    apply Forall_cons in Hh as [(Hin & Hrk & Ht) Hh]. simpl in Hin, Hrk, Ht.
    assert (Hp : ChunkPosition_ok p) by (eapply wal_log_inv; [apply Hi|exact Hin]).
    rewrite Hc, decodeHintRecord_spec by done. cbn [mbind outcome_bind].
    destruct (index_Put_at p r i s Hi Hin Hrk Ht) as [P1 P2].
    destruct (IH segs' fuel reader' (MemoryBTree_Put i (lr_Key r) (Some p)).2) as (i' & E & A1 & A2);
      try done; [simpl in Hf; lia|].
    exists i'. split; [done|]. split; [done|]. rewrite A2, P2, fmap_cons. simpl. f_equal.
    unfold apply_record. rewrite decide_False; [done|]. rewrite Ht. discriminate.
  - destruct Hn as [Hn _]. rewrite Hn in Hlog. done.
Qed.

(** ** The segments a merge has rewritten are skipped *)
Lemma load_wal_loop_skip now fin pre post fuel reader i irs :
  reader_segs reader = pre ++ post -> Forall (fun sg : seg => sg.1 <= fin) pre ->
  exists reader', reader_segs reader' = post /\
    load_wal_loop (length pre + fuel) now fin reader i irs = load_wal_loop fuel now fin reader' i irs.
Proof.
  revert reader. induction pre as [|sg pre IH]; intros reader Hr Hpre; [by exists reader|].
  apply Forall_cons in Hpre as [Hsg Hpre]. cbn [length Nat.add load_wal_loop].
  rewrite reader_CurrentSegmentId_law, Hr. simpl app. cbn [mbind outcome_bind].
  rewrite (proj2 (Z.leb_le _ _)) by done.
  apply IH; [|done]. by rewrite reader_SkipCurrentSegment_law, Hr.
Qed.

(** ** [loadIndex] *)

(** The error of a call to open a log. *)
Definition wal_open_error (e : error) : Prop := exists o fs fs', wal_Open o fs = (inl e, fs').

Lemma seg_id_1 : seg_id_ok 1.
Proof. unfold seg_id_ok. lia. Qed.

Lemma exts_ne : dataFileNameSuffix <> hintFileNameSuffix /\ dataFileNameSuffix <> mergeFinNameSuffix /\
  hintFileNameSuffix <> mergeFinNameSuffix.
Proof. split_and!; discriminate. Qed.

Lemma exts_in : dataFileNameSuffix ∈ wal_exts /\ hintFileNameSuffix ∈ wal_exts /\
  mergeFinNameSuffix ∈ wal_exts.
Proof. unfold wal_exts. split_and!; set_solver. Qed.

Lemma getMergeFinSegmentId_frame dir fs fs' :
  fs_denies fs' = fs_denies fs ->
  fs_files fs' !! SegmentFileName dir mergeFinNameSuffix 1 = fs_files fs !! SegmentFileName dir mergeFinNameSuffix 1 ->
  getMergeFinSegmentId fs' dir = getMergeFinSegmentId fs dir.
Proof. intros E1 E2. unfold getMergeFinSegmentId, os_Open. by rewrite E1, E2. Qed.

(** A log of data or hints leaves the file that ends a merge alone. *)
Lemma frame_fin dir ext fs fs' :
  fs_frame dir ext fs fs' -> ext ∈ wal_exts -> ext <> mergeFinNameSuffix ->
  getMergeFinSegmentId fs' dir = getMergeFinSegmentId fs dir.
Proof.
  intros Hfr Hin Hne. apply getMergeFinSegmentId_frame; [apply Hfr|].
  apply (frame_file dir ext); [done|done| |done|apply seg_id_1]. apply exts_in.
Qed.

(** The same disk but for the hint file, which opening creates. *)
Lemma disk_rep_hint dir fs fs' pre post bss fin hints hw hsegs :
  disk_rep dir fs pre post bss fin hints ->
  dir_segs seg_ok seg_chunks dir hintFileNameSuffix fs hsegs ->
  fs_frame dir hintFileNameSuffix fs fs' -> wal_ok hw fs' ->
  wal_dir hw = dir -> wal_ext hw = hintFileNameSuffix ->
  wal_segs hw fs' = (match hsegs with [] => [(1, [])] | _ => hsegs end) ->
  disk_rep dir fs' pre post bss fin hints.
Proof.
  intros [D1 D2 D3 D4 D5 D6 D7 D8 D9 D10] Hh Hfr Hok Hdir Hext Hsegs.
  destruct exts_ne as (N1 & N2 & N3). destruct exts_in as (I1 & I2 & I3).
  assert (Hfile : forall ext id, ext ∈ wal_exts -> ext <> hintFileNameSuffix -> seg_id_ok id ->
    fs_files fs' !! SegmentFileName dir ext id = fs_files fs !! SegmentFileName dir ext id).
  { intros ext id Hin Hne Hid. by apply (frame_file dir hintFileNameSuffix). }
  split; try done.
  - apply (dir_segs_frame _ _ fs); [done|]. intros id Hid. by apply Hfile.
  - by rewrite (frame_fin dir hintFileNameSuffix fs fs').
  - destruct D8 as (hsegs' & Hh' & Hlog). rewrite <- (dir_segs_unique _ _ _ _ _ _ _ Hh Hh') in Hlog.
    destruct Hlog as [Hlog H1].
    exists (wal_segs hw fs'). split; [rewrite <- Hdir, <- Hext; by apply wal_segs_dir|].
    rewrite Hsegs. split; [by destruct hsegs|]. right. destruct H1 as [->|[cs ->]]; eauto.
Qed.

Lemma loadIndexFromHintFile_spec fuel dir w i fs pre post bss fin hints s :
  disk_rep dir fs pre post bss fin hints -> (length hints < fuel)%nat ->
  wal_ok w fs -> wal_dir w = dir -> wal_ext w = dataFileNameSuffix -> wal_segs w fs = pre ++ post ->
  db_dataFiles (st_db s) = w -> st_fs s = fs -> db_inv (at_index i s) ->
  exists err i' fs', loadIndexFromHintFile fuel dir i fs = Ret (err, i', fs') /\
    match err with
    | Some e => wal_open_error e /\ fs_frame dir hintFileNameSuffix fs fs'
    | None =>
        disk_rep dir fs' pre post bss fin hints /\ wal_ok w fs' /\ wal_segs w fs' = pre ++ post /\
        fs_frame dir hintFileNameSuffix fs fs' /\ fs_dirs fs' = {[dir]} ∪ fs_dirs fs /\
        db_inv (at_index i' (MkStore (st_db s) fs')) /\
        db_view (at_index i' (MkStore (st_db s) fs'))
          = fold_left apply_record hints.*2 (db_view (at_index i s))
    end.
Proof.
  intros Hrep Hf Hw Hdir Hext Hsegs Hdf Hfs Hi. unfold loadIndexFromHintFile.
  destruct (wal_Open (hint_options dir) fs) as [[e|hw] fs'] eqn:Eo.
  { eexists _, _, _. split; [reflexivity|]. split; [by eexists _, _, _|]. by apply (wal_Open_fails _ _ _ _ Eo). }
  destruct (dr_hint_segs _ _ _ _ _ _ _ Hrep) as (hsegs & Hh & Hlog & _).
  destruct exts_ne as (N1 & N2 & N3). destruct exts_in as (I1 & I2 & I3).
  destruct (wal_Open_law _ _ _ _ hsegs Eo I2 Hh) as (H1 & H2 & H3 & H4 & H5 & H6 & H7). simpl in *.
  destruct (wal_ok_frame w fs fs' Hw) as [Hw' Hs'].
  { intros id Hid. rewrite Hext. by apply (frame_file dir hintFileNameSuffix). }
  set (s' := MkStore (st_db s) fs').
  destruct (db_inv_extend w fs' (at_index i s) Hi Hw') as [Hi' Hv'].
  { rewrite <- Hdf. apply Hi. }
  { intros x. unfold wal_log. simpl. rewrite Hdf, Hfs, Hs'. done. }
  assert (Es : MkStore (set_dataFiles w (st_db (at_index i s))) fs' = at_index i s').
  { unfold at_index, with_index, s'. simpl. rewrite <- Hdf. by destruct (st_db s). }
  rewrite Es in Hi', Hv'.
  destruct (load_hint_loop_spec hints (wal_segs hw fs') fuel (wal_NewReader hw fs') i s') as (i' & E & A1 & A2).
  { by apply wal_NewReader_law. }
  { rewrite H5. by destruct hsegs. }
  { eapply Forall_impl; [apply (dr_hints _ _ _ _ _ _ _ Hrep)|]. intros h (Hin & ?). split; [|done].
    unfold wal_log. simpl. rewrite Hdf, Hs', Hsegs, segs_log_app, elem_of_app. by left. }
  { done. }
  { done. }
  rewrite E. cbn [mbind outcome_bind].
  destruct (wal_Close (wal_SetIsStartupTraversal hw true) fs') as [[ce cw] fs''] eqn:Ec.
  apply wal_Close_law in Ec as ->. eexists _, _, _. split; [reflexivity|].
  split_and!; try done.
  - exact (disk_rep_hint dir fs fs' pre post bss fin hints hw hsegs Hrep Hh H6 H1 H2 H3 H5).
  - by rewrite Hs'.
  - etransitivity; [exact A2|]. by f_equal.
Qed.

Lemma loadIndexFromWAL_spec fuel now dir w i fs pre post bss fin hints s m :
  disk_rep dir fs pre post bss fin hints -> post <> [] ->
  (length pre + length (segs_log post) < fuel)%nat ->
  wal_ok w fs -> wal_segs w fs = pre ++ post ->
  db_dataFiles (st_db s) = w -> st_fs s = fs -> db_inv (at_index i s) ->
  live_eq now (db_view (at_index i s)) m ->
  exists i' w', loadIndexFromWAL fuel now dir w i fs = Ret (None, i', w') /\ same_log w w' fs /\
    wal_pend w' = wal_pend w /\ db_inv (at_index i' s) /\
    live_eq now (db_view (at_index i' s)) (fold_left apply_block (concat bss) m).
Proof.
  intros Hrep Hne Hf Hw Hsegs Hdf Hfs Hi Hm. unfold loadIndexFromWAL.
  rewrite (dr_fin _ _ _ _ _ _ _ Hrep). cbn [mbind outcome_bind].
  destruct (segs_blocks_items post bss) as (items & I1 & I2 & I3 & I4 & I5); [apply Hrep|].
  replace fuel with (length pre + (fuel - length pre))%nat by lia.
  destruct (load_wal_loop_skip now fin pre post (fuel - length pre) (wal_NewReader w fs) i ∅)
    as (reader & Hr & ->); [by rewrite wal_NewReader_law|apply Hrep|].
  destruct (load_blocks now (concat bss) items i s m) as (i' & L1 & L2 & L3); try done.
  { apply Forall_forall. intros it Hit. unfold wal_log. rewrite Hdf, Hfs, Hsegs, segs_log_app, elem_of_app.
    right. by apply I3. }
  rewrite (load_wal_loop_spec now fin items post (fuel - length pre) reader i ∅ i' ∅);
    [|done|done|apply Hrep|done|lia|done].
  cbn [mbind outcome_bind].
  destruct (wal_SetIsStartupTraversal_law w true fs Hw) as (T1 & T2 & T3 & T4 & T5).
  destruct (wal_SetIsStartupTraversal_law _ false fs T1) as (U1 & U2 & U3 & U4 & U5).
  eexists _, _. split; [reflexivity|]. split; [split_and!; [done|congruence..]|].
  split; [congruence|]. by split.
Qed.

(** ** A batch cut short

    After a crash the log may end with the first records of a batch whose end
    mark was not written. *)
#[export] Instance drops_live_eq now :
  Proper ((=) ==> live_eq now ==> live_eq now) (fold_left (drop_if_expired now)).
Proof.
  intros rs rs' <- m m' H. revert m m' H. induction rs as [|r rs IH]; intros m m' H; [done|].
  simpl. apply IH. unfold drop_if_expired. destruct (IsExpired r now); [|done]. by rewrite H.
Qed.

Lemma fmap_zip_snd_app {A A'} (f : list (A * A')) (x y : list A') :
  f.*2 = x ++ y -> exists a b, f = a ++ b /\ a.*2 = x /\ b.*2 = y.
Proof. intros H. destruct (fmap_app_inv _ _ _ _ H) as (a & b & -> & -> & ->). eauto. Qed.

Lemma loadIndexFromWAL_torn fuel now dir fin w i fs pre post bs id rs s m :
  getMergeFinSegmentId fs dir = Ret (inr fin) -> post <> [] ->
  Forall (fun sg : seg => sg.1 <= fin) pre -> Forall (fun sg : seg => fin < sg.1) post ->
  Forall block_ok bs -> 0 < id < 2 ^ 63 -> Forall rec_ok rs ->
  (segs_log post).*2 = record_bytes <$> ((bs ≫= block_records) ++ (set_id id <$> rs)) ->
  (length pre + length (segs_log post) < fuel)%nat ->
  wal_ok w fs -> wal_segs w fs = pre ++ post ->
  db_dataFiles (st_db s) = w -> st_fs s = fs -> db_inv (at_index i s) ->
  live_eq now (db_view (at_index i s)) m ->
  exists i' w', loadIndexFromWAL fuel now dir w i fs = Ret (None, i', w') /\
    db_inv (at_index i' s) /\
    live_eq now (db_view (at_index i' s)) (fold_left (drop_if_expired now) rs (fold_left apply_block bs m)).
Proof.
  intros Hfin Hne Hpre Hpost Hbs Hid Hrs Hlog Hf Hw Hsegs Hdf Hfs Hi Hm. unfold loadIndexFromWAL.
  rewrite Hfin. cbn [mbind outcome_bind].
  assert (Hids : forall r, r ∈ set_id id <$> rs -> rec_ok r /\ lr_BatchId r = id).
  { intros r Hr. apply list_elem_of_fmap in Hr as (r' & -> & Hr'). rewrite Forall_forall in Hrs.
    split; [|done]. apply set_id_ok; [auto|lia]. }
  destruct (log_items_zip (segs_log post) _ Hlog) as (I1 & I2 & I3 & I4).
  { apply Forall_app. split.
    - apply Forall_bind. eapply Forall_impl; [exact Hbs|]. apply block_records_ok.
    - apply Forall_forall. intros r Hr. apply (Hids r Hr). }
  set (items := zip (segs_log post).*1 _) in *.
  destruct (fmap_zip_snd_app _ _ _ I2) as (ib & it & Ei & Eb & Et).
  assert (Hin : in_log s items).
  { apply Forall_forall. intros x Hx. unfold wal_log. rewrite Hdf, Hfs, Hsegs, segs_log_app, elem_of_app.
    right. by apply I3. }
  rewrite Ei in Hin. apply Forall_app in Hin as [Hin1 Hin2].
  destruct (load_blocks now bs ib i s m) as (i1 & L1 & L2 & L3); try done.
  assert (Hit : forall x, x ∈ it -> rec_ok x.2 /\ lr_BatchId x.2 = id).
  { intros x Hx. apply Hids. rewrite <- Et. apply list_elem_of_fmap. by exists x. }
  destruct (load_batch_records now id it i1 ∅ s) as (i2 & irs & M1 & M2 & M3 & _); try done; try lia.
  { apply Forall_forall. intros x Hx. rewrite Forall_forall in Hin2. split; [by apply Hin2|by apply Hit]. }
  { apply Forall_forall. intros x Hx. by apply Hit. }
  replace fuel with (length pre + (fuel - length pre))%nat by lia.
  destruct (load_wal_loop_skip now fin pre post (fuel - length pre) (wal_NewReader w fs) i ∅)
    as (reader & Hr & ->); [by rewrite wal_NewReader_law|done|].
  rewrite (load_wal_loop_spec now fin items post (fuel - length pre) reader i ∅ i2 irs);
    [|done|done|done|done|lia|by rewrite Ei, load_all_app, L1].
  cbn [mbind outcome_bind]. eexists _, _. split; [reflexivity|]. split; [done|].
  rewrite M3, Et. rewrite <- L3.
  clear. generalize (db_view (at_index i1 s)). induction rs as [|r rs IH]; intros m; [done|].
  rewrite fmap_cons. cbn [fold_left]. apply IH.
Qed.
End recovery.
