(* ===== verification/OpenSpec.v ===== *)
(** * What opening a database gives

    [DB_Open] on a disk without a merge directory: the new database shows what
    the disk stands for, and the disk stands for what the database shows from
    then on ([on_disk], kept by every operation of the API). *)
From S2P Require Import Prelude GoBinary Config GoOs Filepath WalLib Record BTreeLib Index Watch.
From S2P Require Import Store Batch DB Open View BatchSpec CommitSpec Recovery.
Open Scope Z_scope.

Section open_spec.
Context {W : WalLib} {WL : WalLaws W} {B : BTreeLib item item_less} {BL : BTreeLaws B}
  {SF : Snowflake} {SL : SnowflakeLaws SF} {MH : MemHashLib}.
Implicit Types (s : Store) (b : Batch) (k v : bytes) (r : LogRecord).

(** The disk stands for the live keys of the database from [T] on. *)
Definition on_disk (T : Z) s : Prop :=
  wal_dir (db_dataFiles (st_db s)) = o_DirPath (db_options (st_db s)) /\
  wal_ext (db_dataFiles (st_db s)) = dataFileNameSuffix /\
  exists pre post bss fin hints,
    disk_rep (o_DirPath (db_options (st_db s))) (st_fs s) pre post bss fin hints /\
    live_eq T (db_view s) (disk_view bss hints).

(** A batch as the pool keeps it. *)
Definition clean_batch b : Prop :=
  b_pendingWrites b = [] /\ b_pendingWritesMap b = ∅ /\ b_committed b = false /\
  b_rollbacked b = false /\ is_Some (b_batchId b).

(** A database ready for the next call. *)
Record db_good (T : Z) s : Prop := {
  dg_inv : db_inv s;
  dg_pool : pool_ok s;
  dg_mu : db_mu (st_db s) = mu_free;
  dg_open : db_closed (st_db s) = false;
  dg_batches : Forall clean_batch (db_batchPool (st_db s));
  dg_disk : on_disk T s;
}.

Lemma on_disk_mono T T' s : T <= T' -> on_disk T s -> on_disk T' s.
Proof.
  intros HT (H1 & H2 & pre & post & bss & fin & hints & H3 & H4). split; [done|]. split; [done|].
  exists pre, post, bss, fin, hints. split; [done|]. by apply (live_eq_mono T).
Qed.

Lemma db_good_mono T T' s : T <= T' -> db_good T s -> db_good T' s.
Proof. intros HT [H1 H2 H3 H4 H5 H6]. split; try done. by apply (on_disk_mono T). Qed.

Lemma disk_rep_files dir fs fs' pre post bss fin hints :
  fs_files fs' = fs_files fs -> fs_denies fs' = fs_denies fs -> disk_rep dir fs pre post bss fin hints ->
  disk_rep dir fs' pre post bss fin hints.
Proof.
  intros E Ed [D1 D2 D3 D4 D5 D6 D7 D8 D9 D10]. split; try done.
  - apply (dir_segs_frame _ _ fs); [done|]. by rewrite E.
  - rewrite <- D2. apply getMergeFinSegmentId_frame; [done|]. by rewrite E.
  - destruct D8 as (hs & H1 & H2). exists hs. split; [|done].
    apply (dir_segs_frame _ _ fs); [done|]. by rewrite E.
Qed.

(** The segments after opening: a first one when there was none. *)
Definition open_post (pre post : list seg) : list seg :=
  match pre ++ post with [] => [(1, [])] | _ => post end.
Definition open_bss (pre post : list seg) (bss : list (list block)) : list (list block) :=
  match pre ++ post with [] => [[]] | _ => bss end.

Lemma disk_rep_open dir fs w fs' pre post bss fin hints :
  disk_rep dir fs pre post bss fin hints -> wal_ok w fs' ->
  wal_dir w = dir -> wal_ext w = dataFileNameSuffix -> 
  wal_segs w fs' = (match pre ++ post with [] => [(1, [])] | _ => pre ++ post end) ->
  fs_frame dir dataFileNameSuffix fs fs' ->
  disk_rep dir fs' pre (open_post pre post) (open_bss pre post bss) fin hints /\
  wal_segs w fs' = pre ++ open_post pre post /\ open_post pre post <> [] /\
  concat (open_bss pre post bss) = concat bss.
Proof.
  intros [D1 D2 D3 D4 D5 D6 D7 D8 D9 D10] Hw Hdir Hext Hsegs Hfr.
  destruct exts_ne as (N1 & N2 & N3). destruct exts_in as (I1 & I2 & I3).
  assert (Hs : wal_segs w fs' = pre ++ open_post pre post).
  { rewrite Hsegs. unfold open_post. destruct (pre ++ post) eqn:E; [|done].
    by apply app_nil in E as [-> _]. }
  assert (Hne : open_post pre post <> []).
  { unfold open_post. destruct (pre ++ post) eqn:E; [done|]. intros ->. by destruct D6 as [-> _]. }
  assert (Hc : concat (open_bss pre post bss) = concat bss).
  { unfold open_bss. destruct (pre ++ post) eqn:E; [|done]. apply app_nil in E as [_ ->].
    apply Forall2_nil_inv_l in D7 as ->. done. }
  split; [|done]. split; try done.
  - rewrite <- Hs, <- Hdir, <- Hext. by apply wal_segs_dir.
  - by rewrite (frame_fin dir dataFileNameSuffix fs fs').
  - unfold open_post. destruct (pre ++ post) eqn:E; [|done].
    apply app_nil in E as [-> ->]. destruct D6 as [_ ->]; [done|]. by repeat constructor.
  - unfold open_post, open_bss. destruct (pre ++ post) eqn:E; [|done].
    apply app_nil in E as [_ ->]. repeat constructor.
  - destruct D8 as (hs & H1 & H2). exists hs. split; [|done].
    apply (dir_segs_frame _ _ fs); [done|]. intros id Hid.
    by apply (frame_file dir dataFileNameSuffix).
Qed.

Lemma new_db_inv options w fs wt :
  wal_ok w fs -> wal_pend w = [] ->
  (0 < o_WatchQueueSize options -> exists x, wt = Some x /\ watcher_wf x) ->
  let s := MkStore (set_watcher wt (new_db options w)) fs in
  db_inv s /\ db_view s = ∅.
Proof.
  intros Hw Hp Hwt s. split.
  - split; [done|done| |done|done]. intros k op. simpl. rewrite newBTree_map, lookup_empty. done.
  - apply map_eq. intros k. rewrite db_view_lookup. unfold db_rec. simpl. by rewrite newBTree_map, lookup_empty.
Qed.

(** The fuel opening needs. *)
Definition open_fuel (pre post : list seg) (hints : list (ChunkPosition * LogRecord)) : nat :=
  S (length pre + length (segs_log post) + length hints).

Definition open_watcher (options : Options) : option Watcher :=
  if 0 <? o_WatchQueueSize options then Some (NewWatcher (o_WatchQueueSize options)) else None.

Lemma open_watcher_ok options :
  o_WatchQueueSize options < 2 ^ 64 ->
  0 < o_WatchQueueSize options -> exists x, open_watcher options = Some x /\ watcher_wf x.
Proof.
  intros H1 H2. unfold open_watcher. rewrite (proj2 (Z.ltb_lt _ _)) by done.
  eexists. split; [done|]. by apply NewWatcher_wf.
Qed.

(** The index of a database whose index is empty.  [wt] is the watcher the
    database has or will get. *)
Lemma loadIndex_spec fuel now wt db fs pre post bss fin hints :
  let dir := o_DirPath (db_options db) in
  disk_rep dir fs pre post bss fin hints -> post <> [] ->
  (open_fuel pre post hints <= fuel)%nat ->
  db_inv (MkStore (set_watcher wt db) fs) -> db_view (MkStore (set_watcher wt db) fs) = ∅ ->
  wal_dir (db_dataFiles db) = dir -> wal_ext (db_dataFiles db) = dataFileNameSuffix ->
  wal_segs (db_dataFiles db) fs = pre ++ post ->
  exists err db' fs', loadIndex fuel now db fs = Ret (err, db', fs') /\
    match err with
    | Some e => wal_open_error e /\ fs_frame dir hintFileNameSuffix fs fs'
    | None =>
        let s := MkStore (set_watcher wt db') fs' in
        (exists i w, db' = set_dataFiles w (set_index i db) /\ wal_dir w = dir /\
           wal_ext w = dataFileNameSuffix /\ wal_segs w fs' = pre ++ post) /\
        db_inv s /\ disk_rep dir fs' pre post bss fin hints /\
        live_eq now (db_view s) (disk_view bss hints) /\
        fs_dirs fs' = {[dir]} ∪ fs_dirs fs /\ fs_frame dir hintFileNameSuffix fs fs'
    end.
Proof.
  intros dir Hrep Hne Hf N1 N2 Hdir Hext Hsegs. unfold open_fuel in Hf.
  set (w := db_dataFiles db) in *. assert (Hw : wal_ok w fs) by apply N1.
  assert (Hp : wal_pend w = []) by apply N1.
  set (s0 := MkStore (set_watcher wt db) fs) in *.
  destruct (loadIndexFromHintFile_spec fuel dir w (db_index (st_db s0)) fs pre post bss fin
    hints s0) as (err & i1 & fs1 & E1 & H1); try done; [lia|].
  unfold loadIndex. fold dir. change (db_index db) with (db_index (st_db s0)).
  rewrite E1. cbn [mbind outcome_bind]. destruct err as [e|]; [eexists _, _, _; split; [reflexivity|done]|].
  destruct H1 as (R1 & W1 & S1 & F1 & FD & I1 & V1).
  set (s1 := MkStore (st_db s0) fs1) in *.
  destruct (loadIndexFromWAL_spec fuel now dir w i1 fs1 pre post bss fin hints s1
    (fold_left apply_record hints.*2 ∅)) as (i2 & w2 & E2 & (L1 & L2 & L3 & L4) & P2 & I2 & V2);
    try done; [lia| |].
  { rewrite V1. replace (at_index (db_index (st_db s0)) s0) with s0 by (by destruct db). by rewrite N2. }
  simpl. fold w. rewrite E2. cbn [mbind outcome_bind]. eexists _, _, _. split; [reflexivity|].
  destruct (db_inv_extend w2 fs1 (at_index i2 s1) I2 L1) as [I3 V3]; [congruence| |].
  { intros x. unfold wal_log. rewrite L2. done. }
  split.
  { exists i2, w2. split; [by destruct db|]. split_and!; congruence. }
  split; [exact I3|]. split; [done|]. split; [|done].
  change (MkStore _ fs1) with (MkStore (set_dataFiles w2 (st_db (at_index i2 s1))) fs1).
  by rewrite V3.
Qed.

(** ** [Open] *)

(** An error [Open] may report on a sound directory: one of the log library, or
    one of the system. *)
Definition open_error (fs : FileSys) (e : error) : Prop := wal_open_error e \/ os_error fs e.

Definition made_dir (options : Options) (fs : FileSys) : FileSys := (open_dir (o_DirPath options) fs).2.

Lemma made_dir_spec options fs :
  fs_files (made_dir options fs) = fs_files fs /\ fs_denies (made_dir options fs) = fs_denies fs /\
  match (open_dir (o_DirPath options) fs).1 with
  | Some e => made_dir options fs = fs /\ os_error fs e
  | None => fs_dirs (made_dir options fs) = {[o_DirPath options]} ∪ fs_dirs fs
  end.
Proof.
  unfold made_dir, open_dir, os_StatDir, os_dir_exists.
  assert (Hmk : fs_files (os_MkdirAll fs (o_DirPath options)).2 = fs_files fs /\
    fs_denies (os_MkdirAll fs (o_DirPath options)).2 = fs_denies fs /\
    match (os_MkdirAll fs (o_DirPath options)).1 with
    | Some e => (os_MkdirAll fs (o_DirPath options)).2 = fs /\ os_error fs e
    | None => fs_dirs (os_MkdirAll fs (o_DirPath options)).2 = {[o_DirPath options]} ∪ fs_dirs fs
    end).
  { unfold os_MkdirAll. destruct (fs_denies fs (OsMkdirAll _)) as [e|] eqn:E; [|done]. split; [done|]. split; [done|]. split; [done|]. by exists (OsMkdirAll (o_DirPath options)). }
  destruct (fs_denies fs (OsStatDir _)); [done|]. case_bool_decide as H; [|done]. simpl. split_and!; [done..|set_solver].
Qed.

(** Opening touches the segments of the data and of the hints of [dir]. *)
Record open_frame (dir : bytes) (fs fs' : FileSys) : Prop := {
  of_files : forall p, (forall id, seg_id_ok id -> p <> SegmentFileName dir dataFileNameSuffix id /\
                                    p <> SegmentFileName dir hintFileNameSuffix id) ->
    fs_files fs' !! p = fs_files fs !! p;
  of_denies : fs_denies fs' = fs_denies fs;
}.

Lemma open_frame_trans dir fs1 fs2 fs3 : open_frame dir fs1 fs2 -> open_frame dir fs2 fs3 -> open_frame dir fs1 fs3.
Proof. intros [A1 A2] [B1 B2]. split; [|congruence]. intros p Hp. by rewrite B1, A1. Qed.

Lemma data_open_frame dir fs fs' : fs_frame dir dataFileNameSuffix fs fs' -> open_frame dir fs fs'.
Proof. intros [A1 A2]. split; [|done]. intros p Hp. apply A1. intros id Hid. by apply Hp. Qed.

Lemma hint_open_frame dir fs fs' : fs_frame dir hintFileNameSuffix fs fs' -> open_frame dir fs fs'.
Proof. intros [A1 A2]. split; [|done]. intros p Hp. apply A1. intros id Hid. by apply Hp. Qed.

(** What [Open] leaves when it succeeds. *)
Record opened_as (now : Z) (options : Options) (fs fs' : FileSys) (db : DB) (pre post : list seg)
    (bss : list (list block)) (fin : Z) (hints : list (ChunkPosition * LogRecord)) : Prop := {
  oa_good : db_good now (MkStore db fs');
  oa_options : db_options db = options;
  oa_merge : db_mergeRunning db = false;
  oa_view : live_eq now (db_view (MkStore db fs')) (disk_view bss hints);
  oa_rep : disk_rep (o_DirPath options) fs' pre (open_post pre post) (open_bss pre post bss) fin hints;
  oa_segs : wal_segs (db_dataFiles db) fs' = pre ++ open_post pre post;
  oa_frame : open_frame (o_DirPath options) fs fs';
  oa_dirs : fs_dirs fs' = {[o_DirPath options]} ∪ fs_dirs fs;
  oa_dir : wal_dir (db_dataFiles db) = o_DirPath options;
  oa_ext : wal_ext (db_dataFiles db) = dataFileNameSuffix;
  oa_watcher : db_watcher db = open_watcher options;
}.

Lemma DB_Open_loaded cron_Parse cron_AddFunc fuel now options fs fs1 fs2 pre post bss fin hints :
  checkOptions cron_Parse options = None ->
  cron_AddFunc (o_AutoMergeCronExpr options) = None ->
  o_WatchQueueSize options < 2 ^ 64 ->
  open_dir (o_DirPath options) fs = (None, fs1) ->
  loadMergeFiles (o_DirPath options) fs1 = Ret (None, fs2) ->
  disk_rep (o_DirPath options) fs2 pre post bss fin hints ->
  (open_fuel pre (open_post pre post) hints <= fuel)%nat ->
  exists res fs', DB_Open cron_Parse cron_AddFunc (inr true) fuel now options fs = Ret (res, fs') /\
    match res with
    | inl e => wal_open_error e /\ open_frame (o_DirPath options) fs2 fs'
    | inr db => opened_as now options fs2 fs' db pre post bss fin hints
    end.
Proof.
  intros Hopt Hcron Hq Hdir Hmerge Hrep Hf. unfold DB_Open. rewrite Hopt, Hdir.
  set (dir := o_DirPath options) in *. rewrite Hmerge. cbn [mbind outcome_bind].
  unfold openWalFiles. destruct (wal_Open (wal_options options) fs2) as [[e|w] fs3] eqn:Eo.
  { eexists _, _. split; [reflexivity|]. split; [by eexists _, _, _|]. by apply data_open_frame, (wal_Open_fails _ _ _ _ Eo). }
  destruct exts_in as (I1 & _).
  destruct (wal_Open_law _ _ _ _ (pre ++ post) Eo I1) as (O1 & O2 & O3 & O4 & O5 & O6 & O7); [apply Hrep|].
  destruct (disk_rep_open dir fs2 w fs3 pre post bss fin hints Hrep O1 O2 O3 O5 O6) as (R2 & S2 & Ne2 & C2).
  destruct (new_db_inv options w fs3 (open_watcher options) O1 O4 (open_watcher_ok options Hq)) as [N1 N2].
  destruct (loadIndex_spec fuel now (open_watcher options) (new_db options w) fs3 pre (open_post pre post)
    (open_bss pre post bss) fin hints) as (err & db & fs4 & El & Hl); try done.
  rewrite El. cbn [mbind outcome_bind]. destruct err as [e|].
  { eexists _, _. split; [reflexivity|]. destruct Hl as [Hl1 Hl2]. split; [done|].
    apply (open_frame_trans _ _ fs3); [by apply data_open_frame|by apply hint_open_frame]. }
  destruct Hl as ((i & w' & -> & D1 & D2 & D3) & G1 & G2 & G3 & G4 & G5).
  assert (Edb : (if 0 <? o_WatchQueueSize options
                 then set_watcher (Some (NewWatcher (o_WatchQueueSize options)))
                        (set_dataFiles w' (set_index i (new_db options w)))
                 else set_dataFiles w' (set_index i (new_db options w)))
                = set_watcher (open_watcher options) (set_dataFiles w' (set_index i (new_db options w)))).
  { unfold open_watcher. by destruct (0 <? _). }
  rewrite Edb, Hcron.
  assert (Enone : (if 0 <? len (o_AutoMergeCronExpr options) then None else None : option error) = None)
    by (case (0 <? len (o_AutoMergeCronExpr options)); reflexivity).
  rewrite Enone. eexists _, _. split; [reflexivity|].
  assert (Hv : live_eq now (db_view (MkStore (set_watcher (open_watcher options)
    (set_dataFiles w' (set_index i (new_db options w)))) fs4)) (disk_view bss hints)).
  { etransitivity; [exact G3|]. unfold disk_view. by rewrite C2. }
  split; try done.
  - split; try done; [by apply Forall_nil|]. split_and!; simpl; [done|done|].
    by eexists _, _, _, _, _.
  - apply (open_frame_trans _ _ fs3); [by apply data_open_frame|by apply hint_open_frame].
  - rewrite G4, O7. simpl. set_solver.
Qed.

(** Without a merge directory there is nothing to take over. *)
Lemma loadMergeFiles_none options fs fs1 :
  os_dir_exists fs (mergeDirPath (o_DirPath options)) = false ->
  mergeDirPath (o_DirPath options) <> o_DirPath options ->
  open_dir (o_DirPath options) fs = (None, fs1) ->
  exists err, loadMergeFiles (o_DirPath options) fs1 = Ret (err, fs1) /\
    match err with Some e => os_error fs e | None => True end.
Proof.
  intros Hmd Hne Hdir. unfold loadMergeFiles, os_StatDir.
  pose proof (made_dir_spec options fs) as (_ & E2 & E3). unfold made_dir in E2, E3. rewrite Hdir in E2, E3. simpl in E2, E3.
  rewrite E2. destruct (fs_denies fs _) as [e|] eqn:Ed; [exists (Some e); split; [done|by eexists]|].
  assert (E : os_dir_exists fs1 (mergeDirPath (o_DirPath options)) = false).
  { unfold os_dir_exists in *. apply bool_decide_eq_false in Hmd. apply bool_decide_eq_false_2. rewrite E3. set_solver. }
  rewrite E. by exists None.
Qed.

Lemma DB_Open_spec cron_Parse cron_AddFunc fuel now options fs pre post bss fin hints :
  checkOptions cron_Parse options = None ->
  cron_AddFunc (o_AutoMergeCronExpr options) = None ->
  o_WatchQueueSize options < 2 ^ 64 ->
  os_dir_exists fs (mergeDirPath (o_DirPath options)) = false ->
  mergeDirPath (o_DirPath options) <> o_DirPath options ->
  disk_rep (o_DirPath options) fs pre post bss fin hints ->
  (open_fuel pre (open_post pre post) hints <= fuel)%nat ->
  exists res fs', DB_Open cron_Parse cron_AddFunc (inr true) fuel now options fs = Ret (res, fs') /\
    match res with
    | inl e => open_error fs e /\ open_frame (o_DirPath options) fs fs'
    | inr db => opened_as now options (made_dir options fs) fs' db pre post bss fin hints
    end.
Proof.
  intros Hopt Hcron Hq Hmd Hmne Hrep Hf.
  pose proof (made_dir_spec options fs) as (E1 & E2 & E3). unfold made_dir in *.
  destruct (open_dir (o_DirPath options) fs) as [[e|] fs1] eqn:Hdir; cbn [fst snd] in *.
  { exists (inl e), fs1. split; [unfold DB_Open; by rewrite Hopt, Hdir|]. destruct E3 as [-> He]. split; [by right|done]. }
  assert (Hfr1 : open_frame (o_DirPath options) fs fs1) by (split; [intros p _; by rewrite E1|done]).
  destruct (loadMergeFiles_none options fs fs1 Hmd Hmne Hdir) as ([e|] & Hload & He).
  { exists (inl e), fs1. split; [|by split; [right|]]. unfold DB_Open. rewrite Hopt, Hdir, Hload. done. }
  destruct (DB_Open_loaded cron_Parse cron_AddFunc fuel now options fs fs1 fs1 pre post bss fin hints)
    as (res & fs' & E & Hres); try done.
  { by apply (disk_rep_files _ fs). }
  exists res, fs'. split; [done|]. destruct res as [e|db]; [|done]. destruct Hres as [H1 H2].
  split; [by left|by apply (open_frame_trans _ _ fs1)].
Qed.
End open_spec.
