(* ===== verification/DBSpec.v ===== *)
(** * What the calls of the API do

    On a database ready for a call ([db_good]), each method of [DB] is the
    operation of the same name on the map of live keys, and leaves the database
    ready for the next one, its disk standing for the new map. *)
From S2P Require Import Prelude GoBinary Config GoOs Filepath WalLib Record BTreeLib Index Watch.
From S2P Require Import Store Batch DB Open View BatchSpec CommitSpec Recovery OpenSpec.
Open Scope Z_scope.

Section db_spec.
Context {W : WalLib} {WL : WalLaws W} {B : BTreeLib item item_less} {BL : BTreeLaws B}
  {SF : Snowflake} {SL : SnowflakeLaws SF} {MH : MemHashLib}.
Implicit Types (s : Store) (b : Batch) (k v : bytes) (r : LogRecord).

(** ** The disk follows the commits *)
(** One more block at the end of the segments. *)
Lemma append_blocks (fin : Z) pre post segs' bss blk new :
  segs_append new (pre ++ post) segs' -> post <> [] -> Forall (fun sg : seg => fin < sg.1) post ->
  Forall2 seg_blocks post bss -> block_ok blk -> new.*2 = record_bytes <$> block_records blk ->
  exists post' bss', segs' = pre ++ post' /\ post' <> [] /\ Forall (fun sg : seg => fin < sg.1) post' /\
    Forall2 seg_blocks post' bss' /\ concat bss' = concat bss ++ [blk] /\
    segs_log post' = segs_log post ++ new.
Proof.
  intros Happ Hne D5 D7 Hb Hnew.
  destruct (exists_last Hne) as (post0 & [id cs] & ->).
  destruct (Forall2_snoc_inv_l _ _ _ _ D7) as (bss0 & bs & -> & F1 & [F2 F3]).
  apply Forall_app in D5 as [D5 D5']. apply Forall_cons in D5' as [D5' _]. simpl in D5', F3.
  rewrite (assoc_L (++)) in Happ. inversion Happ as [p i c E1 E2|p i c E1 E2].
  - apply app_inj_tail in E1 as [-> [= -> ->]].
    exists (post0 ++ [(id, cs ++ new)]), (bss0 ++ [bs ++ [blk]]). split_and!.
    + by rewrite <- ?E2, <- (assoc_L (++)).
    + by destruct post0.
    + apply Forall_app. split; [done|]. by apply Forall_singleton.
    + apply Forall2_app; [done|]. constructor; [|constructor]. split.
      * apply Forall_app. split; [done|]. by apply Forall_singleton.
      * simpl. rewrite fmap_app, F3, Hnew, bind_app, fmap_app. simpl. by rewrite app_nil_r.
    + rewrite !concat_app. simpl. by rewrite !app_nil_r, (assoc_L (++)).
    + rewrite !segs_log_app, !segs_log_cons. simpl. by rewrite !app_nil_r, (assoc_L (++)).
  - apply app_inj_tail in E1 as [-> [= -> ->]].
    exists (post0 ++ [(id, cs); (id + 1, new)]), (bss0 ++ [bs; [blk]]). split_and!.
    + by rewrite <- ?E2, <- !(assoc_L (++)).
    + by destruct post0.
    + apply Forall_app. split; [done|]. repeat constructor; simpl; lia.
    + apply Forall2_app; [done|]. constructor; [done|]. constructor; [|constructor]. split.
      * by apply Forall_singleton.
      * simpl. by rewrite app_nil_r.
    + rewrite !concat_app. simpl. by rewrite !app_nil_r, (assoc_L (++)).
    + rewrite !segs_log_app, !segs_log_cons. simpl. by rewrite !app_nil_r, (assoc_L (++)).
Qed.

Lemma disk_rep_append dir fs fs' w w' pre post bss fin hints blk new :
  disk_rep dir fs pre post bss fin hints -> wal_ok w fs -> wal_ok w' fs' ->
  wal_dir w = dir -> wal_ext w = dataFileNameSuffix -> wal_dir w' = dir -> wal_ext w' = dataFileNameSuffix ->
  segs_append new (wal_segs w fs) (wal_segs w' fs') ->
  fs_frame dir dataFileNameSuffix fs fs' ->
  block_ok blk -> new.*2 = record_bytes <$> block_records blk ->
  exists post' bss', disk_rep dir fs' pre post' bss' fin hints /\ concat bss' = concat bss ++ [blk].
Proof.
  intros [D1 D2 D3 D4 D5 D6 D7 D8 D9 D10] Hw Hw' Hdir Hext Hdir' Hext' Happ Hfr Hb Hnew.
  destruct exts_ne as (N1 & N2 & N3). destruct exts_in as (I1 & I2 & I3).
  assert (Hs : wal_segs w fs = pre ++ post).
  { eapply dir_segs_unique; [|exact D1]. rewrite <- Hdir, <- Hext. by apply wal_segs_dir. }
  assert (Hne : post <> []).
  { intros ->. destruct D6 as [-> _]; [done|]. by apply (wal_segs_nonempty w fs Hw). }
  rewrite Hs in Happ.
  destruct (append_blocks fin pre post _ bss blk new Happ Hne D5 D7 Hb Hnew)
    as (post' & bss' & C1 & C2 & C3 & C4 & C5 & _).
  exists post', bss'. split; [|done]. split; try done.
  - rewrite <- C1, <- Hdir', <- Hext'. by apply wal_segs_dir.
  - by rewrite (frame_fin dir dataFileNameSuffix fs fs').
  - destruct D8 as (hs & H1 & H2). exists hs. split; [|done].
    apply (dir_segs_frame _ _ fs); [done|]. intros i Hi.
    by apply (frame_file dir dataFileNameSuffix).
Qed.

Lemma zip_snd_length {A A'} (l : list A) (k : list A') :
  length l = length k -> (zip l k).*2 = k.
Proof. intros E. apply snd_zip. lia. Qed.

Lemma on_disk_commit T now b s b' s' :
  on_disk T s -> T <= now -> db_inv s -> batch_inv b -> committed_as now b s b' s' ->
  db_options (st_db s') = db_options (st_db s) -> on_disk now s'.
Proof.
  intros (D1 & D2 & pre & post & bss & fin & hints & D3 & D4) HT Hs Hb
    (C1 & C2 & C3 & C4 & C5 & C6 & C7 & C8 & id & ps & Hid & Hlen & Happ & _) Ho.
  split; [congruence|]. split; [congruence|]. rewrite D1, D2 in C7.
  assert (Hlen' : length ps = length (record_bytes <$> batch_records id (b_pendingWrites b))).
  { unfold batch_records. rewrite length_fmap, length_app, length_fmap. simpl. lia. }
  destruct (disk_rep_append (o_DirPath (db_options (st_db s))) (st_fs s) (st_fs s')
    (db_dataFiles (st_db s)) (db_dataFiles (st_db s')) pre post bss fin hints
    (Finished id (b_pendingWrites b)) (zip ps (record_bytes <$> batch_records id (b_pendingWrites b))))
    as (post' & bss' & R & E); try done; try congruence; try apply Hs; try apply C2.
  { split_and!; try apply Hid; apply Hb. }
  { by apply zip_snd_length. }
  exists pre, post', bss', fin, hints. rewrite Ho. split; [done|].
  etransitivity; [exact C4|]. unfold batch_view, disk_view. rewrite E, fold_left_app. simpl.
  apply apply_records_live_eq; [done|]. by apply (live_eq_mono T).
Qed.

(** An index that shows the same live keys. *)
Lemma on_disk_view T T' s s' :
  on_disk T s -> T <= T' -> live_eq T' (db_view s') (db_view s) ->
  st_fs s' = st_fs s -> db_dataFiles (st_db s') = db_dataFiles (st_db s) ->
  db_options (st_db s') = db_options (st_db s) -> on_disk T' s'.
Proof.
  intros (D1 & D2 & pre & post & bss & fin & hints & D3 & D4) HT Hv Hfs Hdf Ho.
  split; [congruence|]. split; [congruence|]. exists pre, post, bss, fin, hints.
  rewrite Ho, Hfs. split; [done|]. rewrite Hv. by apply (live_eq_mono T).
Qed.

(** ** Taking a batch from the pool *)
Lemma set_batchPool_id s : MkStore (set_batchPool (db_batchPool (st_db s)) (st_db s)) (st_fs s) = s.
Proof. by destruct s as [[] ?]. Qed.

Lemma batchPool_Get_spec T s :
  db_good T s ->
  exists b p, batchPool_Get s = Ret (b, MkStore (set_batchPool p (st_db s)) (st_fs s)) /\
    clean_batch b /\ Forall clean_batch p.
Proof.
  intros [H1 H2 H3 H4 H5 H6]. unfold batchPool_Get.
  destruct (db_batchPool (st_db s)) as [|b p] eqn:E.
  - unfold newBatch. destruct sf_NewNode_law as [n ->]. cbn [mbind outcome_bind].
    eexists _, []. split; [|split; [|constructor]].
    + rewrite <- E. by destruct s as [[] ?].
    + split_and!; done.
  - apply Forall_cons in H5 as [Hb Hp]. by exists b, p.
Qed.

(** The batch as [Batch_init] sets it, and the store it locks. *)
Definition init_batch (rdonly : bool) b : Batch :=
  MkBatch [] ∅ (MkBatchOptions false rdonly) false false (b_batchId b) (b_buffers b).
Definition init_store (rdonly : bool) p s : Store :=
  MkStore (set_mu (if rdonly then MkRWMutex false 1 else MkRWMutex true 0)
             (set_batchPool p (st_db s))) (st_fs s).

Lemma Batch_init_spec rdonly b p s :
  clean_batch b -> db_mu (st_db s) = mu_free ->
  Batch_init rdonly false (b, MkStore (set_batchPool p (st_db s)) (st_fs s))
    = Ret (tt, (init_batch rdonly b, init_store rdonly p s)).
Proof.
  intros (H1 & H2 & H3 & H4 & _) Hmu. unfold Batch_init. gstep.
  rewrite H1, H2, H3, H4. unfold Batch_lock, gbind, b_get, on_db, db_with_mu. simpl. rewrite Hmu.
  by destruct rdonly.
Qed.

Lemma init_store_inv rdonly p s :
  db_inv s -> db_inv (init_store rdonly p s) /\ db_view (init_store rdonly p s) = db_view s.
Proof. intros [H1 H2 H3 H4 H5]. split; [by split|done]. Qed.

(** What [with_batch] does around its body. *)
Lemma with_batch_spec {A} (m : BatchM A) T s :
  db_good T s ->
  exists b p, clean_batch b /\ Forall clean_batch p /\
    forall a b' s', m (b, MkStore (set_batchPool p (st_db s)) (st_fs s)) = Ret (a, (b', s')) ->
      with_batch m s = Ret (a, MkStore (set_batchPool
        (MkBatch [] ∅ (b_options b') false false (b_batchId b') [] :: db_batchPool (st_db s'))
        (st_db s')) (st_fs s')).
Proof.
  intros Hg. destruct (batchPool_Get_spec T s Hg) as (b & p & E & Hb & Hp).
  exists b, p. split; [done|]. split; [done|]. intros a b' s' Hm.
  unfold with_batch. rewrite E. cbn [mbind outcome_bind]. rewrite Hm. done.
Qed.

(** The database after the method has given the batch back. *)
Lemma give_back T s b' :
  db_inv s -> pool_ok s -> db_mu (st_db s) = mu_free -> db_closed (st_db s) = false ->
  Forall clean_batch (db_batchPool (st_db s)) -> on_disk T s -> is_Some (b_batchId b') ->
  let s' := MkStore (set_batchPool
    (MkBatch [] ∅ (b_options b') false false (b_batchId b') [] :: db_batchPool (st_db s)) (st_db s))
    (st_fs s) in
  db_good T s' /\ db_view s' = db_view s.
Proof.
  intros [H1 H2 H3 H4 H5] Hp Hmu Hc Hb Hd Hid s'. split; [|done]. split; try done.
  constructor; [|done]. by split_and!.
Qed.

(** ** How a call changes the database

    It drops index entries of expired keys, or it commits one batch: its records
    go to the end of the log and its keys to the new positions. *)
Definition shrunk (t : Z) s s' : Prop :=
  st_fs s' = st_fs s /\ db_dataFiles (st_db s') = db_dataFiles (st_db s) /\
  mt_map (db_index (st_db s')) ⊆ mt_map (db_index (st_db s)) /\ live_eq t (db_view s') (db_view s).

Definition grown (t : Z) s s' : Prop :=
  wal_dir (db_dataFiles (st_db s')) = wal_dir (db_dataFiles (st_db s)) /\
  wal_ext (db_dataFiles (st_db s')) = wal_ext (db_dataFiles (st_db s)) /\
  fs_frame (wal_dir (db_dataFiles (st_db s))) (wal_ext (db_dataFiles (st_db s))) (st_fs s) (st_fs s') /\
  fs_dirs (st_fs s') = fs_dirs (st_fs s) /\
  exists id rs ps, block_ok (Finished id rs) /\ length ps = (length rs + 1)%nat /\
    segs_append (zip ps (record_bytes <$> batch_records id rs))
      (wal_segs (db_dataFiles (st_db s)) (st_fs s)) (wal_segs (db_dataFiles (st_db s')) (st_fs s')) /\
    live_eq t (db_view s') (fold_left apply_record rs (db_view s)) /\
    index_follows (lr_Key <$> rs) ps (db_index (st_db s)) (db_index (st_db s')).

Definition evolved (t : Z) s s' : Prop :=
  db_mergeRunning (st_db s') = db_mergeRunning (st_db s) /\ (shrunk t s s' \/ grown t s s').

Lemma evolved_mono t t' s s' : t <= t' -> evolved t s s' -> evolved t' s s'.
Proof.
  intros Ht [Hm H]. split; [done|]. destruct H as [(H1 & H2 & H3 & H4)|H].
  - left. split_and!; try done. by apply (live_eq_mono t).
  - right. destruct H as (H1 & H2 & H3 & H4 & id & rs & ps & H5 & H6 & H7 & H8 & H9).
    split_and!; try done. exists id, rs, ps. split; [done|]. split_and!; try done. by apply (live_eq_mono t).
Qed.

Lemma committed_grown t now b s b' s' :
  batch_inv b -> committed_as now b s b' s' -> now <= t -> grown t s s'.
Proof.
  intros Hb (C1 & C2 & C3 & C4 & C5 & C6 & C7 & C8 & id & ps & Hid & Hlen & Happ & Hfol) Ht.
  split_and!; try done. exists id, (b_pendingWrites b), ps.
  split; [split_and!; try apply Hid; apply Hb|]. split_and!; try done. by apply (live_eq_mono now).
Qed.

(** ** Writing methods *)

(** The log refused the batch [rs], which would have made the map [m]; the lock is
    free again. *)
Definition refused_batch (e : error) (m : vmap) s s' : Prop :=
  exists rs, refused_as rs e s s' /\ fold_left apply_record rs (db_view s) = m /\ db_mu (st_db s') = mu_free.

(** What a writing method reports, [m] being the map the operation gives. *)
Definition write_result (t now : Z) (spec : option error * vmap) s (res : option error) s' : Prop :=
  db_options (st_db s') = db_options (st_db s) /\
  match spec.1, res with
  | Some e, _ => res = Some e /\ db_good t s' /\ live_eq t (db_view s') (db_view s) /\ evolved t s s'
  | None, None => db_good now s' /\ live_eq now (db_view s') spec.2 /\ evolved now s s'
  | None, Some e => refused_batch e spec.2 s s'
  end.

(** The store after the batch has gone back to the pool. *)
Definition given_back b s : Store :=
  MkStore (set_batchPool (MkBatch [] ∅ (b_options b) false false (b_batchId b) [] :: db_batchPool (st_db s)) (st_db s)) (st_fs s).

(** The ends of a writing method, after its operation has run on the batch [b]
    from the pool. *)
Section write_ends.
Context (T t now : Z) (s : Store) (b : Batch) (p : list Batch).
Context (Hg : db_good T s) (HT : T <= t <= now) (Hb : clean_batch b) (Hp : Forall clean_batch p).

Lemma write_starts : writable (init_batch false b) (init_store false p s) /\
  batch_view (init_batch false b) (init_store false p s) = db_view s.
Proof.
  destruct (init_store_inv false p s (dg_inv T s Hg)) as [I1 I2].
  split; [split_and!; [apply empty_batch_inv|done|apply Hg|done]|exact I2].
Qed.

(** The operation failed: rollback. *)
Lemma write_rolls_back e m s2 : reads_as t (init_batch false b) (init_store false p s) s2 ->
  exists b3 s3, Batch_Rollback (init_batch false b, s2) = Ret (None, (b3, s3)) /\
    write_result t now (Some e, m) s (Some e) (given_back b3 s3).
Proof.
  intros (J1 & J2 & f & -> & Jsub). pose proof Hg as [G1 G2 G3 G4 G5 G6]. pose proof Hb as (_ & _ & _ & _ & Hid).
  set (b1 := init_batch false b) in *. set (s1 := init_store false p s) in *.
  destruct (Batch_Rollback_spec b1 (with_index f s1))
    as (b3 & s3 & E3 & K1 & K2 & K3 & K4 & K4' & K5 & K6 & K7 & K8 & K9 & K10 & K11 & K12);
    try done; [split_and!; [apply empty_batch_inv|done..]|].
  exists b3, s3. split; [done|]. destruct K7 as (Q1 & Q2 & Q3 & Q4 & Q5 & Q6).
  destruct (give_back t s3 b3) as [A1 A2]; try done; try congruence.
  - by rewrite Q3.
  - by rewrite Q5.
  - apply (on_disk_view T t s1); try done; try lia. by rewrite K10.
  - by rewrite K4'.
  - split; [by simpl; rewrite Q2|]. split; [done|]. split; [exact A1|]. unfold given_back. rewrite A2, K10.
    split; [exact J2|]. split; [simpl; by rewrite Q4|]. left. split_and!.
    + change (st_fs s3 = st_fs s). by rewrite K11.
    + simpl. by rewrite K12.
    + simpl. rewrite K5. exact Jsub.
    + rewrite A2, K10. exact J2.
Qed.

(** It succeeded and left nothing to write. *)
Lemma write_commits_nothing clock m b2 s2 : b_pendingWrites b2 = [] ->
  writes_as m (init_batch false b) (init_store false p s) b2 s2 ->
  exists b3 s3, Batch_Commit clock now (b2, s2) = Ret (None, (b3, s3)) /\
    write_result t now (None, m) s None (given_back b3 s3).
Proof.
  intros Hnil (J1 & J2 & J3 & J4 & (S1 & S2 & S3 & S4 & S5) & (q & Hq)).
  pose proof Hg as [G1 G2 G3 G4 G5 G6]. pose proof Hb as (_ & _ & _ & _ & Hid).
  pose proof (Batch_Commit_nothing clock now b2 s2 mu_free) as Ec.
  rewrite S1 in Ec. simpl in Ec. specialize (Ec ltac:(by rewrite Hq) (or_intror Hnil) ltac:(by rewrite Hq)).
  eexists b2, _. split; [exact Ec|].
  assert (Em : db_view s2 = m) by (rewrite <- J4; unfold batch_view; by rewrite Hnil).
  destruct (give_back now (MkStore (set_mu mu_free (st_db s2)) (st_fs s2)) b2) as [A1 A2];
    try (rewrite Hq; done); try done.
  - destruct J2 as [B1 B2 B3 B4 B5]. by split.
  - apply (on_disk_view T now (init_store false p s)); try (rewrite Hq; done); try done; try lia.
  - by rewrite S4.
  - split; [by rewrite Hq|]. split; [exact A1|]. unfold given_back. rewrite A2.
    split; [change (live_eq now (db_view s2) m); by rewrite Em|].
    split; [by rewrite Hq|]. left. rewrite Hq. by split_and!.
Qed.

(** It succeeded and left records to write. *)
Lemma write_commits clock m b2 s2 : b_pendingWrites b2 <> [] ->
  writes_as m (init_batch false b) (init_store false p s) b2 s2 ->
  exists res b3 s3, Batch_Commit clock now (b2, s2) = Ret (res, (b3, s3)) /\
    write_result t now (None, m) s res (given_back b3 s3).
Proof.
  intros Hne (J1 & J2 & J3 & J4 & (S1 & S2 & S3 & S4 & S5) & (q & Hq)).
  pose proof Hg as [G1 G2 G3 G4 G5 G6]. pose proof Hb as (_ & _ & _ & _ & Hid).
  assert (Hw2 : writable b2 s2) by (split_and!; [done|done|by rewrite Hq|by rewrite S1]).
  destruct (Batch_Commit_spec clock now b2 s2) as (res & b3 & s3 & E3 & L1 & L2 & L3 & L4 & L5).
  { split_and!; try apply Hw2; try done; rewrite ?S2, ?S3, ?S4; try done; by rewrite Hq. }
  exists res, b3, s3. split; [done|].
  destruct L4 as (Q1 & Q2 & Q3 & Q4 & Q5 & Q6). rewrite Hq in Q2, Q3, Q5. simpl in Q2, Q3, Q5.
  split; [by simpl; rewrite Q2|]. destruct res as [e|].
  { destruct L5 as (A1 & A2 & A3 & A4). exists (b_pendingWrites b2). split; [|split; [|exact L3]].
    - rewrite Hq in A1, A2, A3, A4. split; [exact A1|]. split; [exact A2|]. split; [exact A3|]. exact A4.
    - rewrite <- J4. unfold batch_view. by rewrite Hq. }
  pose proof L5 as (C1 & C2 & C3 & C4 & _).
  destruct (give_back now s3 b3) as [A1 A2]; try done; try (by rewrite Q3); try (by rewrite Q5).
  - apply (on_disk_commit T now b2 s2 b3 s3); try done; [by rewrite Hq|lia|by rewrite Q2, Hq].
  - split; [exact A1|]. unfold given_back. rewrite A2. split.
    { change (live_eq now (db_view s3) m). rewrite <- J4. exact C4. }
    split; [simpl; rewrite Q4; by rewrite Hq|]. right.
    pose proof (committed_grown now now b2 s2 b3 s3 J1 L5 ltac:(lia)) as Hgr. rewrite Hq in Hgr. exact Hgr.
Qed.
End write_ends.

Lemma write_op_spec (op : BatchM (option error)) (spec : vmap -> option error * vmap) t clock now T s :
  db_good T s -> T <= t <= now ->
  (forall b s, writable b s -> pool_ok s -> b_pendingWrites b = [] ->
     exists b' s', op (b, s) = Ret ((spec (batch_view b s)).1, (b', s')) /\
                   may_write t (spec (batch_view b s)) b s b' s') ->
  exists res s', write_op op clock now s = Ret (res, s') /\ write_result t now (spec (db_view s)) s res s'.
Proof.
  intros Hg HT Hop. unfold write_op.
  destruct (with_batch_spec (Batch_init false false ;;; let! err := op in
    match err with Some err => let! _ := Batch_Rollback in gret (Some err)
                 | None => Batch_Commit clock now end) T s Hg) as (b & p & Hb & Hp & Hwith).
  destruct (write_starts T s b p Hg) as (Hw & Ev).
  destruct (Hop _ _ Hw (dg_pool T s Hg) eq_refl) as (b2 & s2 & E2 & Hmay). rewrite Ev in *.
  assert (Hrun : forall a b' s',
    (match (spec (db_view s)).1 with Some err => let! _ := Batch_Rollback in gret (Some err)
     | None => Batch_Commit clock now end) (b2, s2) = Ret (a, (b', s')) ->
    write_op op clock now s = Ret (a, given_back b' s')).
  { intros a b' s' H. apply Hwith. erewrite gbind_Ret; [|by apply Batch_init_spec, Hg]. by gstep. }
  unfold write_op in Hrun. unfold may_write in Hmay. destruct (spec (db_view s)) as [[e|] m]; cbn [fst snd] in *.
  - destruct Hmay as (-> & Hr & _). destruct (write_rolls_back T t now s b p Hg HT Hb Hp e m s2 Hr) as (b3 & s3 & E3 & H).
    eexists _, _. split; [apply (Hrun (Some e) b3 s3); by gstep|exact H].
  - destruct (decide (b_pendingWrites b2 = [])) as [Hnil|Hne].
    + destruct (write_commits_nothing T t now s b p Hg HT Hb Hp clock m b2 s2 Hnil Hmay) as (b3 & s3 & E3 & H).
      eexists _, _. split; [by apply (Hrun None b3 s3)|exact H].
    + destruct (write_commits T t now s b p Hg HT Hb Hp clock m b2 s2 Hne Hmay) as (res & b3 & s3 & E3 & H).
      eexists _, _. split; [by apply (Hrun res b3 s3)|exact H].
Qed.

(** ** Reading methods *)
Definition read_result (t : Z) s s' : Prop :=
  db_good t s' /\ live_eq t (db_view s') (db_view s) /\
  db_options (st_db s') = db_options (st_db s) /\ evolved t s s'.

Lemma read_op_spec {A} (op : BatchM A) (f : vmap -> A) t T s :
  db_good T s -> T <= t ->
  (forall b s, batch_inv b -> db_inv s -> db_closed (st_db s) = false -> b_pendingWrites b = [] ->
     exists s', op (b, s) = Ret (f (batch_view b s), (b, s')) /\ reads_as t b s s') ->
  exists s', read_op op s = Ret (f (db_view s), s') /\ read_result t s s'.
Proof.
  intros Hg HT Hop. unfold read_op.
  destruct (with_batch_spec (Batch_init true false ;;; let! a := op in
    let! _ := Batch_Commit 0 0 in gret a) T s Hg) as (b & p & Hb & Hp & Hwith).
  pose proof Hg as [G1 G2 G3 G4 G5 G6]. pose proof Hb as (_ & _ & _ & _ & Hid).
  destruct (init_store_inv true p s G1) as [I1 I2].
  set (b1 := init_batch true b) in *. set (s1 := init_store true p s) in *.
  destruct (Hop b1 s1 (empty_batch_inv _ _ _ _ _) I1 G4 eq_refl) as (s2 & E2 & (J1 & J2 & h & -> & Jsub)).
  pose proof (Batch_Commit_nothing 0 0 b1 (with_index h s1) mu_free G4 (or_introl eq_refl) eq_refl) as Ec.
  assert (Ev : batch_view b1 s1 = db_view s) by exact I2. rewrite Ev in E2.
  eexists. split.
  { apply Hwith. erewrite gbind_Ret; [|by apply Batch_init_spec].
    rewrite (gbind_Ret _ _ _ _ _ E2). rewrite (gbind_Ret _ _ _ _ _ Ec). reflexivity. }
  destruct (give_back t (MkStore (set_mu mu_free (st_db (with_index h s1))) (st_fs s1)) b1)
    as [A1 A2]; try done.
  - destruct J1 as [B1 B2 B3 B4 B5]. by split.
  - by apply (on_disk_view T t s).
  - split; [exact A1|]. split; [exact J2|]. split; [done|]. split; [done|]. left. by split_and!.
Qed.

(** ** The methods *)
Lemma DB_Put_spec T clock now k v s :
  db_good T s -> T <= now -> kv_ok k v 0 ->
  exists res s', DB_Put clock now k v s = Ret (res, s') /\
    write_result now now (None, <[k := (v, 0)]> (db_view s)) s res s'.
Proof.
  intros Hg HT Hkv. apply (write_op_spec _ (fun m => (None, <[k := (v, 0)]> m)) now clock now T s Hg);
    [lia|]. intros b s1 Hw Hp _. destruct (Batch_Put_spec k v b s1 Hw Hp Hkv) as (b' & s' & ? & ?). eauto.
Qed.

Lemma DB_PutWithTTL_spec T t clock now k v ttl s :
  db_good T s -> T <= t <= now -> kv_ok k v 0 ->
  exists res s', DB_PutWithTTL t clock now k v ttl s = Ret (res, s') /\
    write_result t now (None, <[k := (v, i64 (t + ttl))]> (db_view s)) s res s'.
Proof.
  intros Hg HT Hkv.
  apply (write_op_spec _ (fun m => (None, <[k := (v, i64 (t + ttl))]> m)) t clock now T s Hg HT).
  intros b s1 Hw Hp _. destruct (Batch_PutWithTTL_spec t k v ttl b s1 Hw Hp Hkv) as (b' & s' & ? & ?). eauto.
Qed.

Lemma DB_Delete_spec T clock now k s :
  db_good T s -> T <= now -> kv_ok k [] 0 ->
  exists res s', DB_Delete clock now k s = Ret (res, s') /\
    write_result now now (None, delete k (db_view s)) s res s'.
Proof.
  intros Hg HT Hkv. apply (write_op_spec _ (fun m => (None, delete k m)) now clock now T s Hg);
    [lia|]. intros b s1 Hw Hp _. destruct (Batch_Delete_spec k b s1 Hw Hp Hkv) as (b' & s' & ? & ?). eauto.
Qed.

Lemma DB_Expire_spec T t t2 clock now k ttl s :
  db_good T s -> T <= t <= now -> k <> [] ->
  exists res s', DB_Expire t t2 clock now k ttl s = Ret (res, s') /\
    write_result t now (spec_set_expire t (db_view s) k (i64 (t + ttl))) s res s'.
Proof.
  intros Hg HT Hk.
  apply (write_op_spec _ (fun m => spec_set_expire t m k (i64 (t + ttl))) t clock now T s Hg HT).
  intros b s1 Hw Hp He. destruct (Batch_Expire_spec t t2 k ttl b s1 Hw Hp Hk) as (b' & s' & H1 & H2).
  rewrite He in H1, H2. eauto.
Qed.

Lemma DB_Persist_spec T t clock now k s :
  db_good T s -> T <= t <= now -> k <> [] ->
  exists res s', DB_Persist t clock now k s = Ret (res, s') /\
    write_result t now (spec_set_expire t (db_view s) k 0) s res s'.
Proof.
  intros Hg HT Hk.
  apply (write_op_spec _ (fun m => spec_set_expire t m k 0) t clock now T s Hg HT).
  intros b s1 Hw Hp _. destruct (Batch_Persist_spec t k b s1 Hw Hp Hk) as (b' & s' & H1 & H2). eauto.
Qed.

Lemma DB_Get_spec T t k s :
  db_good T s -> T <= t -> k <> [] ->
  exists s', DB_Get t k s = Ret (spec_get t (db_view s) k, s') /\ read_result t s s'.
Proof.
  intros Hg HT Hk. apply (read_op_spec _ (fun m => spec_get t m k) t T s Hg HT).
  intros b s1 Hb Hs Hc _. by apply Batch_Get_spec.
Qed.

Lemma DB_Exist_spec T t k s :
  db_good T s -> T <= t -> k <> [] ->
  exists s', DB_Exist t k s = Ret (spec_exist t (db_view s) k, s') /\ read_result t s s'.
Proof.
  intros Hg HT Hk. apply (read_op_spec _ (fun m => spec_exist t m k) t T s Hg HT).
  intros b s1 Hb Hs Hc _. by apply Batch_Exist_spec.
Qed.

Lemma DB_TTL_spec T t k s :
  db_good T s -> T <= t -> k <> [] ->
  exists s', DB_TTL t k s = Ret (spec_ttl t (db_view s) k, s') /\ read_result t s s'.
Proof.
  intros Hg HT Hk. apply (read_op_spec _ (fun m => spec_ttl t m k) t T s Hg HT).
  intros b s1 Hb Hs Hc He. destruct (Batch_TTL_spec t k b s1) as (s' & E & Hr); try done.
  { rewrite He. intros r Hr. by apply not_elem_of_nil in Hr. }
  unfold pending_deleted in E. rewrite He in E. eauto.
Qed.

(** ** Closing *)
Lemma closeFiles_spec s : exists err w h, closeFiles s
  = Ret (err, MkStore (set_hintFile h (set_dataFiles w (st_db s))) (st_fs s)).
Proof.
  unfold closeFiles. destruct (wal_Close (db_dataFiles (st_db s)) (st_fs s)) as [[err w] fs] eqn:E.
  apply wal_Close_law in E as ->.
  destruct err as [e|]; [exists (Some e), w, (db_hintFile (st_db s)); by destruct s as [[] ?]|]. simpl.
  destruct (db_hintFile (st_db s)) as [h|] eqn:Eh.
  - destruct (wal_Close h (st_fs s)) as [[err h'] fs] eqn:E. apply wal_Close_law in E as ->. by eexists _, _, _.
  - exists None, w, None. rewrite <- Eh. by destruct s as [[] ?].
Qed.

(** Closing leaves the disk alone. *)
Lemma DB_Close_fs u s err s1 : DB_Close u s = Ret (err, s1) -> st_fs s1 = st_fs s.
Proof.
  unfold DB_Close, with_lock, gbind. destruct (db_mergeRunning _); [done|].
  unfold db_with_mu at 1. destruct (mu_Lock (db_mu (st_db s))) as [mu| |]; [|done|done].
  destruct (closeFiles_spec (MkStore (set_mu mu (st_db s)) (st_fs s))) as (e & w & h & ->).
  destruct e as [e|]; [|destruct u as [e|]];
    try (unfold gret, db_with_mu; destruct (mu_Unlock _); [by intros [= _ <-]|done|done]).
  unfold db_get, glift, db_modify, gret, db_with_mu.
  destruct (0 <? _); [destruct (db_watcher _) as [x|]; [|done]; destruct (Watcher_Close x); [|done|done]|];
    (destruct (mu_Unlock _); [by intros [= _ <-]|done|done]).
Qed.

(** ** Histories of calls *)

(** A call with the readings of the clock it makes. *)
Inductive dop : Type :=
| DPut (clock now : Z) (key value : bytes)
| DPutWithTTL (t clock now : Z) (key value : bytes) (ttl : Z)
| DGet (t : Z) (key : bytes)
| DDelete (clock now : Z) (key : bytes)
| DExist (t : Z) (key : bytes)
| DExpire (t t2 clock now : Z) (key : bytes) (ttl : Z)
| DTTL (t : Z) (key : bytes)
| DPersist (t clock now : Z) (key : bytes).

Inductive dres : Type :=
| ResErr (e : option error)
| ResVal (x : error + bytes)
| ResBool (x : error + bool)
| ResDur (x : error + Z).

Definition as_res {A} (f : A -> dres) (m : DbM A) : DbM dres := let! a := m in gret (f a).

Definition dop_run (o : dop) : DbM dres :=
  match o with
  | DPut clock now key value => as_res ResErr (DB_Put clock now key value)
  | DPutWithTTL t clock now key value ttl => as_res ResErr (DB_PutWithTTL t clock now key value ttl)
  | DGet t key => as_res ResVal (DB_Get t key)
  | DDelete clock now key => as_res ResErr (DB_Delete clock now key)
  | DExist t key => as_res ResBool (DB_Exist t key)
  | DExpire t t2 clock now key ttl => as_res ResErr (DB_Expire t t2 clock now key ttl)
  | DTTL t key => as_res ResDur (DB_TTL t key)
  | DPersist t clock now key => as_res ResErr (DB_Persist t clock now key)
  end.

(** The same call on the map of live keys. *)
Definition dop_spec (o : dop) (m : vmap) : dres * vmap :=
  let err p := (ResErr p.1, p.2) in
  match o with
  | DPut _ _ key value => (ResErr None, <[key := (value, 0)]> m)
  | DPutWithTTL t _ _ key value ttl => (ResErr None, <[key := (value, i64 (t + ttl))]> m)
  | DGet t key => (ResVal (spec_get t m key), m)
  | DDelete _ _ key => (ResErr None, delete key m)
  | DExist t key => (ResBool (spec_exist t m key), m)
  | DExpire t _ _ _ key ttl => err (spec_set_expire t m key (i64 (t + ttl)))
  | DTTL t key => (ResDur (spec_ttl t m key), m)
  | DPersist t _ _ key => err (spec_set_expire t m key 0)
  end.

(** The first and the last reading of the clock. *)
Definition dop_times (o : dop) : Z * Z :=
  match o with
  | DPut _ now _ _ | DDelete _ now _ => (now, now)
  | DPutWithTTL t _ now _ _ _ | DExpire t _ _ now _ _ | DPersist t _ now _ => (t, now)
  | DGet t _ | DExist t _ | DTTL t _ => (t, t)
  end.

Definition dop_ok (o : dop) : Prop :=
  match o with
  | DPut _ _ key value | DPutWithTTL _ _ _ key value _ => kv_ok key value 0
  | DDelete _ _ key => kv_ok key [] 0
  | DGet _ key | DExist _ key | DTTL _ key | DExpire _ _ _ _ key _ | DPersist _ _ _ key => key <> []
  end.

Fixpoint dops_run (ops : list dop) : DbM (list dres) :=
  match ops with
  | [] => gret []
  | o :: ops => let! x := dop_run o in let! xs := dops_run ops in gret (x :: xs)
  end.

Fixpoint dops_spec (ops : list dop) (m : vmap) : list dres * vmap :=
  match ops with
  | [] => ([], m)
  | o :: ops => let '(x, m) := dop_spec o m in let '(xs, m) := dops_spec ops m in (x :: xs, m)
  end.

Fixpoint times_ok (T : Z) (ops : list dop) : Prop :=
  match ops with
  | [] => True
  | o :: ops => T <= (dop_times o).1 <= (dop_times o).2 /\ times_ok (dop_times o).2 ops
  end.
Fixpoint times_end (T : Z) (ops : list dop) : Z :=
  match ops with [] => T | o :: ops => times_end (dop_times o).2 ops end.

(** The log refuses a write the specification accepts: the call reports the error
    the log gave for the batch that would have made the map of the specification,
    and leaves the index, the watcher and the map shown as they were. *)
Definition refused_op (o : dop) (m : vmap) s : Prop :=
  exists e s' m', dop_run o s = Ret (ResErr (Some e), s') /\ (dop_spec o m).1 = ResErr None /\
    refused_batch e m' s s' /\ live_eq (dop_times o).2 m' (dop_spec o m).2.

Lemma dop_spec_live_eq t o m m' :
  live_eq t m m' -> t <= (dop_times o).1 -> (dop_times o).1 <= (dop_times o).2 ->
  (dop_spec o m).1 = (dop_spec o m').1 /\ live_eq (dop_times o).2 (dop_spec o m).2 (dop_spec o m').2.
Proof.
  intros E H1 H2. pose proof (live_eq_mono t _ _ _ H1 E) as E1.
  pose proof (live_eq_mono _ _ _ _ H2 E1) as E2.
  assert (Hl : live (dop_times o).1 m = live (dop_times o).1 m') by exact E1.
  destruct o; simpl in *; unfold spec_get, spec_exist, spec_ttl; rewrite ?Hl; (split; [done|]) || idtac;
    try (rewrite E2; done); try exact E2; try exact E1.
  - destruct (spec_set_expire_live_eq t0 m m' key (i64 (t0 + ttl)) E1) as [-> E3].
    split; [done|]. by apply (live_eq_mono t0).
  - destruct (spec_set_expire_live_eq t0 m m' key 0 E1) as [-> E3].
    split; [done|]. by apply (live_eq_mono t0).
Qed.

Lemma as_res_eq {A} (f : A -> dres) (m : DbM A) s a s' :
  m s = Ret (a, s') -> as_res f m s = Ret (f a, s').
Proof. intros E. unfold as_res. by rewrite (gbind_Ret _ _ _ _ _ E). Qed.

(** A call that did what its specification says. *)
Definition call_done (o : dop) s : Prop :=
  exists s', dop_run o s = Ret ((dop_spec o (db_view s)).1, s') /\ db_good (dop_times o).2 s' /\
    db_options (st_db s') = db_options (st_db s) /\
    live_eq (dop_times o).2 (db_view s') (dop_spec o (db_view s)).2 /\
    evolved (dop_times o).2 s s'.

Lemma write_done o (f : DbM (option error)) t now spec s :
  t <= now -> dop_run o = as_res ResErr f -> dop_spec o (db_view s) = (ResErr spec.1, spec.2) -> (dop_times o).2 = now ->
  (forall e, spec.1 = Some e -> spec.2 = db_view s) ->
  (exists res s', f s = Ret (res, s') /\ write_result t now spec s res s') ->
  call_done o s \/ refused_op o (db_view s) s.
Proof.
  intros Ht Er Es En Herr (res & s' & Ef & Ho & Hres). unfold call_done, refused_op.
  rewrite Er, Es, En. simpl. rewrite (as_res_eq _ _ _ _ _ Ef). destruct spec as [[e|] m]; simpl in *.
  - destruct Hres as (-> & H1 & H2 & H3). left. exists s'. rewrite (Herr e eq_refl).
    split_and!; [done| |done| |]; [apply (db_good_mono t)|apply (live_eq_mono t)|apply (evolved_mono t)]; done.
  - destruct res as [e|]; [right; by exists e, s', m|]. left. exists s'. destruct Hres as (H1 & H2 & H3). by split_and!.
Qed.

Lemma read_done {A} (g : A -> dres) o (f : DbM A) t a s :
  dop_run o = as_res g f -> dop_spec o (db_view s) = (g a, db_view s) -> (dop_times o).2 = t ->
  (exists s', f s = Ret (a, s') /\ read_result t s s') -> call_done o s \/ refused_op o (db_view s) s.
Proof.
  intros Er Es En (s' & Ef & H1 & H2 & H3 & H4). left. exists s'.
  rewrite Er, Es, En. simpl. rewrite (as_res_eq _ _ _ _ _ Ef). by split_and!.
Qed.

(** One call does what its specification says, or the log refuses it. *)
Lemma dop_step T o s :
  db_good T s -> T <= (dop_times o).1 <= (dop_times o).2 -> dop_ok o -> call_done o s \/ refused_op o (db_view s) s.
Proof.
  intros Hg HT Hok.
  destruct o as [clock now k v|t clock now k v ttl|t k|clock now k|t k|t t2 clock now k ttl|t k|t clock now k];
    simpl in HT, Hok.
  - apply (write_done _ (DB_Put clock now k v) now now (None, <[k := (v, 0)]> (db_view s))); try done.
    apply (DB_Put_spec T); [done|lia|done].
  - apply (write_done _ (DB_PutWithTTL t clock now k v ttl) t now (None, <[k := (v, i64 (t + ttl))]> (db_view s)));
      try done; [lia|]. by apply (DB_PutWithTTL_spec T).
  - apply (read_done ResVal _ (DB_Get t k) t (spec_get t (db_view s) k)); try done.
    apply (DB_Get_spec T); [done|lia|done].
  - apply (write_done _ (DB_Delete clock now k) now now (None, delete k (db_view s))); try done.
    apply (DB_Delete_spec T); [done|lia|done].
  - apply (read_done ResBool _ (DB_Exist t k) t (spec_exist t (db_view s) k)); try done.
    apply (DB_Exist_spec T); [done|lia|done].
  - apply (write_done _ (DB_Expire t t2 clock now k ttl) t now (spec_set_expire t (db_view s) k (i64 (t + ttl))));
      try done; [lia| |by apply (DB_Expire_spec T)].
    unfold spec_set_expire. by destruct (live t (db_view s) !! k) as [[? ?]|].
  - apply (read_done ResDur _ (DB_TTL t k) t (spec_ttl t (db_view s) k)); try done.
    apply (DB_TTL_spec T); [done|lia|done].
  - apply (write_done _ (DB_Persist t clock now k) t now (spec_set_expire t (db_view s) k 0));
      try done; [lia| |by apply (DB_Persist_spec T)].
    unfold spec_set_expire. by destruct (live t (db_view s) !! k) as [[? ?]|].
Qed.

Lemma dops_run_spec T ops s m :
  db_good T s -> live_eq T (db_view s) m -> times_ok T ops -> Forall dop_ok ops ->
  (exists s', dops_run ops s = Ret ((dops_spec ops m).1, s') /\ db_good (times_end T ops) s' /\
     db_options (st_db s') = db_options (st_db s) /\
     live_eq (times_end T ops) (db_view s') (dops_spec ops m).2) \/
  (exists ops1 o ops2 s1, ops = ops1 ++ o :: ops2 /\
     dops_run ops1 s = Ret ((dops_spec ops1 m).1, s1) /\ db_good (times_end T ops1) s1 /\
     db_options (st_db s1) = db_options (st_db s) /\
     live_eq (times_end T ops1) (db_view s1) (dops_spec ops1 m).2 /\
     refused_op o (dops_spec ops1 m).2 s1).
Proof.
  revert T s m. induction ops as [|o ops IH]; intros T s m Hg Hm Ht Hok.
  { left. exists s. by split_and!. }
  destruct Ht as [Ht1 Ht2]. apply Forall_cons in Hok as [Ho Hok].
  destruct (dop_spec_live_eq T o (db_view s) m Hm) as [E1 E2]; [lia|lia|].
  destruct (dop_step T o s Hg Ht1 Ho) as [(s1 & Er & Hg1 & Ho1 & Hv1 & _)|Href].
  - cbn [dops_run dops_spec times_end]. destruct (dop_spec o m) as [x m1] eqn:Es. simpl in E1, E2.
    rewrite E1 in Er. destruct (IH _ s1 m1 Hg1) as [H|H]; try done.
    { by rewrite Hv1. }
    + destruct H as (s2 & E & Hg2 & Ho2 & Hv2). destruct (dops_spec ops m1) as [xs m2] eqn:Ess.
      left. exists s2. rewrite (gbind_Ret _ _ _ _ _ Er). rewrite (gbind_Ret _ _ _ _ _ E).
      split_and!; try done. congruence.
    + right. destruct H as (ops1 & o' & ops2 & s2 & -> & E & Hg2 & Ho2 & Hv2 & Hr).
      exists (o :: ops1), o', ops2, s2. cbn [dops_run dops_spec times_end]. rewrite Es.
      destruct (dops_spec ops1 m1) as [xs m2] eqn:Ess.
      rewrite (gbind_Ret _ _ _ _ _ Er). rewrite (gbind_Ret _ _ _ _ _ E). split_and!; try done. congruence.
  - right. exists [], o, ops, s. split_and!; try done.
    destruct Href as (e & s' & m' & Er & Es & Hb & Em). exists e, s', m'. simpl. split; [done|]. rewrite <- E1.
    split; [done|]. split; [done|]. by etransitivity.
Qed.
Lemma dops_run_app ops1 ops2 (s : Store) xs s1 :
  dops_run ops1 s = Ret (xs, s1) ->
  dops_run (ops1 ++ ops2) s = (let! ys := dops_run ops2 in gret (xs ++ ys)) s1.
Proof.
  revert s xs. induction ops1 as [|o ops1 IH]; intros s xs; cbn [dops_run app].
  { intros [= <- ->]. unfold gbind, gret. by destruct (dops_run ops2 s1) as [[]| |]. }
  unfold gbind at 1 3. destruct (dop_run o s) as [[x s']| |]; [|done|done].
  unfold gbind at 1 2. destruct (dops_run ops1 s') as [[xs' s1']| |] eqn:E; [|done|done].
  intros [= <- ->]. rewrite (IH s' xs' E). unfold gbind, gret. by destruct (dops_run ops2 s1) as [[]| |].
Qed.

Lemma dops_spec_app ops1 ops2 m :
  dops_spec (ops1 ++ ops2) m
    = let '(xs, m1) := dops_spec ops1 m in let '(ys, m2) := dops_spec ops2 m1 in (xs ++ ys, m2).
Proof.
  revert m. induction ops1 as [|o ops1 IH]; intros m; simpl; [by destruct (dops_spec ops2 m)|].
  destruct (dop_spec o m) as [x m1]. rewrite IH. destruct (dops_spec ops1 m1) as [xs m2].
  by destruct (dops_spec ops2 m2).
Qed.

(** A history that ran as its specification had no call refused. *)
Lemma history_not_refused ops ops1 o ops2 s m s' s1 :
  dops_run ops s = Ret ((dops_spec ops m).1, s') -> ops = ops1 ++ o :: ops2 ->
  dops_run ops1 s = Ret ((dops_spec ops1 m).1, s1) -> refused_op o (dops_spec ops1 m).2 s1 -> False.
Proof.
  intros E -> E1 (e & s2 & m' & Eo & Es & _). rewrite (dops_run_app _ _ _ _ _ E1), dops_spec_app in E.
  cbn [dops_run dops_spec] in E. destruct (dops_spec ops1 m) as [xs m1]. cbn [fst snd] in *.
  destruct (dop_spec o m1) as [x m2]. simpl in Es. subst x. unfold gbind, gret in E. rewrite Eo in E.
  destruct (dops_run ops2 s2) as [[ys s3]| |]; [|discriminate E|discriminate E].
  destruct (dops_spec ops2 m2) as [ys' m3]. simpl in E. injection E as E _. apply app_inv_head in E. discriminate E.
Qed.
End db_spec.
