(* ===== verification/Instances.v ===== *)
(** * Concrete libraries

    Instances of the libraries the database is parameterised by, for the
    witnesses: the log of [WalModel], trees as sorted lists, ids drawn from the
    clock, and a hash on which all keys collide.  They stand for no code of the
    repository. *)
From S2P Require Import Prelude GoBinary Config GoOs Filepath WalLib WalModel Record BTreeLib Index Watch.
From S2P Require Import Store Batch DB Open View BatchSpec CommitSpec Recovery OpenSpec DBSpec.
Open Scope Z_scope.

#[export] Instance ItemTree : BTreeLib item item_less := SortedBTree item_less.
#[export] Instance ItemTree_laws : BTreeLaws ItemTree := SortedBTree_laws item_less.

(** Ids: one more than the clock, within range; their text is a varint. *)
Definition model_id (clock : Z) : Z := 1 + Z.abs clock mod (2 ^ 62).

#[export] Instance ModelSnowflake : Snowflake := {
  sf_node := unit;
  sf_NewNode n := inr tt;
  sf_Generate n clock := (model_id clock, tt);
  sf_Bytes id := uvarint_bytes 10 id;
  sf_ParseBytes b := inr (Uvarint b).1;
}.

#[export] Instance ModelSnowflake_laws : SnowflakeLaws ModelSnowflake.
Proof.
  split.
  - by exists tt.
  - intros n clock. cbn [sf_Generate ModelSnowflake fst]. unfold model_id.
    pose proof (Z.mod_pos_bound (Z.abs clock) (2 ^ 62) ltac:(lia)). lia.
  - intros id Hid. cbn [sf_Bytes ModelSnowflake]. pose proof (u64_varint_len id ltac:(lia)). lia.
  - intros id Hid. cbn [sf_Bytes sf_ParseBytes ModelSnowflake]. rewrite <- (app_nil_r (uvarint_bytes 10 id)).
    rewrite (Uvarint_read (uvarint_bytes 10 id) id eq_refl); [done|lia].
Qed.

#[export] Instance CollidingHash : MemHashLib := { MemHash _ := 0 }.

(** An empty disk is a database with no key. *)
Definition sample_dir : bytes := $"/data/db".
Definition sample_options : Options := MkOptions sample_dir (64 * KB) false 0 8 [].

Lemma empty_disk_rep {W : WalLib} {WL : WalLaws W} {SF : Snowflake} dir :
  disk_rep dir fs_empty [] [] [] 0 [].
Proof.
  assert (Hd : forall ext, dir_segs seg_ok seg_chunks dir ext fs_empty []).
  { intros ext. split; [constructor|intros id H; by apply not_elem_of_nil in H|].
    intros id _. unfold fs_empty. simpl. rewrite lookup_empty. apply not_elem_of_nil. }
  split; try done; try constructor.
  - exists []. split; [apply Hd|]. split; [done|by left].
Qed.

Definition no_cron (e : bytes) : option error := None.

Definition sample_open : outcome ((error + DB) * FileSys) :=
  DB_Open no_cron no_cron (inr true) 100 5 sample_options fs_empty.

Definition opened (o : outcome ((error + DB) * FileSys)) : bool :=
  match o with Ret (inr _, _) => true | _ => false end.

Lemma sample_opened : opened sample_open = true.
Proof. vm_compute. reflexivity. Qed.

Lemma sample_store : exists db fs, sample_open = Ret (inr db, fs) /\
  db_good 5 (MkStore db fs) /\ db_options db = sample_options /\ live_eq 5 (db_view (MkStore db fs)) ∅.
Proof.
  destruct (DB_Open_spec no_cron no_cron 100 5 sample_options fs_empty [] [] [] 0 [])
    as (res & fs & E & H).
  1, 2, 3, 4: vm_compute; reflexivity.
  - intros H. vm_compute in H. discriminate H.
  - apply empty_disk_rep.
  - unfold open_fuel, open_post. simpl. lia.
  - pose proof sample_opened as Hop. unfold sample_open in *. rewrite E in Hop.
    destruct res as [e|db]; [discriminate Hop|]. destruct H as [H1 H2 _ H3 _ _ _ _ _ _ _].
    exists db, fs. split; [exact E|]. split; [exact H1|]. split; [exact H2|exact H3].
Qed.

(** ** A log with given chunks *)
Section written.
Context {W : WalLib} {WL : WalLaws W}.

Definition written (chunks : list bytes) : error + (wal * FileSys) :=
  match wal_Open (wal_options sample_options) fs_empty with
  | (inl e, _) => inl e
  | (inr w, fs) =>
      match wal_WriteAll (fold_left wal_PendingWrites chunks w) fs with
      | (inl e, _, _) => inl e
      | (inr _, w, fs) => inr (w, fs)
      end
  end.

Lemma pending_writes_spec chunks w fs :
  wal_ok w fs ->
  let w' := fold_left wal_PendingWrites chunks w in
  wal_ok w' fs /\ wal_segs w' fs = wal_segs w fs /\ wal_dir w' = wal_dir w /\ wal_ext w' = wal_ext w /\
  wal_pend w' = wal_pend w ++ chunks.
Proof.
  revert w. induction chunks as [|c chunks IH]; intros w Hw; simpl.
  { split_and!; try done. by rewrite app_nil_r. }
  destruct (wal_PendingWrites_law w c fs Hw) as (H1 & H2 & H3 & H4 & H5).
  destruct (IH _ H1) as (I1 & I2 & I3 & I4 & I5). split_and!; try done; try congruence.
  rewrite I5, H5. by rewrite <- (assoc_L (++)).
Qed.

Lemma written_spec chunks w fs :
  written chunks = inr (w, fs) ->
  wal_ok w fs /\ wal_dir w = sample_dir /\ wal_ext w = dataFileNameSuffix /\ wal_pend w = [] /\
  wal_segs w fs <> [] /\ Forall (fun sg : seg => 0 < sg.1) (wal_segs w fs) /\
  (segs_log (wal_segs w fs)).*2 = chunks.
Proof.
  unfold written. destruct (wal_Open _ _) as [[e|w0] fs0] eqn:Eo; [done|].
  destruct (wal_Open_law _ _ _ _ [] Eo) as (O1 & O2 & O3 & O4 & O5 & O6 & O7).
  { apply exts_in. }
  { split; [constructor|intros id H; by apply not_elem_of_nil in H|].
    intros id _. unfold fs_empty. simpl. rewrite lookup_empty. apply not_elem_of_nil. }
  destruct (pending_writes_spec chunks w0 fs0 O1) as (P1 & P2 & P3 & P4 & P5).
  destruct (wal_WriteAll _ _) as [[[e|ps] w1] fs1] eqn:Ew; [done|]. intros [= -> ->].
  destruct (wal_WriteAll_law _ _ _ _ _ P1 Ew) as (W1 & W2 & W3 & W4 & W5 & W6 & W7 & W8).
  split; [done|]. split; [by rewrite W3, P3, O2|]. split; [by rewrite W4, P4, O3|]. split; [done|].
  split; [by apply wal_segs_nonempty|].
  destruct (wal_segs_dir w fs W2) as [_ Hids _]. split.
  - apply Forall_forall. intros sg Hsg. destruct (Hids sg.1); [|lia].
    apply list_elem_of_fmap. by exists sg.
  - rewrite (segs_append_log _ _ _ W6), P2, O5, P5, O4. simpl. apply snd_zip. rewrite P5, O4 in W1.
    simpl in W1. lia.
Qed.
End written.

Definition written_ok (chunks : list bytes) : bool :=
  match written chunks with
  | inr (_, fs) => match getMergeFinSegmentId fs sample_dir with Ret (inr 0) => true | _ => false end
  | inl _ => false
  end.

Lemma written_ok_spec chunks : written_ok chunks = true ->
  exists w fs, written chunks = inr (w, fs) /\ getMergeFinSegmentId fs sample_dir = Ret (inr 0).
Proof.
  unfold written_ok. destruct (written chunks) as [e|[w fs]]; [done|]. intros H. exists w, fs.
  split; [done|]. destruct (getMergeFinSegmentId fs sample_dir) as [[e|[]]| |]; done.
Qed.

(** ** The database after a history of calls *)
#[export] Instance dres_eq_dec : EqDecision dres.
Proof. solve_decision. Defined.

Definition sample_runs (ops : list dop) : outcome (list dres * Store) :=
  match sample_open with Ret (inr db, fs) => dops_run ops (MkStore db fs) | _ => Panic end.

Definition runs_as_spec (ops : list dop) : bool :=
  match sample_runs ops with Ret (rs, _) => bool_decide (rs = (dops_spec ops ∅).1) | _ => false end.

Lemma sample_history_store ops :
  times_ok 5 ops -> Forall dop_ok ops -> runs_as_spec ops = true ->
  exists rs s, sample_runs ops = Ret (rs, s) /\ db_good (times_end 5 ops) s /\
    db_options (st_db s) = sample_options /\ live_eq (times_end 5 ops) (db_view s) (dops_spec ops ∅).2.
Proof.
  intros Ht Hok Hrun. destruct sample_store as (db & fs & E & Hg & Ho & Hv).
  unfold runs_as_spec in Hrun. unfold sample_runs in *. rewrite E in *.
  destruct (dops_run_spec 5 ops (MkStore db fs) ∅ Hg Hv Ht Hok) as [(s & Es & G & O & V)|H].
  { eexists _, s. split; [exact Es|]. split; [done|]. split; [|done]. rewrite O. exact Ho. }
  destruct H as (ops1 & o & ops2 & s1 & Eops & E1 & _ & _ & _ & Href). exfalso.
  destruct (dops_run ops (MkStore db fs)) as [[rs s]| |] eqn:Er; [|discriminate Hrun|discriminate Hrun].
  apply bool_decide_eq_true in Hrun. subst rs. exact (history_not_refused _ _ _ _ _ _ _ _ Er Eops E1 Href).
Qed.

(** A key that lives and one that expires. *)
Definition two_keys (k1 k2 : bytes) : list dop :=
  [DPut 6 7 k1 ($"1"); DPutWithTTL 8 9 10 k2 ($"2") 5].

(** The index of the database after a history, and its cursor. *)
Definition index_keys (s : Store) : list bytes := (mt_entries (db_index (st_db s))).*1.

Definition runs_to_index (ops : list dop) (keys : list bytes) : bool :=
  match sample_runs ops with
  | Ret (_, s) => bool_decide (index_keys s = keys) && bool_decide (db_expiredCursorKey (st_db s) = [])
  | _ => false
  end.

Lemma sample_two_keys k1 k2 : k1 = $"a" /\ k2 = $"b" \/ k1 = $"b" /\ k2 = $"a" ->
  exists s, db_good 10 s /\ live_eq 10 (db_view s) (<[k2 := ($"2", 13)]> (<[k1 := ($"1", 0)]> ∅)) /\
    index_keys s = [$"a"; $"b"] /\ db_expiredCursorKey (st_db s) = [].
Proof.
  intros Hk. destruct (sample_history_store (two_keys k1 k2)) as (rs & s & E & G & _ & V).
  - vm_compute. intuition discriminate.
  - destruct Hk as [[-> ->]|[-> ->]]; repeat constructor; done.
  - destruct Hk as [[-> ->]|[-> ->]]; vm_compute; reflexivity.
  - assert (Hi : runs_to_index (two_keys k1 k2) [$"a"; $"b"] = true)
      by (destruct Hk as [[-> ->]|[-> ->]]; vm_compute; reflexivity).
    unfold runs_to_index in Hi. rewrite E in Hi. apply andb_true_iff in Hi as [H1 H2].
    apply bool_decide_eq_true in H1, H2. exists s. split; [exact G|]. split; [exact V|]. split; [exact H1|exact H2].
Qed.
