(* ===== verification/DBProps.v ===== *)
(** * What the database promises

    The properties of [DB] and [Batch]: the calls are operations on a map, a
    batch is atomic, what was written is there after reopening, and what the
    code does at its edges. *)
From S2P Require Import Prelude GoBinary Config GoOs Filepath WalLib WalModel Record BTreeLib Index Watch.
From S2P Require Import Store Batch DB Open View BatchSpec CommitSpec Recovery OpenSpec DBSpec Instances.
Open Scope Z_scope.

Section props.
Context {W : WalLib} {WL : WalLaws W} {B : BTreeLib item item_less} {BL : BTreeLaws B}
  {SF : Snowflake} {SL : SnowflakeLaws SF} {MH : MemHashLib}.
Implicit Types (s : Store) (b : Batch) (k v : bytes) (r : LogRecord).

(** C1: Any history of calls of [Put], [PutWithTTL], [Get], [Delete], [Exist],
    [Expire], [TTL] and [Persist] returns what the same calls return on a map
    with expiry times, whatever index entries reads drop on the way and whatever
    segments the log rolls over, and leaves a database that shows that map, on a
    disk that stands for it.  The one way to depart is that the log refuses a
    write: up to that call the history is that of the map, the call reports the
    error the log gave to the very records the write is made of, and the index,
    the watcher and the map shown are as before it, the lock free. *)
Theorem api_refines_map T ops s m :
  db_good T s -> live_eq T (db_view s) m -> times_ok T ops -> Forall dop_ok ops ->
  (exists s', dops_run ops s = Ret ((dops_spec ops m).1, s') /\ db_good (times_end T ops) s' /\
     db_options (st_db s') = db_options (st_db s) /\
     live_eq (times_end T ops) (db_view s') (dops_spec ops m).2) \/
  (exists ops1 o ops2 s1, ops = ops1 ++ o :: ops2 /\
     dops_run ops1 s = Ret ((dops_spec ops1 m).1, s1) /\ db_good (times_end T ops1) s1 /\
     db_options (st_db s1) = db_options (st_db s) /\
     live_eq (times_end T ops1) (db_view s1) (dops_spec ops1 m).2 /\
     refused_op o (dops_spec ops1 m).2 s1).
Proof. apply dops_run_spec. Qed.



(** C3: A batch is a transaction.  On a free database, [NewBatch] takes the
    lock; any history of [Put], [PutWithTTL], [Get], [Delete], [Exist], [Expire]
    and [Persist] on the batch answers as a map that starts as the database and
    sees its own writes, while the database shows what it showed before; then
    [Commit] releases the lock and either makes all the writes visible at once,
    on disk too, or reports the error of the log and leaves the index as it was;
    and [Rollback] instead releases the lock and leaves what the database
    shows. *)
Theorem batch_is_atomic T ops clock now sync s :
  db_good T s -> clock_ok T ops -> Forall (fun x => bop_ok x.2) ops -> clock_end T ops <= now ->
  exists b1 s1 rs b2 s2 m,
    NewBatch (MkBatchOptions sync false) s = Ret (b1, s1) /\ db_mu (st_db s1) = MkRWMutex true 0 /\
    bops_run ops (b1, s1) = Ret (rs, (b2, s2)) /\ bspec_run ops (db_view s) rs m /\
    live_eq (clock_end T ops) (db_view s2) (db_view s) /\
    (exists res b3 s3, Batch_Commit clock now (b2, s2) = Ret (res, (b3, s3)) /\
       db_mu (st_db s3) = mu_free /\
       match res with
       | None => live_eq now (db_view s3) m /\ on_disk now s3 /\ db_inv s3
       | Some _ => db_index (st_db s3) = db_index (st_db s2)
       end) /\
    (exists b4 s4, Batch_Rollback (b2, s2) = Ret (None, (b4, s4)) /\ db_mu (st_db s4) = mu_free /\
       live_eq (clock_end T ops) (db_view s4) (db_view s) /\ st_fs s4 = st_fs s).
Proof.
  intros Hg Hclk Hops Hnow. pose proof Hg as [G1 G2 G3 G4 G5 G6].
  destruct sf_NewNode_law as [node Hn].
  set (b1 := MkBatch [] ∅ (MkBatchOptions sync false) false false (Some node) []).
  set (s1 := MkStore (set_mu (MkRWMutex true 0) (st_db s)) (st_fs s)).
  assert (E1 : NewBatch (MkBatchOptions sync false) s = Ret (b1, s1)).
  { unfold NewBatch, make_batch. simpl bo_ReadOnly. cbn beta iota. rewrite Hn. cbn [mbind outcome_bind].
    unfold Batch_lock, gbind, b_get, on_db, db_with_mu. simpl. by rewrite G3. }
  assert (I1 : db_inv s1) by (destruct G1 as [A1 A2 A3 A4 A5]; by split).
  assert (Hw : writable b1 s1) by (split_and!; [apply empty_batch_inv|done..]).
  destruct (bops_run_spec T ops b1 s1 (db_view s) Hw G2) as (rs & b2 & s2 & m & E2 & Hspec & Hsim); try done.
  destruct Hsim as (Hw2 & Hp2 & Hv2 & (S1 & S2 & S3 & S4 & S5) & (i & p & Hq) & Hdb).
  assert (Hmu2 : db_mu (st_db s2) = MkRWMutex true 0) by (by rewrite Hq).
  assert (Hfs2 : st_fs s2 = st_fs s) by (by rewrite Hq).
  assert (Hd2 : on_disk (clock_end T ops) s2).
  { apply (on_disk_view T (clock_end T ops) s); try (rewrite Hq; done); [done| |exact Hdb].
    by apply clock_end_le. }
  exists b1, s1, rs, b2, s2, m. split_and!; try done.
  - destruct (decide (b_pendingWrites b2 = [])) as [Hnil|Hne].
    + eexists None, b2, _. split; [|split; [|split; [|split]]].
      * apply (Batch_Commit_nothing clock now b2 s2 mu_free); [apply Hw2|by right|].
        by rewrite S1, Hmu2.
      * done.
      * change (live_eq now (db_view s2) m). apply (live_eq_mono _ _ _ _ Hnow). rewrite <- Hv2.
        unfold batch_view. by rewrite Hnil.
      * by apply (on_disk_mono (clock_end T ops) now s2).
      * destruct Hw2 as (_ & [A1 A2 A3 A4 A5] & _). by split.
    + assert (Hcc : can_commit b2 s2) by (split_and!; [apply Hw2..|done|done|done|by rewrite S2|by rewrite S3|by rewrite S4]).
      destruct (Batch_Commit_spec clock now b2 s2 Hcc) as (res & b3 & s3 & E3 & _ & _ & L3 & L4 & L5).
      exists res, b3, s3. split; [done|]. split; [done|]. destruct res as [e|]; [apply L5|].
      pose proof L5 as (_ & C2 & _ & C4 & _). split_and!; [|by apply (on_disk_commit (clock_end T ops) now b2 s2 b3 s3); try apply Hw2; try done; apply L4|done].
      etransitivity; [exact C4|]. by apply (live_eq_mono _ _ _ _ Hnow).
  - destruct (Batch_Rollback_spec b2 s2) as (b4 & s4 & E4 & K); try done;
      try (by rewrite S2); try (by rewrite S3).
    destruct K as (_ & _ & _ & _ & _ & _ & K6 & _ & _ & _ & K10 & K11 & _).
    exists b4, s4. rewrite K10, K11. done.
Qed.

(** ** Guards *)
Definition bop_key (op : bop) : bytes :=
  match op with
  | BPut k _ | BPutWithTTL k _ _ | BGet k | BDelete k | BExist k | BExpire k _ | BPersist k => k
  end.

(** The error an operation reports, as a result of its kind. *)
Definition bop_error (op : bop) (e : error) : bres :=
  match op with
  | BGet _ => RGet (inl e)
  | BExist _ => RExist (inl e)
  | _ => RErr (Some e)
  end.

Definition bop_writes (op : bop) : bool := match op with BGet _ | BExist _ => false | _ => true end.

(** Which guard stops an operation: the empty key first, then a closed
    database, then a read-only batch. *)
Definition bop_guard (op : bop) b s : option error :=
  if decide (bop_key op = []) then Some ErrKeyIsEmpty
  else if db_closed (st_db s) then Some ErrDBClosed
  else if bop_writes op && bo_ReadOnly (b_options b) then Some ErrReadOnlyBatch
  else None.

Lemma write_guards_stop k (m : BatchM (option error)) b s e :
  (if decide (k = []) then Some ErrKeyIsEmpty else if db_closed (st_db s) then Some ErrDBClosed
   else if bo_ReadOnly (b_options b) then Some ErrReadOnlyBatch else None) = Some e ->
  write_guards k m (b, s) = Ret (Some e, (b, s)).
Proof.
  unfold write_guards. case_decide as Hk; [intros [= <-]; by rewrite Hk|]. rewrite key_guard by done.
  gstep. destruct (db_closed _); [by intros [= <-]|]. gstep.
  destruct (bo_ReadOnly _); [by intros [= <-]|done].
Qed.

Lemma read_guards_stop {A} k (m : BatchM (error + A)) b s e :
  (if decide (k = []) then Some ErrKeyIsEmpty else if db_closed (st_db s) then Some ErrDBClosed
   else None) = Some e ->
  (if decide (len k = 0) then gret (inl ErrKeyIsEmpty) else
   let! db := on_db db_get in if db_closed db then gret (inl ErrDBClosed) else m) (b, s)
  = Ret (inl e, (b, s)).
Proof.
  case_decide as Hk; [intros [= <-]; by rewrite Hk|]. rewrite key_guard by done.
  gstep. destruct (db_closed _); [by intros [= <-]|done].
Qed.

Lemma bop_guard_stops now now' op b s e :
  bop_guard op b s = Some e -> bop_run now now' op (b, s) = Ret (bop_error op e, (b, s)).
Proof.
  unfold bop_guard. intros H.
  destruct op as [k v|k v ttl|k|k|k|k ttl|k]; unfold bop_run; cbn [bop_key bop_writes andb bop_error] in *;
    (erewrite gbind_Ret; [reflexivity|]);
    first [apply write_guards_stop; exact H | apply read_guards_stop; exact H].
Qed.

(** C34: Whatever the state, an operation of a batch that fails a guard reports
    it -- the empty key before the closed database, the closed database before
    the read-only batch -- and changes neither the batch nor the store. *)
Theorem batch_guards now now' op b s e :
  bop_guard op b s = Some e -> bop_run now now' op (b, s) = Ret (bop_error op e, (b, s)).
Proof. apply bop_guard_stops. Qed.

(** C36: Finishing a batch a second time unlocks a mutex no one holds, which is
    a fatal error of the runtime: after a commit or a rollback, [ErrBatchCommitted]
    and [ErrBatchRollbacked] are never returned to a caller that is alone. *)
Theorem second_finish_crashes clock now b s b' s' :
  can_commit b s ->
  Batch_Commit clock now (b, s) = Ret (None, (b', s')) \/
    (exists e, Batch_Rollback (b, s) = Ret (e, (b', s'))) ->
  (forall clock' now', Batch_Commit clock' now' (b', s') = Panic) /\ Batch_Rollback (b', s') = Panic.
Proof.
  intros Hc Hfin.
  assert (Hst : db_mu (st_db s') = mu_free /\
    (b_committed b' = true \/ b_pendingWrites b' = [])).
  { pose proof Hc as (Hw & Hp & Hmu & Hne & Hcm & Hrb & _). destruct Hfin as [H|[e H]].
    - destruct (Batch_Commit_spec clock now b s Hc) as (res & b1 & s1 & E & _ & _ & Hmu1 & _ & Hres).
      rewrite H in E. injection E as <- <- <-. split; [done|]. left. apply Hres.
    - destruct (Batch_Rollback_spec b s Hw Hp Hmu Hcm Hrb) as (b1 & s1 & E & _ & _ & Hnil & _ & _ & _ & Hmu1 & _).
      rewrite H in E. injection E as -> <- <-. split; [done|]. by right. }
  destruct Hst as [Hmu Hor]. split.
  - intros clock' now'. unfold Batch_Commit. destruct (db_closed (st_db s')) eqn:Ec.
    + apply (defer_unlock_free _ b' s' (Some ErrDBClosed) b' s'); [|done]. gstep. by rewrite Ec.
    + destruct Hor as [Hcm|Hnil].
      * apply (defer_unlock_free _ b' s'
          (if bo_ReadOnly (b_options b') || Nat.eqb (length (b_pendingWrites b')) 0 then None
           else Some ErrBatchCommitted) b' s'); [|done].
        gstep. rewrite Ec. gstep. by destruct (_ || _); rewrite ?Hcm.
      * apply (defer_unlock_free _ b' s' None b' s'); [|done].
        gstep. rewrite Ec. gstep. by rewrite Hnil, orb_true_r.
  - unfold Batch_Rollback, defer_unlock, Batch_unlock, gbind, gret, b_get, b_modify, on_db, db_get, db_with_mu, db_modify.
    simpl. destruct (db_closed (st_db s')); [by rewrite Hmu; destruct (bo_ReadOnly _)|].
    destruct (b_committed b'); [by rewrite Hmu; destruct (bo_ReadOnly _)|].
    destruct (b_rollbacked b'); [by rewrite Hmu; destruct (bo_ReadOnly _)|].
    by destruct (bo_ReadOnly (b_options b')) eqn:Ero; simpl; rewrite ?Ero, ?Hmu.
Qed.

Lemma Batch_Delete_pending k b s b' s' :
  writable b s -> kv_ok k [] 0 -> batch_inv b' -> Batch_Delete k (b, s) = Ret (None, (b', s')) ->
  exists r, pend_view (b_pendingWrites b') !! k = Some r /\ lr_Expire r = 0.
Proof.
  intros Hw (Hk & _) Hb'. unfold Batch_Delete. rewrite write_guards_pass by done.
  destruct (lookup_record_spec b s k) as (o & Ho & Hspec); [apply Hw|].
  rewrite (gbind_Ret _ _ _ _ _ Ho). destruct o as [[e r]|]; intros [= <- _].
  - destruct Hspec as (Hl & <- & _).
    exists (MkLogRecord (lr_Key r) [] LogRecordDeleted (lr_BatchId r) 0). split; [|done].
    apply pend_view_Some; [by apply Hb'|]. split; [|done].
    apply (list_elem_of_lookup_2 _ e). simpl. by rewrite list_lookup_alter_eq, Hl.
  - exists (MkLogRecord k [] LogRecordDeleted 0 0). split; [|done].
    apply pend_view_Some; [by apply Hb'|]. split; [|done].
    simpl. apply elem_of_app. right. by apply list_elem_of_singleton.
Qed.

(** A batch that has deleted a key reports it missing from [Get] and
    [Exist], but [TTL] finds the expiry time 0 of the delete mark first and
    answers [-1]: a key that never expires. *)
Theorem ttl_of_deleted_key now k b s :
  writable b s -> pool_ok s -> kv_ok k [] 0 ->
  exists b' s', Batch_Delete k (b, s) = Ret (None, (b', s')) /\
    Batch_TTL now k (b', s') = Ret (inr (-1), (b', s')) /\
    (exists s1, Batch_Get now k (b', s') = Ret (inl ErrKeyNotFound, (b', s1))) /\
    (exists s2, Batch_Exist now k (b', s') = Ret (inr false, (b', s2))).
Proof.
  intros Hw Hp Hkv. destruct (Batch_Delete_spec k b s Hw Hp Hkv) as (b' & s' & E & H1 & H2 & H3 & H4 & H5 & H6).
  exists b', s'. split; [exact E|].
  assert (Hc : db_closed (st_db s') = false) by (destruct H6 as (p & ->); apply Hw).
  assert (Hl : live now (batch_view b' s') !! k = None) by (rewrite live_lookup, H4; by rewrite lookup_delete_eq).
  pose proof Hkv as (Hk & _). split_and!.
  - destruct (lookup_record_spec b' s' k H1) as (o & Ho & Hspec). unfold Batch_TTL.
    rewrite key_guard by done. gstep. rewrite Hc. gstep.
    assert (Hdel : exists r, pend_view (b_pendingWrites b') !! k = Some r /\ lr_Expire r = 0).
    { by apply (Batch_Delete_pending k b s b' s'). }
    destruct Hdel as (r & Hr & Hz). destruct o as [[e r']|].
    + destruct Hspec as (_ & _ & Hp'). rewrite Hr in Hp'. injection Hp' as <-. by rewrite decide_True.
    + congruence.
  - destruct (Batch_Get_spec now k b' s' H1 H2 Hc Hk) as (s1 & E1 & _).
    exists s1. rewrite E1. unfold spec_get. by rewrite Hl.
  - destruct (Batch_Exist_spec now k b' s' H1 H2 Hc Hk) as (s1 & E1 & _).
    exists s1. rewrite E1. unfold spec_exist. rewrite Hl. done.
Qed.

(** ** A closed database *)
Definition dop_key (o : dop) : bytes :=
  match o with
  | DPut _ _ k _ | DPutWithTTL _ _ _ k _ _ | DGet _ k | DDelete _ _ k | DExist _ k
  | DExpire _ _ _ _ k _ | DTTL _ k | DPersist _ _ _ k => k
  end.
Definition dop_error (o : dop) (e : error) : dres :=
  match o with
  | DGet _ _ => ResVal (inl e)
  | DExist _ _ => ResBool (inl e)
  | DTTL _ _ => ResDur (inl e)
  | _ => ResErr (Some e)
  end.
Definition closed_error (k : bytes) : error := if decide (k = []) then ErrKeyIsEmpty else ErrDBClosed.

(** Closed, with the lock free. *)
Definition is_closed s : Prop := db_closed (st_db s) = true /\ db_mu (st_db s) = mu_free.
(** Only the pools differ. *)
Definition same_but_pools s s' : Prop :=
  exists bp rp, s' = MkStore (set_recordPool rp (set_batchPool bp (st_db s))) (st_fs s).

Lemma set_mu_id mu bp s : db_mu (st_db s) = mu ->
  MkStore (set_mu mu (set_batchPool bp (st_db s))) (st_fs s) = MkStore (set_batchPool bp (st_db s)) (st_fs s).
Proof. intros <-. by destruct s as [[] ?]. Qed.

Lemma same_but_pools_batch bp s : same_but_pools s (MkStore (set_batchPool bp (st_db s)) (st_fs s)).
Proof. exists bp, (db_recordPool (st_db s)). by destruct s as [[] ?]. Qed.

Lemma with_batch_closed {A} (m : BatchM A) (a : A) s :
  is_closed s ->
  (forall b p, exists b', m (b, MkStore (set_batchPool p (st_db s)) (st_fs s))
     = Ret (a, (b', MkStore (set_batchPool p (st_db s)) (st_fs s)))) ->
  exists s', with_batch m s = Ret (a, s') /\ same_but_pools s s'.
Proof.
  intros [Hc Hmu] Hm. unfold with_batch, batchPool_Get.
  destruct (db_batchPool (st_db s)) as [|b p] eqn:Ep.
  - unfold newBatch. destruct sf_NewNode_law as [n ->]. cbn [mbind outcome_bind].
    destruct (Hm (MkBatch [] ∅ DefaultBatchOptions false false (Some n) []) []) as [b' E].
    pose proof (set_batchPool_id s) as Es. rewrite Ep in Es. rewrite Es in E. rewrite E. eexists.
    split; [reflexivity|]. apply same_but_pools_batch.
  - cbn [mbind outcome_bind]. destruct (Hm b p) as [b' E]. rewrite E. eexists. split; [reflexivity|].
    exact (same_but_pools_batch (MkBatch [] ∅ (b_options b') false false (b_batchId b') [] :: p) s).
Qed.

Lemma closed_write op clock now s e :
  is_closed s -> (forall b s, db_closed (st_db s) = true -> op (b, s) = Ret (Some e, (b, s))) ->
  exists s', write_op op clock now s = Ret (Some e, s') /\ same_but_pools s s'.
Proof.
  intros Hs Hop. apply with_batch_closed; [done|]. intros b p. destruct Hs as [Hc Hmu].
  unfold Batch_init, Batch_lock, Batch_Rollback, defer_unlock, Batch_unlock, gbind, gret, b_get, b_modify,
    gmodify, on_db, db_get, db_with_mu. simpl. rewrite Hmu. simpl. rewrite Hop by done. simpl. rewrite Hc. simpl.
  eexists. rewrite <- (set_mu_id mu_free p s Hmu). reflexivity.
Qed.

Lemma closed_read {A} (op : BatchM (error + A)) s e :
  is_closed s -> (forall b s, db_closed (st_db s) = true -> op (b, s) = Ret (inl e, (b, s))) ->
  exists s', read_op op s = Ret (inl e, s') /\ same_but_pools s s'.
Proof.
  intros Hs Hop. apply with_batch_closed; [done|]. intros b p. destruct Hs as [Hc Hmu].
  unfold Batch_init, Batch_lock, Batch_Commit, defer_unlock, Batch_unlock, gbind, gret, b_get, b_modify,
    gmodify, on_db, db_get, db_with_mu. simpl. rewrite Hmu. simpl. rewrite Hop by done. simpl. rewrite Hc. simpl.
  eexists. rewrite <- (set_mu_id mu_free p s Hmu). reflexivity.
Qed.

Lemma DB_Close_closed u s s1 : DB_Close u s = Ret (None, s1) -> is_closed s1.
Proof.
  unfold DB_Close, with_lock, gbind. destruct (db_mergeRunning _); [done|].
  unfold db_with_mu at 1. destruct (mu_Lock (db_mu (st_db s))) as [mu| |] eqn:El; [|done|done].
  assert (Hu : mu = MkRWMutex true 0) by (unfold mu_Lock in El; by destruct (_ || _); simplify_eq).
  set (s0 := MkStore _ _).
  assert (Hf : forall err s', closeFiles s0 = Ret (err, s') -> db_mu (st_db s') = mu).
  { intros err s'. unfold closeFiles. destruct (wal_Close _ _) as [[[e|] w] fs]; [by intros [= _ <-]|].
    simpl. destruct (db_hintFile (st_db s)) as [h|]; [|by intros [= _ <-]].
    destruct (wal_Close h fs) as [[e' h'] fs']. by intros [= _ <-]. }
  destruct (closeFiles s0) as [[[e|] s2]| |]; [|destruct u as [e|]|done|done];
    try (unfold gret, db_with_mu; by destruct (mu_Unlock _)).
  specialize (Hf _ _ eq_refl). unfold db_get, glift, db_modify, gret, db_with_mu.
  destruct (0 <? _); [destruct (db_watcher (st_db s2)) as [w|]; [|done]; destruct (Watcher_Close w); [|done|done]|];
    simpl; rewrite Hf, Hu; simpl; intros [= <-]; done.
Qed.

(** C35: After [Close] has returned nil, every call of the API reports
    [ErrDBClosed] (or the empty key first) without a crash, leaves the disk and
    the index alone and gives the lock back. *)
Theorem closed_database_refuses u s s1 o :
  DB_Close u s = Ret (None, s1) ->
  exists s2, dop_run o s1 = Ret (dop_error o (closed_error (dop_key o)), s2) /\ same_but_pools s1 s2.
Proof.
  intros Hc%DB_Close_closed.
  assert (Wr : forall op clock now k (m : BatchM (option error)), op = write_guards k m ->
    exists s2, as_res ResErr (write_op op clock now) s1 = Ret (ResErr (Some (closed_error k)), s2) /\
      same_but_pools s1 s2).
  { intros op clock now k m ->. destruct (closed_write (write_guards k m) clock now s1 (closed_error k) Hc)
      as (s2 & E & Hs); [|exists s2; by rewrite (as_res_eq _ _ _ _ _ E)].
    intros b s' Hs'. apply write_guards_stop. rewrite Hs'. unfold closed_error. by case_decide. }
  assert (Rd : forall A (f : error + A -> dres) k (op : BatchM (error + A)),
    (forall b s, db_closed (st_db s) = true -> op (b, s) = Ret (inl (closed_error k), (b, s))) ->
    exists s2, as_res f (read_op op) s1 = Ret (f (inl (closed_error k)), s2) /\ same_but_pools s1 s2).
  { intros A f k op Hop. destruct (closed_read op s1 (closed_error k) Hc Hop) as (s2 & E & Hs).
    exists s2. by rewrite (as_res_eq _ _ _ _ _ E). }
  destruct o as [clock now k v|t clock now k v ttl|t k|clock now k|t k|t t2 clock now k ttl|t k|t clock now k];
    cbn [dop_run dop_error dop_key];
    first [eapply Wr; reflexivity
          |apply Rd; intros b s' Hs'; apply read_guards_stop; rewrite Hs'; unfold closed_error; by case_decide].
Qed.

(** ** After a crash *)
Lemma drops_none now rs m :
  Forall (fun r => IsExpired r now = false) rs -> fold_left (drop_if_expired now) rs m = m.
Proof.
  intros H. revert m. induction H as [|r rs Hr _ IH]; intros m; [done|]. simpl. rewrite <- (IH m) at 2.
  unfold drop_if_expired. by rewrite Hr.
Qed.

(** The log of a data directory ends with the records [rs] of a batch whose end
    mark the crash has kept from being written. *)
Record torn_log (dir : bytes) (fin : Z) (w : wal) (fs : FileSys) (pre post : list seg)
    (bs : list block) (id : Z) (rs : list LogRecord) : Prop := {
  tl_fin : getMergeFinSegmentId fs dir = Ret (inr fin);
  tl_post : post <> [];
  tl_old : Forall (fun sg : seg => sg.1 <= fin) pre;
  tl_new : Forall (fun sg : seg => fin < sg.1) post;
  tl_blocks : Forall block_ok bs;
  tl_id : 0 < id < 2 ^ 63;
  tl_records : Forall rec_ok rs;
  tl_log : (segs_log post).*2 = record_bytes <$> ((bs ≫= block_records) ++ (set_id id <$> rs));
  tl_wal : wal_ok w fs;
  tl_segs : wal_segs w fs = pre ++ post;
}.

Lemma torn_log_length dir fin w fs pre post bs id rs :
  torn_log dir fin w fs pre post bs id rs ->
  length (segs_log post) = length ((bs ≫= block_records) ++ (set_id id <$> rs)).
Proof. intros H. by rewrite <- (length_fmap snd), (tl_log _ _ _ _ _ _ _ _ _ H), length_fmap. Qed.

(** C5: A batch cut short by a crash is not there after a restart: when none of
    its records has expired, rebuilding the index from the log gives the map of
    the batches that were finished. *)
Theorem torn_batch_is_invisible fuel now dir fin w i fs pre post bs id rs s m :
  torn_log dir fin w fs pre post bs id rs -> Forall (fun r => IsExpired r now = false) rs ->
  (length pre + length (segs_log post) < fuel)%nat ->
  db_dataFiles (st_db s) = w -> st_fs s = fs -> db_inv (at_index i s) ->
  live_eq now (db_view (at_index i s)) m ->
  exists i' w', loadIndexFromWAL fuel now dir w i fs = Ret (None, i', w') /\ db_inv (at_index i' s) /\
    live_eq now (db_view (at_index i' s)) (fold_left apply_block bs m).
Proof.
  intros [H1 H2 H3 H4 H5 H6 H7 H8 H9 H10] Hrs Hf Hw Hfs Hi Hm.
  destruct (loadIndexFromWAL_torn fuel now dir fin w i fs pre post bs id rs s m) as (i' & w' & E & I & V);
    try done. rewrite drops_none in V by done. by exists i', w'.
Qed.

(** C22: But a record of that batch that has expired by the time of the restart
    is acted on before the end mark is seen: its key is gone from the index,
    whatever value a finished batch has given it. *)
Theorem torn_expired_record_removes_key fuel now dir fin w i fs pre post bs id rs s m r :
  torn_log dir fin w fs pre post bs id rs -> r ∈ rs -> IsExpired r now = true ->
  (length pre + length (segs_log post) < fuel)%nat ->
  db_dataFiles (st_db s) = w -> st_fs s = fs -> db_inv (at_index i s) ->
  live_eq now (db_view (at_index i s)) m ->
  exists i' w', loadIndexFromWAL fuel now dir w i fs = Ret (None, i', w') /\
    live now (db_view (at_index i' s)) !! lr_Key r = None.
Proof.
  intros [H1 H2 H3 H4 H5 H6 H7 H8 H9 H10] Hr He Hf Hw Hfs Hi Hm.
  destruct (loadIndexFromWAL_torn fuel now dir fin w i fs pre post bs id rs s m) as (i' & w' & E & I & V);
    try done. exists i', w'. split; [done|]. rewrite V, live_lookup, drops_lookup.
  rewrite decide_True; [done|]. apply list_elem_of_fmap. exists r. split; [done|].
  by apply list_elem_of_filter.
Qed.
End props.

(** ** Witnesses *)

Lemma kv_ok_small k v : k <> [] -> maxLogRecordHeaderSize + len k + len v < 2 ^ 32 -> kv_ok k v 0.
Proof. intros H1 H2. split_and!; [done|done|lia|lia]. Qed.

(** A history with a key that expires on the way. *)
Definition sample_history : list dop :=
  [DPut 6 7 ($"a") ($"1"); DPutWithTTL 8 9 10 ($"b") ($"2") 5; DGet 11 ($"b"); DGet 20 ($"b");
   DTTL 21 ($"a"); DExpire 22 22 23 24 ($"a") 100; DTTL 25 ($"a"); DDelete 26 27 ($"a"); DExist 28 ($"a")].

Lemma sample_history_ok : times_ok 5 sample_history /\ Forall dop_ok sample_history.
Proof. split; [vm_compute; intuition discriminate|]. repeat constructor; done. Qed.

Lemma sample_history_spec : (dops_spec sample_history ∅).1 = [ResErr None; ResErr None; ResVal (inr ($"2"));
  ResVal (inl ErrKeyNotFound); ResDur (inr (-1)); ResErr None; ResDur (inr 97); ResErr None; ResBool (inr false)].
Proof. vm_compute. reflexivity. Qed.

Lemma sample_history_end : live_eq (times_end 5 sample_history) (dops_spec sample_history ∅).2 ∅.
Proof. vm_compute. reflexivity. Qed.

Definition history_results : list dres := [ResErr None; ResErr None; ResVal (inr ($"2"));
  ResVal (inl ErrKeyNotFound); ResDur (inr (-1)); ResErr None; ResDur (inr 97); ResErr None; ResBool (inr false)].

Lemma sample_history_ran : runs_as_spec sample_history = true.
Proof. vm_compute. reflexivity. Qed.

Lemma api_refines_map_witness : exists db fs s', sample_open = Ret (inr db, fs) /\
  dops_run sample_history (MkStore db fs) = Ret (history_results, s') /\ db_good (times_end 5 sample_history) s' /\
  db_options (st_db s') = db_options db /\ live_eq (times_end 5 sample_history) (db_view s') ∅.
Proof.
  destruct sample_store as (db & fs & E0 & Hg & _ & Hv). exists db, fs.
  destruct sample_history_ok as [H1 H2]. pose proof sample_history_ran as Hran. unfold runs_as_spec, sample_runs in Hran.
  rewrite E0 in Hran.
  destruct (api_refines_map 5 sample_history (MkStore db fs) ∅ Hg Hv H1 H2)
    as [(s' & E & G & O & V)|(ops1 & o & ops2 & s1 & Eops & E1 & _ & _ & _ & Href)].
  - rewrite sample_history_spec in E. exists s'. split; [exact E0|]. split; [exact E|]. split; [exact G|]. split; [exact O|].
    etransitivity; [exact V|apply sample_history_end].
  - exfalso. destruct (dops_run sample_history (MkStore db fs)) as [[rs s]| |] eqn:Er; [|discriminate Hran|discriminate Hran].
    apply bool_decide_eq_true in Hran. rewrite Hran in Er. exact (history_not_refused _ _ _ _ _ _ _ _ Er Eops E1 Href).
Defined.

Lemma sample_no_merge_dir : forall db fs, sample_open = Ret (inr db, fs) ->
  os_dir_exists fs (mergeDirPath sample_dir) = false.
Proof.
  intros db fs E. assert (H : match sample_open with Ret (_, fs) => os_dir_exists fs (mergeDirPath sample_dir)
    | _ => true end = false) by (vm_compute; reflexivity). by rewrite E in H.
Qed.





Definition sample_batch : list (Z * Z * bop) :=
  [((6, 6), BPut ($"a") ($"1")); ((7, 7), BGet ($"a")); ((8, 8), BDelete ($"a")); ((9, 9), BExist ($"a"))].

Lemma batch_is_atomic_witness : exists s, db_good 5 s /\ exists b1 s1 rs b2 s2 m,
    NewBatch (MkBatchOptions false false) s = Ret (b1, s1) /\ db_mu (st_db s1) = MkRWMutex true 0 /\
    bops_run sample_batch (b1, s1) = Ret (rs, (b2, s2)) /\ bspec_run sample_batch (db_view s) rs m /\
    live_eq 9 (db_view s2) (db_view s) /\
    (exists res b3 s3, Batch_Commit 10 11 (b2, s2) = Ret (res, (b3, s3)) /\
       db_mu (st_db s3) = mu_free /\
       match res with
       | None => live_eq 11 (db_view s3) m /\ on_disk 11 s3 /\ db_inv s3
       | Some _ => db_index (st_db s3) = db_index (st_db s2)
       end) /\
    (exists b4 s4, Batch_Rollback (b2, s2) = Ret (None, (b4, s4)) /\ db_mu (st_db s4) = mu_free /\
       live_eq 9 (db_view s4) (db_view s) /\ st_fs s4 = st_fs s).
Proof.
  destruct sample_store as (db & fs & _ & Hg & _ & _). exists (MkStore db fs). split; [exact Hg|].
  apply (batch_is_atomic 5 sample_batch 10 11 false (MkStore db fs) Hg); [vm_compute; intuition discriminate| |done].
  repeat constructor; done.
Defined.

Lemma batch_guards_witness : exists b s, bop_guard (BPut [] ($"1")) b s = Some ErrKeyIsEmpty /\
  bop_run 0 0 (BPut [] ($"1")) (b, s) = Ret (RErr (Some ErrKeyIsEmpty), (b, s)).
Proof.
  destruct sample_store as (db & fs & _). 
  exists (MkBatch [] ∅ (MkBatchOptions false false) false false None []), (MkStore db fs).
  split; [reflexivity|]. apply (batch_guards 0 0 (BPut [] ($"1"))). reflexivity.
Defined.

(** A batch with one record on a database that is locked for it. *)
Definition sample_record : LogRecord := MkLogRecord ($"a") ($"1") LogRecordNormal 0 0.
Definition sample_pending : Batch :=
  appendPendingWrites ($"a") sample_record
    (MkBatch [] ∅ (MkBatchOptions false false) false false (Some tt) []).

Lemma sample_record_ok : rec_ok sample_record.
Proof. apply kv_record_ok; [apply kv_ok_small; done|by left|lia]. Qed.

Lemma sample_pending_inv : batch_inv sample_pending.
Proof. apply append_inv; [apply empty_batch_inv|apply sample_record_ok|done|done]. Qed.

Lemma sample_commit : exists s, can_commit sample_pending s.
Proof.
  destruct sample_store as (db & fs & _ & [[A1 A2 A3 A4 A5] G2 G3 G4 G5 G6] & _ & _).
  exists (MkStore (set_mu (MkRWMutex true 0) db) fs).
  split; [split_and!; [apply sample_pending_inv|by split|exact G4|reflexivity]|].
  split; [exact G2|]. split_and!; try reflexivity; [discriminate|by eexists].
Qed.

Lemma second_finish_crashes_witness : exists s b' s',
  (Batch_Commit 6 7 (sample_pending, s) = Ret (None, (b', s')) \/
   exists e, Batch_Rollback (sample_pending, s) = Ret (e, (b', s'))) /\
  ((forall clock' now', Batch_Commit clock' now' (b', s') = Panic) /\ Batch_Rollback (b', s') = Panic).
Proof.
  destruct sample_commit as (s & Hc). pose proof Hc as (Hw & Hp & Hmu & _ & Hcm & Hrb & _).
  destruct (Batch_Rollback_spec sample_pending s Hw Hp Hmu Hcm Hrb) as (b' & s' & E & _).
  exists s, b', s'. assert (H : Batch_Commit 6 7 (sample_pending, s) = Ret (None, (b', s')) \/
   exists e, Batch_Rollback (sample_pending, s) = Ret (e, (b', s'))) by (right; by eexists).
  split; [exact H|]. exact (second_finish_crashes 6 7 sample_pending s b' s' Hc H).
Defined.

Lemma ttl_of_deleted_key_witness : exists s b' s',
  Batch_Delete ($"a") (sample_pending, s) = Ret (None, (b', s')) /\
  Batch_TTL 9 ($"a") (b', s') = Ret (inr (-1), (b', s')) /\
  (exists s1, Batch_Get 9 ($"a") (b', s') = Ret (inl ErrKeyNotFound, (b', s1))) /\
  (exists s2, Batch_Exist 9 ($"a") (b', s') = Ret (inr false, (b', s2))).
Proof.
  destruct sample_commit as (s & Hw & Hp & _). exists s.
  apply (ttl_of_deleted_key 9 ($"a") sample_pending s Hw Hp). by apply kv_ok_small.
Defined.

(** Closing the sample database, and a call after it. *)
Definition sample_close : outcome (option error * Store) :=
  match sample_open with Ret (inr db, fs) => DB_Close None (MkStore db fs) | _ => Panic end.

Lemma sample_closed :
  match sample_close with Ret (None, _) => true | _ => false end = true.
Proof. vm_compute. reflexivity. Qed.

Lemma closed_database_refuses_witness : exists s s1 s2,
  DB_Close None s = Ret (None, s1) /\
  dop_run (DGet 9 ($"a")) s1 = Ret (ResVal (inl ErrDBClosed), s2) /\ same_but_pools s1 s2.
Proof.
  pose proof sample_closed as H. unfold sample_close in H.
  destruct sample_open as [[[e|db] fs]| |]; try discriminate H.
  destruct (DB_Close None (MkStore db fs)) as [[[e|] s1]| |] eqn:E; try discriminate H.
  destruct (closed_database_refuses None (MkStore db fs) s1 (DGet 9 ($"a")) E) as (s2 & E2 & Hs).
  by exists (MkStore db fs), s1, s2.
Defined.

(** A finished batch that puts a key, and a torn one with an update of it. *)
Definition torn_update (expire : Z) : LogRecord := MkLogRecord ($"a") ($"2") LogRecordNormal 0 expire.
Definition torn_chunks (expire : Z) : list bytes :=
  record_bytes <$> (block_records (Finished 7 [sample_record]) ++ [set_id 8 (torn_update expire)]).

Lemma sample_torn expire : 0 <= expire < 2 ^ 63 -> written_ok (torn_chunks expire) = true ->
  exists w fs post s, torn_log sample_dir 0 w fs [] post [Finished 7 [sample_record]] 8 [torn_update expire] /\
    db_dataFiles (st_db s) = w /\ st_fs s = fs /\ db_inv (at_index newBTree s) /\
    live_eq 50 (db_view (at_index newBTree s)) ∅.
Proof.
  intros He H. destruct (written_ok_spec _ H) as (w & fs & E & Hfin).
  destruct (written_spec _ _ _ E) as (H1 & H2 & H3 & H4 & H5 & H6 & H7).
  destruct (new_db_inv sample_options w fs (open_watcher sample_options) H1 H4) as [N1 N2].
  { apply open_watcher_ok. vm_compute. reflexivity. }
  exists w, fs, (wal_segs w fs), (MkStore (set_watcher (open_watcher sample_options) (new_db sample_options w)) fs).
  split; [|split; [done|split; [done|split; [exact N1|]]]].
  2: { match goal with |- live_eq _ ?v _ => change v with (db_view (MkStore (set_watcher (open_watcher sample_options)
         (new_db sample_options w)) fs)) end. by rewrite N2. }
  split; try done; try (by constructor); try lia.
  - apply Forall_singleton. split_and!; [lia|lia| |apply NoDup_singleton].
    apply Forall_singleton, sample_record_ok.
  - apply Forall_singleton. apply kv_record_ok; [|by left|lia]. split_and!; try done; lia.
Qed.

Lemma torn_view : fold_left apply_block [Finished 7 [sample_record]] ∅ = {[ $"a" := ($"1", 0) ]}.
Proof. reflexivity. Qed.

Lemma torn_batch_is_invisible_witness : exists w fs s i' w',
  loadIndexFromWAL 100 50 sample_dir w newBTree fs = Ret (None, i', w') /\ db_inv (at_index i' s) /\
  live_eq 50 (db_view (at_index i' s)) {[ $"a" := ($"1", 0) ]}.
Proof.
  destruct (sample_torn 60) as (w & fs & post & s & Ht & Hw & Hfs & Hi & Hv); [lia|vm_compute; reflexivity|].
  destruct (torn_batch_is_invisible 100 50 sample_dir 0 w newBTree fs [] post [Finished 7 [sample_record]]
    8 [torn_update 60] s ∅ Ht) as (i' & w' & E & I & V); [| |exact Hw|exact Hfs|exact Hi|exact Hv|].
  - apply Forall_singleton. vm_compute. reflexivity.
  - rewrite (torn_log_length _ _ _ _ _ _ _ _ _ Ht). simpl. lia.
  - rewrite torn_view in V. exists w, fs, s, i', w'. split; [exact E|]. split; [exact I|exact V].
Defined.

Lemma torn_expired_record_removes_key_witness : exists w fs s i' w',
  loadIndexFromWAL 100 50 sample_dir w newBTree fs = Ret (None, i', w') /\
  live 50 (db_view (at_index i' s)) !! ($"a") = None.
Proof.
  destruct (sample_torn 40) as (w & fs & post & s & Ht & Hw & Hfs & Hi & Hv); [lia|vm_compute; reflexivity|].
  destruct (torn_expired_record_removes_key 100 50 sample_dir 0 w newBTree fs [] post [Finished 7 [sample_record]]
    8 [torn_update 40] s ∅ (torn_update 40) Ht) as (i' & w' & E & V); [| | |exact Hw|exact Hfs|exact Hi|exact Hv|].
  - by apply list_elem_of_singleton.
  - vm_compute. reflexivity.
  - rewrite (torn_log_length _ _ _ _ _ _ _ _ _ Ht). simpl. lia.
  - exists w, fs, s, i', w'. split; [exact E|exact V].
Defined.
