(* ===== verification/WatchDB.v ===== *)
(** * The database and its watcher

    [watch.go] behind [batch.go] and [db.go]: every call that writes hands the
    watcher one event per record it commits, and nothing else does.  The goroutine
    that forwards the events ([Watch.v]) runs beside the calls. *)
From S2P Require Import Prelude GoBinary Config GoOs Filepath WalLib WalModel Record BTreeLib Index Watch.
From S2P Require Import Store Batch DB Open View BatchSpec CommitSpec Recovery OpenSpec DBSpec Instances.
Open Scope Z_scope.

(** What an event tells, without the id of its batch. *)
Abbreviation notice := (WatchActionType * bytes * bytes)%type.
Definition event_notice (e : Event) : notice := (e_Action e, e_Key e, e_Value e).

(** ** What a computation keeps *)
Definition keeps {S A} (P : S -> S -> Prop) (m : GoM S A) : Prop :=
  forall s a s', m s = Ret (a, s') -> P s s'.

Create HintDb keeps.

Section keeps.
Context {S : Type} (P : S -> S -> Prop) `{!PreOrder P}.

Lemma keeps_ret {A} (a : A) : keeps P (gret a).
Proof. intros s a' s' [= <- <-]. reflexivity. Qed.
Lemma keeps_lift {A} (o : outcome A) : keeps P (glift o).
Proof. intros s a s' H. unfold glift in H. destruct o; [injection H as <- <-; reflexivity|discriminate..]. Qed.
Lemma keeps_bind {A A'} (m : GoM S A) (f : A -> GoM S A') :
  keeps P m -> (forall a, keeps P (f a)) -> keeps P (gbind m f).
Proof.
  intros Hm Hf s a s' H. unfold gbind in H. destruct (m s) as [[x s1]| |] eqn:E; [|discriminate..].
  transitivity s1; [exact (Hm _ _ _ E)|exact (Hf _ _ _ _ H)].
Qed.
End keeps.

#[export] Hint Resolve keeps_ret keeps_lift : keeps.
#[export] Hint Extern 0 (PreOrder _) => typeclasses eauto : keeps.

(** Follow the branches of a computation. *)
Ltac follow := repeat first
  [ progress eauto with keeps
  | apply keeps_bind; [typeclasses eauto| |intros ?]
  | case_match ].

(** ** Watchers in any interleaving *)

(** While the queue has room for everything that was put and the watcher is not
    closed, no event is lost. *)
Lemma watch_reach_exact capacity puts st :
  2 <= capacity < 2 ^ 64 -> watch_reach capacity puts st -> len puts <= capacity - 2 -> w_done (ws_watcher st) = false ->
  ws_chan_closed st = false /\ exists l, queue_holds (w_queue (ws_watcher st)) l /\ in_flight st ++ l = puts.
Proof.
  intros Hcap Hr. induction Hr as [|puts es st st' Hr IH Hstep]; intros Hlen Hdone.
  { split; [done|]. exists []. split; [by apply NewWatcher_holds|done]. }
  destruct (watch_reach_order capacity puts st Hcap Hr) as (l0 & Hq0 & Hl0 & Ec & _).
  autorewrite with golen in Hlen. pose proof (len_nonneg es).
  specialize (IH ltac:(lia)). destruct Hstep as [w w' s c cl r e E|w c cl r E|w w' c cl r E E'|w w' c cl r e E E'
      |w c r e E|w c r e|w c cl r e E|w s c cl r e|w w' s c cl r E|w s c r E];
    unfold in_flight in *; cbn [ws_watcher ws_sender ws_chan ws_chan_closed ws_received in_hand] in *; rewrite ?app_nil_r in *; try congruence.
  - destruct (putEvent_holds w l0 e Hq0 ltac:(lia)) as (w1 & E1 & Ed & _ & _). rewrite E in E1. injection E1 as <-.
    rewrite Ed in Hdone. destruct (IH Hdone) as (Hcl & l & Hq & Hl). split; [done|].
    assert (Hle : len l <= len puts) by (rewrite <- Hl; autorewrite with golen; pose proof (len_nonneg (r ++ c ++ in_hand s)); autorewrite with golen in *; lia).
    change (len [e]) with 1 in *. destruct (putEvent_holds w l e Hq ltac:(lia)) as (w1 & E1 & _ & _ & Hq').
    rewrite E in E1. injection E1 as <-. exists (l ++ [e]). split.
    + rewrite lastn_all in Hq'; [done|]. rewrite length_app. unfold len in *. simpl. lia.
    + by rewrite (assoc_L (++)), Hl.
  - destruct (getEvent_holds w l0 Hq0) as (w1 & E1 & Ed & _). rewrite E' in E1. assert (Hw : w1 = w') by congruence. subst w1.
    rewrite Ed in Hdone. destruct (IH Hdone) as (Hcl & l & Hq & Hl). split; [done|].
    destruct (getEvent_holds w l Hq) as (w1 & E2 & _ & _ & Hq'). rewrite E' in E2. assert (Hw : w1 = w') by congruence. subst w1.
    destruct l; [|discriminate E2]. exists []. by split.
  - destruct (getEvent_holds w l0 Hq0) as (w1 & E1 & Ed & _). rewrite E' in E1. assert (Hw : w1 = w') by congruence. subst w1.
    rewrite Ed in Hdone. destruct (IH Hdone) as (Hcl & l & Hq & Hl). split; [done|].
    destruct (getEvent_holds w l Hq) as (w1 & E2 & _ & _ & Hq'). rewrite E' in E2. assert (Hw : w1 = w') by congruence. subst w1.
    destruct l as [|x l]; [discriminate E2|]. injection E2 as <-. exists l. split; [done|]. rewrite <- Hl.
    by rewrite <- !(assoc_L (++)).
  - destruct (IH Hdone) as (Hcl & l & Hq & Hl). split; [done|]. exists l. split; [done|]. rewrite <- Hl. by rewrite <- !(assoc_L (++)).
  - destruct (IH Hdone) as (Hcl & l & Hq & Hl). discriminate Hcl.
  - destruct (IH Hdone) as (Hcl & l & Hq & Hl). split; [done|]. exists l. split; [done|]. rewrite <- Hl. by rewrite <- !(assoc_L (++)).
  - unfold Watcher_Close in E. destruct (w_done w); [discriminate E|]. injection E as <-. discriminate Hdone.
Qed.

(** The goroutines can always bring everything to the consumer. *)
Lemma receive_all w s c cl r : rtc (watch_step []) (MkWatchState w s c cl r) (MkWatchState w s [] cl (r ++ c)).
Proof.
  revert r. induction c as [|e c IH]; intros r; [by rewrite app_nil_r|].
  eapply rtc_l; [apply step_receive|]. specialize (IH (r ++ [e])). by rewrite <- (assoc_L (++)) in IH.
Qed.

Lemma send_receive w r e : rtc (watch_step []) (MkWatchState w (Sending e) [] false r) (MkWatchState w Polling [] false (r ++ [e])).
Proof.
  eapply rtc_l; [apply step_send; unfold watch_chan_cap; simpl; lia|]. eapply rtc_l; [apply step_receive|]. reflexivity.
Qed.

Lemma drain_queue w l r : queue_holds (w_queue w) l -> w_done w = false ->
  exists w', rtc (watch_step []) (MkWatchState w Polling [] false r) (MkWatchState w' Polling [] false (r ++ l)).
Proof.
  revert w r. induction l as [|e l IH]; intros w r Hq Hd; [exists w; by rewrite app_nil_r|].
  destruct (getEvent_holds w (e :: l) Hq) as (w1 & E & Ed & _ & Hq1). cbn [head tail] in *.
  destruct (IH w1 (r ++ [e]) Hq1 ltac:(congruence)) as (w' & H). exists w'.
  rewrite <- (assoc_L (++)) in H. eapply rtc_l; [by apply (step_take _ w1)|]. by etransitivity; [apply send_receive|].
Qed.

Lemma drain_all st l : queue_holds (w_queue (ws_watcher st)) l -> w_done (ws_watcher st) = false -> ws_chan_closed st = false ->
  (ws_sender st = Polling \/ exists e, ws_sender st = Sending e) ->
  exists w', rtc (watch_step []) st (MkWatchState w' Polling [] false (in_flight st ++ l)).
Proof.
  destruct st as [w s c cl r]. unfold in_flight. cbn [ws_watcher ws_sender ws_chan ws_chan_closed ws_received].
  intros Hq Hd -> [->|[e ->]]; cbn [in_hand].
  - destruct (drain_queue w l (r ++ c) Hq Hd) as (w' & H). exists w'. rewrite app_nil_r.
    by etransitivity; [apply receive_all|].
  - destruct (drain_queue w l ((r ++ c) ++ [e]) Hq Hd) as (w' & H). exists w'. rewrite !(assoc_L (++)) in *.
    etransitivity; [apply receive_all|]. by etransitivity; [apply send_receive|].
Qed.

(** The sender stops only when the watcher is closed. *)
Lemma sender_runs capacity puts st : watch_reach capacity puts st -> w_done (ws_watcher st) = false ->
  ws_chan_closed st = false /\ (ws_sender st = Polling \/ exists e, ws_sender st = Sending e).
Proof.
  intros Hr. induction Hr as [|puts es st st' Hr IH Hstep]; intros Hdone; [by split; [|left]|].
  destruct Hstep as [w w' s c cl r e E|w c cl r E|w w' c cl r E E'|w w' c cl r e E E'
      |w c r e E|w c r e|w c cl r e E|w s c cl r e|w w' s c cl r E|w s c r E];
    cbn [ws_watcher ws_sender ws_chan ws_chan_closed ws_received] in *; try congruence; eauto.
  - apply IH. unfold Watcher_putEvent in E. destruct (eventQueue_push _ _) as [q| |]; cbn [mbind outcome_bind] in E; [|discriminate E..].
    destruct (eventQueue_isFull q) as [f| |]; cbn [mbind outcome_bind] in E; [|discriminate E..].
    destruct (if f : bool then _ else _) as [q'| |]; cbn [mbind outcome_bind] in E; [|discriminate E..]. injection E as <-. exact Hdone.
  - split; [by apply IH|right; eauto].
  - destruct (IH Hdone) as [Hcl _]. discriminate Hcl.
  - unfold Watcher_Close in E. destruct (w_done w); [discriminate E|]. injection E as <-. discriminate Hdone.
Qed.

Section watch_db.
Context {W : WalLib} {WL : WalLaws W} {B : BTreeLib item item_less} {BL : BTreeLaws B}
  {SF : Snowflake} {SL : SnowflakeLaws SF} {MH : MemHashLib}.
Implicit Types (s : Store) (b : Batch) (k v : bytes) (r : LogRecord) (d : DB).

(** The watcher and the options are left alone, of the batch too. *)
Definition same_watch d d' : Prop := db_watcher d' = db_watcher d /\ db_options d' = db_options d.
#[export] Instance same_watch_preorder : PreOrder same_watch.
Proof. split; [by intros d|]. intros d1 d2 d3 [H1 H2] [H3 H4]. split; congruence. Qed.

Definition quietD (s s' : Store) : Prop := same_watch (st_db s) (st_db s').
Definition quietB (x x' : Batch * Store) : Prop := quietD x.2 x'.2 /\ b_options x'.1 = b_options x.1.
#[export] Instance quietD_preorder : PreOrder quietD.
Proof. unfold quietD. split; [by intros s|]. intros s1 s2 s3 H1 H2. by transitivity (st_db s2). Qed.
#[export] Instance quietB_preorder : PreOrder quietB.
Proof.
  unfold quietB. split; [by intros x|]. intros x1 x2 x3 [H1 E1] [H2 E2]. split; [by transitivity x2.2|congruence].
Qed.

Lemma quiet_modify f : (forall d, same_watch d (f d)) -> keeps quietD (db_modify f).
Proof. intros H s a s' [= _ <-]. apply H. Qed.
Lemma quiet_mu f : keeps quietD (db_with_mu f).
Proof. intros s a s' H. unfold db_with_mu in H. destruct (f _); [injection H as _ <-; done|discriminate..]. Qed.
Lemma quiet_get : keeps quietD db_get.
Proof. by intros s a s' [= _ <-]. Qed.
Lemma quiet_fs : keeps quietD db_fs.
Proof. by intros s a s' [= _ <-]. Qed.
Lemma quiet_pool_Get : keeps quietD recordPool_Get.
Proof. intros s a s' H. unfold recordPool_Get in H. by destruct (db_recordPool _); injection H as _ <-. Qed.
Lemma quiet_on_db {A} (m : DbM A) : keeps quietD m -> keeps quietB (on_db m).
Proof.
  intros Hm [b s] a [b' s'] H. unfold on_db in H. destruct (m s) as [[x s1]| |] eqn:E; [|discriminate..].
  injection H as <- <- <-. split; [exact (Hm _ _ _ E)|done].
Qed.
Lemma quiet_b_get : keeps quietB b_get.
Proof. by intros [b s] a [b' s'] [= _ <- <-]. Qed.
Lemma quiet_b_modify f : (forall b, b_options (f b) = b_options b) -> keeps quietB (b_modify f).
Proof. intros Hf [b s] a [b' s'] [= _ <- <-]. split; [done|]. apply Hf. Qed.
Lemma quiet_index_Delete k : keeps quietD (index_Delete k).
Proof. by apply quiet_modify. Qed.

#[local] Hint Resolve quiet_mu quiet_get quiet_fs quiet_pool_Get quiet_on_db quiet_b_get quiet_index_Delete : keeps.
#[local] Hint Extern 1 (keeps quietB (b_modify _)) => apply quiet_b_modify; reflexivity : keeps.

Lemma quiet_lookup k : keeps quietB (lookup_record k).
Proof. unfold lookup_record. follow. Qed.
Lemma quiet_read_index k : keeps quietB (read_index k).
Proof. unfold read_index. follow. Qed.
#[local] Hint Resolve quiet_lookup quiet_read_index : keeps.

Lemma quiet_write_guards k m : keeps quietB m -> keeps quietB (write_guards k m).
Proof. intros H. unfold write_guards. follow. Qed.
#[local] Hint Resolve quiet_write_guards : keeps.

Lemma quiet_put_record k v e : keeps quietB (put_record k v e).
Proof. unfold put_record. follow. Qed.
#[local] Hint Resolve quiet_put_record : keeps.
Lemma quiet_Put k v : keeps quietB (Batch_Put k v).
Proof. unfold Batch_Put. follow. Qed.
Lemma quiet_PutWithTTL now k v ttl : keeps quietB (Batch_PutWithTTL now k v ttl).
Proof. unfold Batch_PutWithTTL. follow. Qed.
Lemma quiet_Delete k : keeps quietB (Batch_Delete k).
Proof. unfold Batch_Delete. apply quiet_write_guards. follow. Qed.
Lemma quiet_Get now k : keeps quietB (Batch_Get now k).
Proof. unfold Batch_Get. follow. Qed.
Lemma quiet_Exist now k : keeps quietB (Batch_Exist now k).
Proof. unfold Batch_Exist. follow. Qed.
Lemma quiet_TTL now k : keeps quietB (Batch_TTL now k).
Proof. unfold Batch_TTL. follow. Qed.
Lemma quiet_Expire now now2 k ttl : keeps quietB (Batch_Expire now now2 k ttl).
Proof. unfold Batch_Expire. apply quiet_write_guards. follow. Qed.
Lemma quiet_Persist now k : keeps quietB (Batch_Persist now k).
Proof. unfold Batch_Persist. apply quiet_write_guards. follow. Qed.

Lemma quiet_lock : keeps quietB Batch_lock.
Proof. unfold Batch_lock. follow. Qed.
Lemma quiet_unlock : keeps quietB Batch_unlock.
Proof. unfold Batch_unlock. follow. Qed.
#[local] Hint Resolve quiet_lock quiet_unlock : keeps.
Lemma quiet_defer {A} (m : BatchM A) : keeps quietB m -> keeps quietB (defer_unlock m).
Proof. intros H. unfold defer_unlock. follow. Qed.
#[local] Hint Resolve quiet_defer : keeps.
Lemma quiet_Rollback : keeps quietB Batch_Rollback.
Proof. unfold Batch_Rollback. apply quiet_defer. follow. by apply quiet_on_db, quiet_modify. Qed.

(** ** Events of a commit *)

(** Hand the events to the watcher one after the other. *)
Fixpoint putEvents (w : Watcher) (es : list Event) : outcome Watcher :=
  match es with [] => Ret w | e :: es => w ← Watcher_putEvent w e; putEvents w es end.

(** The watcher of [d'] is that of [d] after the events. *)
Definition watch_grows (es : list Event) d d' : Prop :=
  db_options d' = db_options d /\
  forall w, db_watcher d = Some w -> exists w', putEvents w es = Ret w' /\ db_watcher d' = Some w'.

Definition watched d : Prop := 0 < o_WatchQueueSize (db_options d) /\ is_Some (db_watcher d).

Lemma same_grows d d' : same_watch d d' -> watch_grows [] d d'.
Proof. intros [H1 H2]. split; [done|]. intros w Hw. exists w. split; [done|congruence]. Qed.

Lemma putEvents_app w es1 es2 : putEvents w (es1 ++ es2) = w' ← putEvents w es1; putEvents w' es2.
Proof.
  revert w. induction es1 as [|e es1 IH]; intros w; [done|]. cbn [app putEvents].
  destruct (Watcher_putEvent w e) as [w'| |]; cbn [mbind outcome_bind]; [apply IH|done|done].
Qed.

Lemma watch_grows_trans es1 es2 d1 d2 d3 : watch_grows es1 d1 d2 -> watch_grows es2 d2 d3 -> watch_grows (es1 ++ es2) d1 d3.
Proof.
  intros [A1 A2] [B1 B2]. split; [congruence|]. intros w Hw. destruct (A2 w Hw) as (w1 & E1 & Hw1).
  destruct (B2 w1 Hw1) as (w2 & E2 & Hw2). exists w2. split; [|done]. by rewrite putEvents_app, E1.
Qed.

Lemma watched_grows es d d' : watched d -> watch_grows es d d' -> watched d'.
Proof. intros [H1 [w Hw]] [H2 H3]. destruct (H3 w Hw) as (w' & _ & Hw'). split; [by rewrite H2|by exists w']. Qed.

(** The event of a record. *)
Definition record_action r : WatchActionType :=
  if decide (lr_Type r = LogRecordDeleted) then WatchActionDelete else WatchActionPut.
Definition record_event r : Event := MkEvent (record_action r) (lr_Key r) (lr_Value r) (lr_BatchId r).

Lemma commit_event_grows r d d' : watched d -> commit_event r d = Ret d' -> watch_grows [record_event r] d d'.
Proof.
  intros [Hq [w Hw]]. unfold commit_event. rewrite (proj2 (Z.ltb_lt _ _) Hq), Hw.
  change (MkEvent _ _ _ _) with (record_event r). destruct (Watcher_putEvent w (record_event r)) as [w'| |] eqn:E;
    cbn [mbind outcome_bind]; [|done..]. intros [= <-]. split; [done|]. intros w0 Hw0. rewrite Hw in Hw0. injection Hw0 as <-.
  exists w'. cbn [putEvents]. by rewrite E.
Qed.

Lemma commit_index_grows now rs i ps d d' : watched d -> commit_index now rs i ps d = Ret d' ->
  watch_grows (record_event <$> rs) d d'.
Proof.
  revert i d. induction rs as [|r rs IH]; intros i d Hd; cbn [commit_index].
  { intros [= <-]. by apply same_grows. }
  set (step := if bool_decide _ || _ then _ else _). assert (Hstep : forall d1, step = Ret d1 -> same_watch d d1).
  { intros d1. unfold step. destruct (_ || _); [by intros [= <-]|]. by destruct (ps !! i); [intros [= <-]|]. }
  destruct step as [d1| |]; cbn [mbind outcome_bind]; [|done..]. specialize (Hstep d1 eq_refl).
  pose proof (watched_grows _ _ _ Hd (same_grows _ _ Hstep)) as Hd1.
  destruct (commit_event r d1) as [d2| |] eqn:E; cbn [mbind outcome_bind]; [|done..].
  pose proof (commit_event_grows r d1 d2 Hd1 E) as Hg. pose proof (watched_grows _ _ _ Hd1 Hg) as Hd2.
  intros Hrest. rewrite fmap_cons. apply (watch_grows_trans [] (record_event r :: _) d d1 d'); [by apply same_grows|].
  apply (watch_grows_trans [record_event r] _ d1 d2 d' Hg). apply (IH (S i) (set_recordPool (r :: db_recordPool d2) d2)); done.
Qed.

Lemma commit_encode_records id rs header w bufs rs' header' w' bufs' :
  commit_encode id rs header w bufs = Ret (rs', header', w', bufs') -> rs' = set_id (u64 id) <$> rs.
Proof.
  revert header w bufs rs'. induction rs as [|r rs IH]; intros header w bufs rs'; cbn [commit_encode].
  { by intros [= <- _ _ _]. }
  destruct (encodeLogRecord _ header []) as [[h enc]| |]; cbn [mbind outcome_bind]; [|done..].
  destruct (commit_encode id rs h _ _) as [[[[rs1 h1] w1] bufs1]| |] eqn:E; cbn [mbind outcome_bind]; [|done..].
  intros [= <- <- <- <-]. by rewrite (IH _ _ _ _ E).
Qed.

(** A commit that reports an error leaves the watcher alone; one that does not
    hands it the records of the batch in their order. *)
Definition commit_puts (rs : list LogRecord) (res : option error) d d' : Prop :=
  match res with
  | Some _ => same_watch d d'
  | None => exists id, watch_grows (record_event <$> (set_id id <$> rs)) d d'
  end.

Lemma commit_body_puts clock now b s res b' s' : watched (st_db s) ->
  commit_body clock now (b, s) = Ret (res, (b', s')) -> commit_puts (b_pendingWrites b) res (st_db s) (st_db s').
Proof.
  intros Hd. unfold commit_body. destruct (b_batchId b) as [node|]; [|done].
  destruct (sf_Generate node clock) as [id node'].
  destruct (commit_encode _ _ _ _ _) as [[[[rs h1] w1] bufs1]| |] eqn:E; cbn [mbind outcome_bind]; [|done..].
  apply commit_encode_records in E.
  destruct (encodeLogRecord _ h1 []) as [[h2 enc]| |]; cbn [mbind outcome_bind]; [|done..].
  destruct (wal_WriteAll _ _) as [[[e|ps] w2] fs2]; [by intros [= <- _ <-]|].
  case_decide; [done|].
  destruct (if bo_Sync _ && _ then _ else _) as [[e|] fs3]; [by intros [= <- _ <-]|].
  destruct (commit_index now rs 0 ps _) as [d'| |] eqn:Ei; cbn [mbind outcome_bind]; [|done..].
  intros [= <- _ <-]. exists (u64 id). cbn [st_db]. rewrite <- E.
  by apply (commit_index_grows now rs 0 ps (set_dataFiles w2 (set_encodeHeader h2 (st_db s)))).
Qed.

Lemma commit_puts_same rs res d d1 d2 : commit_puts rs res d d1 -> same_watch d1 d2 -> commit_puts rs res d d2.
Proof.
  intros H Hs. destruct res as [e|]; [by transitivity d1|]. destruct H as [id H]. exists id.
  rewrite <- (app_nil_r (record_event <$> _)). apply (watch_grows_trans _ [] d d1 d2 H), same_grows, Hs.
Qed.

Lemma Batch_Commit_puts clock now b s res b' s' : watched (st_db s) -> bo_ReadOnly (b_options b) = false ->
  Batch_Commit clock now (b, s) = Ret (res, (b', s')) -> commit_puts (b_pendingWrites b) res (st_db s) (st_db s').
Proof.
  intros Hd Hro H. unfold Batch_Commit, defer_unlock in H. unfold gbind at 1 in H.
  match type of H with match ?m (b, s) with _ => _ end = _ =>
    destruct (m (b, s)) as [[res1 [b1 s1]]| |] eqn:E; [|discriminate H..] end.
  assert (Hq : keeps quietB (Batch_unlock ;;; gret res1)) by (apply keeps_bind; [typeclasses eauto|apply quiet_unlock|intros; apply keeps_ret; typeclasses eauto]).
  assert (Er : res = res1).
  { unfold gbind, gret in H. destruct (Batch_unlock (b1, s1)) as [[]| |]; [congruence|discriminate H..]. }
  subst res1. apply (commit_puts_same _ _ _ (st_db s1)); [|apply (Hq _ _ _ H)].
  unfold gbind at 1, on_db, db_get in E. cbn [st_db] in E. destruct (db_closed (st_db s)).
  { injection E as <- _ <-. done. }
  unfold gbind at 1, b_get in E. rewrite Hro in E. cbn [orb] in E.
  destruct (b_pendingWrites b) as [|r rs] eqn:Ep; cbn [length Nat.eqb] in E.
  { injection E as <- _ <-. exists 0. by apply same_grows. }
  destruct (b_committed b); [injection E as <- _ <-; done|].
  destruct (b_rollbacked b); [injection E as <- _ <-; done|].
  rewrite <- Ep. by apply (commit_body_puts clock now b s res b1 s1).
Qed.

(** ** The records a call leaves to commit *)

Definition record_notice r : notice := (record_action r, lr_Key r, lr_Value r).

Lemma notices_of_records id (rs : list LogRecord) : event_notice <$> (record_event <$> (set_id id <$> rs)) = record_notice <$> rs.
Proof. by rewrite <- !list_fmap_compose. Qed.

(** An operation that succeeds on an empty batch leaves records that tell [f] of
    the map the database shows. *)
Definition leaves (f : vmap -> list notice) (op : BatchM (option error)) : Prop :=
  forall b s b' s', batch_inv b -> db_inv s -> b_pendingWrites b = [] -> op (b, s) = Ret (None, (b', s')) ->
    record_notice <$> b_pendingWrites b' = f (db_view s).

Lemma leaves_guards f k m : leaves f m -> leaves f (write_guards k m).
Proof.
  intros Hm b s b' s' Hb Hs Hnil H. unfold write_guards in H. case_decide; [discriminate H|].
  unfold gbind, on_db, db_get, b_get in H. cbn [st_db] in H. destruct (db_closed _); [discriminate H|].
  destruct (bo_ReadOnly _); [discriminate H|]. by apply (Hm b s b' s').
Qed.

(** On an empty batch nothing is pending for a key. *)
Lemma lookup_record_empty k b s : batch_inv b -> b_pendingWrites b = [] -> lookup_record k (b, s) = Ret (None, (b, s)).
Proof.
  intros Hb Hnil. destruct (lookup_record_spec b s k Hb) as (o & E & H). destruct o as [[i r]|]; [|done].
  destruct H as [H _]. by rewrite Hnil in H.
Qed.

Lemma leaves_put_record k v e : leaves (fun _ => [(WatchActionPut, k, v)]) (put_record k v e).
Proof.
  intros b s b' s' Hb Hs Hnil H. unfold put_record in H.
  rewrite (gbind_Ret _ _ _ _ _ (lookup_record_empty k b s Hb Hnil)) in H. unfold gbind, on_db in H.
  destruct (recordPool_Get s) as [[r s1]| |]; [|discriminate H..]. injection H as <- _.
  cbn [appendPendingWrites set_pending b_pendingWrites]. by rewrite Hnil.
Qed.

Lemma leaves_delete k : leaves (fun _ => [(WatchActionDelete, k, [])]) (Batch_Delete k).
Proof.
  apply leaves_guards. intros b s b' s' Hb Hs Hnil H.
  rewrite (gbind_Ret _ _ _ _ _ (lookup_record_empty k b s Hb Hnil)) in H. injection H as <- _.
  cbn [appendPendingWrites set_pending b_pendingWrites]. by rewrite Hnil.
Qed.

(** The put of a key with the value it has. *)
Definition live_put (now : Z) k (m : vmap) : list notice :=
  match live now m !! k with Some (v, _) => [(WatchActionPut, k, v)] | None => [] end.
Definition live_put_expiring (now : Z) k (m : vmap) : list notice :=
  match live now m !! k with Some (v, e) => if decide (e = 0) then [] else [(WatchActionPut, k, v)] | None => [] end.

Lemma live_db_rec now k s r : db_inv s -> db_rec s k = Some r -> IsExpired r now = false ->
  live now (db_view s) !! k = Some (lr_Value r, lr_Expire r) /\ lr_Key r = k /\ lr_Type r = LogRecordNormal.
Proof.
  intros Hs Er He. destruct (db_rec_ok s k r Hs Er) as (_ & Hk & Ht). split; [|done].
  rewrite live_lookup, db_view_lookup, Er. simpl. unfold rec_val. rewrite <- IsExpired_expired. by rewrite He.
Qed.

Lemma expire_notice e r : lr_Type r = LogRecordNormal -> record_notice (set_Expire e r) = (WatchActionPut, lr_Key r, lr_Value r).
Proof. intros Ht. unfold record_notice, record_action, set_Expire. cbn. by rewrite Ht. Qed.

(** Expiring and persisting read the key from the index. *)
Lemma leaves_expire now now2 k ttl : leaves (live_put now k) (Batch_Expire now now2 k ttl).
Proof.
  apply leaves_guards. intros b s b' s' Hb Hs Hnil H.
  rewrite (gbind_Ret _ _ _ _ _ (lookup_record_empty k b s Hb Hnil)), (gbind_Ret _ _ _ _ _ (read_index_spec b s k Hs)) in H.
  destruct (db_rec s k) as [r|] eqn:Er; [|discriminate H]. destruct (_ || _) eqn:E; [discriminate H|].
  apply orb_false_iff in E as [_ E]. injection H as <- _. destruct (live_db_rec now k s r Hs Er E) as (Hl & Hk & Ht).
  cbn [appendPendingWrites set_pending b_pendingWrites]. rewrite Hnil. cbn [app fmap list_fmap].
  rewrite expire_notice by done. unfold live_put. by rewrite Hl, Hk.
Qed.

Lemma leaves_persist now k : leaves (live_put_expiring now k) (Batch_Persist now k).
Proof.
  apply leaves_guards. intros b s b' s' Hb Hs Hnil H.
  rewrite (gbind_Ret _ _ _ _ _ (lookup_record_empty k b s Hb Hnil)), (gbind_Ret _ _ _ _ _ (read_index_spec b s k Hs)) in H.
  destruct (db_rec s k) as [r|] eqn:Er; [|discriminate H]. destruct (_ || _) eqn:E; [discriminate H|].
  apply orb_false_iff in E as [_ E]. destruct (live_db_rec now k s r Hs Er E) as (Hl & Hk & Ht).
  unfold live_put_expiring. rewrite Hl. case_decide as He.
  - injection H as <- _. by rewrite Hnil.
  - injection H as <- _. cbn [appendPendingWrites set_pending b_pendingWrites]. rewrite Hnil. cbn [app fmap list_fmap].
    rewrite expire_notice by done. by rewrite Hk.
Qed.

(** ** The calls *)

(** The notices of a call on a map. *)
Definition dop_notices (o : dop) (m : vmap) : list notice :=
  match o with
  | DPut _ _ k v | DPutWithTTL _ _ _ k v _ => [(WatchActionPut, k, v)]
  | DDelete _ _ k => [(WatchActionDelete, k, [])]
  | DExpire t _ _ _ k _ => live_put t k m
  | DPersist t _ _ k => live_put_expiring t k m
  | DGet _ _ | DExist _ _ | DTTL _ _ => []
  end.

(** The watcher got events that tell [ns]. *)
Definition noticed (ns : list notice) d d' : Prop := exists es, event_notice <$> es = ns /\ watch_grows es d d'.

(** A method of the pool's batch, taken apart. *)
Lemma with_batch_watch {A} (m : BatchM A) T s a s' : db_good T s -> with_batch m s = Ret (a, s') ->
  exists b p b2 s2, clean_batch b /\ m (b, MkStore (set_batchPool p (st_db s)) (st_fs s)) = Ret (a, (b2, s2)) /\ quietD s2 s'.
Proof.
  intros Hg. destruct (batchPool_Get_spec T s Hg) as (b & p & E & Hb & _). unfold with_batch. rewrite E.
  cbn [mbind outcome_bind]. destruct (m _) as [[a1 [b2 s2]]| |] eqn:Em; cbn [mbind outcome_bind]; [|done..].
  intros [= <- <-]. by exists b, p, b2, s2.
Qed.

Lemma Batch_Commit_reader clock now b s res b' s' : bo_ReadOnly (b_options b) = true ->
  Batch_Commit clock now (b, s) = Ret (res, (b', s')) -> quietD s s'.
Proof.
  intros Hro H. unfold Batch_Commit, defer_unlock in H. unfold gbind at 1 in H.
  match type of H with match ?m (b, s) with _ => _ end = _ =>
    assert (Hm : m (b, s) = Ret (if db_closed (st_db s) then Some ErrDBClosed else None, (b, s)))
      by (unfold gbind, on_db, db_get, b_get; cbn [st_db]; destruct (db_closed (st_db s)); [done|]; by rewrite Hro) end.
  rewrite Hm in H. assert (Hq : forall x, keeps quietB (Batch_unlock ;;; gret (A := option error) x))
    by (intros x; follow; apply quiet_unlock). apply (Hq _ _ _ _ H).
Qed.

(** Reads leave the watcher alone. *)
Lemma read_op_quiet {A} (op : BatchM A) T s a s' : db_good T s -> keeps quietB op ->
  read_op op s = Ret (a, s') -> quietD s s'.
Proof.
  intros Hg Hq H. destruct (with_batch_watch _ T _ _ _ Hg H) as (b & p & b2 & s2 & Hb & Em & H2).
  transitivity s2; [|done]. rewrite (gbind_Ret _ _ _ _ _ (Batch_init_spec true b p s Hb (dg_mu _ _ Hg))) in Em.
  unfold gbind at 1 in Em.
  destruct (op (init_batch true b, init_store true p s)) as [[x [b3 s3]]| |] eqn:E3; [|discriminate Em..].
  destruct (Hq _ _ _ E3) as [Hs3 Ho3]. cbn [fst snd] in *. transitivity s3; [exact Hs3|]. unfold gbind at 1 in Em.
  destruct (Batch_Commit 0 0 (b3, s3)) as [[e [b4 s4]]| |] eqn:Ec; [|discriminate Em..]. injection Em as _ <- <-.
  apply (Batch_Commit_reader 0 0 b3 s3 e b4 s4); [by rewrite Ho3|done].
Qed.

(** Writes tell it what they commit. *)
Lemma write_op_noticed (op : BatchM (option error)) (f : vmap -> list notice) clock now T s res s' : db_good T s ->
  watched (st_db s) -> keeps quietB op -> leaves f op ->
  write_op op clock now s = Ret (res, s') ->
  match res with
  | None => noticed (f (db_view s)) (st_db s) (st_db s')
  | Some _ => same_watch (st_db s) (st_db s')
  end.
Proof.
  intros Hg Hd Hq Hl H. destruct (with_batch_watch _ T _ _ _ Hg H) as (b & p & b2 & s2 & Hb & Em & H2).
  rewrite (gbind_Ret _ _ _ _ _ (Batch_init_spec false b p s Hb (dg_mu _ _ Hg))) in Em.
  destruct (init_store_inv false p s (dg_inv _ _ Hg)) as [I1 I2]. unfold gbind at 1 in Em.
  destruct (op (init_batch false b, init_store false p s)) as [[err [b3 s3]]| |] eqn:E3; [|discriminate Em..].
  pose proof (Hq _ _ _ E3) as [Hs3 Ho3]. change (same_watch (st_db s) (st_db s3)) in Hs3. cbn [fst] in Ho3.
  destruct err as [e|].
  - unfold gbind in Em. destruct (Batch_Rollback (b3, s3)) as [[x [b4 s4]]| |] eqn:Er; [|discriminate Em..].
    injection Em as <- <- <-. transitivity (st_db s3); [done|]. transitivity (st_db s4); [apply (quiet_Rollback _ _ _ Er)|done].
  - assert (Hro : bo_ReadOnly (b_options b3) = false) by by rewrite Ho3.
    pose proof (Batch_Commit_puts clock now b3 s3 res b2 s2 (watched_grows _ _ _ Hd (same_grows _ _ Hs3)) Hro Em) as Hc.
    pose proof (commit_puts_same _ _ _ _ _ Hc H2) as Hc2. destruct res as [e|]; [by transitivity (st_db s3)|].
    destruct Hc2 as [id Hc2]. exists (record_event <$> (set_id id <$> b_pendingWrites b3)). split.
    + rewrite notices_of_records, <- I2. by apply (Hl _ _ _ _ (empty_batch_inv _ _ _ _ _) I1 eq_refl E3).
    + apply (watch_grows_trans [] _ _ (st_db s3)); [by apply same_grows|exact Hc2].
Qed.

(** One call: what it tells the watcher is what the call means on the map; a
    call the log refuses tells nothing. *)
Lemma dop_noticed T o s x s' : db_good T s -> watched (st_db s) -> dop_run o s = Ret (x, s') ->
  match x with
  | ResErr (Some _) => same_watch (st_db s) (st_db s')
  | _ => noticed (dop_notices o (db_view s)) (st_db s) (st_db s')
  end.
Proof.
  intros Hg Hd H.
  assert (Wr : forall op f clock now, keeps quietB op -> leaves f op -> as_res ResErr (write_op op clock now) s = Ret (x, s') ->
    match x with ResErr (Some _) => same_watch (st_db s) (st_db s') | _ => noticed (f (db_view s)) (st_db s) (st_db s') end).
  { intros op f clock now Hq Hl E. unfold as_res, gbind in E.
    destruct (write_op op clock now s) as [[res s1]| |] eqn:E1; [|discriminate E..]. injection E as <- <-.
    exact (write_op_noticed op f clock now T s res s1 Hg Hd Hq Hl E1). }
  assert (Rd : forall A (op : BatchM A) (g : A -> dres), keeps quietB op -> (forall a, ~ exists e, g a = ResErr e) ->
    as_res g (read_op op) s = Ret (x, s') ->
    match x with ResErr (Some _) => same_watch (st_db s) (st_db s') | _ => noticed [] (st_db s) (st_db s') end).
  { intros A op g Hq Hne E. unfold as_res, gbind in E.
    destruct (read_op op s) as [[a s1]| |] eqn:E1; [|discriminate E..]. injection E as <- <-.
    assert (Hn : noticed [] (st_db s) (st_db s1)).
    { exists []. split; [done|]. exact (same_grows _ _ (read_op_quiet op T s a s1 Hg Hq E1)). }
    destruct (g a) as [[e|]| | |] eqn:Eg; [|exact Hn..]. exfalso. apply (Hne a). by eexists. }
  destruct o as [clock now k v|t clock now k v ttl|t k|clock now k|t k|t t2 clock now k ttl|t k|t clock now k];
    cbn [dop_notices] in *.
  - apply (Wr (Batch_Put k v) (fun _ => [(WatchActionPut, k, v)]) clock now); [apply quiet_Put|apply leaves_guards, leaves_put_record|exact H].
  - apply (Wr (Batch_PutWithTTL t k v ttl) (fun _ => [(WatchActionPut, k, v)]) clock now);
      [apply quiet_PutWithTTL|apply leaves_guards, leaves_put_record|exact H].
  - apply (Rd _ (Batch_Get t k) ResVal); [apply quiet_Get|by intros a [e ?]|exact H].
  - apply (Wr (Batch_Delete k) (fun _ => [(WatchActionDelete, k, [])]) clock now); [apply quiet_Delete|apply leaves_delete|exact H].
  - apply (Rd _ (Batch_Exist t k) ResBool); [apply quiet_Exist|by intros a [e ?]|exact H].
  - apply (Wr (Batch_Expire t t2 k ttl) (live_put t k) clock now); [apply quiet_Expire|apply leaves_expire|exact H].
  - apply (Rd _ (Batch_TTL t k) ResDur); [apply quiet_TTL|by intros a [e ?]|exact H].
  - apply (Wr (Batch_Persist t k) (live_put_expiring t k) clock now); [apply quiet_Persist|apply leaves_persist|exact H].
Qed.

(** Equivalent maps give the same notices. *)
Lemma dop_notices_live_eq o m m' : live_eq (dop_times o).1 m m' -> dop_notices o m = dop_notices o m'.
Proof.
  intros E. destruct o; cbn [dop_notices dop_times fst] in *; try done; unfold live_put, live_put_expiring; by rewrite E.
Qed.

(** The notices of a history, on the map. *)
Fixpoint dops_notices (ops : list dop) (m : vmap) : list notice :=
  match ops with [] => [] | o :: ops => dop_notices o m ++ dops_notices ops (dop_spec o m).2 end.

Lemma dops_notices_app ops1 ops2 m :
  dops_notices (ops1 ++ ops2) m = dops_notices ops1 m ++ dops_notices ops2 (dops_spec ops1 m).2.
Proof.
  revert m. induction ops1 as [|o ops1 IH]; intros m; [done|]. cbn [app dops_notices dops_spec].
  rewrite IH, (assoc_L (++)). destruct (dop_spec o m) as [x m1]. cbn [snd]. by destruct (dops_spec ops1 m1).
Qed.
(** ** Calls and goroutines side by side

    The watcher is in the database; the sending goroutine, the channel and the
    consumer are beside it.  Every step of theirs is one of [watch_step] that puts
    nothing. *)
Record WatchSys : Type := MkWatchSys {
  y_store : Store;
  y_sender : sender;
  y_chan : list Event;
  y_chan_closed : bool;
  y_received : list Event;
}.

Definition around (w : Watcher) (σ : WatchSys) : watch_state :=
  MkWatchState w (y_sender σ) (y_chan σ) (y_chan_closed σ) (y_received σ).
Definition with_watch (st : watch_state) s : WatchSys :=
  MkWatchSys (MkStore (set_watcher (Some (ws_watcher st)) (st_db s)) (st_fs s)) (ws_sender st) (ws_chan st)
    (ws_chan_closed st) (ws_received st).

(** One step of a goroutine that is not a call. *)
Definition goroutine_step (σ σ' : WatchSys) : Prop :=
  exists w st, db_watcher (st_db (y_store σ)) = Some w /\ watch_step [] (around w σ) st /\ σ' = with_watch st (y_store σ).

(** What is reached from an opened database by calls, with their results, and by
    the goroutines, in any order. *)
Inductive sys_reach s : list dop -> list dres -> WatchSys -> Prop :=
| sr_start : sys_reach s [] [] (MkWatchSys s Polling [] false [])
| sr_call ops xs σ o x s' : sys_reach s ops xs σ -> dop_run o (y_store σ) = Ret (x, s') ->
    sys_reach s (ops ++ [o]) (xs ++ [x]) (MkWatchSys s' (y_sender σ) (y_chan σ) (y_chan_closed σ) (y_received σ))
| sr_goroutine ops xs σ σ' : sys_reach s ops xs σ -> goroutine_step σ σ' -> sys_reach s ops xs σ'.

Lemma reach_puts capacity puts w w' σ es : watch_reach capacity puts (around w σ) -> putEvents w es = Ret w' ->
  watch_reach capacity (puts ++ es) (around w' σ).
Proof.
  revert puts w. induction es as [|e es IH]; intros puts w Hr; cbn [putEvents].
  { intros [= <-]. by rewrite app_nil_r. }
  destruct (Watcher_putEvent w e) as [w1| |] eqn:E; cbn [mbind outcome_bind]; [|done..]. intros Hes.
  replace (puts ++ e :: es) with ((puts ++ [e]) ++ es) by by rewrite <- (assoc_L (++)).
  apply (IH _ w1); [|done]. eapply reach_step; [exact Hr|]. by apply step_put.
Qed.

Lemma queue_holds_wf w l : queue_holds (w_queue w) l -> watcher_wf w.
Proof.
  intros [Hc He Hf Hl Hb _]. split; [lia|exact He|exact Hf|]. rewrite Hb. apply Z.mod_pos_bound. lia.
Qed.

Lemma set_watcher_good T w s : watcher_wf w -> db_good T s ->
  db_good T (MkStore (set_watcher (Some w) (st_db s)) (st_fs s)).
Proof.
  intros Hw [[H1 H2 H3 H4 H5] G2 G3 G4 G5 G6]. split; [split|..]; try done. intros _. by exists w.
Qed.

(** A database that has just been opened with a queue of [c] events. *)
Definition watching (c : Z) s : Prop :=
  2 <= c < 2 ^ 64 /\ o_WatchQueueSize (db_options (st_db s)) = c /\ db_watcher (st_db s) = Some (NewWatcher c).

Record watched_as (T : Z) (m : vmap) (c : Z) (evs : list Event) (ns : list notice) (σ : WatchSys) (w : Watcher) : Prop := {
  wa_good : db_good T (y_store σ);
  wa_view : live_eq T (db_view (y_store σ)) m;
  wa_size : o_WatchQueueSize (db_options (st_db (y_store σ))) = c;
  wa_watcher : db_watcher (st_db (y_store σ)) = Some w;
  wa_reach : watch_reach c evs (around w σ);
  wa_notices : event_notice <$> evs = ns;
}.

Lemma goroutine_watched T m c evs ns σ w σ' : 2 <= c < 2 ^ 64 -> watched_as T m c evs ns σ w -> goroutine_step σ σ' ->
  exists w', watched_as T m c evs ns σ' w'.
Proof.
  intros Hc [H1 H2 H3 H4 H5 H6] (w0 & st & Hw & Hstep & ->). rewrite H4 in Hw. injection Hw as <-.
  assert (Hr : watch_reach c evs st) by (rewrite <- (app_nil_r evs); by eapply reach_step).
  destruct (watch_reach_order c evs st Hc Hr) as (l & Hq & _). exists (ws_watcher st).
  split; try done.
  - apply set_watcher_good; [by apply (queue_holds_wf _ l)|done].
  - by destruct st.
Qed.

Lemma call_watched T m c evs ns σ w o x s' : 2 <= c < 2 ^ 64 -> watched_as T m c evs ns σ w ->
  T <= (dop_times o).1 <= (dop_times o).2 -> dop_ok o -> dop_run o (y_store σ) = Ret (x, s') -> x = (dop_spec o m).1 ->
  exists evs' w', watched_as (dop_times o).2 (dop_spec o m).2 c evs' (ns ++ dop_notices o m)
    (MkWatchSys s' (y_sender σ) (y_chan σ) (y_chan_closed σ) (y_received σ)) w'.
Proof.
  intros Hc [H1 H2 H3 H4 H5 H6] HT Hok E Ex.
  destruct (dop_spec_live_eq T o (db_view (y_store σ)) m H2) as [E1 E2]; [lia|lia|].
  assert (Hd : watched (st_db (y_store σ))) by (split; [lia|by eexists]).
  pose proof (dop_noticed T o (y_store σ) x s' H1 Hd E) as Hn.
  destruct (dop_step T o (y_store σ) H1 HT Hok) as [(s1 & Er & Hg & Ho & Hv & _)|(e & s1 & m' & Er & Es & _)].
  - rewrite E in Er. injection Er as Ex1 <-.
    assert (Hes : noticed (dop_notices o m) (st_db (y_store σ)) (st_db s')).
    { rewrite <- (dop_notices_live_eq o (db_view (y_store σ)) m) by (apply (live_eq_mono T); [lia|done]).
      destruct x as [[e|]| | |]; try exact Hn. destruct Hn as [Hn1 Hn2].
      exists []. split; [|by apply same_grows]. clear -Ex1. destruct o; cbn in *; try discriminate Ex1;
        unfold spec_set_expire, live_put, live_put_expiring in *; by destruct (live _ _ !! _) as [[]|]. }
    destruct Hes as (es & Hes & Hopt & Hgrow). destruct (Hgrow w H4) as (w' & Ep & Hw').
    exists (evs ++ es), w'. split; cbn [y_store]; [done| | |done| |].
    + etransitivity; [exact Hv|done].
    + by rewrite Hopt.
    + exact (reach_puts c evs w w' σ es H5 Ep).
    + by rewrite fmap_app, H6, Hes.
  - rewrite E in Er. injection Er as -> _. rewrite E1 in Es. congruence.
Qed.

Lemma times_ok_snoc T ops o : times_ok T (ops ++ [o]) ->
  times_ok T ops /\ times_end T ops <= (dop_times o).1 <= (dop_times o).2 /\ times_end T (ops ++ [o]) = (dop_times o).2.
Proof.
  revert T. induction ops as [|o1 ops IH]; intros T; cbn [app times_ok times_end]; [by intros [H _]|].
  intros [H1 H2]. destruct (IH _ H2) as (H3 & H4 & H5). done.
Qed.

Lemma sys_reach_watched T c s m ops xs σ :
  db_good T s -> live_eq T (db_view s) m -> watching c s -> sys_reach s ops xs σ -> times_ok T ops -> Forall dop_ok ops ->
  xs = (dops_spec ops m).1 ->
  exists evs w, watched_as (times_end T ops) (dops_spec ops m).2 c evs (dops_notices ops m) σ w.
Proof.
  intros Hg Hv (Hc & Hq & Hw) Hr. induction Hr as [|ops xs σ o x s' Hr IH E|ops xs σ σ' Hr IH Hstep]; intros Ht Hok Hxs.
  - exists [], (NewWatcher c). split; try done. apply reach_init.
  - apply Forall_app in Hok as [Hok Ho]. apply Forall_cons in Ho as [Ho _]. destruct (times_ok_snoc T ops o Ht) as (Ht1 & Ht2 & Hend).
    rewrite dops_spec_app in Hxs. destruct (dops_spec ops m) as [xs1 m1] eqn:Es. cbn [dops_spec] in Hxs.
    destruct (dop_spec o m1) as [x1 m2] eqn:Eo. cbn [fst] in Hxs. apply app_inj_2 in Hxs as [-> [= ->]]; [|done].
    destruct (IH Ht1 Hok eq_refl) as (evs & w & Ha). cbn [snd] in Ha.
    destruct (call_watched _ m1 c evs _ σ w o x1 s' Hc Ha Ht2 Ho E) as (evs' & w' & Ha'); [by rewrite Eo|].
    exists evs', w'. rewrite Hend, dops_spec_app, dops_notices_app, Es. cbn [dops_spec dops_notices snd]. rewrite Eo, app_nil_r.
    rewrite Eo in Ha'. exact Ha'.
  - destruct (IH Ht Hok Hxs) as (evs & w & Ha). destruct (goroutine_watched _ _ c evs _ σ w σ' Hc Ha Hstep) as (w' & Ha'). by exists evs, w'.
Qed.

(** The goroutines' steps around a watcher are steps of the system. *)
Lemma goroutine_steps w st σ : db_watcher (st_db (y_store σ)) = Some w -> rtc (watch_step []) (around w σ) st ->
  exists σ', rtc goroutine_step σ σ' /\ y_received σ' = ws_received st.
Proof.
  intros Hw H. remember (around w σ) as st0 eqn:E. revert w σ Hw E. induction H as [st0|st0 st1 st Hs _ IH]; intros w σ Hw ->.
  { exists σ. by split. }
  destruct (IH (ws_watcher st1) (with_watch st1 (y_store σ)) eq_refl) as (σ' & Hr & Hrec); [by destruct st1|].
  exists σ'. split; [|done]. eapply rtc_l; [|exact Hr]. by exists w, st1.
Qed.

(** What the consumer has received while nothing was lost, and what it can still
    receive. *)
Lemma watch_delivers T m c evs ns σ w : 2 <= c < 2 ^ 64 -> watched_as T m c evs ns σ w -> w_done w = false -> len evs <= c - 2 ->
  y_received σ `prefix_of` evs /\ exists σ', rtc goroutine_step σ σ' /\ y_received σ' = evs.
Proof.
  intros Hc [_ _ _ Hw Hreach _] Hd Hlen. destruct (watch_reach_exact c evs _ Hc Hreach Hlen Hd) as (Hcl & l & Hq & Hl).
  destruct (sender_runs c evs _ Hreach Hd) as [_ Hsend]. split.
  - rewrite <- Hl. unfold in_flight. rewrite <- !(assoc_L (++)). by apply prefix_app_r.
  - destruct (drain_all _ l Hq Hd Hcl Hsend) as (w' & Hrtc). rewrite Hl in Hrtc.
    destruct (goroutine_steps w _ σ Hw Hrtc) as (σ' & H1 & H2). by exists σ'.
Qed.

(** C14: A consumer of [DB.Watch] sees the writes.  Calls of the API and the
    goroutine that sends events run in any interleaving, until the database is
    closed or later: the watcher was handed one event for each write that changed
    the map -- the key and its value, or the deletion -- in the order of the calls,
    and none for reads and failures; what the consumer has received is a
    subsequence of those events.  While no more events than the queue holds were
    put and the watcher is not closed it is a prefix of them, and the goroutines
    can go on to deliver every one. *)
Theorem watch_shows_writes T c s m ops xs σ :
  db_good T s -> live_eq T (db_view s) m -> watching c s -> sys_reach s ops xs σ -> times_ok T ops -> Forall dop_ok ops ->
  xs = (dops_spec ops m).1 ->
  exists evs w, event_notice <$> evs = dops_notices ops m /\ sublist (y_received σ) evs /\
    db_watcher (st_db (y_store σ)) = Some w /\
    (w_done w = false -> len evs <= c - 2 ->
       y_received σ `prefix_of` evs /\ exists σ', rtc goroutine_step σ σ' /\ y_received σ' = evs).
Proof.
  intros Hg Hv Hwt Hr Ht Hok Hxs. pose proof Hwt as (Hc & _ & _).
  destruct (sys_reach_watched T c s m ops xs σ Hg Hv Hwt Hr Ht Hok Hxs) as (evs & w & Ha). pose proof Ha as [_ _ _ Hw Hreach Hn].
  exists evs, w. split; [done|]. destruct (watch_reach_order c evs _ Hc Hreach) as (l0 & _ & _ & _ & Hs).
  split; [|split; [done|]].
  - etransitivity; [|exact Hs]. unfold in_flight. rewrite <- !(assoc_L (++)). by apply sublist_inserts_r.
  - intros Hd Hlen. by apply (watch_delivers _ _ c evs _ σ w Hc Ha).
Qed.
End watch_db.

(** ** A run

    A put, a read, a deletion and a put that expires; the consumer has the first
    event. *)
Definition watched_calls : list dop := [DPut 6 7 ($"a") ($"1"); DGet 8 ($"a"); DDelete 9 10 ($"a"); DPutWithTTL 11 12 13 ($"b") ($"2") 50].

Definition watched_calls_notices : list notice :=
  [(WatchActionPut, $"a", $"1"); (WatchActionDelete, $"a", []); (WatchActionPut, $"b", $"2")].

Lemma watched_calls_tell : dops_notices watched_calls ∅ = watched_calls_notices.
Proof. reflexivity. Qed.

Lemma sample_watching db fs : sample_open = Ret (inr db, fs) -> db_options db = sample_options -> watching 8 (MkStore db fs).
Proof.
  intros E Ho. split; [lia|]. split; [cbn; by rewrite Ho|].
  assert (H : match sample_open with Ret (inr db, _) => db_watcher db | _ => None end = Some (NewWatcher 8)) by (vm_compute; reflexivity).
  rewrite E in H. exact H.
Qed.

Lemma calls_reach {W : WalLib} {B : BTreeLib item item_less} {SF : Snowflake} {MH : MemHashLib} (s : Store) ops xs σ ops2 ys s' :
  sys_reach s ops xs σ -> dops_run ops2 (y_store σ) = Ret (ys, s') ->
  sys_reach s (ops ++ ops2) (xs ++ ys) (MkWatchSys s' (y_sender σ) (y_chan σ) (y_chan_closed σ) (y_received σ)).
Proof.
  revert ops xs σ ys. induction ops2 as [|o ops2 IH]; intros ops xs σ ys Hr; cbn [dops_run].
  { intros [= <- <-]. rewrite !app_nil_r. by destruct σ. }
  unfold gbind at 1. destruct (dop_run o (y_store σ)) as [[x s1]| |] eqn:E; [|discriminate..].
  unfold gbind at 1. destruct (dops_run ops2 s1) as [[zs s2]| |] eqn:E2; [|discriminate..]. intros [= <- <-].
  pose proof (IH _ _ _ _ (sr_call s ops xs σ o x s1 Hr E) E2) as H. rewrite <- !(assoc_L (++)) in H. exact H.
Qed.

(** The results, and whether the watcher is open afterwards. *)
Definition watched_run : option (list dres * bool) :=
  match sample_runs watched_calls with
  | Ret (xs, s) => Some (xs, match db_watcher (st_db s) with Some w => negb (w_done w) | None => false end)
  | _ => None
  end.

Lemma watched_run_open : watched_run = Some ((dops_spec watched_calls ∅).1, true).
Proof. vm_compute. reflexivity. Qed.

Lemma watch_shows_writes_witness : exists s σ evs, watching 8 s /\
  sys_reach s watched_calls (dops_spec watched_calls ∅).1 σ /\ event_notice <$> evs = watched_calls_notices /\
  exists σ', rtc goroutine_step σ σ' /\ y_received σ' = evs.
Proof.
  destruct sample_store as (db & fs & E & Hg & Ho & Hv). pose proof (sample_watching db fs E Ho) as Hw.
  pose proof watched_run_open as Hrun. unfold watched_run, sample_runs in Hrun. rewrite E in Hrun.
  destruct (dops_run watched_calls (MkStore db fs)) as [[xs s']| |] eqn:Er; [|discriminate Hrun|discriminate Hrun].
  injection Hrun as Hxs Hopen. pose proof (calls_reach _ [] [] _ _ _ _ (sr_start (MkStore db fs)) Er) as Hr. cbn [app] in Hr.
  destruct (watch_shows_writes 5 8 (MkStore db fs) ∅ watched_calls xs _ Hg Hv Hw Hr) as (evs & w & Hn & _ & Hdb & Hall).
  - vm_compute. intuition discriminate.
  - repeat constructor; done.
  - exact Hxs.
  - rewrite watched_calls_tell in Hn. cbn [y_store] in Hdb. rewrite Hdb in Hopen. apply negb_true_iff in Hopen.
    assert (Hlen : len evs <= 8 - 2).
    { apply (f_equal length) in Hn. rewrite length_fmap in Hn. unfold len. rewrite Hn. cbn. lia. }
    destruct (Hall Hopen Hlen) as (_ & Hex). rewrite Hxs in Hr. exists (MkStore db fs), (MkWatchSys s' Polling [] false []), evs.
    split; [exact Hw|]. split; [exact Hr|]. split; [exact Hn|exact Hex].
Defined.
