(* ===== verification/Transactions.v ===== *)
(** * Batches of many goroutines

    Goroutines start batches on one database and run their operations in any
    interleaving.  [texec] is one step of a schedule, with the goroutines that wait
    inside [NewBatch] and the handing over of the lock to them; [astep] is the same
    step of transactions that are strictly serial: a writer is alone, readers see
    the map that is there until the last of them ends. *)
From S2P Require Import Prelude GoBinary Config GoOs Filepath WalLib WalModel Record BTreeLib Index Watch.
From S2P Require Import Store Batch DB Open View BatchSpec CommitSpec Recovery OpenSpec DBSpec Instances DBProps.
Open Scope Z_scope.

(** ** Schedules *)

(** What a goroutine does next, with the number of its batch. *)
Inductive tcmd : Type :=
| CBegin (i : nat) (o : BatchOptions)
| COp (i : nat) (now now' : Z) (op : bop)
| CCommit (i : nat) (clock now : Z)
| CRollback (i : nat).

Inductive tres : Type :=
| TStarted
| TWaits
| TNone
| TDid (x : bres)
| TEnded (e : option error).

Definition cmd_id (c : tcmd) : nat :=
  match c with CBegin i _ | COp i _ _ _ | CCommit i _ _ | CRollback i => i end.

(** The clock does not go back, and the operations are ones the log can hold. *)
Fixpoint cmds_ok (T : Z) (cmds : list tcmd) : Prop :=
  match cmds with
  | [] => True
  | COp _ now now' op :: cmds => T <= now <= now' /\ bop_ok op /\ cmds_ok now' cmds
  | CCommit _ _ now :: cmds => T <= now /\ cmds_ok now cmds
  | _ :: cmds => cmds_ok T cmds
  end.
Fixpoint cmds_end (T : Z) (cmds : list tcmd) : Z :=
  match cmds with
  | [] => T
  | COp _ _ now' _ :: cmds => cmds_end now' cmds
  | CCommit _ _ now :: cmds => cmds_end now cmds
  | _ :: cmds => cmds_end T cmds
  end.

(** ** Serial transactions *)
Inductive txn : Type :=
| Reader
| Writer (m : vmap).

(** The committed map, the open transactions, the readers that wait, and the writer
    that waits for the open readers. *)
Record Txns : Type := MkTxns {
  tx_map : vmap;
  tx_open : gmap nat txn;
  tx_readers : gset nat;
  tx_writer : option nat;
}.

(** May a transaction start?  A reader also waits behind a writer that waits. *)
Definition compatible (ro : bool) (τ : Txns) : Prop :=
  if ro then map_Forall (fun _ t => t = Reader) (tx_open τ) /\ tx_writer τ = None else tx_open τ = ∅.

Definition started (ro : bool) (m : vmap) : txn := if ro then Reader else Writer m.

(** Numbers in use: open, or waiting. *)
Definition tx_taken (i : nat) (τ : Txns) : Prop :=
  is_Some (tx_open τ !! i) \/ i ∈ tx_readers τ \/ tx_writer τ = Some i.

(** A reader ends; the last one hands over to the writer that waits. *)
Definition reader_ends (i : nat) (τ : Txns) : Txns :=
  let open := delete i (tx_open τ) in
  match tx_writer τ with
  | Some j => if decide (open = ∅) then MkTxns (tx_map τ) {[j := Writer (tx_map τ)]} (tx_readers τ) None
              else MkTxns (tx_map τ) open (tx_readers τ) (Some j)
  | None => MkTxns (tx_map τ) open (tx_readers τ) None
  end.

(** A writer ends and leaves the map [m]; the readers that wait all start. *)
Definition writer_ends (m : vmap) (τ : Txns) : Txns :=
  MkTxns m (gset_to_gmap Reader (tx_readers τ)) ∅ (tx_writer τ).

Inductive astep : tcmd -> Txns -> tres -> Txns -> Prop :=
| as_taken i o τ : tx_taken i τ -> astep (CBegin i o) τ TNone τ
| as_begin i o τ : ~ tx_taken i τ -> compatible (bo_ReadOnly o) τ ->
    astep (CBegin i o) τ TStarted
      (MkTxns (tx_map τ) (<[i := started (bo_ReadOnly o) (tx_map τ)]> (tx_open τ)) (tx_readers τ) (tx_writer τ))
| as_reader_waits i o τ : ~ tx_taken i τ -> bo_ReadOnly o = true -> ~ compatible true τ ->
    astep (CBegin i o) τ TWaits (MkTxns (tx_map τ) (tx_open τ) ({[i]} ∪ tx_readers τ) (tx_writer τ))
| as_writer_waits i o τ : ~ tx_taken i τ -> bo_ReadOnly o = false -> tx_open τ <> ∅ -> compatible true τ ->
    astep (CBegin i o) τ TWaits (MkTxns (tx_map τ) (tx_open τ) (tx_readers τ) (Some i))
| as_writer_queues i o τ : ~ tx_taken i τ -> bo_ReadOnly o = false -> ~ compatible true τ ->
    astep (CBegin i o) τ TWaits τ
| as_absent c τ : (forall i o, c <> CBegin i o) -> tx_open τ !! cmd_id c = None -> astep c τ TNone τ
| as_read i now now' op x τ : tx_open τ !! i = Some Reader -> bop_writes op = false ->
    bspec now now' op (tx_map τ) x (tx_map τ) -> astep (COp i now now' op) τ (TDid x) τ
| as_refuse i now now' op τ : tx_open τ !! i = Some Reader -> bop_writes op = true ->
    astep (COp i now now' op) τ (TDid (bop_error op ErrReadOnlyBatch)) τ
| as_write i now now' op x m mi mi' rs w : bspec now now' op mi x mi' ->
    astep (COp i now now' op) (MkTxns m {[i := Writer mi]} rs w) (TDid x) (MkTxns m {[i := Writer mi']} rs w)
| as_end_reader c τ : tx_open τ !! cmd_id c = Some Reader -> (forall i o, c <> CBegin i o) ->
    (forall i now now' op, c <> COp i now now' op) -> astep c τ (TEnded None) (reader_ends (cmd_id c) τ)
| as_commit i clock now m mi rs w :
    astep (CCommit i clock now) (MkTxns m {[i := Writer mi]} rs w) (TEnded None)
      (writer_ends mi (MkTxns m {[i := Writer mi]} rs w))
| as_rollback i m mi rs w :
    astep (CRollback i) (MkTxns m {[i := Writer mi]} rs w) (TEnded None)
      (writer_ends m (MkTxns m {[i := Writer mi]} rs w)).

Inductive arun : list tcmd -> Txns -> list tres -> Txns -> Prop :=
| ar_nil τ : arun [] τ [] τ
| ar_cons c cmds τ x τ1 xs τ2 : astep c τ x τ1 -> arun cmds τ1 xs τ2 -> arun (c :: cmds) τ (x :: xs) τ2.

Section transactions.
Context {W : WalLib} {WL : WalLaws W} {B : BTreeLib item item_less} {BL : BTreeLaws B}
  {SF : Snowflake} {SL : SnowflakeLaws SF} {MH : MemHashLib}.
Implicit Types (s : Store) (b : Batch).

(** ** The schedule on the database

    The open batches, the batches of the readers that wait inside [NewBatch], and
    that of the writer whose [Lock] is announced. *)
Record Sys : Type := MkSys {
  sy_store : Store;
  sy_batches : gmap nat Batch;
  sy_readers : gmap nat Batch;
  sy_writer : option (nat * Batch);
}.

(** Numbers in use: a goroutine that waits does nothing else. *)
Definition sy_taken (i : nat) (σ : Sys) : bool :=
  bool_decide (is_Some (sy_batches σ !! i)) || bool_decide (is_Some (sy_readers σ !! i)) ||
  bool_decide (fst <$> sy_writer σ = Some i).

(** Those the lock has been handed to are out of [NewBatch]: the writer that waited
    when the lock is held, the readers that waited when it is open to readers. *)
Definition hand_over (σ : Sys) : Sys :=
  let mu := db_mu (st_db (sy_store σ)) in
  if mu_writer mu then
    match sy_writer σ with
    | Some (j, b) => MkSys (sy_store σ) (<[j := b]> (sy_batches σ)) (sy_readers σ) None
    | None => σ
    end
  else if mu_announced mu then σ
  else MkSys (sy_store σ) (sy_readers σ ∪ sy_batches σ) ∅ (sy_writer σ).

(** The step of a goroutine.  A second writer that waits is scheduled again; a
    number stands for one batch at a time. *)
Definition texec (c : tcmd) (σ : Sys) : outcome (tres * Sys) :=
  let s := sy_store σ in let bs := sy_batches σ in
  match c with
  | CBegin i o =>
      if sy_taken i σ then Ret (TNone, σ) else
      match NewBatch o s with
      | Ret (b, s) => Ret (TStarted, MkSys s (<[i := b]> bs) (sy_readers σ) (sy_writer σ))
      | Panic => Panic
      | Blocked =>
          b ← make_batch o;
          if bo_ReadOnly o then
            Ret (TWaits, MkSys (Batch_lock_waits b s) bs (<[i := b]> (sy_readers σ)) (sy_writer σ))
          else if mu_writer (db_mu (st_db s)) || mu_announced (db_mu (st_db s)) then Ret (TWaits, σ)
          else Ret (TWaits, MkSys (Batch_lock_waits b s) bs (sy_readers σ) (Some (i, b)))
      end
  | COp i now now' op =>
      match bs !! i with
      | None => Ret (TNone, σ)
      | Some b =>
          '(x, (b, s)) ← bop_run now now' op (b, s);
          Ret (TDid x, MkSys s (<[i := b]> bs) (sy_readers σ) (sy_writer σ))
      end
  | CCommit i clock now =>
      match bs !! i with
      | None => Ret (TNone, σ)
      | Some b =>
          '(e, (_, s)) ← Batch_Commit clock now (b, s);
          Ret (TEnded e, hand_over (MkSys s (delete i bs) (sy_readers σ) (sy_writer σ)))
      end
  | CRollback i =>
      match bs !! i with
      | None => Ret (TNone, σ)
      | Some b =>
          '(e, (_, s)) ← Batch_Rollback (b, s);
          Ret (TEnded e, hand_over (MkSys s (delete i bs) (sy_readers σ) (sy_writer σ)))
      end
  end.

Fixpoint texec_all (cmds : list tcmd) (σ : Sys) : outcome (list tres * Sys) :=
  match cmds with
  | [] => Ret ([], σ)
  | c :: cmds => '(x, σ) ← texec c σ; '(xs, σ) ← texec_all cmds σ; Ret (x :: xs, σ)
  end.

(** ** What the database and its batches show *)
Definition reader b : Prop :=
  bo_ReadOnly (b_options b) = true /\ b_pendingWrites b = [] /\ batch_inv b /\ b_committed b = false /\ b_rollbacked b = false.

Definition writer b : Prop :=
  bo_ReadOnly (b_options b) = false /\ batch_inv b /\ b_committed b = false /\ b_rollbacked b = false /\ is_Some (b_batchId b).

(** A batch whose goroutine waits inside [NewBatch]. *)
Definition waiting_writer b : Prop := writer b /\ b_pendingWrites b = [].

(** The open batches, the lock, those who wait for it, and the transactions they
    are.  Nobody waits for a lock that is free. *)
Record all_readers (σ : Sys) (τ : Txns) : Prop := {
  ar_batches : map_Forall (fun _ b => reader b) (sy_batches σ);
  ar_open : tx_open τ = (fun _ => Reader) <$> sy_batches σ;
  ar_mu : db_mu (st_db (sy_store σ))
    = MkMutex false (size (sy_batches σ)) (bool_decide (is_Some (sy_writer σ))) (size (sy_readers σ));
  ar_writer : match sy_writer σ with
              | Some (_, b) => waiting_writer b /\ sy_batches σ <> ∅
              | None => sy_readers σ = ∅
              end;
}.

Definition one_writer (T : Z) (σ : Sys) (τ : Txns) : Prop :=
  exists i b mi, sy_batches σ = {[i := b]} /\ tx_open τ = {[i := Writer mi]} /\ sy_writer σ = None /\
    db_mu (st_db (sy_store σ)) = MkMutex true 0 false (size (sy_readers σ)) /\ writer b /\
    live_eq T (batch_view b (sy_store σ)) mi.

Record shows (T : Z) (σ : Sys) (τ : Txns) : Prop := {
  sh_inv : db_inv (sy_store σ);
  sh_pool : pool_ok (sy_store σ);
  sh_open : db_closed (st_db (sy_store σ)) = false;
  sh_disk : on_disk T (sy_store σ);
  sh_view : live_eq T (db_view (sy_store σ)) (tx_map τ);
  sh_readers : tx_readers τ = dom (sy_readers σ);
  sh_writer : tx_writer τ = fst <$> sy_writer σ;
  sh_waiting : map_Forall (fun _ b => reader b) (sy_readers σ);
  sh_batches : all_readers σ τ \/ one_writer T σ τ;
}.

(** ** The lock *)
Definition locked (mu : RWMutex) s : Store := MkStore (set_mu mu (st_db s)) (st_fs s).

Lemma locked_inv mu s : db_inv s -> db_inv (locked mu s).
Proof. intros [H1 H2 H3 H4 H5]. by split. Qed.

Definition new_batch (o : BatchOptions) (node : option sf_node) : Batch := MkBatch [] ∅ o false false node [].

Lemma make_batch_reader o : bo_ReadOnly o = true -> make_batch o = Ret (new_batch o None).
Proof. intros Ho. unfold make_batch. by rewrite Ho. Qed.

Lemma make_batch_writer o : bo_ReadOnly o = false -> exists node, make_batch o = Ret (new_batch o (Some node)).
Proof. intros Ho. destruct sf_NewNode_law as [node Hn]. exists node. unfold make_batch. by rewrite Ho, Hn. Qed.

(** What [NewBatch] does once the batch is made. *)
Lemma NewBatch_locks o b s : make_batch o = Ret b -> b_options b = o ->
  NewBatch o s = match (if bo_ReadOnly o then mu_RLock else mu_Lock) (db_mu (st_db s)) with
                 | Ret mu => Ret (b, locked mu s)
                 | Panic => Panic
                 | Blocked => Blocked
                 end.
Proof.
  intros E Ho. unfold NewBatch. rewrite E. cbn [mbind outcome_bind]. unfold Batch_lock, gbind, b_get, on_db, db_with_mu.
  rewrite Ho. by destruct ((if bo_ReadOnly o then mu_RLock else mu_Lock) _).
Qed.

Lemma new_reader o : bo_ReadOnly o = true -> reader (new_batch o None).
Proof. intros Ho. split_and!; [done|done|apply empty_batch_inv|done|done]. Qed.

Lemma new_writer o node : bo_ReadOnly o = false -> waiting_writer (new_batch o (Some node)).
Proof. intros Ho. split; [|done]. split_and!; [done|apply empty_batch_inv|done|done|done]. Qed.

(** ** Open batches are open transactions *)
Lemma shows_mono T T' σ τ : T <= T' -> shows T σ τ -> shows T' σ τ.
Proof.
  intros HT [H1 H2 H3 H4 H5 H6 H7 H8 H9]. split; try done; [by apply (on_disk_mono T)|by apply (live_eq_mono T)|].
  destruct H9 as [H9|(i & b & mi & A1 & A2 & A3 & A4 & A5 & A6)]; [by left|right]. exists i, b, mi. split_and!; try done; try apply A5.
  by apply (live_eq_mono T).
Qed.

Lemma open_lookup T σ τ i : shows T σ τ -> sy_batches σ !! i = None <-> tx_open τ !! i = None.
Proof.
  intros [_ _ _ _ _ _ _ _ [[_ -> _ _]|(j & b & mi & -> & -> & _)]].
  - by rewrite lookup_fmap, fmap_None.
  - by rewrite !lookup_singleton_None.
Qed.

Lemma taken_iff T σ τ i : shows T σ τ -> sy_taken i σ = true <-> tx_taken i τ.
Proof.
  intros Hs. pose proof (open_lookup T σ τ i Hs) as Ho. destruct Hs as [_ _ _ _ _ Hr Hw _ _].
  unfold sy_taken, tx_taken. rewrite !orb_true_iff, !bool_decide_eq_true, Hr, elem_of_dom, Hw, <- !not_eq_None_Some, Ho. tauto.
Qed.

(** A step that does nothing. *)
Lemma absent_step T σ τ c : shows T σ τ -> (forall i o, c <> CBegin i o) -> sy_batches σ !! cmd_id c = None ->
  texec c σ = Ret (TNone, σ) /\ astep c τ TNone τ.
Proof.
  intros Hs Hc Hn. split; [|apply as_absent; [done|by apply (open_lookup T σ τ)]].
  destruct c as [i o|i now now' op|i clock now|i]; cbn [texec cmd_id] in *; [by destruct (Hc i o)|by rewrite Hn..].
Qed.

(** ** Starting a batch *)

(** What the open batches say of the next one. *)
Lemma readers_compatible σ τ : all_readers σ τ -> compatible true τ <-> tx_writer τ = None.
Proof.
  intros [_ Ho _ _]. cbn [compatible]. split; [by intros [_ ?]|]. intros Hw. split; [|done]. rewrite Ho.
  intros j t (b & <- & _)%lookup_fmap_Some. done.
Qed.

Lemma writer_incompatible T σ τ : one_writer T σ τ -> ~ compatible true τ /\ tx_open τ <> ∅.
Proof.
  intros (i & b & mi & _ & Ho & _). rewrite Ho. split; [|apply map_non_empty_singleton].
  cbn [compatible]. rewrite Ho. intros [Hall _]. by specialize (Hall i (Writer mi) (lookup_singleton_eq _ _)).
Qed.

(** A lock that changes hands changes nothing else. *)
Lemma shows_locked T mu s bs rs w τ bs' rs' w' τ' :
  shows T (MkSys s bs rs w) τ -> tx_map τ' = tx_map τ -> tx_readers τ' = dom rs' -> tx_writer τ' = fst <$> w' ->
  map_Forall (fun _ b => reader b) rs' ->
  all_readers (MkSys (locked mu s) bs' rs' w') τ' \/ one_writer T (MkSys (locked mu s) bs' rs' w') τ' ->
  shows T (MkSys (locked mu s) bs' rs' w') τ'.
Proof.
  intros [H1 H2 H3 H4 H5 _ _ _ _] Em Er Ew Hr Hb. cbn [sy_store] in *. split; try done.
  - by apply locked_inv.
  - cbn [sy_store]. by rewrite Em.
Qed.

Lemma begin_reader_step T i o σ τ : shows T σ τ -> bo_ReadOnly o = true -> ~ tx_taken i τ -> sy_taken i σ = false ->
  exists x σ' τ', texec (CBegin i o) σ = Ret (x, σ') /\ astep (CBegin i o) τ x τ' /\ shows T σ' τ'.
Proof.
  intros Hs Eo Ht Hst. cbn [texec]. rewrite Hst. pose proof (make_batch_reader o Eo) as Em.
  rewrite (NewBatch_locks o _ (sy_store σ) Em eq_refl), Em, Eo. pose proof (new_reader o Eo) as Hnew.
  assert (Hni : sy_batches σ !! i = None /\ sy_readers σ !! i = None).
  { unfold sy_taken in Hst. rewrite !orb_false_iff, !bool_decide_eq_false, <- !eq_None_not_Some in Hst. tauto. }
  destruct Hni as [Hnb Hnr]. destruct σ as [s bs rs w]. cbn [sy_store sy_batches sy_readers sy_writer] in *.
  pose proof Hs as [H1 H2 H3 H4 H5 H6 H7 H8 H9]. cbn [sy_store sy_batches sy_readers sy_writer] in *.
  assert (Hwaits : ~ compatible true τ ->
    (all_readers (MkSys s bs rs w) τ \/ one_writer T (MkSys s bs rs w) τ) ->
    exists σ' τ', Ret (TWaits, MkSys (Batch_lock_waits (new_batch o None) s) bs (<[i := new_batch o None]> rs) w) = Ret (TWaits, σ') /\
      astep (CBegin i o) τ TWaits τ' /\ shows T σ' τ').
  { intros Hc Hb. do 2 eexists. split; [reflexivity|]. split; [by apply as_reader_waits|].
    unfold Batch_lock_waits. cbn [b_options new_batch]. rewrite Eo.
    apply (shows_locked T (mu_RLock_waits (db_mu (st_db s))) s bs rs w τ); try done; cbn [tx_readers tx_writer].
    - by rewrite H6, dom_insert_L.
    - by apply map_Forall_insert_2.
    - destruct Hb as [[B1 B2 B3 B4]|(j & b & mi & A1 & A2 & A3 & A4 & A5 & A6)]; [left|right].
      + split; try done; cbn [sy_store sy_batches sy_readers sy_writer] in *.
        * cbn. rewrite B3. unfold mu_RLock_waits. cbn. by rewrite map_size_insert_None.
        * destruct w as [[j b]|]; [done|]. destruct Hc. apply (readers_compatible (MkSys s bs rs None)); [by split|done].
      + exists j, b, mi. cbn [sy_store sy_batches sy_readers sy_writer] in *. split_and!; try done; try apply A5.
        cbn. rewrite A4. unfold mu_RLock_waits. cbn. by rewrite map_size_insert_None. }
  destruct H9 as [Har|How].
  - pose proof Har as [B1 B2 B3 B4]. cbn [sy_store sy_batches sy_readers sy_writer] in *. rewrite B3.
    destruct w as [[j bw]|].
    + cbn [bool_decide mu_RLock mu_writer mu_announced orb]. rewrite bool_decide_eq_true_2 by by eexists.
      cbn [mu_RLock mu_writer mu_announced orb mbind outcome_bind].
      destruct Hwaits as (σ' & τ' & E & Ha & Hsh); [|by left|].
      { rewrite (readers_compatible _ _ Har), H7. done. }
      exists TWaits, σ', τ'. split; [exact E|done].
    + subst rs. rewrite map_size_empty, bool_decide_eq_false_2 by (by intros [? ?]).
      cbn [mu_RLock mu_writer mu_announced orb mu_readers]. do 3 eexists. split; [reflexivity|].
      split; [apply as_begin; [done|rewrite Eo; by apply (readers_compatible _ _ Har)]|].
      rewrite Eo. apply (shows_locked T (MkRWMutex false (S (size bs))) s bs ∅ None τ); try done. left.
      split; cbn [sy_store sy_batches sy_readers sy_writer tx_open started].
      * by apply map_Forall_insert_2.
      * by rewrite B2, fmap_insert.
      * cbn. by rewrite map_size_insert_None.
      * done.
  - pose proof How as (j & b & mi & A1 & A2 & A3 & A4 & A5 & A6). cbn [sy_store sy_batches sy_readers sy_writer] in *.
    rewrite A4. cbn [mu_RLock mu_writer orb mbind outcome_bind].
    destruct Hwaits as (σ' & τ' & E & Ha & Hsh); [by apply (writer_incompatible T (MkSys s bs rs w))|by right|].
    exists TWaits, σ', τ'. split; [exact E|done].
Qed.

Lemma begin_writer_step T i o σ τ : shows T σ τ -> bo_ReadOnly o = false -> ~ tx_taken i τ -> sy_taken i σ = false ->
  exists x σ' τ', texec (CBegin i o) σ = Ret (x, σ') /\ astep (CBegin i o) τ x τ' /\ shows T σ' τ'.
Proof.
  intros Hs Eo Ht Hst. cbn [texec]. rewrite Hst. destruct (make_batch_writer o Eo) as [node Em].
  rewrite (NewBatch_locks o _ (sy_store σ) Em eq_refl), Em, Eo. pose proof (new_writer o node Eo) as Hnew.
  destruct σ as [s bs rs w]. cbn [sy_store sy_batches sy_readers sy_writer] in *.
  pose proof Hs as [H1 H2 H3 H4 H5 H6 H7 H8 H9]. cbn [sy_store sy_batches sy_readers sy_writer] in *.
  destruct H9 as [Har|How].
  - pose proof Har as [B1 B2 B3 B4]. cbn [sy_store sy_batches sy_readers sy_writer] in *. rewrite B3. destruct w as [[j bw]|].
    + rewrite bool_decide_eq_true_2 by by eexists. cbn [mu_Lock mu_writer mu_announced orb mbind outcome_bind].
      do 3 eexists. split; [reflexivity|]. split; [|exact Hs]. apply as_writer_queues; [done|done|].
      rewrite (readers_compatible _ _ Har), H7. done.
    + subst rs. rewrite map_size_empty, bool_decide_eq_false_2 by (by intros [? ?]).
      cbn [mu_Lock mu_writer mu_announced orb mu_readers mbind outcome_bind]. destruct (decide (bs = ∅)) as [->|Hne].
      * rewrite map_size_empty. cbn [Nat.eqb negb]. do 3 eexists. split; [reflexivity|].
        assert (Eop : tx_open τ = ∅) by (by rewrite B2, fmap_empty).
        split; [apply as_begin; [done|by rewrite Eo]|]. rewrite Eo, Eop.
        apply (shows_locked T (MkRWMutex true 0) s ∅ ∅ None τ); try done. right.
        exists i, (new_batch o (Some node)), (tx_map τ). cbn [sy_store sy_batches sy_readers sy_writer tx_open started].
        split_and!; try done. apply Hnew.
      * destruct (size bs) as [|n] eqn:En; [by apply map_size_empty_inv in En|]. cbn [Nat.eqb negb].
        do 3 eexists. split; [reflexivity|]. split.
        { apply as_writer_waits; [done|done| |by apply (readers_compatible _ _ Har)]. rewrite B2. by intros ?%fmap_empty_inv. }
        unfold Batch_lock_waits. cbn [b_options new_batch]. rewrite Eo.
        apply (shows_locked T (mu_Lock_waits (db_mu (st_db s))) s bs ∅ None τ); try done. left.
        split; cbn [sy_store sy_batches sy_readers sy_writer tx_open]; [done|done| |done].
        cbn. rewrite B3. cbn. by rewrite En.
  - pose proof How as (j & b & mi & A1 & A2 & A3 & A4 & A5 & A6). cbn [sy_store sy_batches sy_readers sy_writer] in *.
    rewrite A4. cbn [mu_Lock mu_writer orb mbind outcome_bind]. do 3 eexists. split; [reflexivity|]. split; [|exact Hs].
    apply as_writer_queues; [done|done|]. by apply (writer_incompatible T (MkSys s bs rs w)).
Qed.

Lemma begin_step T i o σ τ : shows T σ τ ->
  exists x σ' τ', texec (CBegin i o) σ = Ret (x, σ') /\ astep (CBegin i o) τ x τ' /\ shows T σ' τ'.
Proof.
  intros Hs. pose proof (taken_iff T σ τ i Hs) as Ht. destruct (sy_taken i σ) eqn:Est.
  - exists TNone, σ, τ. cbn [texec]. rewrite Est. split; [done|]. split; [by apply as_taken, Ht|done].
  - assert (Hn : ~ tx_taken i τ) by (intros H; by apply Ht in H).
    destruct (bo_ReadOnly o) eqn:Eo; [by apply begin_reader_step|by apply begin_writer_step].
Qed.

(** ** An operation *)
Lemma bspec_reads now now' op m (x : bres) m' : bop_writes op = false -> bspec now now' op m x m' -> m' = m.
Proof. intros Hop H. by destruct H. Qed.

(** A reader reads the database; what has expired may leave the index. *)
Lemma reader_reads now now' op b s : reader b -> db_inv s -> db_closed (st_db s) = false -> bop_ok op -> bop_writes op = false ->
  exists x s', bop_run now now' op (b, s) = Ret (x, (b, s')) /\ bspec now now' op (db_view s) x (db_view s) /\ reads_as now b s s'.
Proof.
  intros (_ & Hnil & Hb & _) Hs Hc Hop Hw.
  assert (Hv : batch_view b s = db_view s) by (unfold batch_view; by rewrite Hnil). rewrite <- Hv.
  destruct op as [| |k| |k| |]; try done; cbn [bop_ok] in Hop; unfold bop_run.
  - destruct (Batch_Get_spec now k b s Hb Hs Hc Hop) as (s' & E & H). gstep. eexists _, s'. split; [done|]. split; [constructor|done].
  - destruct (Batch_Exist_spec now k b s Hb Hs Hc Hop) as (s' & E & H). gstep. eexists _, s'. split; [done|]. split; [constructor|done].
Qed.

Lemma reader_refused now now' op b s : reader b -> db_closed (st_db s) = false -> bop_ok op -> bop_writes op = true ->
  bop_run now now' op (b, s) = Ret (bop_error op ErrReadOnlyBatch, (b, s)).
Proof.
  intros (Hr & _) Hc Hop Hw. apply bop_guard_stops. unfold bop_guard. rewrite Hc, Hw, Hr.
  rewrite decide_False; [done|]. by destruct op; cbn [bop_ok bop_key] in *; try apply Hop.
Qed.

Lemma on_disk_reads T now b s s' : on_disk T s -> T <= now -> reads_as now b s s' -> on_disk now s'.
Proof. intros Hd HT (_ & Hv & f & -> & _). by apply (on_disk_view T now s). Qed.

Lemma op_step T i now now' op σ τ : shows T σ τ -> T <= now <= now' -> bop_ok op ->
  exists x σ' τ', texec (COp i now now' op) σ = Ret (x, σ') /\ astep (COp i now now' op) τ x τ' /\ shows now' σ' τ'.
Proof.
  intros Hs HT Hop. pose proof Hs as Hsh. destruct (sy_batches σ !! i) as [b|] eqn:Eb.
  2: { destruct (absent_step T σ τ (COp i now now' op) Hs ltac:(done) Eb) as [E A]. exists TNone, σ, τ.
       split; [done|]. split; [done|]. apply (shows_mono T); [lia|done]. }
  destruct σ as [s bs rs w], τ as [m open trs tw]. destruct Hs as [H1 H2 H3 H4 H5 H6 H7 H8 H9]. unfold one_writer in H9.
  cbn [sy_store sy_batches sy_readers sy_writer tx_map tx_open tx_readers tx_writer] in *.
  destruct H9 as [[Hr Eop Hmu Hwt]|(j & b' & mi & -> & -> & -> & Hmu & Hw & Hv)];
    cbn [sy_store sy_batches sy_readers sy_writer tx_map tx_open tx_readers tx_writer] in *.
  - subst open. pose proof (Hr i b Eb) as Hb. assert (Eo : ((fun _ => Reader) <$> bs) !! i = Some Reader) by by rewrite lookup_fmap, Eb.
    destruct (bop_writes op) eqn:Ew.
    + eexists _, _, _. cbn [texec sy_batches sy_store]. rewrite Eb, (reader_refused now now' op b s Hb H3 Hop Ew).
      cbn [mbind outcome_bind]. split; [done|]. split; [by apply as_refuse|]. rewrite insert_id by done. apply (shows_mono T); [lia|done].
    + destruct (reader_reads now now' op b s Hb H1 H3 Hop Ew) as (x & s' & E & Hspec & Hreads).
      eexists _, _, _. cbn [texec sy_batches sy_store]. rewrite Eb, E. cbn [mbind outcome_bind]. split; [done|].
      destruct (bspec_live_eq now now' op (db_view s) m x (db_view s)) as (m' & Hspec' & _); [apply (live_eq_mono T); [lia|done]|done|].
      pose proof (bspec_reads _ _ _ _ _ _ Ew Hspec') as ->.
      split; [by apply (as_read i now now' op x)|]. rewrite insert_id by done.
      pose proof (on_disk_reads T now b s s' H4 ltac:(lia) Hreads) as Hd. destruct Hreads as (I1 & I2 & f & -> & _).
      apply (shows_mono now); [lia|]. split; try done; cbn [sy_store sy_batches sy_readers sy_writer tx_map tx_open].
      * etransitivity; [exact I2|]. apply (live_eq_mono T); [lia|done].
      * left. by split.
  - apply lookup_singleton_Some in Eb as [-> ->]. destruct Hw as (Hro & Hb & Hcm & Hrb & Hid).
    destruct (bop_step now now' op b s (conj Hb (conj H1 (conj H3 Hro))) H2 Hop) as (x & b1 & s1 & m1 & E & Hspec & Hsim).
    destruct Hsim as (Hw1 & Hp1 & Hv1 & (S1 & S2 & S3 & S4 & _) & (ix & p & Hq) & Hdb).
    destruct (bspec_live_eq now now' op (batch_view b s) mi x m1) as (mi' & Hspec' & Em); [apply (live_eq_mono T); [lia|done]|done|].
    exists (TDid x), (MkSys s1 {[i := b1]} rs None), (MkTxns m {[i := Writer mi']} trs tw).
    cbn [texec sy_batches sy_store sy_readers sy_writer]. rewrite lookup_singleton_eq, E. cbn [mbind outcome_bind].
    split; [by rewrite insert_singleton_eq|]. split; [by apply as_write|].
    apply (shows_mono now); [lia|]. split; cbn [sy_store sy_batches sy_readers sy_writer tx_map tx_open tx_readers tx_writer];
      [apply Hw1|done|apply Hw1| | |done|done|done|].
    + apply (on_disk_view T now s); try (rewrite Hq; done); [done|lia|done].
    + etransitivity; [exact Hdb|]. apply (live_eq_mono T); [lia|done].
    + right. exists i, b1, mi'. cbn [sy_store sy_batches sy_readers sy_writer tx_open].
      split; [done|]. split; [done|]. split; [done|]. split; [by rewrite Hq|]. split.
      * split_and!; [by rewrite S1|apply Hw1|by rewrite S2|by rewrite S3|by rewrite S4].
      * etransitivity; [exact Hv1|done].
Qed.

(** ** The end of a batch *)

(** A reader has gone: the last one hands the lock to the writer that waits. *)
Lemma reader_gone T s bs rs w τ b i : shows T (MkSys s bs rs w) τ -> all_readers (MkSys s bs rs w) τ -> bs !! i = Some b ->
  exists mu, mu_RUnlock (db_mu (st_db s)) = Ret mu /\
    shows T (hand_over (MkSys (locked mu s) (delete i bs) rs w)) (reader_ends i τ).
Proof.
  intros Hs [Hr Eop Hmu Hwt] Hb. pose proof (map_size_delete_Some i bs (mk_is_Some _ _ Hb)) as Hsz.
  assert (Hpos : size bs <> 0%nat) by (intros E%map_size_empty_inv; by rewrite E, lookup_empty in Hb).
  destruct τ as [m open trs tw]. pose proof Hs as [H1 H2 H3 H4 H5 H6 H7 H8 _].
  cbn [sy_store sy_batches sy_readers sy_writer tx_map tx_open tx_readers tx_writer] in *. subst open tw. rewrite Hmu.
  assert (Hr' : map_Forall (fun _ b => reader b) (delete i bs)) by by apply map_Forall_delete.
  unfold reader_ends, mu_RUnlock, hand_over. cbn [tx_map tx_open tx_readers tx_writer mu_readers mu_writer mu_announced mu_waiting].
  rewrite <- fmap_delete. destruct (size bs) as [|n] eqn:En; [done|]. cbn [Nat.pred] in Hsz. destruct w as [[j bw]|]; cbn [fmap option_fmap option_map].
  - rewrite bool_decide_eq_true_2 by by eexists. destruct n as [|n].
    + apply map_size_empty_inv in Hsz as Hempty. rewrite Hempty, fmap_empty, decide_True by done. eexists. split; [reflexivity|].
      cbn [sy_store sy_batches sy_readers sy_writer locked st_db db_mu set_mu mu_writer orb fst]. destruct Hwt as [[Hww Hnil] _].
      apply (shows_locked T _ s bs rs (Some (j, bw)) (MkTxns m ((fun _ => Reader) <$> bs) trs (Some j))); try done. right.
      exists j, bw, m. cbn [sy_store sy_batches sy_readers sy_writer tx_open]. split_and!; try done; try apply Hww.
      by unfold batch_view; rewrite Hnil.
    + assert (Hne : delete i bs <> ∅) by (intros E; by rewrite E, map_size_empty in Hsz).
      rewrite decide_False by (by intros ?%fmap_empty_inv). eexists. split; [reflexivity|].
      cbn [sy_store sy_batches sy_readers sy_writer locked st_db db_mu set_mu mu_writer mu_announced fst].
      apply (shows_locked T _ s bs rs (Some (j, bw)) (MkTxns m ((fun _ => Reader) <$> bs) trs (Some j))); try done. left.
      split; cbn [sy_store sy_batches sy_readers sy_writer tx_open]; [done|done| |split; [apply Hwt|done]].
      cbn [locked st_db db_mu set_mu]. by rewrite Hsz, bool_decide_eq_true_2 by by eexists.
  - subst rs. rewrite bool_decide_eq_false_2 by (by intros [? ?]).
    exists (MkRWMutex false n). split; [by destruct n|].
    cbn [sy_store sy_batches sy_readers sy_writer locked st_db db_mu set_mu mu_writer mu_announced]. rewrite (left_id_L ∅ (∪)).
    apply (shows_locked T _ s bs ∅ None (MkTxns m ((fun _ => Reader) <$> bs) trs None)); try done. left.
    split; cbn [sy_store sy_batches sy_readers sy_writer tx_open]; [done|done| |done].
    cbn [locked st_db db_mu set_mu]. by rewrite Hsz, map_size_empty, bool_decide_eq_false_2 by (by intros [? ?]).
Qed.

Lemma reader_rollback b s mu : reader b -> db_closed (st_db s) = false -> mu_RUnlock (db_mu (st_db s)) = Ret mu ->
  exists b', Batch_Rollback (b, s) = Ret (None, (b', locked mu s)).
Proof.
  intros (Hro & _ & _ & Hcm & Hrb) Hc Hmu. eexists. unfold Batch_Rollback. apply defer_unlock_eq.
  - gstep. rewrite Hc. gstep. rewrite Hcm, Hrb, Hro. gstep. gstep. done.
  - simpl. by rewrite Hro.
Qed.

(** A writer has gone: the readers that wait all start. *)
Lemma writer_gone T s rs m τ : db_inv s -> pool_ok s -> db_closed (st_db s) = false -> on_disk T s -> live_eq T (db_view s) m ->
  map_Forall (fun _ b => reader b) rs -> tx_readers τ = dom rs -> tx_writer τ = None ->
  db_mu (st_db s) = MkMutex false (size rs) false 0 -> shows T (hand_over (MkSys s ∅ rs None)) (writer_ends m τ).
Proof.
  intros H1 H2 H3 H4 H5 H6 H7 H8 Hmu. unfold hand_over, writer_ends. cbn [sy_store sy_batches sy_readers sy_writer].
  rewrite Hmu. cbn [mu_writer mu_announced]. rewrite (right_id_L ∅ (∪)).
  split; cbn [sy_store sy_batches sy_readers sy_writer tx_map tx_open tx_readers tx_writer]; try done.
  left. split; cbn [sy_store sy_batches sy_readers sy_writer tx_open]; [done| | |done].
  - rewrite H7. by rewrite gset_to_gmap_dom.
  - by rewrite Hmu, map_size_empty.
Qed.

Lemma rollback_step T i σ τ : shows T σ τ ->
  exists x σ' τ', texec (CRollback i) σ = Ret (x, σ') /\ astep (CRollback i) τ x τ' /\ shows T σ' τ'.
Proof.
  intros Hs. pose proof Hs as Hsh. destruct (sy_batches σ !! i) as [b|] eqn:Eb.
  2: { destruct (absent_step T σ τ (CRollback i) Hs ltac:(done) Eb) as [E A]. by exists TNone, σ, τ. }
  destruct σ as [s bs rs w]. destruct Hs as [H1 H2 H3 H4 H5 H6 H7 H8 H9].
  unfold one_writer in H9. cbn [sy_store sy_batches sy_readers sy_writer] in *.
  destruct H9 as [Har|(j & b' & mi & -> & Eop & -> & Hmu & (Hro & Hb & Hcm & Hrb & Hid) & Hv)].
  - pose proof Har as [Hr Eop _ _]. cbn [sy_batches] in *. destruct (reader_gone T s bs rs w τ b i Hsh Har Eb) as (mu & Emu & Hs').
    destruct (reader_rollback b s _ (Hr i b Eb) H3 Emu) as [b' E].
    eexists _, _, _. cbn [texec sy_batches sy_store sy_readers sy_writer]. rewrite Eb, E. cbn [mbind outcome_bind]. split; [done|].
    split; [|exact Hs']. apply (as_end_reader (CRollback i)); [cbn [cmd_id]; by rewrite Eop, lookup_fmap, Eb|done|done].
  - apply lookup_singleton_Some in Eb as [-> ->]. cbn [sy_store sy_readers] in Hmu.
    destruct (Batch_Rollback_writes b s (MkMutex false (size rs) false 0) (conj Hb (conj H1 (conj H3 Hro))) H2
      ltac:(by rewrite Hmu) Hcm Hrb) as (b' & s' & E & K).
    destruct K as (_ & _ & _ & _ & _ & _ & Hmu' & (_ & K2 & K3 & _) & Hi & Hp & Hv' & Hfs & Hdf).
    destruct τ as [m open trs tw]. cbn [tx_open tx_map tx_readers tx_writer] in *. subst open.
    eexists _, _, _. cbn [texec sy_batches sy_store sy_readers sy_writer]. rewrite lookup_singleton_eq, E. cbn [mbind outcome_bind]. split; [done|].
    split; [apply as_rollback|]. rewrite delete_singleton_eq.
    apply writer_gone; [done|done|congruence| |by rewrite Hv'|done..].
    apply (on_disk_view T T s); try done. by rewrite Hv'.
Qed.

(** A write the log refused. *)
Definition commit_refused (c : tcmd) (σ : Sys) : Prop :=
  exists i clock now b e σ', c = CCommit i clock now /\ sy_batches σ !! i = Some b /\
    texec c σ = Ret (TEnded (Some e), σ') /\ refused_as (b_pendingWrites b) e (sy_store σ) (sy_store σ').

Lemma hand_over_store (σ : Sys) : sy_store (hand_over σ) = sy_store σ.
Proof.
  unfold hand_over. destruct (mu_writer _); [by destruct (sy_writer σ) as [[? ?]|]|]. by destruct (mu_announced _).
Qed.

Lemma commit_step T i clock now σ τ : shows T σ τ -> T <= now ->
  (exists x σ' τ', texec (CCommit i clock now) σ = Ret (x, σ') /\ astep (CCommit i clock now) τ x τ' /\ shows now σ' τ') \/
  commit_refused (CCommit i clock now) σ.
Proof.
  intros Hs HT. pose proof (shows_mono T now σ τ HT Hs) as Hsh. destruct (sy_batches σ !! i) as [b|] eqn:Eb.
  2: { destruct (absent_step T σ τ (CCommit i clock now) Hs ltac:(done) Eb) as [E A]. left. by exists TNone, σ, τ. }
  destruct σ as [s bs rs w]. destruct Hs as [H1 H2 H3 H4 H5 H6 H7 H8 H9].
  unfold one_writer in H9. cbn [sy_store sy_batches sy_readers sy_writer] in *.
  destruct H9 as [Har|(j & b' & mi & -> & Eop & -> & Hmu & (Hro & Hb & Hcm & Hrb & Hid) & Hv)].
  - left. pose proof (sh_batches _ _ _ Hsh) as _. pose proof Har as [Hr Eop _ _]. cbn [sy_batches] in *.
    destruct (reader_gone now s bs rs w τ b i Hsh Har Eb) as (mu & Emu & Hs').
    pose proof (Hr i b Eb) as (Hro & _).
    eexists _, _, _. cbn [texec sy_batches sy_store sy_readers sy_writer].
    rewrite Eb, (Batch_Commit_nothing clock now b s mu H3 (or_introl Hro)) by (by rewrite Hro). cbn [mbind outcome_bind]. split; [done|].
    split; [|exact Hs']. apply (as_end_reader (CCommit i clock now)); [cbn [cmd_id]; by rewrite Eop, lookup_fmap, Eb|done|done].
  - apply lookup_singleton_Some in Eb as [-> ->]. cbn [sy_store sy_readers] in Hmu.
    assert (Hul : mu_Unlock (db_mu (st_db s)) = Ret (MkMutex false (size rs) false 0)) by (by rewrite Hmu).
    destruct τ as [m open trs tw]. cbn [tx_open tx_map tx_readers tx_writer] in *. subst open.
    destruct (decide (b_pendingWrites b = [])) as [Hnil|Hne].
    + left. assert (Hbv : batch_view b s = db_view s) by (unfold batch_view; by rewrite Hnil). cbn [sy_store] in Hv. rewrite Hbv in Hv.
      eexists _, _, _. cbn [texec sy_batches sy_store sy_readers sy_writer]. rewrite lookup_singleton_eq,
        (Batch_Commit_nothing clock now b s _ H3 (or_intror Hnil)) by (by rewrite Hro).
      cbn [mbind outcome_bind]. split; [done|]. split; [apply as_commit|]. rewrite delete_singleton_eq.
      apply writer_gone; [by apply locked_inv|done|done|by apply (on_disk_mono T)|by apply (live_eq_mono T)|done..].
    + destruct (Batch_Commit_writes clock now b s _ (conj Hb (conj H1 (conj H3 Hro))) H2 Hul Hne Hcm Hrb Hid)
        as (res & b3 & s3 & E & _ & _ & L3 & L4 & L5).
      destruct res as [e|].
      * right. exists i, clock, now, b, e, (hand_over (MkSys s3 ∅ rs None)). split; [done|].
        cbn [texec sy_batches sy_store sy_readers sy_writer].
        rewrite lookup_singleton_eq, E, hand_over_store. cbn [mbind outcome_bind]. by rewrite delete_singleton_eq.
      * left. eexists _, _, _. cbn [texec sy_batches sy_store sy_readers sy_writer]. rewrite lookup_singleton_eq, E. cbn [mbind outcome_bind].
        split; [done|]. split; [apply as_commit|]. rewrite delete_singleton_eq. pose proof L5 as (_ & C2 & C3 & C4 & _).
        apply writer_gone; [done|done|by destruct L4 as (_ & _ & -> & _)| | |done..].
        -- apply (on_disk_commit T now b s b3 s3); try done. apply L4.
        -- etransitivity; [exact C4|]. by apply (live_eq_mono T).
Qed.

(** ** Schedules *)
Lemma texec_all_app cmds1 cmds2 σ xs σ1 : texec_all cmds1 σ = Ret (xs, σ1) ->
  texec_all (cmds1 ++ cmds2) σ = ('(ys, σ2) ← texec_all cmds2 σ1; Ret (xs ++ ys, σ2)).
Proof.
  revert σ xs. induction cmds1 as [|c cmds1 IH]; intros σ xs; cbn [texec_all app].
  - intros [= <- <-]. by destruct (texec_all cmds2 σ) as [[]| |].
  - destruct (texec c σ) as [[x σ2]| |]; cbn [mbind outcome_bind]; [|done..].
    destruct (texec_all cmds1 σ2) as [[ys σ3]| |] eqn:E; cbn [mbind outcome_bind]; [|done..].
    intros [= <- <-]. rewrite (IH _ _ E). cbn [mbind outcome_bind]. by destruct (texec_all cmds2 σ3) as [[]| |].
Qed.

Lemma step_shows T c cmds σ τ : shows T σ τ -> cmds_ok T (c :: cmds) ->
  (exists x σ' τ' T', texec c σ = Ret (x, σ') /\ astep c τ x τ' /\ shows T' σ' τ' /\ cmds_ok T' cmds /\
     cmds_end T' cmds = cmds_end T (c :: cmds)) \/
  commit_refused c σ.
Proof.
  intros Hs Hok. destruct c as [i o|i now now' op|i clock now|i]; cbn [cmds_ok cmds_end] in *.
  - left. destruct (begin_step T i o σ τ Hs) as (x & σ' & τ' & H). exists x, σ', τ', T. naive_solver.
  - left. destruct Hok as (H1 & H2 & H3). destruct (op_step T i now now' op σ τ Hs H1 H2) as (x & σ' & τ' & H).
    exists x, σ', τ', now'. naive_solver.
  - destruct Hok as [H1 H2]. destruct (commit_step T i clock now σ τ Hs H1) as [(x & σ' & τ' & H)|H]; [left|by right].
    exists x, σ', τ', now. naive_solver.
  - left. destruct (rollback_step T i σ τ Hs) as (x & σ' & τ' & H). exists x, σ', τ', T. naive_solver.
Qed.

Lemma schedule_shows T cmds σ τ : shows T σ τ -> cmds_ok T cmds ->
  (exists xs σ' τ', texec_all cmds σ = Ret (xs, σ') /\ arun cmds τ xs τ' /\ shows (cmds_end T cmds) σ' τ') \/
  (exists cmds1 c cmds2 xs σ' τ', cmds = cmds1 ++ c :: cmds2 /\ texec_all cmds1 σ = Ret (xs, σ') /\ arun cmds1 τ xs τ' /\
     commit_refused c σ').
Proof.
  revert T σ τ. induction cmds as [|c cmds IH]; intros T σ τ Hs Hok.
  { left. exists [], σ, τ. split; [done|]. split; [constructor|done]. }
  destruct (step_shows T c cmds σ τ Hs Hok) as [(x & σ1 & τ1 & T1 & E & Ha & Hs1 & Hok1 & Hend)|Hr].
  2: { right. exists [], c, cmds, [], σ, τ. split; [done|]. split; [done|]. split; [constructor|done]. }
  destruct (IH T1 σ1 τ1 Hs1 Hok1) as [(xs & σ2 & τ2 & E2 & Ha2 & Hs2)|(cmds1 & c2 & cmds2 & xs & σ2 & τ2 & -> & E2 & Ha2 & Hr)].
  - left. exists (x :: xs), σ2, τ2. cbn [texec_all]. rewrite E. cbn [mbind outcome_bind]. rewrite E2. cbn [mbind outcome_bind].
    split; [done|]. split; [by eapply ar_cons|]. by rewrite <- Hend.
  - right. exists (c :: cmds1), c2, cmds2, (x :: xs), σ2, τ2. split; [done|]. cbn [texec_all]. rewrite E. cbn [mbind outcome_bind].
    rewrite E2. cbn [mbind outcome_bind]. split; [done|]. split; [by eapply ar_cons|done].
Qed.

(** No batch is open and none waits. *)
Definition idle s : Sys := MkSys s ∅ ∅ None.
Definition no_txn (m : vmap) : Txns := MkTxns m ∅ ∅ None.

Lemma nothing_open T s : db_good T s -> shows T (idle s) (no_txn (db_view s)).
Proof.
  intros [H1 H2 H3 H4 H5 H6]. split; try done. left.
  split; cbn [sy_store sy_batches sy_readers sy_writer tx_open no_txn idle]; [done|by rewrite fmap_empty|done|done].
Qed.

(** A schedule that ran as [xs] had no refused write unless one of [xs] says so. *)
Lemma ran_not_refused cmds cmds1 c cmds2 σ xs xs1 σ1 σ2 :
  texec_all cmds σ = Ret (xs, σ2) -> cmds = cmds1 ++ c :: cmds2 -> texec_all cmds1 σ = Ret (xs1, σ1) -> commit_refused c σ1 ->
  exists e, TEnded (Some e) ∈ xs.
Proof.
  intros E -> E1 (i & clock & now & b & e & σ' & -> & _ & Ec & _). exists e. rewrite (texec_all_app _ _ _ _ _ E1) in E.
  cbn [texec_all] in E. rewrite Ec in E. cbn [mbind outcome_bind] in E.
  destruct (texec_all cmds2 σ') as [[ys σ3]| |]; cbn [mbind outcome_bind] in E; [|done..]. injection E as <- _.
  apply elem_of_app. right. left.
Qed.

(** C4: Batches of any number of goroutines on one database are serial
    transactions, whatever the schedule.  A batch that may write runs alone: it
    starts on the committed map, sees its own writes, and its commit makes them
    the committed map.  Read-only batches run together and see the committed map
    unchanged until the last of them ends; their writes are refused.  A goroutine
    that starts a batch waits exactly when a writer is open, when it would write
    and readers are open, or when a writer already waits for the open readers: a
    new reader does not overtake it.  The last reader to end hands over to that
    writer, and a writer that ends to every reader that waits; nobody waits for a
    lock that is free, and no operation, commit or rollback of an open batch
    panics or waits.  At every moment the database shows the committed map, and
    its disk stands for it.  The one way to depart is a commit whose chunks the
    log refuses: it reports the log's error and leaves index and map as they
    were. *)
Theorem batches_are_serializable T s cmds : db_good T s -> cmds_ok T cmds ->
  (exists xs σ τ, texec_all cmds (idle s) = Ret (xs, σ) /\ arun cmds (no_txn (db_view s)) xs τ /\ shows (cmds_end T cmds) σ τ) \/
  (exists cmds1 c cmds2 xs σ τ, cmds = cmds1 ++ c :: cmds2 /\ texec_all cmds1 (idle s) = Ret (xs, σ) /\
     arun cmds1 (no_txn (db_view s)) xs τ /\ commit_refused c σ).
Proof. intros Hg. by apply schedule_shows, nothing_open. Qed.
End transactions.

(** ** A schedule

    Two readers; a writer has to wait for them, and a third reader behind it.  The
    writer starts when both are gone; the readers that came meanwhile start when it
    commits, and a second writer after them.  The operations of batches that have
    ended, or that still wait, do nothing. *)
Definition ro_batch : BatchOptions := MkBatchOptions false true.
Definition rw_batch : BatchOptions := MkBatchOptions false false.

Definition sample_schedule : list tcmd :=
  [CBegin 1 ro_batch; CBegin 2 ro_batch; CBegin 3 rw_batch; CBegin 4 ro_batch; COp 1 6 6 (BGet ($"a"));
   COp 2 6 6 (BPut ($"a") ($"1")); CCommit 1 6 6; COp 1 6 6 (BGet ($"a")); COp 3 6 6 (BPut ($"a") ($"1")); CRollback 2;
   COp 3 7 7 (BPut ($"a") ($"1")); CBegin 5 ro_batch; CBegin 6 rw_batch; CCommit 3 7 8; COp 4 9 9 (BGet ($"a"));
   COp 5 9 9 (BGet ($"a")); CCommit 4 9 9; CBegin 6 rw_batch; CRollback 5; COp 6 9 9 (BDelete ($"a"));
   COp 6 9 9 (BGet ($"a")); CRollback 6].

Definition sample_results : list tres :=
  [TStarted; TStarted; TWaits; TWaits; TDid (RGet (inl ErrKeyNotFound));
   TDid (RErr (Some ErrReadOnlyBatch)); TEnded None; TNone; TNone; TEnded None;
   TDid (RErr None); TWaits; TWaits; TEnded None; TDid (RGet (inr ($"1")));
   TDid (RGet (inr ($"1"))); TEnded None; TWaits; TEnded None; TDid (RErr None);
   TDid (RGet (inl ErrKeyNotFound)); TEnded None].

Definition run_sample (cmds : list tcmd) : option (list tres) :=
  match sample_open with
  | Ret (inr db, fs) => match texec_all cmds (idle (MkStore db fs)) with Ret (xs, _) => Some xs | _ => None end
  | _ => None
  end.

Lemma sample_schedule_ran : run_sample sample_schedule = Some sample_results.
Proof. vm_compute. reflexivity. Qed.

(** A goroutine that starts a second read-only batch inside its first one: when a
    writer waits in between, the second batch waits behind the writer and the writer
    for the first batch, which its goroutine cannot end.  Batch 3 is that of the
    goroutine of batch 1: nothing the others try goes on. *)
Example nested_readers_deadlock :
  run_sample [CBegin 1 ro_batch; CBegin 2 rw_batch; CBegin 3 ro_batch; COp 2 6 6 (BGet ($"a")); COp 3 6 6 (BGet ($"a"));
    CBegin 4 ro_batch; CBegin 5 rw_batch] =
  Some [TStarted; TWaits; TWaits; TNone; TNone; TWaits; TWaits].
Proof. vm_compute. reflexivity. Qed.

Lemma sample_schedule_ok : cmds_ok 5 sample_schedule.
Proof. cbn. repeat split; try lia; discriminate. Qed.

Lemma batches_are_serializable_witness : exists s σ τ, db_good 5 s /\
  texec_all sample_schedule (idle s) = Ret (sample_results, σ) /\
  arun sample_schedule (no_txn (db_view s)) sample_results τ /\ shows 9 σ τ.
Proof.
  destruct sample_store as (db & fs & E & Hg & _ & _). exists (MkStore db fs).
  pose proof sample_schedule_ran as Hrun. unfold run_sample in Hrun. rewrite E in Hrun.
  destruct (texec_all sample_schedule (idle (MkStore db fs))) as [[xs σ]| |] eqn:Er; [|discriminate Hrun|discriminate Hrun].
  assert (Hxs : xs = sample_results) by congruence. subst xs.
  destruct (batches_are_serializable 5 (MkStore db fs) sample_schedule Hg sample_schedule_ok)
    as [(xs & σ' & τ & E' & Ha & Hs)|(cmds1 & c & cmds2 & xs & σ' & τ & Hc & E' & _ & Hr)].
  - rewrite Er in E'. injection E' as <- <-. exists σ, τ. split; [exact Hg|]. split; [exact eq_refl|]. split; [exact Ha|exact Hs].
  - destruct (ran_not_refused _ _ _ _ _ _ _ _ _ Er Hc E' Hr) as [e He]. exfalso.
    apply list_elem_of_In in He. cbn in He. intuition discriminate.
Defined.
