(* ===== verification/Traverse.v ===== *)
(** * Traversals of the database

    [DB.Ascend] and the rest of the family visit the live keys in order; the
    key traversals filter them by a pattern. *)
From S2P Require Import Prelude GoBinary Config GoOs WalLib WalModel Record BTreeLib Index Watch.
From S2P Require Import Store Batch DB Open View BatchSpec CommitSpec Recovery OpenSpec DBSpec Instances.
Open Scope Z_scope.

(** What a callback sees of a list: an error or a false stops the traversal. *)
Fixpoint walk {X S : Type} (h : X -> S -> (bool * option error) * S) (l : list X) (st : S) : S :=
  match l with
  | [] => st
  | x :: l =>
      let '((cont, err), st) := h x st in
      match err with Some _ => st | None => if cont then walk h l st else st end
  end.

Definition at_kv {S} (h : kv_fn S) (kv : bytes * bytes) : S -> (bool * option error) * S := h kv.1 kv.2.

(** Move a filter on keys to the index entries. *)
Ltac keys_first H := let E := fresh in pose proof H as E; cbn beta in E; rewrite <- E; clear E.

Section traverse.
Context {W : WalLib} {WL : WalLaws W} {B : BTreeLib item item_less} {BL : BTreeLaws B}
  {SF : Snowflake} {SL : SnowflakeLaws SF} {MH : MemHashLib} {RX : Regexp}.
Implicit Types (s : Store) (k v : bytes) (r : LogRecord).

(** ** The live keys in order *)
Definition live_at (clock : bytes -> Z) s k : option bytes :=
  match db_rec s k with
  | Some r => if IsExpired r (clock k) then None else Some (lr_Value r)
  | None => None
  end.

(** An index entry as the traversal shows it. *)
Definition shown (clock : bytes -> Z) s (e : entry) : option (bytes * bytes) :=
  (fun v => (e.1, v)) <$> live_at clock s e.1.

Definition live_kvs (clock : bytes -> Z) s : list (bytes * bytes) :=
  omap (shown clock s) (mt_entries (db_index (st_db s))).

Lemma live_at_view clock s k v :
  live_at clock s k = Some v <-> exists e, live (clock k) (db_view s) !! k = Some (v, e).
Proof.
  unfold live_at. setoid_rewrite live_lookup. rewrite db_view_lookup.
  destruct (db_rec s k) as [r|]; simpl; [|naive_solver]. rewrite IsExpired_expired.
  destruct (expired _ _); naive_solver.
Qed.

Lemma db_rec_entry s k r : db_rec s k = Some r -> exists op, (k, op) ∈ mt_entries (db_index (st_db s)).
Proof.
  unfold db_rec. destruct (mt_map _ !! k) as [op|] eqn:E; [|done]. intros _. exists op.
  by apply mt_map_entries.
Qed.

Lemma live_kvs_elem clock s k v :
  (k, v) ∈ live_kvs clock s <-> exists e, live (clock k) (db_view s) !! k = Some (v, e).
Proof.
  rewrite <- live_at_view. unfold live_kvs, shown. rewrite list_elem_of_omap. split.
  - intros ([k' op] & _ & H). simpl in H. destruct (live_at clock s k') eqn:E; simplify_eq/=. done.
  - intros H. assert (exists r, db_rec s k = Some r) as [r Hr].
    { unfold live_at in H. destruct (db_rec s k); [eauto|done]. }
    destruct (db_rec_entry s k r Hr) as [op Hin]. exists (k, op). split; [done|]. simpl. by rewrite H.
Qed.

Lemma omap_shown_sorted clock s (es : list entry) :
  StronglySorted (fun a b => bytes_lt a.1 b.1) es ->
  StronglySorted bytes_lt (omap (shown clock s) es).*1.
Proof.
  induction 1 as [|e es _ IH He]; [constructor|]. simpl. unfold shown at 1.
  destruct (live_at clock s e.1); simpl; [|done]. constructor; [done|].
  apply Forall_forall. intros k Hk. apply list_elem_of_fmap in Hk as ([k' v'] & -> & Hin).
  apply list_elem_of_omap in Hin as (e' & Hin & E). unfold shown in E.
  destruct (live_at clock s e'.1); simplify_eq/=. rewrite Forall_forall in He. by apply He.
Qed.

Lemma live_kvs_sorted clock s : StronglySorted bytes_lt (live_kvs clock s).*1.
Proof. apply omap_shown_sorted, mt_entries_sorted. Qed.

(** Filters on keys and the order of visit commute with what is shown. *)
Lemma omap_shown_filter clock s (P : bytes -> Prop) `{!forall k, Decision (P k)} (es : list entry) :
  omap (shown clock s) (filter (fun e => P e.1) es) = filter (fun kv => P kv.1) (omap (shown clock s) es).
Proof.
  induction es as [|e es IH]; [done|]. rewrite filter_cons. simpl.
  unfold shown at 2. destruct (live_at clock s e.1) as [v|] eqn:E; simpl.
  - rewrite filter_cons. simpl. case_decide; [|done]. simpl. unfold shown at 1. rewrite E. simpl. by f_equal.
  - case_decide; [|done]. simpl. unfold shown at 1. by rewrite E.
Qed.

Lemma omap_cons_eq {X Y} (f : X -> option Y) (x : X) (l : list X) :
  omap f (x :: l) = match f x with Some y => y :: omap f l | None => omap f l end.
Proof. done. Qed.

Lemma omap_reverse_list {X Y} (f : X -> option Y) (l : list X) : omap f (reverse l) = reverse (omap f l).
Proof.
  induction l as [|x l IH]; [done|]. rewrite reverse_cons, omap_app, IH. simpl.
  destruct (f x); simpl; [by rewrite reverse_cons|by rewrite app_nil_r].
Qed.

(** ** The callbacks *)
Definition in_index s (es : list entry) : Prop := forall e, e ∈ es -> e ∈ mt_entries (db_index (st_db s)).

Lemma checkValue_spec s e : db_inv s -> e ∈ mt_entries (db_index (st_db s)) ->
  exists p c, e.2 = Some p /\ wal_Read (db_dataFiles (st_db s)) (st_fs s) p = inr c /\
    forall clock, checkValue (clock e.1) c = Ret (live_at clock s e.1).
Proof.
  intros Hi Hin. destruct e as [k op]. apply mt_map_entries in Hin. simpl.
  destruct (di_index s Hi k op Hin) as (p & r & -> & Hc & Hr & Hk & Ht).
  exists p, (record_bytes r). split; [done|]. split; [by apply (wal_Read_law _ _ p _ (di_wal s Hi))|].
  intros clock. unfold checkValue. rewrite decodeLogRecord_spec by apply Hr. simpl.
  unfold live_at, db_rec. rewrite Hin. simpl. rewrite (fetch_log _ _ _ r) by (try apply Hi; try apply Hr; done).
  rewrite normal_not_deleted by done. simpl. by destruct (IsExpired r (clock k)).
Qed.

Lemma visit_value_fn {S} clock onerr (h : kv_fn S) s (es : list entry) (st : S) :
  db_inv s -> in_index s es ->
  visit (value_fn (st_db s) (st_fs s) clock onerr h) es (Ret st)
    = Ret (walk (at_kv h) (omap (shown clock s) es) st).
Proof.
  intros Hi. revert st. induction es as [|e es IH]; intros st Hin; [done|].
  destruct (checkValue_spec s e Hi) as (p & c & Hp & Hc & Hv); [apply Hin; left|].
  assert (Hin' : in_index s es) by (intros x Hx; apply Hin; by right).
  unfold visit in *. cbn [iter_while]. unfold wrap_handle at 1. unfold value_fn at 1.
  change (it_key (item_of e)) with e.1. change (it_pos (item_of e)) with e.2. unfold read_pos. rewrite Hp, Hc, (Hv clock). simpl omap. unfold shown at 1.
  destruct (live_at clock s e.1) as [v|]; cbn [fmap option_fmap option_map]; [|by apply IH].
  cbn [walk]. unfold at_kv at 1. cbn [fst snd]. destruct (h e.1 v st) as [[[] [er|]] st']; try done. by apply IH.
Qed.

(** The keys a key traversal goes through. *)
Definition pattern_ok (reg : option (bytes -> bool)) k : Prop :=
  match reg with Some m => m k = true | None => True end.
#[export] Instance pattern_ok_dec reg k : Decision (pattern_ok reg k).
Proof. unfold pattern_ok. destruct reg; apply _. Defined.

Definition all_keys s : list bytes := (mt_entries (db_index (st_db s))).*1.

Definition key_of (clock : bytes -> Z) s (filterExpired : bool) (e : entry) : option bytes :=
  if filterExpired then fst <$> shown clock s e else Some e.1.

Lemma visit_keys_fn {S} clock reg filterExpired (h : key_fn S) s (es : list entry) (st : S) :
  db_inv s -> in_index s es ->
  visit (keys_fn (st_db s) (st_fs s) clock reg filterExpired h) es (Ret st)
    = Ret (walk h (filter (pattern_ok reg) (omap (key_of clock s filterExpired) es)) st).
Proof.
  intros Hi. revert st. induction es as [|e es IH]; intros st Hin; [done|].
  destruct (checkValue_spec s e Hi) as (p & c & Hp & Hc & Hv); [apply Hin; left|].
  assert (Hin' : in_index s es) by (intros x Hx; apply Hin; by right).
  assert (Hreg : pattern_ok reg e.1 <->
    (match reg with Some m => negb (m e.1) | None => false end) = false).
  { unfold pattern_ok. destruct reg as [m|]; [|done]. by destruct (m e.1). }
  unfold visit in *. cbn [iter_while]. unfold wrap_handle at 1. unfold keys_fn at 1.
  change (it_key (item_of e)) with e.1. change (it_pos (item_of e)) with e.2. unfold read_pos. rewrite Hp, Hc, (Hv clock). simpl omap.
  destruct (decide (pattern_ok reg e.1)) as [Hok|Hno].
  - rewrite (proj1 Hreg Hok). unfold key_of at 1. destruct filterExpired.
    + unfold shown. destruct (live_at clock s e.1) as [v|]; cbn [fmap option_fmap option_map]; [|by apply IH].
      cbn [fst]. rewrite filter_cons_True by done. cbn [walk].
      destruct (h e.1 st) as [[[] [er|]] st']; try done. by apply IH.
    + rewrite filter_cons_True by done. cbn [walk].
      destruct (h e.1 st) as [[[] [er|]] st']; try done. by apply IH.
  - destruct (match reg with Some m => negb (m e.1) | None => false end) eqn:E; [|by destruct Hno; apply Hreg].
    unfold key_of at 1. destruct filterExpired.
    + unfold shown. destruct (live_at clock s e.1) as [v|]; cbn [fmap option_fmap option_map fst]; [|by apply IH].
      rewrite filter_cons_False by done. by apply IH.
    + rewrite filter_cons_False by done. by apply IH.
Qed.

Lemma key_of_filter clock s fe (P : bytes -> Prop) `{!forall k, Decision (P k)} (es : list entry) :
  omap (key_of clock s fe) (filter (fun e => P e.1) es) = filter P (omap (key_of clock s fe) es).
Proof.
  induction es as [|e es IH]; [done|]. rewrite filter_cons. simpl.
  assert (He : forall k, key_of clock s fe e = Some k -> k = e.1).
  { unfold key_of, shown. intros k. destruct fe; [|congruence]. destruct (live_at _ _ _); simpl; congruence. }
  destruct (key_of clock s fe e) as [k|] eqn:E.
  - specialize (He k eq_refl) as ->. rewrite filter_cons. case_decide; [|done]. simpl. rewrite E. by f_equal.
  - case_decide; [|done]. simpl. by rewrite E.
Qed.

(** Taking the read lock and giving it back. *)
Lemma with_rlock_free {A} (m : DbM A) s a :
  db_mu (st_db s) = mu_free ->
  (forall mu, m (MkStore (set_mu mu (st_db s)) (st_fs s)) = Ret (a, MkStore (set_mu mu (st_db s)) (st_fs s))) ->
  with_rlock m s = Ret (a, s).
Proof.
  intros Hmu Hm. unfold with_rlock, gbind, db_with_mu. rewrite Hmu. simpl. rewrite Hm. simpl.
  unfold gret. destruct s as [[] fs]. simpl in Hmu. by rewrite Hmu.
Qed.

Lemma in_index_all s : in_index s (mt_entries (db_index (st_db s))).
Proof. by intros e. Qed.

Lemma in_index_filter (P : entry -> Prop) `{!forall e, Decision (P e)} s es :
  in_index s es -> in_index s (filter P es).
Proof. intros Hin e [_ He]%list_elem_of_filter. by apply Hin. Qed.

Lemma in_index_reverse s : in_index s (reverse (mt_entries (db_index (st_db s)))).
Proof. intros e. by rewrite elem_of_reverse. Qed.

Lemma traverse_visit {S} (go : MemoryBTree -> handle_fn (outcome S) -> outcome S -> outcome S)
    clock onerr (h : kv_fn S) s (es : list entry) (st : S) :
  db_inv s -> db_mu (st_db s) = mu_free -> in_index s es ->
  (forall f o, go (db_index (st_db s)) f o = visit f es o) ->
  traverse go (fun db fs => value_fn db fs clock onerr h) st s
    = Ret (walk (at_kv h) (omap (shown clock s) es) st, s).
Proof.
  intros Hi Hmu Hin Hgo. apply with_rlock_free; [done|]. intros mu. simpl. rewrite Hgo.
  change (value_fn (set_mu mu (st_db s)) (st_fs s) clock onerr h)
    with (value_fn (st_db s) (st_fs s) clock onerr h).
  by rewrite visit_value_fn.
Qed.

(** C17: The six traversals call back on the live keys of the database with
    their values, each once, in the order of the keys or against it, until the
    callback returns false or an error, and change nothing.  Each key is judged
    live by the clock when it is reached.  A range has its first bound and not
    its second. *)
Theorem traversals_visit_live_keys clock s :
  db_inv s -> db_mu (st_db s) = mu_free ->
  exists l : list (bytes * bytes), StronglySorted bytes_lt l.*1 /\
    (forall k v, (k, v) ∈ l <-> exists e, live (clock k) (db_view s) !! k = Some (v, e)) /\
    forall (S : Type) (h : kv_fn S) (st : S) (k k1 k2 : bytes),
      DB_Ascend clock h st s = Ret (walk (at_kv h) l st, s) /\
      DB_AscendRange clock k1 k2 h st s
        = Ret (walk (at_kv h) (filter (fun kv => ~ bytes_lt kv.1 k1 /\ bytes_lt kv.1 k2) l) st, s) /\
      DB_AscendGreaterOrEqual clock k h st s
        = Ret (walk (at_kv h) (filter (fun kv => ~ bytes_lt kv.1 k) l) st, s) /\
      DB_Descend clock h st s = Ret (walk (at_kv h) (reverse l) st, s) /\
      DB_DescendRange clock k1 k2 h st s
        = Ret (walk (at_kv h) (filter (fun kv => ~ bytes_lt k1 kv.1 /\ bytes_lt k2 kv.1) (reverse l)) st, s) /\
      DB_DescendLessOrEqual clock k h st s
        = Ret (walk (at_kv h) (filter (fun kv => ~ bytes_lt k kv.1) (reverse l)) st, s).
Proof.
  intros Hi Hmu. exists (live_kvs clock s). split; [apply live_kvs_sorted|].
  split; [apply live_kvs_elem|]. intros S h st k k1 k2.
  pose proof (in_index_reverse s) as Hrev. pose proof (in_index_all s) as Hall.
  unfold live_kvs. rewrite <- omap_reverse_list. split_and!.
  - apply traverse_visit; [done..|]. intros f o. apply Ascend_visit.
  - keys_first (omap_shown_filter clock s (fun j => ~ bytes_lt j k1 /\ bytes_lt j k2)).
    apply traverse_visit; [done|done|by apply in_index_filter|]. intros f o. apply AscendRange_visit.
  - keys_first (omap_shown_filter clock s (fun j => ~ bytes_lt j k)).
    apply traverse_visit; [done|done|by apply in_index_filter|]. intros f o. apply AscendGreaterOrEqual_visit.
  - apply traverse_visit; [done..|]. intros f o. apply Descend_visit.
  - keys_first (omap_shown_filter clock s (fun j => ~ bytes_lt k1 j /\ bytes_lt k2 j)).
    apply traverse_visit; [done|done|by apply in_index_filter|]. intros f o. apply DescendRange_visit.
  - keys_first (omap_shown_filter clock s (fun j => ~ bytes_lt k j)).
    apply traverse_visit; [done|done|by apply in_index_filter|]. intros f o. apply DescendLessOrEqual_visit.
Qed.

Lemma traverse_keys_visit {S} (go : MemoryBTree -> handle_fn (outcome S) -> outcome S -> outcome S)
    clock pattern reg fe (h : key_fn S) s (es : list entry) (st : S) :
  db_inv s -> db_mu (st_db s) = mu_free -> in_index s es ->
  (forall f o, go (db_index (st_db s)) f o = visit f es o) -> compile_pattern pattern = inr reg ->
  traverse_keys go clock pattern fe h st s
    = Ret ((None, walk h (filter (pattern_ok reg) (omap (key_of clock s fe) es)) st), s).
Proof.
  intros Hi Hmu Hin Hgo Hp. apply with_rlock_free; [done|]. intros mu. rewrite Hp. simpl. rewrite Hgo.
  change (keys_fn (set_mu mu (st_db s)) (st_fs s) clock reg fe h)
    with (keys_fn (st_db s) (st_fs s) clock reg fe h).
  by rewrite visit_keys_fn.
Qed.

Lemma key_of_elem clock s fe k :
  db_inv s ->
  k ∈ omap (key_of clock s fe) (mt_entries (db_index (st_db s))) <->
    is_Some ((if fe then live (clock k) (db_view s) else db_view s : vmap) !! k).
Proof.
  intros Hi. rewrite list_elem_of_omap. destruct fe; unfold key_of.
  - split.
    + intros ([k' op] & Hin & H). destruct (shown clock s (k', op)) as [[k2 v]|] eqn:E; simplify_eq/=.
      unfold shown in E. simpl in E. destruct (live_at clock s k') eqn:El; simplify_eq/=.
      apply live_at_view in El as [e ->]. by eexists.
    + intros [[v e] H]. assert (Hin : (k, v) ∈ live_kvs clock s) by (apply live_kvs_elem; eauto).
      apply list_elem_of_omap in Hin as (e' & Hin & E). exists e'. split; [done|]. by rewrite E.
  - split.
    + intros ([k' op] & Hin & [= ->]). apply mt_map_entries in Hin. rewrite db_view_lookup.
      destruct (di_index s Hi k op Hin) as (p & r & -> & Hc & Hr & Hk & Ht).
      unfold db_rec. rewrite Hin. simpl. rewrite (fetch_log _ _ _ r); [by eexists|apply Hi|done|apply Hr].
    + intros H. rewrite db_view_lookup in H. destruct (db_rec s k) as [r|] eqn:E; [|by destruct H].
      destruct (db_rec_entry s k r E) as [op Hin]. by exists (k, op).
Qed.

Lemma key_of_sorted clock s fe :
  StronglySorted bytes_lt (omap (key_of clock s fe) (mt_entries (db_index (st_db s)))).
Proof.
  pose proof (mt_entries_sorted (db_index (st_db s))) as H. induction H as [|e es _ IH He]; [constructor|].
  simpl. destruct (key_of clock s fe e) as [k|] eqn:E; [|done]. constructor; [done|].
  assert (Hk : forall e k, key_of clock s fe e = Some k -> k = e.1).
  { unfold key_of, shown. intros e' k'. destruct fe; [|congruence]. destruct (live_at _ _ _); simpl; congruence. }
  rewrite (Hk e k E). apply Forall_forall. intros k' Hin. apply list_elem_of_omap in Hin as (e' & Hin & E').
  rewrite (Hk e' k' E'). rewrite Forall_forall in He. by apply He.
Qed.

(** C18: The four key traversals call back, in order, on the keys that match the
    pattern, every key when the pattern is empty: the live ones when expired
    keys are filtered, and otherwise all that the index still has.  A pattern
    that does not compile is reported before any callback. *)
Theorem key_traversals clock (fe : bool) pattern s :
  db_inv s -> db_mu (st_db s) = mu_free ->
  exists l : list bytes, StronglySorted bytes_lt l /\
    (forall k, k ∈ l <-> is_Some ((if fe then live (clock k) (db_view s) else db_view s : vmap) !! k)) /\
    forall (S : Type) (h : key_fn S) (st : S) (k1 k2 : bytes),
      let result (l : list bytes) := match compile_pattern pattern with
        | inl err => (Some err, st)
        | inr reg => (None, walk h (filter (pattern_ok reg) l) st)
        end in
      DB_AscendKeys clock pattern fe h st s = Ret (result l, s) /\
      DB_AscendKeysRange clock k1 k2 pattern fe h st s
        = Ret (result (filter (fun k => ~ bytes_lt k k1 /\ bytes_lt k k2) l), s) /\
      DB_DescendKeys clock pattern fe h st s = Ret (result (reverse l), s) /\
      DB_DescendKeysRange clock k1 k2 pattern fe h st s
        = Ret (result (filter (fun k => ~ bytes_lt k1 k /\ bytes_lt k2 k) (reverse l)), s).
Proof.
  intros Hi Hmu. exists (omap (key_of clock s fe) (mt_entries (db_index (st_db s)))).
  split; [apply key_of_sorted|]. split; [by intros k; apply key_of_elem|].
  intros S h st k1 k2 result. unfold result.
  destruct (compile_pattern pattern) as [err|reg] eqn:Ep.
  { unfold DB_AscendKeys, DB_AscendKeysRange, DB_DescendKeys, DB_DescendKeysRange, traverse_keys. rewrite Ep.
    split_and!; (apply with_rlock_free; [done|]); done. }
  rewrite <- !omap_reverse_list.
  pose proof (in_index_reverse s) as Hrev. pose proof (in_index_all s) as Hall. split_and!.
  - apply traverse_keys_visit; [done..| |done]. intros f o. apply Ascend_visit.
  - keys_first (key_of_filter clock s fe (fun j => ~ bytes_lt j k1 /\ bytes_lt j k2)).
    apply traverse_keys_visit; [done|done|by apply in_index_filter| |done]. intros f o. apply AscendRange_visit.
  - apply traverse_keys_visit; [done..| |done]. intros f o. apply Descend_visit.
  - keys_first (key_of_filter clock s fe (fun j => ~ bytes_lt k1 j /\ bytes_lt k2 j)).
    apply traverse_keys_visit; [done|done|by apply in_index_filter| |done]. intros f o. apply DescendRange_visit.
Qed.
End traverse.

(** ** Witnesses *)
Definition collect {X : Type} (x : X) (acc : list X) : (bool * option error) * list X :=
  ((true, None), acc ++ [x]).

Lemma traversals_visit_live_keys_witness : exists (s : Store) (l : list (bytes * bytes)),
  (forall k v, (k, v) ∈ l <-> exists e, live 20 (<[$"b" := ($"2", 13)]> (<[$"a" := ($"1", 0)]> ∅)) !! k = Some (v, e)) /\
  DB_Ascend (fun _ => 20) (fun k v => collect (k, v)) [] s
    = Ret (walk (at_kv (fun k v => collect (k, v))) l [], s).
Proof.
  destruct (sample_two_keys ($"a") ($"b") (or_introl (conj eq_refl eq_refl))) as (s & G & V & _ & _).
  destruct (traversals_visit_live_keys (fun _ => 20) s) as (l & _ & Hl & Hrun); [apply G|apply G|].
  exists s, l. split; [|exact (proj1 (Hrun _ _ [] [] [] []))].
  intros k v. rewrite (Hl k v). apply (live_eq_mono 10 20) in V; [|lia]. by rewrite V.
Defined.

(** Patterns that are a prefix; a star does not compile. *)
#[local] Instance PrefixRegexp : Regexp := {
  regexp_Compile p := if decide (p = $"*") then inl (ErrNew ($"error parsing regexp"))
                      else inr (fun k => bool_decide (take (length p) k = p));
}.

Lemma key_traversals_witness : exists (s : Store) (l : list bytes),
  (forall k, k ∈ l <-> is_Some ((db_view s : vmap) !! k)) /\
  DB_AscendKeys (fun _ => 20) ($"a") false collect [] s
    = Ret ((None, walk collect (filter (pattern_ok (Some (fun k => bool_decide (take 1 k = $"a")))) l) []), s) /\
  DB_AscendKeys (fun _ => 20) ($"*") false collect [] s
    = Ret ((Some (ErrNew ($"error parsing regexp")), []), s).
Proof.
  destruct (sample_two_keys ($"a") ($"b") (or_introl (conj eq_refl eq_refl))) as (s & G & _ & _ & _).
  destruct (key_traversals (fun _ => 20) false ($"a") s) as (l & _ & Hl & Hrun); [apply G|apply G|].
  destruct (key_traversals (fun _ => 20) false ($"*") s) as (l' & _ & _ & Hrun'); [apply G|apply G|].
  exists s, l. split; [exact Hl|]. split.
  - exact (proj1 (Hrun _ collect [] [] [])).
  - exact (proj1 (Hrun' _ collect [] [] [])).
Defined.
