(* ===== verification/Expire.v ===== *)
(** * [DeleteExpiredKeys]

    The goroutine of [DB.DeleteExpiredKeys] walks the index from a cursor, a
    hundred keys at a time, under the database's lock.  Each round starts at the
    cursor included, so the walk ends only when the last key it reaches has
    expired. *)
From S2P Require Import Prelude GoBinary Config GoOs WalLib WalModel Record BTreeLib Index Watch.
From S2P Require Import Store Batch DB Open View BatchSpec CommitSpec Recovery OpenSpec DBSpec Instances.
Open Scope Z_scope.

Section expire.
Context {W : WalLib} {WL : WalLaws W} {B : BTreeLib item item_less} {BL : BTreeLaws B}
  {SF : Snowflake} {SL : SnowflakeLaws SF} {MH : MemHashLib}.
Implicit Types (s : Store) (k : bytes).

(** The record of an index entry has expired. *)
Definition entry_expired (now : Z) s (op : option ChunkPosition) : bool :=
  match op ≫= fetch (db_dataFiles (st_db s)) (st_fs s) with
  | Some r => IsExpired r now
  | None => false
  end.

(** The index after the loop over some positions. *)
Definition drop_entry (now : Z) s (m : gmap bytes (option ChunkPosition)) (e : entry) :
    gmap bytes (option ChunkPosition) :=
  if entry_expired now s e.2 then delete e.1 m else m.

Lemma drop_entries_sub now s es m k op :
  fold_left (drop_entry now s) es m !! k = Some op -> m !! k = Some op.
Proof.
  revert m. induction es as [|e es IH]; intros m; [done|]. simpl. intros H%IH. unfold drop_entry in H.
  destruct (entry_expired now s e.2); [|done]. by apply lookup_delete_Some in H as [_ H].
Qed.

Lemma drop_entries_keep now s es m k op :
  m !! k = Some op -> (forall e, e ∈ es -> e.1 = k -> entry_expired now s e.2 = false) ->
  fold_left (drop_entry now s) es m !! k = Some op.
Proof.
  revert m. induction es as [|e es IH]; intros m Hm He; [done|]. simpl. apply IH.
  - unfold drop_entry. destruct (entry_expired now s e.2) eqn:E; [|done].
    rewrite lookup_delete_ne; [done|]. intros Hk. rewrite (He e) in E; [done|left|done].
  - intros e' Hin. apply He. by right.
Qed.

Lemma drop_entries_gone now s es m e :
  e ∈ es -> entry_expired now s e.2 = true -> fold_left (drop_entry now s) es m !! e.1 = None.
Proof.
  revert m. induction es as [|e' es IH]; intros m Hin He; [by apply not_elem_of_nil in Hin|].
  apply elem_of_cons in Hin as [<-|Hin]; simpl; [|by apply IH].
  destruct (fold_left _ es _ !! e.1) as [op|] eqn:E; [|done]. apply drop_entries_sub in E.
  unfold drop_entry in E. by rewrite He, lookup_delete_eq in E.
Qed.

Definition with_cursor (i : MemoryBTree) (c : bytes) s : Store :=
  MkStore (set_expiredCursorKey c (set_index i (st_db s))) (st_fs s).

Lemma with_cursor_inv i c s :
  db_inv s -> (forall k op, mt_map i !! k = Some op -> mt_map (db_index (st_db s)) !! k = Some op) ->
  db_inv (with_cursor i c s).
Proof. intros [H1 H2 H3 H4 H5] Hs. split; try done. intros k op Hk. apply H3. by apply Hs. Qed.

(** The loop over the positions of some entries. *)
Lemma expire_positions_spec now (es : list entry) s :
  db_inv s -> Forall (fun e => entry_ok (wal_log (db_dataFiles (st_db s)) (st_fs s)) e.1 e.2) es ->
  exists i, expire_positions now es.*2 s
      = Ret (None, with_cursor i (default (db_expiredCursorKey (st_db s)) (last es.*1)) s) /\
    mt_map i = fold_left (drop_entry now s) es (mt_map (db_index (st_db s))).
Proof.
  revert s. induction es as [|e es IH]; intros s Hi Hes.
  { exists (db_index (st_db s)). split; [|done]. simpl. unfold gret, with_cursor. by destruct s as [[] ?]. }
  apply Forall_cons in Hes as [(p & r & Hp & Hin & Hr & Hk & Ht) Hes].
  rewrite !fmap_cons. cbn [expire_positions]. unfold read_pos. rewrite Hp. cbn [mbind outcome_bind].
  rewrite (wal_Read_law _ _ p _ (di_wal s Hi) Hin). rewrite decodeLogRecord_spec by apply Hr.
  cbn [mbind outcome_bind]. rewrite Hk.
  assert (Hexp : entry_expired now s e.2 = IsExpired r now).
  { unfold entry_expired. rewrite Hp. simpl. by rewrite (fetch_log _ _ _ r) by (try apply Hi; try apply Hr; done). }
  set (i1 := if IsExpired r now then (MemoryBTree_Delete (db_index (st_db s)) e.1).2 else db_index (st_db s)).
  assert (E1 : mt_map i1 = drop_entry now s (mt_map (db_index (st_db s))) e).
  { unfold i1, drop_entry. rewrite Hexp. destruct (IsExpired r now); [|done]. apply MemoryBTree_Delete_map. }
  assert (Hs1 : db_inv (with_cursor i1 e.1 s)).
  { apply with_cursor_inv; [done|]. intros k op. rewrite E1. unfold drop_entry.
    destruct (entry_expired _ _ _); [|done]. by intros [_ H]%lookup_delete_Some. }
  destruct (IH (with_cursor i1 e.1 s) Hs1 Hes) as (i & E & Em). exists i. split.
  - transitivity (expire_positions now es.*2 (with_cursor i1 e.1 s)).
    { unfold i1, db_modify. destruct (IsExpired r now); [done|]. cbn [mbind outcome_bind].
      f_equal. }
    rewrite E. do 2 f_equal. unfold with_cursor. cbn [st_db st_fs db_expiredCursorKey].
    rewrite last_cons. by destruct (last es.*1).
  - rewrite Em. simpl. by rewrite E1.
Qed.

(** The entries a round selects. *)
Definition from_cursor s : list entry :=
  filter (fun e => ~ bytes_lt e.1 (db_expiredCursorKey (st_db s))) (mt_entries (db_index (st_db s))).

Lemma visit_select (l : list entry) acc :
  (length acc < 100)%nat -> visit select_fn l acc = acc ++ take (100 - length acc) l.*2.
Proof.
  revert acc. induction l as [|e l IH]; intros acc Hacc;
    [by rewrite fmap_nil, take_nil, app_nil_r|].
  unfold visit in *. cbn [iter_while]. unfold wrap_handle at 1, select_fn at 1.
  change (it_pos (item_of e)) with e.2. cbv zeta. rewrite fmap_cons.
  replace (100 - length acc)%nat with (S (100 - length (acc ++ [e.2]))) by (rewrite length_app; simpl; lia).
  cbn [take]. destruct (decide (length acc = 99)%nat) as [Hl|Hl].
  - rewrite (proj2 (Z.leb_le 100 (len (acc ++ [e.2])))) by (unfold len; rewrite length_app; simpl; lia).
    simpl. replace (100 - _)%nat with 0%nat by (rewrite length_app; simpl; lia). by rewrite take_0.
  - rewrite (proj2 (Z.leb_gt 100 (len (acc ++ [e.2])))) by (unfold len; rewrite length_app; simpl; lia).
    simpl. rewrite IH by (rewrite length_app; simpl; lia). by rewrite <- (assoc_L (++)).
Qed.

Lemma select_round s :
  MemoryBTree_AscendGreaterOrEqual (db_index (st_db s)) (db_expiredCursorKey (st_db s)) select_fn []
    = (take 100 (from_cursor s)).*2.
Proof. rewrite AscendGreaterOrEqual_visit, visit_select by (simpl; lia). simpl. by rewrite fmap_take. Qed.

Lemma from_cursor_elem s k op :
  (k, op) ∈ from_cursor s <->
    ~ bytes_lt k (db_expiredCursorKey (st_db s)) /\ mt_map (db_index (st_db s)) !! k = Some op.
Proof. unfold from_cursor. rewrite list_elem_of_filter, mt_map_entries. done. Qed.

Lemma from_cursor_sorted s : StronglySorted (fun a b : entry => bytes_lt a.1 b.1) (from_cursor s).
Proof.
  unfold from_cursor. pose proof (mt_entries_sorted (db_index (st_db s))) as H.
  induction H as [|e es _ IH He]; [constructor|]. rewrite filter_cons. case_decide; [|done].
  constructor; [done|]. rewrite Forall_forall in *. intros x [_ Hx]%list_elem_of_filter. auto.
Qed.

(** One round that has something to do. *)
Lemma expire_round now s :
  db_inv s -> from_cursor s <> [] ->
  exists i c, let es := take 100 (from_cursor s) in
    expire_positions now
      (MemoryBTree_AscendGreaterOrEqual (db_index (st_db s)) (db_expiredCursorKey (st_db s)) select_fn []) s
      = Ret (None, with_cursor i c s) /\
    last es.*1 = Some c /\ mt_map i = fold_left (drop_entry now s) es (mt_map (db_index (st_db s))) /\
    db_inv (with_cursor i c s).
Proof.
  intros Hi Hne. rewrite select_round.
  destruct (expire_positions_spec now (take 100 (from_cursor s)) s Hi) as (i & E & Em).
  { apply Forall_take, Forall_forall. intros [k op] [_ Hin]%from_cursor_elem. by apply Hi. }
  destruct (last (take 100 (from_cursor s)).*1) as [c|] eqn:El.
  2: { apply last_None in El. by destruct (from_cursor s). }
  exists i, c. split_and!; try done. apply with_cursor_inv; [done|]. intros k op. rewrite Em.
  apply drop_entries_sub.
Qed.

(** The last of a sorted list is its greatest. *)
Lemma sorted_last (es : list entry) c e :
  StronglySorted (fun a b : entry => bytes_lt a.1 b.1) es -> last es.*1 = Some c -> e ∈ es -> ~ bytes_lt c e.1.
Proof.
  intros Hs Hl Hin. destruct (exists_last (l := es)) as (l & x & ->); [by intros ->|].
  rewrite fmap_app in Hl. change ([x].*1) with [x.1] in Hl. rewrite last_snoc in Hl. injection Hl as <-.
  apply StronglySorted_app in Hs as (Hs & _ & _).
  apply elem_of_app in Hin as [Hin|Hin].
  - intros Hlt. apply (bytes_lt_irrefl x.1). eapply bytes_lt_trans; [exact Hlt|].
    apply Hs; [done|]. by left.
  - apply list_elem_of_singleton in Hin as ->. apply bytes_lt_irrefl.
Qed.

(** ** The loop *)
Definition key_expired (now : Z) s k : Prop :=
  exists op, mt_map (db_index (st_db s)) !! k = Some op /\ entry_expired now s op = true.
Definition key_live (now : Z) s k : Prop :=
  exists op, mt_map (db_index (st_db s)) !! k = Some op /\ entry_expired now s op = false.

(** What a round leaves. *)
Record round_leaves (now : Z) s (c : bytes) s' : Prop := {
  rl_inv : db_inv s';
  rl_frame : exists i, s' = with_cursor i c s;
  rl_cursor : ~ bytes_lt c (db_expiredCursorKey (st_db s));
  rl_sub : forall k op, mt_map (db_index (st_db s')) !! k = Some op -> mt_map (db_index (st_db s)) !! k = Some op;
  rl_live : forall k, key_live now s k -> key_live now s' k;
  rl_ahead : forall k, bytes_lt c k -> key_expired now s k -> key_expired now s' k;
  rl_behind : forall k, ~ bytes_lt k (db_expiredCursorKey (st_db s)) -> ~ bytes_lt c k -> ~ key_expired now s' k;
  rl_index : exists op, mt_map (db_index (st_db s)) !! c = Some op;
  (** the cursor is on the last key, or it has moved on *)
  rl_last : (forall k op, mt_map (db_index (st_db s)) !! k = Some op -> ~ bytes_lt c k) \/
    exists f op, mt_map (db_index (st_db s)) !! f = Some op /\
      ~ bytes_lt f (db_expiredCursorKey (st_db s)) /\ bytes_lt f c;
}.

Lemma elem_take_in {A} (l : list A) n x : x ∈ take n l -> x ∈ l.
Proof. intros (i & Hi & _)%elem_of_take. by eapply list_elem_of_lookup_2. Qed.

Lemma sorted_take (R : entry -> entry -> Prop) l n : StronglySorted R l -> StronglySorted R (take n l).
Proof. rewrite <- (take_drop n l) at 1. by intros (_ & H & _)%StronglySorted_app. Qed.

Lemma take_elem_before (es : list entry) n e c :
  StronglySorted (fun a b : entry => bytes_lt a.1 b.1) es -> last (take n es).*1 = Some c ->
  e ∈ es -> ~ bytes_lt c e.1 -> e ∈ take n es.
Proof.
  intros Hs Hl Hin Hle. rewrite <- (take_drop n es) in Hs, Hin.
  apply elem_of_app in Hin as [?|Hin]; [done|]. destruct Hle.
  assert (exists x, x ∈ take n es /\ x.1 = c) as (x & Hx & <-).
  { apply last_Some_elem_of, list_elem_of_fmap in Hl as (x & -> & Hx). by exists x. }
  apply StronglySorted_app in Hs as (Hs & _ & _). by apply Hs.
Qed.

Lemma expire_round_leaves now s :
  db_inv s -> from_cursor s <> [] ->
  exists c s', expire_positions now
      (MemoryBTree_AscendGreaterOrEqual (db_index (st_db s)) (db_expiredCursorKey (st_db s)) select_fn []) s
      = Ret (None, s') /\ round_leaves now s c s'.
Proof.
  intros Hi Hne. destruct (expire_round now s Hi Hne) as (i & c & E & Hl & Em & Hi').
  exists c, (with_cursor i c s). split; [done|].
  pose proof (from_cursor_sorted s) as Hsort.
  assert (Hc : exists op, (c, op) ∈ take 100 (from_cursor s)).
  { apply last_Some_elem_of, list_elem_of_fmap in Hl as ([c' op] & -> & Hx). by exists op. }
  destruct Hc as [opc Hc]. pose proof (elem_take_in _ _ _ Hc) as Hc'. apply from_cursor_elem in Hc' as [Hc1 Hc2].
  split; [done|by exists i|done| | | | | |].
  - simpl. rewrite Em. intros k op. apply drop_entries_sub.
  - intros k (op & Hk & He). exists op. split; [|done]. simpl. rewrite Em. apply drop_entries_keep; [done|].
    intros [k' op'] Hin <-. apply elem_take_in, from_cursor_elem in Hin as [_ Hin]. simpl in *. congruence.
  - intros k Hck (op & Hk & He). exists op. split; [|done]. simpl. rewrite Em. apply drop_entries_keep; [done|].
    intros e Hin <-. exfalso.
    apply (sorted_last (take 100 (from_cursor s)) c e); [|done|done|done].
    by apply sorted_take.
  - intros k Hk Hck (op & Hin & He). simpl in Hin. rewrite Em in Hin.
    assert (Hin' : (k, op) ∈ take 100 (from_cursor s)).
    { apply (take_elem_before _ 100 (k, op) c); try done. apply from_cursor_elem. split; [done|].
      by apply drop_entries_sub in Hin. }
    pose proof (drop_entries_gone now s _ (mt_map (db_index (st_db s))) _ Hin' He) as Hg.
    change ((k, op).1) with k in Hg. congruence.
  - by exists opc.
  - (* one entry alone is the last; with more the first one is behind *)
    destruct (from_cursor s) as [|[f opf] [|x l]] eqn:Ef; [done| |].
    { left. intros k op Hk Hck. injection Hl as <-.
      assert (Hkin : (k, op) ∈ from_cursor s).
      { apply from_cursor_elem. split; [|done]. intros Hlt. apply Hc1. by eapply bytes_lt_trans. }
      rewrite Ef in Hkin. apply list_elem_of_singleton in Hkin as [= -> ->]. by apply bytes_lt_irrefl in Hck. }
    right. exists f, opf. assert (Hf : (f, opf) ∈ from_cursor s) by (rewrite Ef; left).
    apply from_cursor_elem in Hf as [Hf1 Hf2].
    assert (Hfc : bytes_lt f c).
    { apply StronglySorted_inv in Hsort as [_ Hall]. rewrite Forall_forall in Hall.
      change (take 100 ((f, opf) :: x :: l)) with ((f, opf) :: x :: take 98 l) in Hl, Hc.
      assert (Hcin : exists y, y ∈ x :: take 98 l /\ y.1 = c).
      { rewrite !fmap_cons in Hl. rewrite last_cons_cons in Hl. rewrite <- fmap_cons in Hl.
        apply last_Some_elem_of, list_elem_of_fmap in Hl as (y & -> & Hy). by exists y. }
      destruct Hcin as (y & Hy & <-). apply (Hall y). apply elem_of_cons in Hy as [->|Hy]; [left|].
      right. by eapply elem_take_in. }
    done.
Qed.

(** ** What the index shows *)
Lemma entry_expired_rec now s k op :
  db_inv s -> mt_map (db_index (st_db s)) !! k = Some op ->
  exists r, db_rec s k = Some r /\ entry_expired now s op = IsExpired r now.
Proof.
  intros Hi Hk. destruct (di_index s Hi k op Hk) as (p & r & -> & Hc & Hr & _).
  exists r. unfold db_rec, entry_expired. rewrite Hk. simpl.
  by rewrite (fetch_log _ _ _ r) by (try apply Hi; try apply Hr; done).
Qed.

Lemma db_view_index s k : db_inv s -> is_Some (db_view s !! k) <-> is_Some (mt_map (db_index (st_db s)) !! k).
Proof.
  intros Hi. rewrite db_view_lookup. split.
  - intros [x H]. unfold db_rec in H. destruct (mt_map _ !! k); [by eexists|done].
  - intros [op H]. destruct (entry_expired_rec 0 s k op Hi H) as (r & -> & _). by eexists.
Qed.

Lemma key_live_view now s k : db_inv s -> key_live now s k <-> is_Some (live now (db_view s) !! k).
Proof.
  intros Hi. rewrite live_lookup, db_view_lookup. unfold key_live. split.
  - intros (op & Hk & He). destruct (entry_expired_rec now s k op Hi Hk) as (r & -> & E). simpl.
    rewrite <- IsExpired_expired, <- E, He. by eexists.
  - intros [x H]. destruct (mt_map (db_index (st_db s)) !! k) as [op|] eqn:Hk.
    + exists op. split; [done|]. destruct (entry_expired_rec now s k op Hi Hk) as (r & Hr & ->).
      rewrite Hr in H. simpl in H. rewrite IsExpired_expired. by destruct (expired _ _).
    + unfold db_rec in H. by rewrite Hk in H.
Qed.

Lemma key_live_or_expired now s k op :
  mt_map (db_index (st_db s)) !! k = Some op -> key_live now s k \/ key_expired now s k.
Proof. intros H. destruct (entry_expired now s op) eqn:E; [right|left]; by exists op. Qed.

Lemma key_live_not_expired now s k : key_live now s k -> ~ key_expired now s k.
Proof. intros (op & H & E) (op' & H' & E'). congruence. Qed.

(** Rounds drop nothing that is live. *)
Lemma round_view now s c s' : db_inv s -> round_leaves now s c s' -> live_eq now (db_view s') (db_view s).
Proof.
  intros Hi [Hi' (i & Hs') _ Hsub Hlive _ _ _ _]. apply live_eq_lookup. intros k.
  assert (Hrec : forall op, mt_map (db_index (st_db s')) !! k = Some op -> db_rec s' k = db_rec s k).
  { intros op H. unfold db_rec. rewrite H, (Hsub _ _ H). by rewrite Hs'. }
  destruct (live now (db_view s) !! k) as [x|] eqn:E.
  - assert (Hl : key_live now s k) by (apply key_live_view; [done|by rewrite E]).
    destruct (Hlive k Hl) as (op & H & _). rewrite <- E, !live_lookup, !db_view_lookup, (Hrec op H). done.
  - destruct (live now (db_view s') !! k) as [x|] eqn:E'; [|done]. exfalso.
    assert (Hl : key_live now s' k) by (apply key_live_view; [done|by rewrite E']).
    destruct Hl as (op & H & _). rewrite live_lookup, db_view_lookup, (Hrec op H), <- db_view_lookup, <- live_lookup in E'.
    congruence.
Qed.

(** ** Steps of the loop *)
Lemma loop_done fuel now s : from_cursor s = [] ->
  expire_loop (S fuel) now s = Ret (Some None, with_cursor (db_index (st_db s)) [] s).
Proof.
  intros E. cbn [expire_loop]. unfold gbind, db_get. rewrite select_round, E. simpl. done.
Qed.

Lemma loop_step fuel now s : db_inv s -> from_cursor s <> [] ->
  exists c s', expire_loop (S fuel) now s = expire_loop fuel now s' /\ round_leaves now s c s' /\
    db_expiredCursorKey (st_db s') = c.
Proof.
  intros Hi Hne. destruct (expire_round_leaves now s Hi Hne) as (c & s' & E & Hr). exists c, s'.
  split; [|split; [done|]].
  - cbn [expire_loop]. unfold gbind, db_get. rewrite decide_False.
    + by rewrite E.
    + rewrite select_round. unfold len. rewrite length_fmap. destruct (from_cursor s); [done|]. simpl. lia.
  - by destruct (rl_frame _ _ _ _ Hr) as (i & ->).
Qed.

(** The loop that cannot end: the greatest key is at or after the cursor and
    lives. *)
Lemma loop_spins fuel now s g :
  db_inv s -> key_live now s g -> ~ bytes_lt g (db_expiredCursorKey (st_db s)) ->
  (forall k op, mt_map (db_index (st_db s)) !! k = Some op -> ~ bytes_lt g k) ->
  exists s', expire_loop fuel now s = Ret (None, s') /\ db_mu (st_db s') = db_mu (st_db s).
Proof.
  revert s. induction fuel as [|fuel IH]; intros s Hi Hg Hcur Hmax; [by exists s|].
  destruct (loop_step fuel now s Hi) as (c & s1 & -> & Hr & Hc).
  { destruct Hg as (op & Hop & _). intros E. assert (Hin : (g, op) ∈ from_cursor s) by (by apply from_cursor_elem).
    rewrite E in Hin. by apply not_elem_of_nil in Hin. }
  pose proof Hr as [Hi1 (i & Hs1) _ Hsub Hlive _ _ [opc Hopc] _].
  destruct (IH s1) as (s2 & E & Hmu); [done|by apply Hlive| |eauto|].
  - rewrite Hc. by apply (Hmax c opc).
  - exists s2. split; [done|]. by rewrite Hmu, Hs1.
Qed.

(** The keys at or after the cursor. *)
Definition keys_ahead s : gset bytes := list_to_set (from_cursor s).*1.

Lemma keys_ahead_elem s k : k ∈ keys_ahead s <->
  ~ bytes_lt k (db_expiredCursorKey (st_db s)) /\ is_Some (mt_map (db_index (st_db s)) !! k).
Proof.
  unfold keys_ahead. rewrite elem_of_list_to_set, list_elem_of_fmap. split.
  - intros ([k' op] & -> & [H1 H2]%from_cursor_elem). split; [done|by eexists].
  - intros [H1 [op H2]]. exists (k, op). split; [done|]. by apply from_cursor_elem.
Qed.

Lemma round_progress now s c s' :
  round_leaves now s c s' -> db_expiredCursorKey (st_db s') = c ->
  (forall k, key_live now s k -> ~ bytes_lt k (db_expiredCursorKey (st_db s)) ->
     exists g, bytes_lt k g /\ key_expired now s g) ->
  keys_ahead s' ⊂ keys_ahead s.
Proof.
  intros [Hi (i & Hs') Hcur Hsub Hlive Hahead Hbehind [opc Hopc] Hlast] Hc Hex.
  assert (Hsame : forall op, entry_expired now s' op = entry_expired now s op) by (intros op; by rewrite Hs').
  assert (Hsubset : keys_ahead s' ⊆ keys_ahead s).
  { intros k [H1 [op H2]]%keys_ahead_elem. apply keys_ahead_elem. split; [|eexists; by apply Hsub].
    rewrite Hc in H1. intros Hlt. destruct (bytes_lt_total k c) as [?|[->|Hck]]; [done|done|].
    apply Hcur. by eapply bytes_lt_trans. }
  split; [done|]. intros Hsup.
  assert (Hcase : exists f, f ∈ keys_ahead s /\ f ∉ keys_ahead s').
  { destruct Hlast as [Hmax|(f & op & Hf & Hf1 & Hf2)].
    - exists c. split; [apply keys_ahead_elem; split; [done|by eexists]|].
      intros [_ [op Hop]]%keys_ahead_elem.
      destruct (key_live_or_expired now s' c op Hop) as [Hl|He].
      + destruct (key_live_or_expired now s c opc Hopc) as [Hl'|He'].
        * destruct (Hex c Hl' Hcur) as (g & Hg & opg & Hopg & _). by apply (Hmax g opg Hopg).
        * destruct He' as (op1 & H1 & H2). destruct Hl as (op2 & H3 & H4).
          rewrite (Hsub _ _ H3) in H1. rewrite Hsame in H4. congruence.
      + by apply (Hbehind c Hcur (bytes_lt_irrefl c)).
    - exists f. split; [apply keys_ahead_elem; split; [done|by eexists]|].
      intros [H _]%keys_ahead_elem. by rewrite Hc in H. }
  destruct Hcase as (f & H1 & H2). by apply H2, Hsup.
Qed.

Lemma loop_ends now s :
  db_inv s ->
  (forall k, key_live now s k -> ~ bytes_lt k (db_expiredCursorKey (st_db s)) ->
     exists g, bytes_lt k g /\ key_expired now s g) ->
  exists n s', (forall fuel, (n <= fuel)%nat -> expire_loop fuel now s = Ret (Some None, s')) /\
    db_inv s' /\ live_eq now (db_view s') (db_view s) /\ (exists i, s' = with_cursor i [] s) /\
    (forall k op, mt_map (db_index (st_db s')) !! k = Some op -> mt_map (db_index (st_db s)) !! k = Some op) /\
    (forall k, ~ bytes_lt k (db_expiredCursorKey (st_db s)) -> ~ key_expired now s' k).
Proof.
  remember (size (keys_ahead s)) as n eqn:En. revert s En.
  induction (lt_wf n) as [n _ IH]. intros s -> Hi Hex.
  destruct (from_cursor s) as [|e l] eqn:Ef.
  { exists 1%nat, (with_cursor (db_index (st_db s)) [] s). split.
    { intros [|fuel] Hf; [lia|]. by apply loop_done. }
    split; [by apply with_cursor_inv|]. split; [done|]. split; [by eexists|]. split; [done|].
    intros k Hk (op & Hop & _). simpl in Hop.
    assert (Hin : (k, op) ∈ from_cursor s) by (by apply from_cursor_elem).
    rewrite Ef in Hin. by apply not_elem_of_nil in Hin. }
  assert (Hne : from_cursor s <> []) by (by rewrite Ef).
  destruct (expire_round_leaves now s Hi Hne) as (c & s1 & Er & Hr).
  assert (Hc : db_expiredCursorKey (st_db s1) = c) by (by destruct (rl_frame _ _ _ _ Hr) as (i & ->)).
  pose proof (round_progress now s c s1 Hr Hc Hex) as Hlt%subset_size.
  pose proof (round_view now s c s1 Hi Hr) as Hview.
  pose proof Hr as [Hi1 (i & Hs1) Hcur Hsub Hlive Hahead Hbehind _ _].
  destruct (IH _ Hlt s1 eq_refl Hi1) as (n1 & s2 & E2 & Hi2 & Hv2 & (i2 & Hs2) & Hsub2 & Hgone).
  { intros k (op & Hop & He) Hk. rewrite Hc in Hk.
    assert (Hl : key_live now s k) by (exists op; split; [by apply Hsub|by rewrite Hs1 in He]).
    destruct (Hex k Hl) as (g & Hkg & Hg).
    { intros Hlt'. destruct (bytes_lt_total k c) as [?|[->|Hck]]; [done|done|].
      apply Hcur. by eapply bytes_lt_trans. }
    exists g. split; [done|]. apply Hahead; [|done].
    destruct (bytes_lt_total k c) as [?|[->|Hck]]; [done|done|]. by eapply bytes_lt_trans. }
  exists (S n1), s2. split.
  { intros [|fuel] Hf; [lia|]. destruct (loop_step fuel now s Hi Hne) as (c' & s1' & E' & _).
    cbn [expire_loop]. unfold gbind, db_get. rewrite decide_False.
    - rewrite Er. apply E2. lia.
    - rewrite select_round. unfold len. rewrite length_fmap, Ef. simpl. lia. }
  split; [done|]. split; [by etransitivity|].
  split; [exists i2; by rewrite Hs2, Hs1|]. split; [by eauto|].
  intros k Hk Hexp. destruct (decide (bytes_lt k c)) as [Hkc|Hkc].
  - (* behind the cursor: dropped in this round *)
    assert (Hnk : ~ bytes_lt c k).
    { intros H. by apply (bytes_lt_irrefl k), (bytes_lt_trans k c k). }
    apply (Hbehind k Hk Hnk). destruct Hexp as (op & Hop & He). exists op. split; [by apply Hsub2|].
    by rewrite Hs2 in He.
  - by apply (Hgone k); [rewrite Hc|].
Qed.

(** ** The whole call *)
Lemma expire_task_loop fuel now s r s' :
  db_mu (st_db s) = mu_free ->
  expire_loop fuel now (MkStore (set_mu (MkRWMutex true 0) (st_db s)) (st_fs s)) = Ret (r, s') ->
  expire_task fuel now s = match r with
    | Some _ => (db_with_mu mu_Unlock ;;; gret r) s'
    | None => Ret (None, s')
    end.
Proof.
  intros Hmu E. unfold expire_task. unfold gbind at 1. unfold db_with_mu at 1. rewrite Hmu. simpl.
  rewrite (gbind_Ret _ _ _ _ _ E). by destruct r.
Qed.

(** Calls on a database whose lock is held for ever. *)
Lemma with_batch_blocked {A} rdonly (m : BatchM A) s :
  mu_writer (db_mu (st_db s)) = true -> with_batch (Batch_init rdonly false ;;; m) s = Blocked.
Proof.
  intros Hmu. unfold with_batch, batchPool_Get.
  assert (Hb : forall b p, (Batch_init rdonly false ;;; m) (b, MkStore (set_batchPool p (st_db s)) (st_fs s)) = Blocked).
  { intros b p. unfold Batch_init, Batch_lock, gbind, b_get, b_modify, gmodify, on_db, db_with_mu. simpl.
    unfold mu_Lock, mu_RLock. destruct rdonly; by rewrite Hmu. }
  destruct (db_batchPool (st_db s)) as [|b p] eqn:Ep.
  - unfold newBatch. destruct sf_NewNode_law as [n ->]. cbn [mbind outcome_bind].
    specialize (Hb (MkBatch [] ∅ DefaultBatchOptions false false (Some n) []) []).
    pose proof (set_batchPool_id s) as Es. rewrite Ep in Es. rewrite Es in Hb. by rewrite Hb.
  - cbn [mbind outcome_bind]. by rewrite Hb.
Qed.

Lemma dop_blocked o s : mu_writer (db_mu (st_db s)) = true -> dop_run o s = Blocked.
Proof.
  intros Hmu. destruct o; cbn [dop_run]; unfold as_res, gbind;
    match goal with |- context [?f s] => assert (E : f s = Blocked) by (by apply with_batch_blocked); by rewrite E end.
Qed.

(** C21: When the greatest key of the index is at or after the cursor and has not
    expired, the removal of expired keys never ends: each round begins at the
    cursor and finds that key again.  The call returns nil at its timeout, but
    the goroutine keeps the lock, and every later call of the API waits for
    ever. *)
Theorem delete_expired_never_ends fuel now s g :
  db_inv s -> db_mu (st_db s) = mu_free ->
  is_Some (live now (db_view s) !! g) -> ~ bytes_lt g (db_expiredCursorKey (st_db s)) ->
  (forall k, is_Some (db_view s !! k) -> ~ bytes_lt g k) ->
  exists s', DB_DeleteExpiredKeys fuel now s = Ret (None, s') /\
    db_mu (st_db s') = MkRWMutex true 0 /\ forall o, dop_run o s' = Blocked.
Proof.
  intros Hi Hmu Hg Hcur Hmax. set (s1 := MkStore (set_mu (MkRWMutex true 0) (st_db s)) (st_fs s)).
  assert (Hi1 : db_inv s1) by (destruct Hi as [H1 H2 H3 H4 H5]; by split).
  destruct (loop_spins fuel now s1 g) as (s' & E & Hmu'); [done|by apply key_live_view|done| |].
  { intros k op Hk. apply Hmax. apply (db_view_index s1 k Hi1). by exists op. }
  exists s'. unfold DB_DeleteExpiredKeys.
  rewrite (gbind_Ret _ _ _ _ _ (expire_task_loop fuel now s None s' Hmu E)).
  split; [done|]. split; [done|]. intros o. apply dop_blocked. by rewrite Hmu'.
Qed.

(** C20: Otherwise -- when every live key from the cursor on has an expired key
    after it -- the removal ends after finitely many rounds, releases the lock
    and resets the cursor; no expired key from the cursor on is left in the
    index, and the live keys are what they were. *)
Theorem delete_expired_ends now s :
  db_inv s -> db_mu (st_db s) = mu_free ->
  (forall k, is_Some (live now (db_view s) !! k) -> ~ bytes_lt k (db_expiredCursorKey (st_db s)) ->
     exists g x, bytes_lt k g /\ db_view s !! g = Some x /\ live now (db_view s) !! g = None) ->
  exists n s', (forall fuel, (n <= fuel)%nat -> DB_DeleteExpiredKeys fuel now s = Ret (None, s')) /\
    db_inv s' /\ db_mu (st_db s') = mu_free /\ db_expiredCursorKey (st_db s') = [] /\ st_fs s' = st_fs s /\
    live_eq now (db_view s') (db_view s) /\
    (forall k, ~ bytes_lt k (db_expiredCursorKey (st_db s)) -> is_Some (db_view s' !! k) ->
       is_Some (live now (db_view s') !! k)).
Proof.
  intros Hi Hmu Hex. set (s1 := MkStore (set_mu (MkRWMutex true 0) (st_db s)) (st_fs s)).
  assert (Hi1 : db_inv s1) by (destruct Hi as [H1 H2 H3 H4 H5]; by split).
  destruct (loop_ends now s1 Hi1) as (n & s2 & E & Hi2 & Hv & (i & Hs2) & _ & Hgone).
  { intros k Hk Hcur. apply (key_live_view now s1 k Hi1) in Hk.
    destruct (Hex k Hk Hcur) as (g & x & Hkg & Hg & Hl). exists g. split; [done|].
    assert (Hin : is_Some (mt_map (db_index (st_db s1)) !! g)) by (apply (db_view_index s1 g Hi1); by exists x).
    destruct Hin as [op Hop]. destruct (key_live_or_expired now s1 g op Hop) as [H|H]; [|done].
    apply (key_live_view now s1 g Hi1) in H. change (db_view s1) with (db_view s) in H. rewrite Hl in H. by destruct H. }
  subst s2. set (s' := MkStore (set_mu mu_free (st_db (with_cursor i [] s1))) (st_fs s)).
  assert (Hi' : db_inv s') by (destruct Hi2 as [H1 H2 H3 H4 H5]; by split).
  exists n, s'. split.
  { intros fuel Hf. unfold DB_DeleteExpiredKeys.
    assert (Et : expire_task fuel now s = Ret (Some None, s')).
    { rewrite (expire_task_loop fuel now s _ _ Hmu (E fuel Hf)). reflexivity. }
    by rewrite (gbind_Ret _ _ _ _ _ Et). }
  split; [done|]. split; [done|]. split; [done|]. split; [done|].
  split; [exact Hv|]. intros k Hk Hin. apply (db_view_index s' k Hi') in Hin as [op Hop].
  apply (key_live_view now s' k Hi'). destruct (key_live_or_expired now s' k op Hop) as [H|H]; [done|].
  exfalso. exact (Hgone k Hk H).
Qed.
End expire.

Lemma sample_cursor k : ~ bytes_lt k [].
Proof. unfold bytes_lt. by destruct k. Qed.

Lemma index_keys_view (s : Store) (k : bytes) : db_inv s -> is_Some (db_view s !! k) -> k ∈ index_keys s.
Proof.
  intros Hi [op H]%(db_view_index s k Hi). apply mt_map_entries in H. apply list_elem_of_fmap.
  by exists (k, op).
Qed.

Lemma delete_expired_never_ends_witness : exists s s' : Store,
  DB_DeleteExpiredKeys 1000 20 s = Ret (None, s') /\
  db_mu (st_db s') = MkRWMutex true 0 /\ forall o, dop_run o s' = Blocked.
Proof.
  destruct (sample_two_keys ($"b") ($"a") (or_intror (conj eq_refl eq_refl))) as (s & G & V & K & C). exists s.
  apply (delete_expired_never_ends 1000 20 s ($"b")); [apply G|apply G| |rewrite C; apply sample_cursor|].
  - rewrite (live_eq_mono 10 20 _ _ ltac:(lia) V : live 20 _ = live 20 _). vm_compute. by eexists.
  - intros k Hk. apply index_keys_view in Hk; [|apply G]. rewrite K in Hk. 
    apply elem_of_cons in Hk as [->|Hk]; [|apply list_elem_of_singleton in Hk as ->]; vm_compute; discriminate.
Defined.

Lemma delete_expired_ends_witness : exists (s : Store) n (s' : Store),
  (forall fuel, (n <= fuel)%nat -> DB_DeleteExpiredKeys fuel 20 s = Ret (None, s')) /\
  live_eq 20 (db_view s') {[ $"a" := ($"1", 0) ]} /\
  (forall k, is_Some (db_view s' !! k) -> is_Some (live 20 (db_view s') !! k)).
Proof.
  destruct (sample_two_keys ($"a") ($"b") (or_introl (conj eq_refl eq_refl))) as (s & G & V & K & C). exists s.
  assert (V' : live 20 (db_view s) = live 20 {[ $"a" := ($"1", 0) ]}).
  { rewrite (live_eq_mono 10 20 _ _ ltac:(lia) V : live 20 _ = live 20 _). vm_compute. reflexivity. }
  assert (Hb : live 10 (db_view s) !! ($"b") = Some ($"2", 13)) by (rewrite V; vm_compute; reflexivity).
  destruct (delete_expired_ends 20 s) as (n & s' & E & _ & _ & _ & _ & Hv & Hd); [apply G|apply G| |].
  - intros k Hk _. exists ($"b"), ($"2", 13).
    assert (Hb' : db_view s !! ($"b") = Some ($"2", 13)).
    { rewrite live_lookup in Hb. destruct (db_view s !! ($"b")) as [[v e]|]; [|discriminate Hb].
      destruct (expired e 10); [discriminate Hb|exact Hb]. }
    split; [|split; [exact Hb'|rewrite V'; vm_compute; reflexivity]].
    rewrite V' in Hk. destruct (decide (k = $"a")) as [->|Hne]; [vm_compute; reflexivity|].
    exfalso. rewrite live_lookup, lookup_singleton_ne in Hk by done. by destruct Hk.
  - exists n, s'. split; [exact E|]. split; [etransitivity; [exact Hv|exact V']|].
    intros k. apply Hd. rewrite C. apply sample_cursor.
Defined.
