(* ===== verification/Iterator.v ===== *)
(** * The database iterator

    [iterator.go]: an iterator over a clone of the index that reads the values
    from the log and skips what is expired or outside the prefix.  It takes no
    lock, so the store may change between its steps; the steps take the store
    they run on. *)
From S2P Require Import Prelude GoBinary Config GoOs WalLib WalModel Record BTreeLib Index Watch.
From S2P Require Import Store Batch DB Open View BatchSpec CommitSpec Recovery OpenSpec DBSpec Instances Traverse.
Open Scope Z_scope.

Section iterator.
Context {W : WalLib} {B : BTreeLib item item_less} {SF : Snowflake} {MH : MemHashLib}.
Implicit Types (s : Store) (k : bytes).

(** [Iterator]; [indexIter] and [db] become nil together, when it is closed. *)
Record Iterator : Type := MkIterator {
  it_indexIter : option memoryBTreeIterator;
  it_options : IteratorOptions;
  it_lastError : option error;
  it_currentItem : option (bytes * bytes);
}.

Definition Iterator_Close (it : Iterator) : outcome Iterator :=
  match it_indexIter it with
  | None => Ret it
  | Some ii => _ ← Iter_Close ii; Ret (MkIterator None (it_options it) (it_lastError it) (it_currentItem it))
  end.

(** [prefixLen > 0] and the key does not begin with the prefix. *)
Definition prefix_skips (prefix k : bytes) : bool :=
  (0 <? len prefix) && ((len k <? len prefix) || negb (bool_decide (prefix = take (length prefix) k))).

(** The loop of [skipToNext]; [clock] reads the time at each key. *)
Fixpoint skip_loop (fuel : nat) (clock : bytes -> Z) s (it : Iterator) (ii : memoryBTreeIterator) :
    outcome Iterator :=
  let put ii it := MkIterator (Some ii) (it_options it) (it_lastError it) (it_currentItem it) in
  let continue it ii := fun (loop : Iterator -> memoryBTreeIterator -> outcome Iterator) =>
    ii ← Iter_Next ii; loop it ii in
  match fuel with
  | O => Blocked
  | S fuel =>
      if negb (Iter_Valid ii) then Ret (put ii it) else
      key ← Iter_Key ii;
      if prefix_skips (io_Prefix (it_options it)) key then continue it ii (skip_loop fuel clock s) else
      position ← Iter_Value ii;
      match position with
      | None => continue it ii (skip_loop fuel clock s)
      | Some position =>
          match wal_Read (db_dataFiles (st_db s)) (st_fs s) position with
          | inl err =>
              let it := MkIterator (it_indexIter it) (it_options it) (Some err) (it_currentItem it) in
              if negb (io_ContinueOnError (it_options it)) then Iterator_Close (put ii it)
              else continue it ii (skip_loop fuel clock s)
          | inr chunk =>
              record ← decodeLogRecord chunk;
              if bool_decide (lr_Type record = LogRecordDeleted) || IsExpired record (clock key)
              then continue it ii (skip_loop fuel clock s)
              else Ret (MkIterator (Some ii) (it_options it) (it_lastError it)
                          (Some (lr_Key record, lr_Value record)))
          end
      end
  end.

Definition skipToNext (fuel : nat) (clock : bytes -> Z) s (it : Iterator) : outcome Iterator :=
  let it := MkIterator (it_indexIter it) (it_options it) (it_lastError it) None in
  match it_indexIter it with
  | None => Panic
  | Some ii => skip_loop fuel clock s it ii
  end.

(** [db.NewIterator(opts)]; the clone marks the tree of the index too. *)
Definition DB_NewIterator (fuel : nat) (clock : bytes -> Z) (opts : IteratorOptions) : DbM Iterator := fun s =>
  '(ii, mt) ← MemoryBTree_Iterator (db_index (st_db s)) (io_Reverse opts);
  let s := MkStore (set_index mt (st_db s)) (st_fs s) in
  it ← skipToNext fuel clock s (MkIterator (Some ii) opts None None);
  Ret (it, s).

(** A step of the iterator, nothing once it is closed. *)
Definition it_step (move : memoryBTreeIterator -> outcome memoryBTreeIterator) (fuel : nat)
    (clock : bytes -> Z) s (it : Iterator) : outcome Iterator :=
  match it_indexIter it with
  | None => Ret it
  | Some ii =>
      ii ← move ii;
      skipToNext fuel clock s (MkIterator (Some ii) (it_options it) (it_lastError it) (it_currentItem it))
  end.

Definition Iterator_Rewind := it_step Iter_Rewind.
Definition Iterator_Seek (fuel : nat) (clock : bytes -> Z) (k : bytes) :=
  it_step (fun ii => Ret (Iter_Seek ii k)) fuel clock.
Definition Iterator_Next := it_step Iter_Next.
Definition Iterator_Valid (it : Iterator) : bool :=
  match it_indexIter it with None => false | Some ii => Iter_Valid ii end.
Definition Iterator_Item (it : Iterator) : option (bytes * bytes) := it_currentItem it.
Definition Iterator_Err (it : Iterator) : option error := it_lastError it.

(** The loop of a client: [n] counts the steps, and [stores n] is the store at
    the time of the [n]th step. *)
Fixpoint it_collect (fuel : nat) (clock : bytes -> Z) (stores : nat -> Store) (n : nat) (it : Iterator) :
    outcome (list (option (bytes * bytes))) :=
  match fuel with
  | O => Blocked
  | S fuel' =>
      if Iterator_Valid it then
        it' ← Iterator_Next fuel clock (stores n) it;
        rest ← it_collect fuel' clock stores (S n) it';
        Ret (Iterator_Item it :: rest)
      else Ret []
  end.
End iterator.

(** ** What it shows *)
Section iterator_spec.
Context {W : WalLib} {WL : WalLaws W} {B : BTreeLib item item_less} {BL : BTreeLaws B}
  {SF : Snowflake} {SL : SnowflakeLaws SF} {MH : MemHashLib}.
Implicit Types (s : Store) (k : bytes).

Definition has_prefix (prefix k : bytes) : Prop := prefix = take (length prefix) k.
#[export] Instance has_prefix_dec prefix k : Decision (has_prefix prefix k).
Proof. unfold has_prefix. apply _. Defined.

Lemma prefix_skips_false prefix k : prefix_skips prefix k = false <-> has_prefix prefix k.
Proof.
  unfold prefix_skips, has_prefix. destruct prefix as [|b prefix].
  { split; [done|]. intros _. reflexivity. }
  rewrite (proj2 (Z.ltb_lt 0 (len (b :: prefix)))) by (unfold len; simpl; lia). simpl andb.
  rewrite orb_false_iff, negb_false_iff, bool_decide_eq_true, Z.ltb_ge. split; [by intros [_ ?]|].
  intros E. split; [|done]. apply (f_equal length) in E. rewrite length_take in E. unfold len. lia.
Qed.

(** The log of [s'] still has what the log of [s] had. *)
Definition log_extends s s' : Prop :=
  wal_ok (db_dataFiles (st_db s')) (st_fs s') /\
  forall x, x ∈ wal_log (db_dataFiles (st_db s)) (st_fs s) -> x ∈ wal_log (db_dataFiles (st_db s')) (st_fs s').

(** What a record of the snapshot is worth to the iterator. *)
Definition item_shown (clock : bytes -> Z) (prefix : bytes) s (i : item) : option (bytes * bytes) :=
  if decide (has_prefix prefix (it_key i)) then
    match it_pos i ≫= fetch (db_dataFiles (st_db s)) (st_fs s) with
    | Some r => if IsExpired r (clock (it_key i)) then None else Some (it_key i, lr_Value r)
    | None => None
    end
  else None.

Fixpoint skip_items (f : item -> option (bytes * bytes)) (l : list item) : list item :=
  match l with
  | [] => []
  | i :: l' => match f i with Some _ => l | None => skip_items f l' end
  end.

Lemma skip_items_length f l : (length (skip_items f l) <= length l)%nat.
Proof. induction l as [|i l IH]; simpl; [lia|]. destruct (f i); simpl; lia. Qed.

(** The entries of the snapshot are in the log. *)
Definition items_ok s (l : list item) : Prop :=
  Forall (fun i => entry_ok (wal_log (db_dataFiles (st_db s)) (st_fs s)) (it_key i) (it_pos i)) l.

Definition iterator_on (opts : IteratorOptions) (it : Iterator) (ord l : list item) (cur : option (bytes * bytes)) : Prop :=
  exists ii, it = MkIterator (Some ii) opts None cur /\ iter_at ord (io_Reverse opts) ii l.

Lemma skip_loop_spec fuel clock s s0 opts ord ii l :
  wal_ok (db_dataFiles (st_db s0)) (st_fs s0) -> log_extends s0 s -> items_ok s0 l ->
  iter_at ord (io_Reverse opts) ii l -> (length l < fuel)%nat ->
  let f := item_shown clock (io_Prefix opts) s0 in
  exists it, skip_loop fuel clock s (MkIterator (Some ii) opts None None) ii = Ret it /\
    iterator_on opts it ord (skip_items f l) (head (skip_items f l) ≫= f).
Proof.
  intros Hw0 [Hw Hlog] Hok Hat Hf f. 
  assert (Hgen : forall ic, exists it, skip_loop fuel clock s (MkIterator ic opts None None) ii = Ret it /\
    iterator_on opts it ord (skip_items f l) (head (skip_items f l) ≫= f)); [|apply Hgen].
  revert fuel ii Hat Hf. induction l as [|i l IH]; intros [|fuel] ii Hat Hf ic; simpl in Hf; try lia;
    cbn [skip_loop]; rewrite (iter_at_Valid _ _ _ _ Hat).
  { eexists. split; [reflexivity|]. by exists ii. }
  apply Forall_cons in Hok as [(p & r & Hp & Hin & Hr & Hk & Ht) Hok].
  rewrite bool_decide_eq_true_2 by done. cbn [negb it_options]. 
  rewrite (iter_at_Key _ _ _ _ _ Hat). cbn [mbind outcome_bind].
  destruct (Iter_Next_at _ _ _ _ _ Hat) as (ii' & Enext & Hat').
  assert (Hshown : f i = if decide (has_prefix (io_Prefix opts) (it_key i)) then
    if IsExpired r (clock (it_key i)) then None else Some (it_key i, lr_Value r) else None).
  { unfold f, item_shown. rewrite Hp. simpl. by rewrite (fetch_log _ _ _ r) by (try apply Hr; done). }
  assert (Hskip : f i = None -> exists it,
    (ii ← Iter_Next ii; skip_loop fuel clock s (MkIterator ic opts None None) ii) = Ret it /\
    iterator_on opts it ord (skip_items f (i :: l)) (head (skip_items f (i :: l)) ≫= f)).
  { intros En. simpl. rewrite En. rewrite Enext. cbn [mbind outcome_bind]. apply IH; [done|done|lia]. }
  destruct (prefix_skips (io_Prefix opts) (it_key i)) eqn:Ep.
  { apply Hskip. rewrite Hshown, decide_False; [done|]. rewrite <- prefix_skips_false. congruence. }
  apply prefix_skips_false in Ep. rewrite decide_True in Hshown by done.
  rewrite (iter_at_Value _ _ _ _ _ Hat). cbn [mbind outcome_bind]. rewrite Hp.
  rewrite (wal_Read_law _ _ p _ Hw (Hlog _ Hin)). rewrite decodeLogRecord_spec by apply Hr.
  cbn [mbind outcome_bind]. rewrite normal_not_deleted by done. simpl orb.
  destruct (IsExpired r (clock (it_key i))); [by apply Hskip|].
  eexists. split; [reflexivity|]. simpl. rewrite Hshown. exists ii. split; [|done]. simpl.
  rewrite Hshown. by rewrite Hk.
Qed.

Lemma omap_skip_items f (l : list item) : omap f (skip_items f l) = omap f l.
Proof. induction l as [|i l IH]; [done|]. simpl. destruct (f i) eqn:E; [simpl; by rewrite E|done]. Qed.

Lemma items_ok_skip f s l : items_ok s l -> items_ok s (skip_items f l).
Proof. induction 1 as [|i l Hi Hl IH]; [constructor|]. simpl. destruct (f i); [by constructor|done]. Qed.

Lemma skip_items_head f i (l l' : list item) : skip_items f l = i :: l' -> exists y, f i = Some y.
Proof. induction l as [|j l IH]; [done|]. simpl. destruct (f j) eqn:E; [|done]. intros [= <- <-]. eauto. Qed.

(** A step goes to the next item that is shown. *)
Lemma Iterator_Next_on clock fuel opts s s0 it ord i l cur :
  wal_ok (db_dataFiles (st_db s0)) (st_fs s0) -> log_extends s0 s -> items_ok s0 l -> (length l < fuel)%nat ->
  iterator_on opts it ord (i :: l) cur ->
  let f := item_shown clock (io_Prefix opts) s0 in
  exists it', Iterator_Next fuel clock s it = Ret it' /\ iterator_on opts it' ord (skip_items f l) (head (skip_items f l) ≫= f).
Proof.
  intros Hw Hs Hok Hf (ii & -> & Hat) f. unfold Iterator_Next, it_step. cbn [it_indexIter it_options it_lastError it_currentItem].
  destruct (Iter_Next_at _ _ _ _ _ Hat) as (ii' & -> & Hat'). cbn [mbind outcome_bind].
  unfold skipToNext. cbn [it_indexIter it_options it_lastError]. by apply (skip_loop_spec fuel clock s s0 opts ord ii' l).
Qed.

Lemma Iterator_Valid_on opts it ord l cur : iterator_on opts it ord l cur -> Iterator_Valid it = bool_decide (l <> []).
Proof. intros (ii & -> & Hat). apply (iter_at_Valid _ _ _ _ Hat). Qed.

Lemma Iterator_Item_on opts it ord l cur : iterator_on opts it ord l cur -> Iterator_Item it = cur.
Proof. by intros (ii & -> & _). Qed.

Lemma it_collect_spec clock stores s0 opts ord : wal_ok (db_dataFiles (st_db s0)) (st_fs s0) ->
  (forall n, log_extends s0 (stores n)) -> forall fuel n it l,
  let f := item_shown clock (io_Prefix opts) s0 in
  items_ok s0 l -> iterator_on opts it ord (skip_items f l) (head (skip_items f l) ≫= f) ->
  (length l < fuel)%nat ->
  it_collect fuel clock stores n it = Ret (Some <$> omap f l).
Proof.
  intros Hw Hst. induction fuel as [|fuel IH]; intros n it l f Hok Hon Hf; [lia|].
  cbn [it_collect]. rewrite (Iterator_Valid_on _ _ _ _ _ Hon), (Iterator_Item_on _ _ _ _ _ Hon), <- omap_skip_items.
  pose proof (items_ok_skip f _ _ Hok) as Hsub. pose proof (skip_items_length f l) as Hlen.
  destruct (skip_items f l) as [|i l'] eqn:Es; [done|]. destruct (skip_items_head f i l l' Es) as [y Hy].
  rewrite bool_decide_eq_true_2 by done. apply Forall_cons in Hsub as [_ Hsub]. simpl in Hlen.
  destruct (Iterator_Next_on clock (S fuel) opts (stores n) s0 it ord i l' _ Hw (Hst n) Hsub ltac:(lia) Hon) as (it' & -> & Hon').
  cbn [mbind outcome_bind]. rewrite (IH (S n) it' l' Hsub Hon') by lia. simpl. by rewrite Hy.
Qed.

Lemma log_extends_refl s : wal_ok (db_dataFiles (st_db s)) (st_fs s) -> log_extends s s.
Proof. by split. Qed.

(** Commits extend the log. *)
Lemma log_extends_commit now (b : Batch) s (b' : Batch) s' : committed_as now b s b' s' -> log_extends s s'.
Proof.
  intros (_ & Hs' & _ & _ & _ & _ & _ & _ & id & ps & _ & _ & Happ & _). split; [apply Hs'|].
  intros x Hx. unfold wal_log. rewrite (segs_append_log _ _ _ Happ). apply elem_of_app. by left.
Qed.

(** What the iterator shows of the index is what a traversal shows. *)
Lemma item_shown_shown clock prefix s i :
  i ∈ bt_items (mt_tree (db_index (st_db s))) ->
  item_shown clock prefix s i
    = if decide (has_prefix prefix (it_key i)) then shown clock s (entry_of i) else None.
Proof.
  intros Hin. unfold item_shown, shown, live_at, db_rec. case_decide; [|done].
  assert (Hm : mt_map (db_index (st_db s)) !! (it_key i) = Some (it_pos i)) by (apply mt_map_items; by destruct i).
  simpl. rewrite Hm. simpl. unfold id. destruct (it_pos i) as [p|]; simpl; [|done].
  destruct (fetch _ _ p) as [r|]; simpl; [|done]. by destruct (IsExpired r _).
Qed.

Lemma omap_item_shown clock prefix s (l : list item) :
  (forall i, i ∈ l -> i ∈ bt_items (mt_tree (db_index (st_db s)))) ->
  omap (item_shown clock prefix s) l
    = filter (fun kv => has_prefix prefix kv.1) (omap (shown clock s) (entry_of <$> l)).
Proof.
  induction l as [|i l IH]; intros Hin; [done|]. rewrite fmap_cons, !omap_cons_eq.
  rewrite (item_shown_shown clock prefix s i) by (apply Hin; left). rewrite IH by (intros j Hj; apply Hin; by right).
  assert (Es : shown clock s (entry_of i) = (fun v => (it_key i, v)) <$> live_at clock s (it_key i)) by done.
  rewrite Es. destruct (live_at clock s (it_key i)) as [v|]; simpl; [|by case_decide].
  case_decide as Hp; [by rewrite filter_cons_True|by rewrite filter_cons_False].
Qed.

Lemma index_items_ok s : db_inv s -> items_ok s (bt_items (mt_tree (db_index (st_db s)))).
Proof.
  intros Hi. apply Forall_forall. intros [k op] Hin. apply (di_index s Hi). by apply mt_map_items.
Qed.

(** A new iterator stands before its first item, over a clone of the index. *)
Lemma DB_NewIterator_on clock fuel opts s : db_inv s -> (length (mt_entries (db_index (st_db s))) < fuel)%nat ->
  let ord := iter_order (mt_tree (db_index (st_db s))) (io_Reverse opts) in
  let f := item_shown clock (io_Prefix opts) s in
  exists it mt', DB_NewIterator fuel clock opts s = Ret (it, MkStore (set_index mt' (st_db s)) (st_fs s)) /\
    mt_entries mt' = mt_entries (db_index (st_db s)) /\ items_ok s ord /\ (length ord < fuel)%nat /\
    iterator_on opts it ord (skip_items f ord) (head (skip_items f ord) ≫= f).
Proof.
  intros Hi Hf. unfold DB_NewIterator, MemoryBTree_Iterator.
  destruct (newMemoryBTreeIterator_at (mt_tree (db_index (st_db s))) (io_Reverse opts)) as (ii & t' & -> & Et & Hat).
  cbn [mbind outcome_bind]. set (s' := MkStore _ _).
  set (ord := iter_order (mt_tree (db_index (st_db s))) (io_Reverse opts)) in *.
  assert (Hok : items_ok s ord).
  { pose proof (index_items_ok s Hi) as H. unfold items_ok, ord, iter_order in *.
    destruct (io_Reverse opts); [by rewrite Forall_reverse|done]. }
  assert (Hlen : (length ord < fuel)%nat).
  { unfold ord, iter_order, mt_entries in *. rewrite length_fmap in Hf.
    destruct (io_Reverse opts); by rewrite ?length_reverse. }
  unfold skipToNext. cbn [it_indexIter it_options it_lastError].
  destruct (skip_loop_spec fuel clock s' s opts ord ii ord) as (it & -> & Hon); try done; try apply Hi.
  { exact (log_extends_refl s (di_wal s Hi)). }
  cbn [mbind outcome_bind]. exists it, (MkMemoryBTree t'). split_and!; try done. unfold mt_entries. cbn [mt_tree]. by rewrite Et.
Qed.

(** The items of the index as an iterator shows them. *)
Lemma omap_item_order clock opts s : omap (item_shown clock (io_Prefix opts) s) (iter_order (mt_tree (db_index (st_db s))) (io_Reverse opts))
  = filter (fun kv => has_prefix (io_Prefix opts) kv.1) (if io_Reverse opts then reverse (live_kvs clock s) else live_kvs clock s).
Proof.
  rewrite omap_item_shown.
  - f_equal. unfold live_kvs, mt_entries, iter_order. destruct (io_Reverse opts); [|done]. by rewrite fmap_reverse, omap_reverse_list.
  - unfold iter_order. destruct (io_Reverse opts); [intros i; by rewrite elem_of_reverse|done].
Qed.

(** C16: A new iterator shows exactly the live keys with the prefix, with their
    values, in the order of the keys or against it, and reports no error; the
    database it was made on does not change but for the clone mark.  It shows the
    keys of the moment it was made: the store may change between its steps, as
    long as the log keeps its chunks. *)
Theorem iterator_shows_live_keys clock stores fuel opts s :
  db_inv s -> (forall n, log_extends s (stores n)) ->
  (length (mt_entries (db_index (st_db s))) < fuel)%nat ->
  exists it mt' l, DB_NewIterator fuel clock opts s = Ret (it, MkStore (set_index mt' (st_db s)) (st_fs s)) /\
    mt_entries mt' = mt_entries (db_index (st_db s)) /\ Iterator_Err it = None /\
    StronglySorted bytes_lt l.*1 /\
    (forall k v, (k, v) ∈ l <-> exists e, live (clock k) (db_view s) !! k = Some (v, e)) /\
    it_collect fuel clock stores 0 it
      = Ret (Some <$> filter (fun kv => has_prefix (io_Prefix opts) kv.1)
               (if io_Reverse opts then reverse l else l)).
Proof.
  intros Hi Hst Hf. destruct (DB_NewIterator_on clock fuel opts s Hi Hf) as (it & mt' & E & Et & Hok & Hlen & Hon).
  exists it, mt', (live_kvs clock s). split; [done|]. split; [done|]. split; [by destruct Hon as (? & -> & _)|].
  split; [apply live_kvs_sorted|]. split; [apply live_kvs_elem|].
  rewrite (it_collect_spec clock stores s opts _ (di_wal s Hi) Hst fuel 0 it _ Hok Hon Hlen). by rewrite omap_item_order.
Qed.

(** Rewinding brings an iterator back before its first item. *)
Lemma Iterator_Rewind_on clock fuel opts s s0 it ord l cur : wal_ok (db_dataFiles (st_db s0)) (st_fs s0) -> log_extends s0 s ->
  items_ok s0 ord -> (length ord < fuel)%nat -> iterator_on opts it ord l cur ->
  let f := item_shown clock (io_Prefix opts) s0 in
  exists it', Iterator_Rewind fuel clock s it = Ret it' /\ iterator_on opts it' ord (skip_items f ord) (head (skip_items f ord) ≫= f).
Proof.
  intros Hw Hs Hok Hf (ii & -> & Hat) f. unfold Iterator_Rewind, it_step. cbn [it_indexIter it_options it_lastError it_currentItem].
  destruct (Iter_Rewind_at _ _ _ _ Hat) as (ii' & -> & Hat'). cbn [mbind outcome_bind].
  unfold skipToNext. cbn [it_indexIter it_options it_lastError].
  apply (skip_loop_spec fuel clock s s0 opts ord ii' ord); done.
Qed.

(** Closing an open iterator. *)
Lemma Iterator_Close_on opts it ord l cur : iterator_on opts it ord l cur -> exists it', Iterator_Close it = Ret it'.
Proof. intros (ii & -> & Hat). unfold Iterator_Close. cbn [it_indexIter]. inversion Hat; subst; by eexists. Qed.

(** [Seek] does nothing to an iterator that has run out of keys, whatever
    the key: only [Rewind] brings it back. *)
Theorem seek_after_end_does_nothing fuel clock k s it :
  it_indexIter it <> None -> Iterator_Valid it = false -> (0 < fuel)%nat ->
  exists it', Iterator_Seek fuel clock k s it = Ret it' /\ it_indexIter it' = it_indexIter it /\
    Iterator_Valid it' = false /\ Iterator_Item it' = None.
Proof.
  intros Hopen Hv Hf. unfold Iterator_Seek, it_step. unfold Iterator_Valid in *.
  destruct (it_indexIter it) as [ii|] eqn:E; [|done]. cbn [mbind outcome_bind].
  unfold Iter_Valid in Hv. rewrite (Iter_Seek_invalid ii k Hv).
  destruct fuel as [|fuel]; [lia|]. unfold skipToNext. cbn [it_indexIter skip_loop it_options it_lastError].
  unfold Iter_Valid. rewrite Hv. simpl. eexists. split; [reflexivity|]. split; [done|]. by split.
Qed.
End iterator_spec.

Lemma iterator_shows_live_keys_witness : exists (s : Store) it mt' l,
  DB_NewIterator 10 (fun _ => 20) (MkIteratorOptions ($"a") true false) s
    = Ret (it, MkStore (set_index mt' (st_db s)) (st_fs s)) /\
  it_collect 10 (fun _ => 20) (fun _ => s) 0 it
    = Ret (Some <$> filter (fun kv => has_prefix ($"a") kv.1) (reverse l)) /\
  (forall k v, (k, v) ∈ l <->
     exists e, live 20 (<[$"b" := ($"2", 13)]> (<[$"a" := ($"1", 0)]> ∅)) !! k = Some (v, e)).
Proof.
  destruct (sample_two_keys ($"a") ($"b") (or_introl (conj eq_refl eq_refl))) as (s & G & V & K & _).
  destruct (iterator_shows_live_keys (fun _ => 20) (fun _ => s) 10 (MkIteratorOptions ($"a") true false) s)
    as (it & mt' & l & E & _ & _ & _ & Hl & Ec); [apply G|intros _; apply log_extends_refl, G| |].
  - unfold index_keys in K. rewrite <- (length_fmap fst), K. simpl. lia.
  - exists s, it, mt', l. split; [exact E|]. split; [exact Ec|].
    intros k v. rewrite (Hl k v). apply (live_eq_mono 10 20) in V; [|lia]. by rewrite V.
Defined.

Lemma seek_after_end_does_nothing_witness :
  let it := MkIterator (Some (MkIter (Some (mt_tree newBTree)) false None false)) DefaultIteratorOptions None None in
  exists (s : Store) it', Iterator_Seek 1 (fun _ => 0) ($"a") s it = Ret it' /\
    it_indexIter it' = it_indexIter it /\ Iterator_Valid it' = false /\ Iterator_Item it' = None.
Proof.
  intros it. destruct sample_store as (db & fs & _). exists (MkStore db fs).
  apply (seek_after_end_does_nothing 1 (fun _ => 0) ($"a") (MkStore db fs) it); [discriminate|reflexivity|lia].
Defined.
