(* ===== verification/Merge.v ===== *)
(** * Merging

    [DB.Merge], [doMerge], [openMergeDB], [openMergeFinishedFile] and
    [positionEquals] of [merge.go].  The lock is free while the old segments are
    copied, so other goroutines may call the database between the rounds: what
    they do before each round is the argument [others]. *)
From S2P Require Import Prelude GoBinary Config GoOs Filepath WalLib Record BTreeLib Index Watch.
From S2P Require Import Store Batch DB Open.
Open Scope Z_scope.

Definition positionEquals (a b : ChunkPosition) : bool :=
  (SegmentId a =? SegmentId b) && (BlockNumber a =? BlockNumber b) && (ChunkOffset a =? ChunkOffset b).

Section merge.
Context {W : WalLib} {B : BTreeLib item item_less} {SF : Snowflake} {MH : MemHashLib}.

(** What the run meets: the parsers of the scheduler, the answer of the lock of
    the merge directory, the rounds a loop may take, the clock when the merge
    database is opened, at the start of the copying and at the reopening, and
    the calls of other goroutines. *)
Record MergeRun : Type := MkMergeRun {
  mr_cron_Parse : bytes -> option error;
  mr_cron_AddFunc : bytes -> option error;
  mr_hold : error + bool;
  mr_fuel : nat;
  mr_open_now : Z;
  mr_now : Z;
  mr_reload_now : Z;
  mr_others : nat -> DbM unit;
}.
Context (run : MergeRun).

Definition merge_options (options : Options) : Options :=
  MkOptions (mergeDirPath (o_DirPath options)) (o_SegmentSize options) false 0
    (o_WatchQueueSize options) (o_AutoMergeCronExpr options).

Definition openMergeDB : DbM (error + DB) := fun s =>
  let options := db_options (st_db s) in
  let mergePath := mergeDirPath (o_DirPath options) in
  match os_RemoveAll (st_fs s) mergePath with
  | (Some err, fs) => Ret (inl err, MkStore (st_db s) fs)
  | (None, fs) =>
      '(r, fs) ← DB_Open (mr_cron_Parse run) (mr_cron_AddFunc run) (mr_hold run) (mr_fuel run) (mr_open_now run)
                   (merge_options options) fs;
      match r with
      | inl err => Ret (inl err, MkStore (st_db s) fs)
      | inr mergeDB =>
          match wal_Open (hint_options mergePath) fs with
          | (inl err, fs) => Ret (inl err, MkStore (st_db s) fs)
          | (inr hintFile, fs) => Ret (inr (set_hintFile (Some hintFile) mergeDB), MkStore (st_db s) fs)
          end
      end
  end.

Definition fin_options (dirPath : bytes) : WalOptions := MkWalOptions dirPath GB mergeFinNameSuffix false 0.

(** Copying one record to the merge database and its hint file. *)
Definition merge_write (mergeDB : DB) (record : LogRecord) : DbM (option error * DB) := fun s =>
  let record := MkLogRecord (lr_Key record) (lr_Value record) (lr_Type record) mergeFinishedBatchID
                  (lr_Expire record) in
  '(header, enc) ← encodeLogRecord record (db_encodeHeader mergeDB) [];
  let mergeDB := set_encodeHeader header mergeDB in
  match wal_Write (db_dataFiles mergeDB) enc (st_fs s) with
  | (inl err, w, fs) => Ret ((Some err, set_dataFiles w mergeDB), MkStore (st_db s) fs)
  | (inr newPosition, w, fs) =>
      let mergeDB := set_dataFiles w mergeDB in
      hint ← encodeHintRecord (lr_Key record) newPosition;
      match db_hintFile mergeDB with
      | None => Panic
      | Some h =>
          let '(r, h, fs) := wal_Write h hint fs in
          Ret ((match r with inl err => Some err | inr _ => None end, set_hintFile (Some h) mergeDB),
               MkStore (st_db s) fs)
      end
  end.

(** One record of the old segments: copied if the index points to it. *)
Definition merge_record (record : LogRecord) (position : ChunkPosition) (mergeDB : DB) :
    DbM (option error * DB) :=
  if bool_decide (lr_Type record = LogRecordNormal)
     && (bool_decide (lr_Expire record = 0) || (mr_now run <? lr_Expire record)) then
    db_with_mu mu_RLock ;;;
    let! db := db_get in
    let indexPos := MemoryBTree_Get (db_index db) (lr_Key record) in
    db_with_mu mu_RUnlock ;;;
    match indexPos with
    | Some indexPos => if positionEquals indexPos position then merge_write mergeDB record
                       else gret (None, mergeDB)
    | None => gret (None, mergeDB)
    end
  else gret (None, mergeDB).

Fixpoint merge_loop (fuel n : nat) (reader : wal_reader) (mergeDB : DB) : DbM (option error * DB) :=
  match fuel with
  | O => glift Blocked
  | S fuel =>
      mr_others run n ;;;
      match reader_Next reader with
      | (inl err, _) => gret (if decide (err = io_EOF) then None else Some err, mergeDB)
      | (inr (chunk, position), reader) =>
          let! record := glift (decodeLogRecord chunk) in
          let! r := merge_record record position mergeDB in
          let '(err, mergeDB) := r in
          match err with
          | Some err => gret (Some err, mergeDB)
          | None => merge_loop fuel (S n) reader mergeDB
          end
      end
  end.

(** The file that says the merge is complete. *)
Definition write_merge_finished (mergePath : bytes) (prevActiveSegId : Z) : DbM (option error) := fun s =>
  match wal_Open (fin_options mergePath) (st_fs s) with
  | (inl err, fs) => Ret (Some err, MkStore (st_db s) fs)
  | (inr mergeFinFile, fs) =>
      match wal_Write mergeFinFile (encodeMergeFinRecord prevActiveSegId) fs with
      | (inl err, _, fs) => Ret (Some err, MkStore (st_db s) fs)
      | (inr _, mergeFinFile, fs) =>
          let '(err, _, fs) := wal_Close mergeFinFile fs in Ret (err, MkStore (st_db s) fs)
      end
  end.

(** [mergeDB.Close()], its error dropped. *)
Definition close_merge_db (mergeDB : DB) : DbM unit := fun s =>
  '(_, st) ← DB_Close None (MkStore mergeDB (st_fs s)); Ret (tt, MkStore (st_db s) (st_fs st)).

(** What [doMerge] does once the log is rotated and the lock is free. *)
Definition merge_segments (prevActiveSegId : Z) : DbM (option error) :=
  mr_others run 0 ;;;
  let! r := openMergeDB in
  match r with
  | inl err => gret (Some err)
  | inr mergeDB => fun s =>
      let reader := wal_NewReaderWithMax (db_dataFiles (st_db s)) prevActiveSegId (st_fs s) in
      (let! r := merge_loop (mr_fuel run) 1 reader mergeDB in
       let '(err, mergeDB) := r in
       let! err := match err with
                   | Some err => gret (Some err)
                   | None => write_merge_finished (o_DirPath (db_options mergeDB)) prevActiveSegId
                   end in
       close_merge_db mergeDB ;;; gret err) s
  end.

Definition db_fs_step {A} (f : wal -> FileSys -> A * wal * FileSys) : DbM A := fun s =>
  let '(a, w, fs) := f (db_dataFiles (st_db s)) (st_fs s) in
  Ret (a, MkStore (set_dataFiles w (st_db s)) fs).

Definition doMerge : DbM (option error) :=
  db_with_mu mu_Lock ;;;
  let! db := db_get in
  let! fs := db_fs in
  if db_closed db then db_with_mu mu_Unlock ;;; gret (Some ErrDBClosed) else
  if wal_IsEmpty (db_dataFiles db) fs then db_with_mu mu_Unlock ;;; gret None else
  if db_mergeRunning db then db_with_mu mu_Unlock ;;; gret (Some ErrMergeRunning) else
  db_modify (set_mergeRunning true) ;;;
  let prevActiveSegId := wal_ActiveSegmentID (db_dataFiles db) in
  let! err := db_fs_step wal_OpenNewActiveSegment in
  db_with_mu mu_Unlock ;;;
  let! err := match err with
              | Some err => gret (Some err)
              | None => merge_segments prevActiveSegId
              end in
  db_modify (set_mergeRunning false) ;;;
  gret err.

(** The part of [Merge] under the lock.  When the data files cannot be opened the
    code leaves a nil log in the database; here the closed one stays. *)
Definition merge_reopen : DbM (option error) := with_lock (
  let! _ := closeFiles in
  fun s =>
    let options := db_options (st_db s) in
    '(err, fs) ← loadMergeFiles (o_DirPath options) (st_fs s);
    match err with
    | Some err => Ret (Some err, MkStore (st_db s) fs)
    | None =>
        match openWalFiles options fs with
        | (inl err, fs) => Ret (Some err, MkStore (st_db s) fs)
        | (inr dataFiles, fs) =>
            let db := set_index NewIndexer (set_dataFiles dataFiles (st_db s)) in
            '(err, db, fs) ← loadIndex (mr_fuel run) (mr_reload_now run) db fs;
            Ret (err, MkStore db fs)
        end
    end).

Definition DB_Merge (reopenAfterDone : bool) : DbM (option error) :=
  let! err := doMerge in
  match err with
  | Some err => gret (Some err)
  | None => if negb reopenAfterDone then gret None else merge_reopen
  end.
End merge.
