(* ===== verification/MergeSpec.v ===== *)
(** * Merging, step by step

    What a run of [doMerge] keeps true while other goroutines call the database.
    The keys whose index entry still points into the part of the old log not yet
    copied form [todo_view]; the keys copied so far form [hint_view].  Applying
    the batches committed since the rotation to the union of the two gives what
    the database shows. *)
From S2P Require Import Prelude GoBinary Config GoOs Filepath WalLib Record BTreeLib Index Watch.
From S2P Require Import Store Batch DB Open View BatchSpec CommitSpec Recovery OpenSpec DBSpec Merge.
Open Scope Z_scope.

(** ** Positions *)
Section positions.
Context {W : WalLib} {L : WalLaws W}.

(** Segments as a handle shows them: increasing ids, distinct positions. *)
Record segs_wf (segs : list seg) : Prop := {
  sw_sorted : StronglySorted Z.lt segs.*1;
  sw_ids : forall sg pc, sg ∈ segs -> pc ∈ sg.2 -> SegmentId pc.1 = sg.1;
  sw_pos : forall sg, sg ∈ segs -> NoDup (pos_in_seg ∘ fst <$> sg.2);
}.

Lemma wal_segs_wf w fs : wal_ok w fs -> segs_wf (wal_segs w fs).
Proof.
  intros Hw. pose proof (wal_segs_dir w fs Hw) as Hd.
  assert (H : forall sg, sg ∈ wal_segs w fs -> exists c, seg_ok sg.1 c /\ sg.2 = seg_chunks sg.1 c).
  { intros [id cs] Hin. destruct (dir_segs_file _ _ _ _ _ _ id cs Hd Hin) as (c & _ & Hc & ->). by exists c. }
  split; [apply Hd| |].
  - intros sg pc Hin Hpc. destruct (H sg Hin) as (c & Hc & E). rewrite E in Hpc.
    destruct (seg_chunks_ok _ c Hc) as [Hall _]. rewrite Forall_forall in Hall. by apply Hall.
  - intros sg Hin. destruct (H sg Hin) as (c & Hc & ->). apply (seg_chunks_ok _ c Hc).
Qed.

Lemma segs_wf_cons sg segs : segs_wf (sg :: segs) -> segs_wf segs.
Proof.
  intros [H1 H2 H3]. rewrite fmap_cons in H1. apply StronglySorted_inv in H1 as [H1 _].
  split; [done| |]; intros; [eapply H2|eapply H3]; try done; by right.
Qed.

Lemma segs_log_elem segs pc : pc ∈ segs_log segs <-> exists sg, sg ∈ segs /\ pc ∈ sg.2.
Proof. unfold segs_log. rewrite list_elem_of_bind. naive_solver. Qed.

(** No two chunks of a log share a position, even without their sizes. *)
Lemma segs_positions segs :
  segs_wf segs -> NoDup ((fun pc => (SegmentId pc.1, pos_in_seg pc.1)) <$> segs_log segs).
Proof.
  induction segs as [|[id cs] segs IH]; intros H; [constructor|].
  rewrite segs_log_cons, fmap_app. apply NoDup_app. split_and!.
  - apply (NoDup_fmap_1 snd). rewrite <- list_fmap_compose.
    apply (sw_pos _ H (id, cs)). left.
  - intros x Hx Hx'. apply list_elem_of_fmap in Hx as (pc & -> & Hpc), Hx' as (pc' & E & Hpc').
    injection E as Eid _. apply segs_log_elem in Hpc' as (sg & Hsg & Hin).
    pose proof (sw_ids _ H (id, cs) pc ltac:(left) Hpc) as E1.
    pose proof (sw_ids _ H sg pc' ltac:(by right) Hin) as E2. simpl in E1.
    destruct H as [H1 _ _]. rewrite fmap_cons in H1. apply StronglySorted_inv in H1 as [_ H1].
    rewrite Forall_forall in H1. assert (Hlt : id < sg.1).
    { apply H1, list_elem_of_fmap. by exists sg. }
    simpl in Eid. lia.
  - apply IH. by eapply segs_wf_cons.
Qed.

Lemma segs_log_NoDup segs : segs_wf segs -> NoDup (segs_log segs).*1.
Proof.
  intros H. apply (NoDup_fmap_1 (fun p => (SegmentId p, pos_in_seg p))).
  rewrite <- list_fmap_compose. by apply segs_positions.
Qed.

Lemma same_position segs p q c d :
  segs_wf segs -> (p, c) ∈ segs_log segs -> (q, d) ∈ segs_log segs -> positionEquals p q = true ->
  p = q /\ c = d.
Proof.
  intros Hw Hp Hq E. unfold positionEquals in E.
  assert (H : (SegmentId p, pos_in_seg p) = (SegmentId q, pos_in_seg q)).
  { unfold pos_in_seg. rewrite !andb_true_iff, !Z.eqb_eq in E. destruct E as [[-> ->] ->]. done. }
  pose proof (segs_positions segs Hw) as Hnd.
  apply list_elem_of_lookup in Hp as [i Hi], Hq as [j Hj].
  assert (i = j) as ->.
  { apply (NoDup_lookup _ i j (SegmentId q, pos_in_seg q) Hnd); rewrite list_lookup_fmap;
      [rewrite Hi|rewrite Hj]; simpl; congruence. }
  rewrite Hi in Hj. by injection Hj.
Qed.

Lemma positionEquals_refl p : positionEquals p p = true.
Proof. unfold positionEquals. by rewrite !Z.eqb_refl. Qed.
End positions.

Section merge_spec.
Context {W : WalLib} {WL : WalLaws W} {B : BTreeLib item item_less} {BL : BTreeLaws B}
  {SF : Snowflake} {SL : SnowflakeLaws SF} {MH : MemHashLib}.
Implicit Types (s : Store) (b : Batch) (k v : bytes) (r : LogRecord).

(** ** The two parts of the map *)

(** The live part of the old log still to be read: [P] are its positions. *)
Definition todo_view s (P : list ChunkPosition) : vmap :=
  omap (fun op : option ChunkPosition =>
          p ← op; if decide (p ∈ P) then rec_val <$> fetch (db_dataFiles (st_db s)) (st_fs s) p else None)
    (mt_map (db_index (st_db s))).

(** What the hints written so far stand for. *)
Definition hint_view (hints : list (ChunkPosition * LogRecord)) : vmap := fold_left apply_record hints.*2 ∅.

Lemma todo_view_lookup s P k :
  todo_view s P !! k = match mt_map (db_index (st_db s)) !! k with
                       | Some (Some p) => if decide (p ∈ P) then db_view s !! k else None
                       | _ => None
                       end.
Proof.
  unfold todo_view. rewrite lookup_omap, db_view_lookup. unfold db_rec.
  destruct (mt_map _ !! k) as [[p|]|]; simpl; [|done|done]. by case_decide.
Qed.

Lemma todo_view_nil s : todo_view s [] = ∅.
Proof.
  apply map_eq. intros k. rewrite todo_view_lookup, lookup_empty.
  destruct (mt_map _ !! k) as [[p|]|]; [|done|done]. rewrite decide_False; [done|]. apply not_elem_of_nil.
Qed.

(** A fold of batches reads its start pointwise. *)
Lemma apply_records_pointwise rs m m' k :
  m !! k = m' !! k -> fold_left apply_record rs m !! k = fold_left apply_record rs m' !! k.
Proof.
  revert m m'. induction rs as [|r rs IH]; intros m m' E; [done|]. simpl. apply IH.
  rewrite !apply_record_lookup. by rewrite E.
Qed.

Lemma apply_blocks_pointwise bs m m' k :
  m !! k = m' !! k -> fold_left apply_block bs m !! k = fold_left apply_block bs m' !! k.
Proof.
  revert m m'. induction bs as [|b bs IH]; intros m m' E; [done|]. simpl. apply IH.
  destruct b as [id rs|r]; simpl; [by apply apply_records_pointwise|]. rewrite !apply_record_lookup. by rewrite E.
Qed.

(** The database shows the committed batches over the two parts. *)
Record merge_view (T : Z) s (P : list ChunkPosition) (hints : list (ChunkPosition * LogRecord))
    (bs : list block) : Prop := {
  mv_view : live_eq T (db_view s) (fold_left apply_block bs (todo_view s P ∪ hint_view hints));
  mv_disjoint : forall k, is_Some (todo_view s P !! k) -> hint_view hints !! k = None;
  mv_expiry : forall k v e, todo_view s P !! k = Some (v, e) -> 0 <= e;
}.

Lemma union_lookup (m1 m2 : vmap) k :
  (m1 ∪ m2) !! k = match m1 !! k with Some x => Some x | None => m2 !! k end.
Proof. rewrite lookup_union. destruct (m1 !! k), (m2 !! k); done. Qed.

(** *** A call drops index entries of expired keys *)
Lemma merge_view_shrunk T t s s' P hints bs :
  merge_view T s P hints bs -> shrunk t s s' -> t <= T -> merge_view T s' P hints bs.
Proof.
  intros [H1 H2 H3] (Ef & Ed & Hsub & Hv) Ht.
  assert (Hl : forall k, todo_view s' P !! k = todo_view s P !! k \/
    (todo_view s' P !! k = None /\ exists v e, todo_view s P !! k = Some (v, e) /\ expired e T = true)).
  { intros k. unfold todo_view. rewrite !lookup_omap, Ef, Ed.
    destruct (mt_map (db_index (st_db s')) !! k) as [op|] eqn:E'.
    - left. by rewrite (lookup_weaken _ _ _ _ E' Hsub).
    - destruct (mt_map (db_index (st_db s)) !! k) as [[p|]|] eqn:E; simpl; [|by left|by left].
      destruct (decide (p ∈ P)); [|by left].
      destruct (fetch (db_dataFiles (st_db s)) (st_fs s) p) as [r|] eqn:Er; [|by left].
      right. split; [done|]. exists (lr_Value r), (lr_Expire r). split; [done|].
      assert (Hr : db_view s !! k = Some (rec_val r)).
      { rewrite db_view_lookup. unfold db_rec. rewrite E. simpl. by rewrite Er. }
      assert (Hr' : db_view s' !! k = None).
      { rewrite db_view_lookup. unfold db_rec. by rewrite E'. }
      rewrite live_eq_lookup in Hv. specialize (Hv k). rewrite !live_lookup, Hr, Hr' in Hv. simpl in Hv.
      destruct (expired (lr_Expire r) t) eqn:Ex; [|done]. by apply (expired_mono _ t). }
  split.
  - etransitivity; [apply (live_eq_mono t); [done|exact Hv]|]. etransitivity; [exact H1|].
    apply apply_blocks_live_eq; [done|]. apply live_eq_lookup. intros k.
    rewrite !live_lookup, !union_lookup. destruct (Hl k) as [->|(-> & v & e & Es & Ex)]; [done|].
    rewrite Es, Ex, H2 by eauto. done.
  - intros k Hk. destruct (Hl k) as [E|(E & _)]; rewrite E in Hk; [auto|by destruct Hk].
  - intros k v e. destruct (Hl k) as [->|(-> & _)]; [apply H3|done].
Qed.

(** *** A call commits a batch *)
Lemma db_view_same_entry s s' k :
  db_inv s -> wal_ok (db_dataFiles (st_db s')) (st_fs s') ->
  (forall x, x ∈ wal_log (db_dataFiles (st_db s)) (st_fs s) -> x ∈ wal_log (db_dataFiles (st_db s')) (st_fs s')) ->
  mt_map (db_index (st_db s')) !! k = mt_map (db_index (st_db s)) !! k ->
  db_view s' !! k = db_view s !! k.
Proof.
  intros Hs Hw Hsub E. rewrite !db_view_lookup. unfold db_rec. rewrite E. f_equal.
  destruct (mt_map (db_index (st_db s)) !! k) as [op|] eqn:Ek; [|done].
  destruct (di_index s Hs k op Ek) as (p & r & -> & Hin & Hr & _). simpl.
  rewrite (fetch_log _ _ p r Hw), (fetch_log _ _ p r); try done; try apply Hs; try apply Hr. auto.
Qed.

Lemma merge_view_grown T t s s' P hints bs id rs ps :
  merge_view T s P hints bs -> db_inv s -> wal_ok (db_dataFiles (st_db s')) (st_fs s') -> t <= T ->
  (forall p, p ∈ P -> p ∈ (wal_log (db_dataFiles (st_db s)) (st_fs s)).*1) ->
  wal_log (db_dataFiles (st_db s')) (st_fs s')
    = wal_log (db_dataFiles (st_db s)) (st_fs s) ++ zip ps (record_bytes <$> batch_records id rs) ->
  length ps = (length rs + 1)%nat ->
  live_eq t (db_view s') (fold_left apply_record rs (db_view s)) ->
  index_follows (lr_Key <$> rs) ps (db_index (st_db s)) (db_index (st_db s')) ->
  merge_view T s' P hints (bs ++ [Finished id rs]).
Proof.
  intros [H1 H2 H3] Hs Hw' Ht HP Hlog Hlen Hv Hfol.
  assert (Hl : forall k, todo_view s' P !! k = if decide (k ∈ lr_Key <$> rs) then None else todo_view s P !! k).
  { intros k. destruct (Hfol k) as [A1 A2]. rewrite !todo_view_lookup. case_decide as Hk.
    - destruct (A2 Hk) as [->|(p & -> & Hp)]; [done|]. rewrite decide_False; [done|]. intros HpP.
      pose proof (segs_log_NoDup _ (wal_segs_wf _ _ Hw')) as Hnd.
      change (NoDup (wal_log (db_dataFiles (st_db s')) (st_fs s')).*1) in Hnd.
      rewrite Hlog, fmap_app, fst_zip in Hnd.
      + apply NoDup_app in Hnd as (_ & Hnd & _). by apply (Hnd p); [apply HP|].
      + unfold batch_records. rewrite length_fmap, length_app, length_fmap. simpl. lia.
    - rewrite A1 by done. rewrite (db_view_same_entry s s' k); try done; [|by apply A1].
      intros x Hx. rewrite Hlog, elem_of_app. by left. }
  split.
  - rewrite fold_left_app. simpl. etransitivity; [apply (live_eq_mono t); [done|exact Hv]|].
    etransitivity; [apply apply_records_live_eq; [done|exact H1]|].
    apply live_eq_lookup. intros k. rewrite !live_lookup.
    assert (E : fold_left apply_record rs (fold_left apply_block bs (todo_view s P ∪ hint_view hints)) !! k
      = fold_left apply_record rs (fold_left apply_block bs (todo_view s' P ∪ hint_view hints)) !! k); [|by rewrite E].
    destruct (decide (k ∈ lr_Key <$> rs)) as [Hk|Hk].
    + clear -Hk. generalize (fold_left apply_block bs (todo_view s P ∪ hint_view hints)).
      generalize (fold_left apply_block bs (todo_view s' P ∪ hint_view hints)).
      induction rs as [|r rs IH]; intros m m'; [by apply not_elem_of_nil in Hk|].
      rewrite fmap_cons in Hk. simpl. destruct (decide (k ∈ lr_Key <$> rs)) as [Hk'|Hk']; [by apply IH|].
      apply elem_of_cons in Hk as [->|]; [|done]. apply apply_records_pointwise.
      by rewrite !apply_record_lookup, !decide_True.
    + apply apply_records_pointwise, apply_blocks_pointwise. rewrite !union_lookup, Hl. by rewrite decide_False.
  - intros k. rewrite Hl. case_decide; [by intros []|]. apply H2.
  - intros k v e. rewrite Hl. case_decide; [done|]. apply H3.
Qed.

(** *** The merge reads one record of the old log *)
Lemma index_at_position s k p r :
  db_inv s -> mt_map (db_index (st_db s)) !! k = Some (Some p) ->
  (p, record_bytes r) ∈ wal_log (db_dataFiles (st_db s)) (st_fs s) -> LogRecord_ok r ->
  lr_Key r = k /\ rec_ok r /\ lr_Type r = LogRecordNormal /\ db_view s !! k = Some (rec_val r).
Proof.
  intros Hs Hk Hin Hr. destruct (di_index s Hs k _ Hk) as (q & r' & [= <-] & Hin' & Hr' & Hk' & Ht').
  destruct (same_position (wal_segs (db_dataFiles (st_db s)) (st_fs s)) p p _ _ (wal_segs_wf _ _ (di_wal s Hs)) Hin Hin')
    as [_ E]; [apply positionEquals_refl|].
  assert (r = r') as ->.
  { pose proof (decodeLogRecord_spec r Hr) as D. rewrite E, decodeLogRecord_spec in D by apply Hr'. congruence. }
  split_and!; try done. rewrite db_view_lookup. unfold db_rec. rewrite Hk. simpl.
  by rewrite (fetch_log _ _ _ r') by (try apply Hs; try apply Hr'; done).
Qed.

(** The record is not what the index points to. *)
Lemma merge_view_skip T s p P hints bs :
  merge_view T s (p :: P) hints bs ->
  (forall k, mt_map (db_index (st_db s)) !! k = Some (Some p) ->
     forall v e, db_view s !! k = Some (v, e) -> expired e T = true) ->
  merge_view T s P hints bs.
Proof.
  intros [H1 H2 H3] Hp.
  assert (Hl : forall k, todo_view s P !! k = todo_view s (p :: P) !! k \/
    (todo_view s P !! k = None /\ forall v e, todo_view s (p :: P) !! k = Some (v, e) -> expired e T = true)).
  { intros k. rewrite !todo_view_lookup.
    destruct (mt_map _ !! k) as [[q|]|] eqn:E; [|by left|by left].
    destruct (decide (q ∈ P)) as [Hq|Hq]; [left; by rewrite decide_True by (by right)|].
    destruct (decide (q ∈ p :: P)) as [Hq'|Hq']; [|by left].
    apply elem_of_cons in Hq' as [->|]; [|done]. right. split; [done|]. by apply Hp. }
  split.
  - etransitivity; [exact H1|]. apply apply_blocks_live_eq; [done|]. apply live_eq_lookup. intros k.
    rewrite !live_lookup, !union_lookup. destruct (Hl k) as [->|[-> Hex]]; [done|].
    destruct (todo_view s (p :: P) !! k) as [[v e]|] eqn:Es; [|done].
    rewrite (Hex v e eq_refl), H2 by eauto. done.
  - intros k Hk. destruct (Hl k) as [E|(E & _)]; rewrite E in Hk; [auto|by destruct Hk].
  - intros k v e. destruct (Hl k) as [->|(-> & _)]; [apply H3|done].
Qed.

(** The record is copied to position [q]. *)
Lemma merge_view_copy T s p q r r' P hints bs :
  merge_view T s (p :: P) hints bs -> p ∉ P -> mt_map (db_index (st_db s)) !! (lr_Key r) = Some (Some p) ->
  db_view s !! lr_Key r = Some (rec_val r) ->
  (forall k, mt_map (db_index (st_db s)) !! k = Some (Some p) -> k = lr_Key r) ->
  lr_Key r' = lr_Key r -> rec_val r' = rec_val r -> lr_Type r' = LogRecordNormal ->
  merge_view T s P (hints ++ [(q, r')]) bs.
Proof.
  intros [H1 H2 H3] HpP Hk Hv Huniq Ek Ev Et.
  assert (Hh : forall k, hint_view (hints ++ [(q, r')]) !! k
    = if decide (lr_Key r = k) then Some (rec_val r) else hint_view hints !! k).
  { intros k. unfold hint_view. rewrite fmap_app, fold_left_app. simpl. rewrite apply_record_lookup, Ek.
    case_decide; [|done]. unfold rec_opt. rewrite decide_False, Ev; [done|]. rewrite Et. discriminate. }
  assert (Hl : forall k, todo_view s P !! k = if decide (lr_Key r = k) then None else todo_view s (p :: P) !! k).
  { intros k. rewrite !todo_view_lookup. case_decide as E.
    - rewrite <- E, Hk. by rewrite decide_False.
    - destruct (mt_map _ !! k) as [[p'|]|] eqn:Ep; [|done|done].
      assert (p' <> p) by (intros ->; apply E; symmetry; by apply Huniq).
      destruct (decide (p' ∈ P)); [by rewrite decide_True by (by right)|].
      rewrite decide_False; [done|]. by rewrite not_elem_of_cons. }
  split.
  - etransitivity; [exact H1|]. apply apply_blocks_live_eq; [done|]. apply live_eq_lookup. intros k.
    rewrite !live_lookup, !union_lookup, Hl, Hh. case_decide as E; [|done]. subst k.
    rewrite todo_view_lookup, Hk, decide_True, Hv by left. done.
  - intros k. rewrite Hl, Hh. case_decide; [by intros []|]. apply H2.
  - intros k v e. rewrite Hl. case_decide; [done|]. apply H3.
Qed.

(** ** The database being merged *)
Record main_side (T : Z) (options : Options) (old : list seg) (n : Z) s (new : list seg)
    (bss : list (list block)) : Prop := {
  mn_good : db_good T s;
  mn_options : db_options (st_db s) = options;
  mn_segs : wal_segs (db_dataFiles (st_db s)) (st_fs s) = old ++ new;
  mn_new : new <> [];
  mn_above : Forall (fun sg : seg => n < sg.1) new;
  mn_blocks : Forall2 seg_blocks new bss;
}.

(** [old] is the log up to the rotation, [P] the positions of it still to be
    read, [Tend] a time after all others. *)
Definition merging (T Tend : Z) (options : Options) (old : list seg) (n : Z) (P : list ChunkPosition)
    (hints : list (ChunkPosition * LogRecord)) s : Prop :=
  exists new bss, main_side T options old n s new bss /\ merge_view Tend s P hints (concat bss).

Lemma merging_good T Tend options old n P hints s :
  merging T Tend options old n P hints s -> db_good T s.
Proof. intros (new & bss & H & _). apply H. Qed.

Lemma merging_evolved T T' Tend options old n P hints s s' :
  merging T Tend options old n P hints s -> (forall p, p ∈ P -> p ∈ (segs_log old).*1) ->
  T' <= Tend -> db_good T' s' -> db_options (st_db s') = db_options (st_db s) -> evolved T' s s' ->
  merging T' Tend options old n P hints s'.
Proof.
  intros (new & bss & [M1 M2 M3 M4 M5 M6] & Hv) HP HT Hg Ho [Hm [Hs|Hgr]].
  - exists new, bss. split; [|by apply (merge_view_shrunk Tend T' s)].
    destruct Hs as (E1 & E2 & _). split; try done; [congruence|]. by rewrite E1, E2.
  - destruct Hgr as (G1 & G2 & G3 & G4 & id & rs & ps & G5 & G6 & G7 & G8 & G9). rewrite M3 in G7.
    destruct (append_blocks n old new _ bss (Finished id rs) _ G7 M4 M5 M6 G5)
      as (new' & bss' & A1 & A2 & A3 & A4 & A5 & A6).
    { apply zip_snd_length. rewrite G6, length_fmap. simpl. unfold batch_records.
      rewrite length_app, length_fmap. simpl. lia. }
    assert (Hlog : wal_log (db_dataFiles (st_db s')) (st_fs s') = wal_log (db_dataFiles (st_db s)) (st_fs s)
      ++ zip ps (record_bytes <$> batch_records id rs)).
    { unfold wal_log. by rewrite A1, M3, !segs_log_app, A6, (assoc_L (++)). }
    exists new', bss'. split; [split; try done; congruence|]. rewrite A5.
    apply (merge_view_grown Tend T' s s' P hints _ id rs ps); try done; [apply M1|apply Hg|].
    intros p Hp. unfold wal_log. rewrite M3, segs_log_app, fmap_app, elem_of_app. left. auto.
Qed.

(** Files of other directories do not matter. *)
Record outside (d : bytes) (fs fs' : FileSys) : Prop := {
  out_files : forall p, p.1 <> d -> fs_files fs' !! p = fs_files fs !! p;
  out_denies : fs_denies fs' = fs_denies fs;
}.
Record inside (d : bytes) (fs fs' : FileSys) : Prop := {
  in_files : forall p, p.1 = d -> fs_files fs' !! p = fs_files fs !! p;
  in_denies : fs_denies fs' = fs_denies fs;
}.

Lemma outside_refl d fs : outside d fs fs.
Proof. done. Qed.

Lemma outside_trans d fs1 fs2 fs3 : outside d fs1 fs2 -> outside d fs2 fs3 -> outside d fs1 fs3.
Proof. intros [A1 A2] [B1 B2]. split; [|congruence]. intros p Hp. by rewrite B1, A1. Qed.

Lemma fs_frame_outside d ext fs fs' : fs_frame d ext fs fs' -> outside d fs fs'.
Proof. intros [H1 H2]. split; [|done]. intros p Hp. apply H1. intros id _ ->. by rewrite SegmentFileName_dir in Hp. Qed.

Lemma open_frame_outside d fs fs' : open_frame d fs fs' -> outside d fs fs'.
Proof.
  intros [H1 H2]. split; [|done]. intros p Hp. apply H1. intros id _.
  split; intros ->; by rewrite SegmentFileName_dir in Hp.
Qed.

Lemma outside_inside d d' fs fs' : outside d fs fs' -> d' <> d -> inside d' fs fs'.
Proof. intros [H1 H2] Hne. split; [|done]. intros p <-. by apply H1. Qed.

Lemma removed_outside d fs : outside d fs (os_RemoveAll fs d).2.
Proof. split; [intros p; apply os_RemoveAll_outside|apply os_RemoveAll_denies]. Qed.

Lemma disk_rep_inside dir fs fs' pre post bss fin hints :
  inside dir fs fs' -> disk_rep dir fs pre post bss fin hints -> disk_rep dir fs' pre post bss fin hints.
Proof.
  intros [E Ed] [D1 D2 D3 D4 D5 D6 D7 D8 D9 D10]. split; try done.
  - apply (dir_segs_frame _ _ fs); [done|]. intros id _. apply E, SegmentFileName_dir.
  - rewrite <- D2. apply getMergeFinSegmentId_frame; [done|apply E, SegmentFileName_dir].
  - destruct D8 as (hs & H1 & H2). exists hs. split; [|done].
    apply (dir_segs_frame _ _ fs); [done|]. intros id _. apply E, SegmentFileName_dir.
Qed.

(** A database whose directory is untouched. *)
Lemma good_inside T s fs' :
  db_good T s -> inside (o_DirPath (db_options (st_db s))) (st_fs s) fs' ->
  let s' := MkStore (st_db s) fs' in
  db_good T s' /\ db_view s' = db_view s /\ wal_segs (db_dataFiles (st_db s)) fs'
    = wal_segs (db_dataFiles (st_db s)) (st_fs s).
Proof.
  intros [G1 G2 G3 G4 G5 (D1 & D2 & pre & post & bss & fin & hints & D3 & D4)] Hin s'.
  destruct (wal_ok_frame (db_dataFiles (st_db s)) (st_fs s) fs' (di_wal s G1)) as [W1 W2].
  { intros id _. apply Hin. by rewrite SegmentFileName_dir. }
  destruct (db_inv_extend (db_dataFiles (st_db s)) fs' s G1 W1 (di_pend s G1)) as [I1 I2].
  { intros x. unfold wal_log. by rewrite W2. }
  assert (E : MkStore (set_dataFiles (db_dataFiles (st_db s)) (st_db s)) fs' = s') by (by destruct s as [[] ?]).
  rewrite E in I1, I2. split; [|done]. split; try done. split; [done|]. split; [done|].
  exists pre, post, bss, fin, hints. split; [by apply (disk_rep_inside _ (st_fs s))|]. by rewrite I2.
Qed.

Lemma merging_inside T Tend options old n P hints s fs' :
  merging T Tend options old n P hints s -> inside (o_DirPath options) (st_fs s) fs' ->
  merging T Tend options old n P hints (MkStore (st_db s) fs').
Proof.
  intros (new & bss & [M1 M2 M3 M4 M5 M6] & [V1 V2 V3]) Hin. rewrite <- M2 in Hin.
  destruct (good_inside T s fs' M1 Hin) as (G1 & G2 & G3).
  assert (Et : todo_view (MkStore (st_db s) fs') P = todo_view s P).
  { apply map_eq. intros k. rewrite !todo_view_lookup. by rewrite G2. }
  exists new, bss. split; [split; try done; simpl; congruence|]. split; by rewrite ?G2, ?Et.
Qed.

(** ** The merge database *)
Record merge_side (mdir : bytes) (fs : FileSys) (mdb : DB) (hints : list (ChunkPosition * LogRecord)) : Prop := {
  ms_dir : mdir ∈ fs_dirs fs;
  ms_wal : wal_ok (db_dataFiles mdb) fs;
  ms_wal_dir : wal_dir (db_dataFiles mdb) = mdir;
  ms_wal_ext : wal_ext (db_dataFiles mdb) = dataFileNameSuffix;
  ms_log : wal_log (db_dataFiles mdb) fs = (fun h => (h.1, record_bytes h.2)) <$> hints;
  ms_recs : Forall (fun h : ChunkPosition * LogRecord => rec_ok h.2 /\ lr_Type h.2 = LogRecordNormal) hints;
  ms_header : len (db_encodeHeader mdb) = maxLogRecordHeaderSize;
  ms_hint : exists h cs, db_hintFile mdb = Some h /\ wal_ok h fs /\ wal_dir h = mdir /\
    wal_ext h = hintFileNameSuffix /\ wal_limit h = MaxInt64 /\ wal_segs h fs = [(1, cs)] /\
    cs.*2 = (fun h => hint_bytes (lr_Key h.2) h.1) <$> hints;
  ms_fin : dir_segs seg_ok seg_chunks mdir mergeFinNameSuffix fs [];
}.

(** What closing the merge database relies on. *)
Definition closable (mdir : bytes) (mdb : DB) : Prop :=
  o_DirPath (db_options mdb) = mdir /\ db_mergeRunning mdb = false /\ db_mu mdb = mu_free /\
  (0 < o_WatchQueueSize (db_options mdb) -> exists w, db_watcher mdb = Some w /\ w_done w = false).

Lemma merge_side_inside mdir fs fs' mdb hints :
  merge_side mdir fs mdb hints -> inside mdir fs fs' -> mdir ∈ fs_dirs fs' -> merge_side mdir fs' mdb hints.
Proof.
  intros [S1 S2 S3 S4 S5 S6 S7 (h & cs & H1 & H2 & H3 & H4 & H5 & H6 & H7) S9] Hin Hd.
  destruct (wal_ok_frame _ fs fs' S2) as [W1 W2].
  { intros id _. apply Hin. by rewrite SegmentFileName_dir. }
  destruct (wal_ok_frame h fs fs' H2) as [W3 W4].
  { intros id _. apply Hin. by rewrite SegmentFileName_dir. }
  split; try done.
  - unfold wal_log in *. by rewrite W2.
  - exists h, cs. split_and!; try done. by rewrite W4.
  - apply (dir_segs_frame _ _ fs); [done|]. intros id _. apply Hin, SegmentFileName_dir.
Qed.

End merge_spec.
