(* ===== verification/MergeLoop.v ===== *)
(** * What [doMerge] leaves

    The rounds of the merge with arbitrary calls of the API between them, the
    file that ends the merge, and the whole of [doMerge]: when it returns without
    an error, the database is the one the calls made and the merge directory is
    ready to be taken over. *)
From S2P Require Import Prelude GoBinary Config GoOs Filepath WalLib Record BTreeLib Index Watch.
From S2P Require Import Store Batch DB Open View BatchSpec CommitSpec Recovery OpenSpec DBSpec Merge MergeSpec.
Open Scope Z_scope.

Section merge_loop.
Context {W : WalLib} {WL : WalLaws W} {B : BTreeLib item item_less} {BL : BTreeLaws B}
  {SF : Snowflake} {SL : SnowflakeLaws SF} {MH : MemHashLib}.
Implicit Types (s : Store) (b : Batch) (k v : bytes) (r : LogRecord).

(** ** Calls of other goroutines *)
Definition calls (ops : list dop) : DbM unit := let! _ := dops_run ops in gret tt.

(** The time after the calls of the rounds before [i]. *)
Fixpoint time_at (T : Z) (ops : nat -> list dop) (i : nat) : Z :=
  match i with O => T | S i => times_end (time_at T ops i) (ops i) end.

(** What those calls make of the map. *)
Fixpoint spec_at (m : vmap) (ops : nat -> list dop) (i : nat) : vmap :=
  match i with O => m | S i => (dops_spec (ops i) (spec_at m ops i)).2 end.

(** The log refuses one of [ops], called in order on the store [s]: the calls
    before it do what their specification says. *)
Definition refused_in (T : Z) (ops : list dop) (m : vmap) s : Prop :=
  exists ops1 o ops2 xs s1, ops = ops1 ++ o :: ops2 /\ dops_run ops1 s = Ret (xs, s1) /\
    db_good (times_end T ops1) s1 /\ live_eq (times_end T ops1) (db_view s1) (dops_spec ops1 m).2 /\
    refused_op o (db_view s1) s1.

Lemma calls_keep (I : Z -> Store -> Prop) (options : Options) Tend T ops s m :
  (forall T s, I T s -> db_good T s /\ db_options (st_db s) = options) ->
  (forall T T' s s', I T s -> T' <= Tend -> db_good T' s' -> db_options (st_db s') = options ->
     evolved T' s s' -> I T' s') ->
  I T s -> live_eq T (db_view s) m -> times_ok T ops -> Forall dop_ok ops -> times_end T ops <= Tend ->
  (exists s', calls ops s = Ret (tt, s') /\ I (times_end T ops) s' /\
     live_eq (times_end T ops) (db_view s') (dops_spec ops m).2) \/
  refused_in T ops m s.
Proof.
  intros Hgood Hstep. revert T s m. induction ops as [|o ops IH]; intros T s m HI Hm Ht Hok Hend.
  { left. by exists s. }
  destruct Ht as [Ht1 Ht2]. apply Forall_cons in Hok as [Ho Hok]. cbn [times_end] in Hend |- *.
  destruct (Hgood T s HI) as [Hg Hopt].
  destruct (dop_spec_live_eq T o (db_view s) m Hm) as [_ Em]; [lia|lia|].
  destruct (dop_step T o s Hg Ht1 Ho) as [(s1 & Er & Hg1 & Ho1 & Hv1 & Hev)|Href].
  - assert (Hle : (dop_times o).2 <= times_end (dop_times o).2 ops).
    { clear -Ht2. revert Ht2. generalize (dop_times o).2. induction ops as [|o' ops IH]; intros t Ht; simpl; [lia|].
      destruct Ht as [H1 H2]. specialize (IH _ H2). lia. }
    destruct (IH (dop_times o).2 s1 (dop_spec o m).2) 
      as [(s2 & E & HI2 & Hv2)|(ops1 & o' & ops2 & xs & s' & -> & R2 & R3 & R4 & R5)]; try done.
    + apply (Hstep T _ s); try done; [lia|congruence].
    + by etransitivity.
    + left. exists s2. split; [|split; [done|]].
      2: { cbn [dops_spec]. destruct (dop_spec o m) as [x m1]. simpl in Hv2. by destruct (dops_spec ops m1). }
      clear Hv2. unfold calls in *. cbn [dops_run].
      unfold gbind in E |- *. rewrite Er. unfold gret in *.
      by destruct (dops_run ops s1) as [[xs s3]| |].
    + right. eexists (o :: ops1), o', ops2, _, s'. split; [done|]. split.
      { cbn [dops_run]. rewrite (gbind_Ret _ _ _ _ _ Er), (gbind_Ret _ _ _ _ _ R2). reflexivity. }
      split; [done|]. split; [|done]. cbn [dops_spec].
      destruct (dop_spec o m) as [x m1]. simpl in R4. by destruct (dops_spec ops1 m1).
  - right. by exists [], o, ops, [], s.
Qed.

Context (run : MergeRun) (options : Options) (Tend T0 : Z) (ops : nat -> list dop).

(** The other goroutines make the calls [ops i] before round [i], at times that
    grow and end before [Tend]. *)
Definition others_ok : Prop :=
  forall i, mr_others run i = calls (ops i) /\ times_ok (time_at T0 ops i) (ops i) /\
    Forall dop_ok (ops i) /\ time_at T0 ops (S i) <= Tend.

Lemma merging_calls i old n P hints s m :
  others_ok -> live_eq (time_at T0 ops i) (db_view s) m -> merging (time_at T0 ops i) Tend options old n P hints s ->
  (forall p, p ∈ P -> p ∈ (segs_log old).*1) ->
  (exists s', mr_others run i s = Ret (tt, s') /\
     merging (time_at T0 ops (S i)) Tend options old n P hints s' /\
     live_eq (time_at T0 ops (S i)) (db_view s') (dops_spec (ops i) m).2 /\
     outside (o_DirPath options) (st_fs s) (st_fs s') /\ fs_dirs (st_fs s') = fs_dirs (st_fs s) /\
     db_mergeRunning (st_db s') = db_mergeRunning (st_db s)) \/
  refused_in (time_at T0 ops i) (ops i) m s.
Proof.
  intros Hoth Hv Hm HP. destruct (Hoth i) as (-> & Ht & Hok & Hend).
  set (I T s' := merging T Tend options old n P hints s' /\
     outside (o_DirPath options) (st_fs s) (st_fs s') /\ fs_dirs (st_fs s') = fs_dirs (st_fs s) /\
     db_mergeRunning (st_db s') = db_mergeRunning (st_db s)).
  destruct (calls_keep I options Tend (time_at T0 ops i) (ops i) s m) as [H|H]; try done.
  - intros T s' [(new & bss & M & _) _]. split; apply M.
  - intros T T' s1 s2 (H1 & H2 & H3 & H4) HT Hg Ho Hev.
    assert (Hd1 : o_DirPath (db_options (st_db s1)) = o_DirPath options).
    { destruct H1 as (new & bss & M & _). by rewrite (mn_options _ _ _ _ _ _ _ M). }
    assert (Ho1 : db_options (st_db s1) = options) by (destruct H1 as (new & bss & M & _); apply M).
    assert (Hg1 : db_good T s1) by by eapply merging_good.
    split; [by apply (merging_evolved T T' Tend options old n P hints s1); [| | | |congruence|]|].
    destruct Hev as [Hm' [(E1 & _)|(_ & _ & Hfr & Hd & _)]].
    + rewrite E1, Hm'. by split_and!.
    + destruct (dg_disk _ _ Hg1) as (D1 & _). rewrite D1, Hd1 in Hfr.
      split; [|split; congruence]. apply (outside_trans _ _ (st_fs s1)); [done|]. by eapply fs_frame_outside.
  - left. destruct H as (s' & H1 & (H2 & H3 & H4 & H5) & H6). exists s'. by split_and!.
  - by right.
Qed.

(** ** The rounds of a run *)

(** The store after [k] rounds of the copying loop, at round [i] with [reader],
    [mdb] and [s]. *)
Fixpoint loop_store (k i : nat) (reader : wal_reader) (mdb : DB) s : outcome Store :=
  match k with
  | O => Ret s
  | S k =>
      '(_, s) ← mr_others run i s;
      match reader_Next reader with
      | (inl _, _) => Panic
      | (inr (chunk, p), reader) =>
          r ← decodeLogRecord chunk;
          '((err, mdb), s) ← merge_record run r p mdb s;
          match err with Some _ => Panic | None => loop_store k (S i) reader mdb s end
      end
  end.

(** The store on which the calls of round [j] are made, [s] being the store after
    the rotation: those of round 0 come before the merge database is opened. *)
Definition segments_store (n : Z) s (j : nat) : outcome Store :=
  match j with
  | O => Ret s
  | S k =>
      '(_, s) ← mr_others run 0 s;
      '(res, s) ← openMergeDB run s;
      match res with
      | inl _ => Panic
      | inr mdb => loop_store k 1 (wal_NewReaderWithMax (db_dataFiles (st_db s)) n (st_fs s)) mdb s
      end
  end.

(** ** What may fail *)
Definition wal_refused (e : error) : Prop :=
  wal_open_error e \/
  (exists w d fs w' fs', wal_Write w d fs = (inl e, w', fs')) \/
  (exists w fs w' fs', wal_OpenNewActiveSegment w fs = (Some e, w', fs')) \/
  (exists w fs w' fs', wal_Close w fs = (Some e, w', fs')).

(** An error of the log library or of the system. *)
Definition merge_error (fs : FileSys) (e : error) : Prop := wal_refused e \/ os_error fs e.

Lemma write_refused w d fs w' fs' e : wal_Write w d fs = (inl e, w', fs') -> wal_refused e.
Proof. intros E. right; left. by eexists _, _, _, _, _. Qed.

Lemma open_refused o fs fs' e : wal_Open o fs = (inl e, fs') -> wal_refused e.
Proof. intros E. left. by eexists _, _, _. Qed.

(** ** Copying one record *)
Lemma exts_frame mdir ext ext' fs fs' :
  fs_frame mdir ext fs fs' -> ext ∈ wal_exts -> ext' ∈ wal_exts -> ext <> ext' ->
  forall id, seg_id_ok id ->
    fs_files fs' !! SegmentFileName mdir ext' id = fs_files fs !! SegmentFileName mdir ext' id.
Proof. intros H H1 H2 Hne id Hid. by apply (frame_file mdir ext). Qed.

Definition merged_record r : LogRecord :=
  MkLogRecord (lr_Key r) (lr_Value r) (lr_Type r) mergeFinishedBatchID (lr_Expire r).

Lemma merged_record_ok r : rec_ok r -> rec_ok (merged_record r).
Proof. intros Hr. apply (set_id_ok mergeFinishedBatchID r Hr). unfold mergeFinishedBatchID. lia. Qed.

Lemma merge_write_spec mdir mdb r s hints :
  merge_side mdir (st_fs s) mdb hints -> closable mdir mdb -> rec_ok r -> lr_Type r = LogRecordNormal ->
  exists err mdb' s', merge_write mdb r s = Ret ((err, mdb'), s') /\ st_db s' = st_db s /\ closable mdir mdb' /\
    outside mdir (st_fs s) (st_fs s') /\
    match err with
    | Some e => wal_refused e
    | None => exists p, merge_side mdir (st_fs s') mdb' (hints ++ [(p, merged_record r)])
    end.
Proof.
  intros [S1 S2 S3 S4 S5 S6 S7 (h & cs & H1 & H2 & H3 & H4 & H5 & H6 & H7) S9] Hcl Hr Ht.
  destruct exts_ne as (N1 & N2 & N3). destruct exts_in as (I1 & I2 & I3).
  unfold merge_write. fold (merged_record r). pose proof (merged_record_ok r Hr) as Hr'.
  destruct (encodeLogRecord_spec (merged_record r) (db_encodeHeader mdb) []) as (hd & -> & Hhd);
    [apply Hr'|done|]. cbn [mbind outcome_bind app]. simpl db_dataFiles. simpl lr_Key.
  destruct (wal_Write (db_dataFiles mdb) (record_bytes (merged_record r)) (st_fs s)) as [[[e|p] w1] fs1] eqn:Ew.
  { eexists (Some e), _, _. split; [reflexivity|]. split; [done|]. split; [done|].
    split; [by eapply fs_frame_outside; rewrite <- S3; apply (wal_Write_fails _ _ _ _ _ _ S2 Ew)|by eapply write_refused]. }
  destruct (wal_Write_law _ _ _ _ _ _ S2 Ew) as (W1 & W2 & W3 & W4 & W5 & W6 & W7).
  assert (Hlog : wal_log w1 fs1 = wal_log (db_dataFiles mdb) (st_fs s) ++ [(p, record_bytes (merged_record r))])
    by (unfold wal_log; by rewrite (segs_append_log _ _ _ W5)).
  assert (Hp : ChunkPosition_ok p).
  { eapply (wal_log_inv w1 fs1 p); [done|]. rewrite Hlog, elem_of_app. right. by left. }
  rewrite encodeHintRecord_spec by done. cbn [mbind outcome_bind]. simpl db_hintFile. rewrite H1.
  rewrite S3, S4 in W6.
  destruct (wal_ok_frame h (st_fs s) fs1 H2) as [F1 F2].
  { intros id Hid. rewrite H3, H4. by apply (exts_frame mdir dataFileNameSuffix). }
  destruct (wal_Write h (hint_bytes (lr_Key r) p) fs1) as [[[e|q] h'] fs2] eqn:Eh.
  { eexists (Some e), _, _. split; [reflexivity|]. split; [done|]. split; [done|]. split; [|by eapply write_refused].
    apply (outside_trans _ _ fs1); [by eapply fs_frame_outside|]. eapply fs_frame_outside. rewrite <- H3.
    apply (wal_Write_fails _ _ _ _ _ _ F1 Eh). }
  destruct (wal_Write_law _ _ _ _ _ _ F1 Eh) as (K1 & K2 & K3 & K4 & K5 & K6 & K7).
  pose proof (wal_Write_stays _ _ _ _ _ _ [] 1 cs F1 Eh ltac:(by rewrite F2) (or_introl H5)) as Hstay.
  rewrite H3, H4 in K6.
  eexists None, _, _. split; [reflexivity|]. split; [done|]. split; [done|].
  split; [apply (outside_trans _ _ fs1); by eapply fs_frame_outside|]. exists p.
  destruct (wal_ok_frame w1 fs1 fs2 W1) as [G1 G2].
  { intros id Hid. rewrite W2, W3, S3, S4. by apply (exts_frame mdir hintFileNameSuffix). }
  split; simpl; try done.
  - by rewrite K7, W7.
  - congruence.
  - congruence.
  - unfold wal_log in *. by rewrite G2, Hlog, S5, fmap_app.
  - apply Forall_app. split; [done|]. by apply Forall_singleton.
  - exists h', (cs ++ [(q, hint_bytes (lr_Key r) p)]). split_and!; try done; try congruence.
    + rewrite (wal_Write_limit _ _ _ _ _ _ Eh). done.
    + by rewrite !fmap_app, H7.
  - apply (dir_segs_frame _ _ (st_fs s)); [done|]. intros id Hid.
    rewrite (exts_frame mdir hintFileNameSuffix mergeFinNameSuffix fs1 fs2) by done.
    by apply (exts_frame mdir dataFileNameSuffix).
Qed.

(** ** One round *)
Lemma rlock_free s :
  db_mu (st_db s) = mu_free ->
  exists s1, db_with_mu mu_RLock s = Ret (tt, s1) /\ db_get s1 = Ret (st_db s1, s1) /\
    db_index (st_db s1) = db_index (st_db s) /\ db_with_mu mu_RUnlock s1 = Ret (tt, s).
Proof.
  intros H. unfold db_with_mu. rewrite H. eexists. split; [reflexivity|]. split; [reflexivity|]. split; [done|].
  destruct s as [[] ?]. simpl in *. by subst.
Qed.

Definition merge_now_ok : Prop := mr_now run <= Tend.

Lemma merge_record_spec mdir T mdb r p P old n s hints :
  merge_now_ok -> merging T Tend options old n (p :: P) hints s -> p ∉ P ->
  (p, record_bytes r) ∈ segs_log old -> LogRecord_ok r -> mdir <> o_DirPath options ->
  merge_side mdir (st_fs s) mdb hints -> closable mdir mdb ->
  exists err mdb' s', merge_record run r p mdb s = Ret ((err, mdb'), s') /\ closable mdir mdb' /\
    st_db s' = st_db s /\ outside mdir (st_fs s) (st_fs s') /\
    match err with
    | Some e => wal_refused e
    | None =>
        exists hints', (length hints' <= S (length hints))%nat /\ merging T Tend options old n P hints' s' /\
          merge_side mdir (st_fs s') mdb' hints'
    end.
Proof.
  intros Hnow (new & bss & M & V) HpP Hin Hr Hmd Hside Hcl. pose proof M as [M1 M2 M3 M4 M5 M6].
  assert (Hinlog : (p, record_bytes r) ∈ wal_log (db_dataFiles (st_db s)) (st_fs s)).
  { unfold wal_log. rewrite M3, segs_log_app, elem_of_app. by left. }
  assert (Hat : forall k, mt_map (db_index (st_db s)) !! k = Some (Some p) ->
    lr_Key r = k /\ rec_ok r /\ lr_Type r = LogRecordNormal /\ db_view s !! k = Some (rec_val r)).
  { intros k Hk. by apply (index_at_position s k p r (dg_inv _ _ M1)). }
  assert (Hskip : (forall k, mt_map (db_index (st_db s)) !! k = Some (Some p) -> expired (lr_Expire r) Tend = true) ->
    exists hints', (length hints' <= S (length hints))%nat /\ merging T Tend options old n P hints' s /\
      merge_side mdir (st_fs s) mdb hints').
  { intros Hex. exists hints. split; [lia|]. split; [|done]. exists new, bss. split; [done|].
    apply (merge_view_skip _ _ p); [done|]. intros k Hk v e Hv.
    destruct (Hat k Hk) as (_ & _ & _ & E). rewrite E in Hv. injection Hv as _ <-. by apply (Hex k). }
  unfold merge_record. destruct (bool_decide (lr_Type r = LogRecordNormal) && _) eqn:Eg.
  - destruct (rlock_free s (dg_mu _ _ M1)) as (s1 & L1 & L2 & L3 & L4).
    rewrite (gbind_Ret _ _ _ _ _ L1), (gbind_Ret _ _ _ _ _ L2), (gbind_Ret _ _ _ _ _ L4).
    rewrite L3, MemoryBTree_Get_map.
    destruct (mt_map (db_index (st_db s)) !! lr_Key r) as [op|] eqn:Ek; simpl.
    + destruct (di_index s (dg_inv _ _ M1) _ _ Ek) as (q & r' & -> & Hq & Hr' & Hk' & Ht'). simpl.
      destruct (positionEquals q p) eqn:Eq.
      * destruct (same_position _ q p _ _ (wal_segs_wf _ _ (di_wal s (dg_inv _ _ M1))) Hq Hinlog Eq) as [-> _].
        destruct (Hat _ Ek) as (_ & A2 & A3 & A4).
        destruct (merge_write_spec mdir mdb r s hints Hside Hcl A2 A3) as (err & mdb' & s' & E & Ed & Hc & Ho & Hres).
        rewrite E. eexists err, mdb', s'. split; [done|]. split; [done|]. split; [done|]. split; [done|].
        destruct err; [done|]. destruct Hres as (p' & Hside').
        exists (hints ++ [(p', merged_record r)]). split; [rewrite length_app; simpl; lia|]. split; [|done].
        assert (Es : s' = MkStore (st_db s) (st_fs s')) by (rewrite <- Ed; by destruct s').
        rewrite Es. apply merging_inside; [|by apply (outside_inside mdir)].
        exists new, bss. split; [done|].
        apply (merge_view_copy Tend s p p' r (merged_record r)); try done.
        intros k Hk. symmetry. by apply Hat.
      * eexists None, mdb, s. split; [reflexivity|]. split; [done|]. split; [done|]. split; [apply outside_refl|].
        apply Hskip. intros k Hk. destruct (Hat k Hk) as (<- & _). rewrite Hk in Ek. injection Ek as <-.
        by rewrite positionEquals_refl in Eq.
    + eexists None, mdb, s. split; [reflexivity|]. split; [done|]. split; [done|]. split; [apply outside_refl|].
      apply Hskip. intros k Hk. destruct (Hat k Hk) as (<- & _). by rewrite Hk in Ek.
  - eexists None, mdb, s. split; [reflexivity|]. split; [done|]. split; [done|]. split; [apply outside_refl|].
    apply Hskip. intros k Hk. destruct (Hat k Hk) as (_ & _ & Ht & Hv).
    assert (He : 0 <= lr_Expire r).
    { apply (mv_expiry _ _ _ _ _ V k (lr_Value r)). rewrite todo_view_lookup, Hk, decide_True by left. done. }
    rewrite bool_decide_eq_true_2 in Eg by done. simpl in Eg. apply orb_false_iff in Eg as [Eg1 Eg2].
    apply bool_decide_eq_false in Eg1. apply Z.ltb_ge in Eg2. unfold merge_now_ok in Hnow.
    unfold expired. rewrite andb_true_iff, Z.ltb_lt, Z.leb_le. lia.
Qed.

(** ** All the rounds *)

(** What is left to read: chunks of the old log, each once. *)
Definition to_read (old : list seg) (todo : list (ChunkPosition * bytes)) : Prop :=
  Forall (fun pc => pc ∈ segs_log old /\ is_record pc.2) todo /\ NoDup todo.*1.

Lemma to_read_in old todo p : to_read old todo -> p ∈ todo.*1 -> p ∈ (segs_log old).*1.
Proof.
  intros [H _] Hp. apply list_elem_of_fmap in Hp as (pc & -> & Hpc). rewrite Forall_forall in H.
  apply list_elem_of_fmap. exists pc. split; [done|]. by apply H.
Qed.

(** What is left of the run when it ends after the calls of the rounds before [i]:
    the database they made, ready for the next call. *)
Definition kept_at (m : vmap) (i : nat) s s' : Prop :=
  db_good (time_at T0 ops i) s' /\ live_eq (time_at T0 ops i) (db_view s') (spec_at m ops i) /\
  db_mergeRunning (st_db s') = db_mergeRunning (st_db s).

(** The loop at round [i] ends with an error of the log of the merge directory, at
    most [k] rounds on. *)
Definition merge_stops (m : vmap) (mdir : bytes) (i k : nat) s (res : outcome (option error * DB * Store)) : Prop :=
  exists e mdb' s' j, res = Ret (Some e, mdb', s') /\ wal_refused e /\ closable mdir mdb' /\
    (j <= i + k)%nat /\ kept_at m j s s'.

(** A call is refused in a round of the loop. *)
Definition loop_refused (m : vmap) (i : nat) reader mdb s : Prop :=
  exists n s0, loop_store n i reader mdb s = Ret s0 /\
    refused_in (time_at T0 ops (i + n)) (ops (i + n)%nat) (spec_at m ops (i + n)) s0.

(** Files of another directory do not change what the database shows. *)
Lemma view_outside T mdir s s' :
  db_good T s -> mdir <> o_DirPath (db_options (st_db s)) -> outside mdir (st_fs s) (st_fs s') ->
  st_db s' = st_db s -> db_view s' = db_view s.
Proof.
  intros Hg Hne Hout Ed. destruct (good_inside T s (st_fs s') Hg) as (_ & E & _).
  - apply (outside_inside mdir); [done|]. by apply not_eq_sym.
  - rewrite <- E, <- Ed. by destruct s'.
Qed.

Lemma good_outside T mdir s s' :
  db_good T s -> mdir <> o_DirPath (db_options (st_db s)) -> outside mdir (st_fs s) (st_fs s') ->
  st_db s' = st_db s -> db_good T s'.
Proof.
  intros Hg Hne Hout Ed. destruct (good_inside T s (st_fs s') Hg) as (E & _).
  - apply (outside_inside mdir); [done|]. by apply not_eq_sym.
  - rewrite <- Ed in E. by destruct s'.
Qed.

Lemma merge_loop_spec m mdir old n : mdir <> o_DirPath options -> merge_now_ok -> others_ok ->
  forall todo fuel i reader mdb s hints,
  segs_log (reader_segs reader) = todo -> to_read old todo -> (length todo < fuel)%nat ->
  merging (time_at T0 ops i) Tend options old n todo.*1 hints s ->
  live_eq (time_at T0 ops i) (db_view s) (spec_at m ops i) ->
  merge_side mdir (st_fs s) mdb hints -> closable mdir mdb ->
  merge_stops m mdir i (S (length todo)) s (merge_loop run fuel i reader mdb s) \/ loop_refused m i reader mdb s \/
  exists mdb' s' hints', merge_loop run fuel i reader mdb s = Ret ((None, mdb'), s') /\
    let i' := (i + S (length todo))%nat in
    merging (time_at T0 ops i') Tend options old n [] hints' s' /\
    live_eq (time_at T0 ops i') (db_view s') (spec_at m ops i') /\
    merge_side mdir (st_fs s') mdb' hints' /\ closable mdir mdb' /\
    (length hints' <= length hints + length todo)%nat /\ db_mergeRunning (st_db s') = db_mergeRunning (st_db s).
Proof.
  intros Hmd Hnow Hoth todo. induction todo as [|[p c] todo IH]; intros fuel i reader mdb s hints Hr Hto Hf Hm Hv Hside Hcl;
    (destruct fuel as [|fuel]; [simpl in Hf; lia|]); cbn [merge_loop];
    (destruct (merging_calls i old n _ hints s _ Hoth Hv Hm) as [(s1 & E1 & Hm1 & Hv1 & Hout & Hdirs & Hrun)|Href];
      [intros q Hq; by eapply to_read_in| |by right; left; exists 0%nat, s; rewrite Nat.add_0_r]);
    rewrite (gbind_Ret _ _ _ _ _ E1);
    (assert (Hside1 : merge_side mdir (st_fs s1) mdb hints) by
      (apply (merge_side_inside _ (st_fs s)); [done|by apply (outside_inside (o_DirPath options))|];
       rewrite Hdirs; apply Hside));
    pose proof (segs_next_log (reader_segs reader)) as Hn;
    destruct (reader_Next reader) as [res reader'] eqn:En;
    destruct (reader_Next_law _ _ _ En) as [-> Hr'];
    destruct (segs_next (reader_segs reader)) as [[[q d]|] segs'] eqn:Es; simpl fst in *; simpl snd in *;
    rewrite Hr in Hn; cbn [fst].
  - done.
  - right; right. rewrite decide_True by done. exists mdb, s1, hints. simpl length. rewrite Nat.add_1_r. split_and!; try done. lia.
  - injection Hn as <- <- Hn. destruct Hto as [Hto Hnd]. apply Forall_cons in Hto as [[Hin (r & Ec & Hrk)] Hto].
    simpl in Ec. subst c.
    rewrite fmap_cons, NoDup_cons in Hnd. destruct Hnd as [Hp Hnd].
    assert (Edec : glift (decodeLogRecord (record_bytes r)) s1 = Ret (r, s1))
      by (unfold glift; by rewrite decodeLogRecord_spec).
    rewrite (gbind_Ret _ _ _ _ _ Edec).
    destruct (merge_record_spec mdir (time_at T0 ops (S i)) mdb r p todo.*1 old n s1 hints Hnow Hm1 Hp Hin Hrk Hmd
      Hside1 Hcl) as (err & mdb2 & s2 & E2 & Hcl2 & Ed2 & Hout2 & Hres).
    rewrite (gbind_Ret _ _ _ _ _ E2).
    assert (Ho1 : db_options (st_db s1) = options) by (destruct Hm1 as (new & bss & M & _); apply M).
    assert (Hg1 : db_good (time_at T0 ops (S i)) s1) by by eapply merging_good.
    assert (Hv2 : live_eq (time_at T0 ops (S i)) (db_view s2) (spec_at m ops (S i))).
    { rewrite (view_outside (time_at T0 ops (S i)) mdir s1 s2); try done. congruence. }
    destruct err as [e|].
    { left. exists e, mdb2, s2, (S i). split; [reflexivity|]. split; [done|]. split; [done|]. split; [lia|].
      split; [|split; [done|by rewrite Ed2]].
      apply (good_outside (time_at T0 ops (S i)) mdir s1 s2); [done|congruence|done|done]. }
    destruct Hres as (hints2 & Hlen2 & Hm2 & Hside2).
    destruct (IH fuel (S i) reader' mdb2 s2 hints2) as [H|[H|H]]; try done; [by rewrite Hr'|simpl in Hf; lia| | |].
    + left. destruct H as (e & mdb3 & s3 & j & A1 & A2 & A3 & A4 & A5 & A6 & A7). exists e, mdb3, s3, j.
      split; [done|]. split; [done|]. split; [done|]. split; [simpl; lia|]. split; [done|]. split; [done|].
      by rewrite A7, Ed2.
    + right; left. destruct H as (k & s0 & Hk & Href). exists (S k), s0. rewrite Nat.add_succ_r. split; [|done].
      cbn [loop_store]. rewrite E1. cbn [mbind outcome_bind]. rewrite En. cbn [mbind outcome_bind].
      rewrite decodeLogRecord_spec by done. cbn [mbind outcome_bind]. rewrite E2. exact Hk.
    + right; right. destruct H as (mdb3 & s3 & hints3 & A1 & A2 & A3 & A4 & A5 & A6 & A7).
      replace (i + S (length ((p, record_bytes r) :: todo)))%nat with (S i + S (length todo))%nat by (simpl; lia).
      exists mdb3, s3, hints3. split_and!; try done; [simpl; lia|]. by rewrite A7, Ed2.
  - by destruct Hn.
Qed.

(** ** The file that ends the merge *)

(** A merge directory that is complete: the copied records, their hints, and the
    last segment the merge has read. *)
Record merge_ready (mdir : bytes) (n : Z) (hints : list (ChunkPosition * LogRecord)) (fs : FileSys) : Prop := {
  rd_exists : mdir ∈ fs_dirs fs;
  rd_data : exists msegs, dir_segs seg_ok seg_chunks mdir dataFileNameSuffix fs msegs /\
    segs_log msegs = (fun h => (h.1, record_bytes h.2)) <$> hints;
  rd_recs : Forall (fun h : ChunkPosition * LogRecord => rec_ok h.2 /\ lr_Type h.2 = LogRecordNormal) hints;
  rd_hints : exists cs, dir_segs seg_ok seg_chunks mdir hintFileNameSuffix fs [(1, cs)] /\
    cs.*2 = (fun h => hint_bytes (lr_Key h.2) h.1) <$> hints;
  rd_finished : os_works fs -> getMergeFinSegmentId fs mdir = Ret (inr n);
}.

Lemma write_merge_finished_spec mdir mdb hints n s :
  merge_side mdir (st_fs s) mdb hints -> 0 <= n < 2 ^ 32 ->
  exists err s', write_merge_finished mdir n s = Ret (err, s') /\ st_db s' = st_db s /\
    outside mdir (st_fs s) (st_fs s') /\
    match err with
    | Some e => wal_refused e
    | None => merge_ready mdir n hints (st_fs s')
    end.
Proof.
  intros [S1 S2 S3 S4 S5 S6 S7 (h & cs & H1 & H2 & H3 & H4 & H5 & H6 & H7) S9] Hn.
  destruct exts_ne as (N1 & N2 & N3). destruct exts_in as (I1 & I2 & I3).
  unfold write_merge_finished.
  destruct (wal_Open (fin_options mdir) (st_fs s)) as [[e|w] fs1] eqn:Eo.
  { eexists (Some e), _. split; [reflexivity|]. split; [done|]. split; [|by eapply open_refused].
    eapply fs_frame_outside. apply (wal_Open_fails _ _ _ _ Eo). }
  destruct (wal_Open_law _ _ _ _ [] Eo I3 S9) as (O1 & O2 & O3 & O4 & O5 & O6 & O7).
  pose proof (wal_Open_limit _ _ _ _ Eo) as O8. simpl in O2, O3, O5, O6, O7, O8.
  destruct (wal_Write w (encodeMergeFinRecord n) fs1) as [[[e|p] w'] fs2] eqn:Ew.
  { eexists (Some e), _. split; [reflexivity|]. split; [done|]. split; [|by eapply write_refused].
    apply (outside_trans _ _ fs1); [by eapply fs_frame_outside|]. eapply fs_frame_outside. rewrite <- O2.
    apply (wal_Write_fails _ _ _ _ _ _ O1 Ew). }
  destruct (wal_Write_law _ _ _ _ _ _ O1 Ew) as (K1 & K2 & K3 & K4 & K5 & K6 & K7). rewrite O2, O3 in K6.
  pose proof (wal_Write_stays _ _ _ _ _ _ [] 1 [] O1 Ew O5) as Hstay.
  destruct (wal_Close w' fs2) as [[ce cw] fs3] eqn:Ec. pose proof (wal_Close_law _ _ _ _ _ Ec) as ->.
  eexists ce, _. split; [reflexivity|]. split; [done|].
  split; [apply (outside_trans _ _ fs1); by eapply fs_frame_outside|].
  destruct ce as [e|]; [right; right; right; by eexists _, _, _, _|]. simpl.
  assert (Hsegs : wal_segs w' fs2 = [(1, [(p, encodeMergeFinRecord n)])]).
  { apply Hstay. right. split; [done|]. rewrite O8. vm_compute. discriminate. }
  assert (Hfile : forall ext id, ext ∈ wal_exts -> ext <> mergeFinNameSuffix -> seg_id_ok id ->
    fs_files fs2 !! SegmentFileName mdir ext id = fs_files (st_fs s) !! SegmentFileName mdir ext id).
  { intros ext id Hin Hne Hid. rewrite (exts_frame mdir mergeFinNameSuffix ext fs1 fs2) by done.
    by apply (exts_frame mdir mergeFinNameSuffix). }
  split.
  - rewrite K7, O7. set_solver.
  - exists (wal_segs (db_dataFiles mdb) (st_fs s)). split; [|exact S5].
    apply (dir_segs_frame _ _ (st_fs s)); [|intros id Hid; by apply Hfile].
    rewrite <- S3, <- S4. by apply wal_segs_dir.
  - done.
  - exists cs. split; [|done]. apply (dir_segs_frame _ _ (st_fs s)); [|intros id Hid; by apply Hfile].
    rewrite <- H6, <- H3, <- H4. by apply wal_segs_dir.
  - intros Hos. unfold getMergeFinSegmentId, os_Open. rewrite !Hos.
    assert (Hin : (1, [(p, encodeMergeFinRecord n)]) ∈ wal_segs w' fs2) by (rewrite Hsegs; left).
    destruct (dir_segs_file _ _ _ _ _ _ _ _ (wal_segs_dir w' fs2 K1) Hin) as (c & Hc & Hok & Ecs).
    rewrite K2, K3, O2, O3 in Hc. rewrite Hc.
    rewrite (seg_chunks_single 1 c p (encodeMergeFinRecord n) 4 Hok (eq_sym Ecs)) by (vm_compute; split; discriminate).
    change (take (Z.to_nat 4) (encodeMergeFinRecord n)) with (LittleEndian_PutUint32 n).
    rewrite <- (app_nil_r (LittleEndian_PutUint32 n)), LittleEndian_roundtrip by done. done.
Qed.

(** ** Closing the merge database changes no file *)
Lemma close_merge_db_spec mdir mdb s : closable mdir mdb -> close_merge_db mdb s = Ret (tt, s).
Proof.
  intros (_ & Hrun & Hmu & Hw). unfold close_merge_db, DB_Close. simpl. rewrite Hrun.
  unfold with_lock, gbind, db_with_mu at 1. simpl. rewrite Hmu. simpl. unfold closeFiles. simpl.
  destruct (wal_Close (db_dataFiles mdb) (st_fs s)) as [[err w] fs] eqn:E. apply wal_Close_law in E as ->.
  destruct err as [e|]; [by destruct s|]. simpl.
  destruct (db_hintFile mdb) as [h|].
  - destruct (wal_Close h (st_fs s)) as [[err h'] fs] eqn:E. apply wal_Close_law in E as ->.
    destruct err as [e|]; [by destruct s|]. unfold db_get, gret. simpl.
    destruct (0 <? _) eqn:Eq; [|by destruct s]. destruct Hw as (x & -> & Hd); [lia|].
    unfold glift, Watcher_Close. rewrite Hd. by destruct s.
  - unfold db_get, gret. simpl.
    destruct (0 <? _) eqn:Eq; [|by destruct s]. destruct Hw as (x & -> & Hd); [lia|].
    unfold glift, Watcher_Close. rewrite Hd. by destruct s.
Qed.

(** ** Opening the merge database *)
Let mdir : bytes := mergeDirPath (o_DirPath options).

(** What [openMergeDB] needs: options the checks accept, a scheduler that takes
    the cron expression the merge database inherits, its file lock free, and no
    merge directory of the merge directory. *)
Record can_open_merge (fs : FileSys) : Prop := {
  cm_options : checkOptions (mr_cron_Parse run) (merge_options options) = None;
  cm_cron : mr_cron_AddFunc run (o_AutoMergeCronExpr options) = None;
  cm_hold : mr_hold run = inr true;
  cm_queue : o_WatchQueueSize options < 2 ^ 64;
  cm_fuel : (0 < mr_fuel run)%nat;
  cm_dir : mdir <> o_DirPath options;
  cm_mdir : mergeDirPath mdir <> mdir;
  cm_nested : os_dir_exists fs (mergeDirPath mdir) = false;
}.

(** The directory once [os.RemoveAll] has succeeded. *)
Lemma removed_file fs fs' p : os_RemoveAll fs mdir = (None, fs') -> p.1 = mdir -> fs_files fs' !! p = None.
Proof.
  unfold os_RemoveAll. destruct (fs_denies fs _); [done|]. intros [= <-] Hp. simpl.
  apply map_lookup_filter_None_2. right. intros c _. simpl. tauto.
Qed.

Lemma removed_empty fs fs' ext : os_RemoveAll fs mdir = (None, fs') ->
  dir_segs seg_ok seg_chunks mdir ext fs' [].
Proof.
  intros E. split; [constructor|intros id H; by apply not_elem_of_nil in H|]. intros id _.
  rewrite (removed_file fs fs' _ E) by apply SegmentFileName_dir. apply not_elem_of_nil.
Qed.

Lemma removed_rep fs fs' : os_RemoveAll fs mdir = (None, fs') -> disk_rep mdir fs' [] [] [] 0 [].
Proof.
  intros E. pose proof (removed_empty fs fs' dataFileNameSuffix E). pose proof (removed_empty fs fs' hintFileNameSuffix E).
  split; try done; try constructor.
  - unfold getMergeFinSegmentId, os_Open. destruct (fs_denies fs' _); [done|].
    by rewrite (removed_file fs fs' _ E) by apply SegmentFileName_dir.
  - exists []. split; [done|]. split; [done|by left].
Qed.

Lemma openMergeDB_spec s :
  db_options (st_db s) = options -> can_open_merge (st_fs s) ->
  exists res s', openMergeDB run s = Ret (res, s') /\ st_db s' = st_db s /\
    outside mdir (st_fs s) (st_fs s') /\
    match res with
    | inl e => merge_error (st_fs s) e
    | inr mdb => merge_side mdir (st_fs s') mdb [] /\ closable mdir mdb
    end.
Proof.
  intros Ho [C1 C2 C3 C4 C5 C6 C7 C8]. unfold openMergeDB. rewrite Ho. fold mdir.
  destruct exts_ne as (N1 & N2 & N3). destruct exts_in as (I1 & I2 & I3).
  pose proof (removed_outside mdir (st_fs s)) as Hrm.
  destruct (os_RemoveAll (st_fs s) mdir) as [[e|] fs0] eqn:Erm; cbn [snd] in Hrm.
  { eexists (inl e), _. split; [reflexivity|]. split; [done|]. split; [done|]. right. unfold os_RemoveAll in Erm.
    destruct (fs_denies (st_fs s) (OsRemoveAll mdir)) eqn:Ed; [|done]. injection Erm as -> _. by exists (OsRemoveAll mdir). }
  rewrite C3.
  destruct (DB_Open_spec (mr_cron_Parse run) (mr_cron_AddFunc run) (mr_fuel run) (mr_open_now run)
    (merge_options options) fs0 [] [] [] 0 []) as (res & fs1 & E & Hres); try done.
  { unfold os_dir_exists in *. apply bool_decide_eq_false in C8. apply bool_decide_eq_false_2. cbn [o_DirPath merge_options].
    fold mdir. pose proof (os_RemoveAll_dirs (st_fs s) mdir (mergeDirPath mdir) C7) as Hd. rewrite Erm in Hd. simpl in Hd. by rewrite Hd. }
  { by apply (removed_rep (st_fs s)). }
  rewrite E. cbn [mbind outcome_bind]. destruct res as [e|mdb].
  { destruct Hres as [He Hfr]. eexists (inl e), _. split; [reflexivity|]. split; [done|]. split.
    - apply (outside_trans _ _ fs0); [done|by apply open_frame_outside].
    - destruct He as [He|[c Hc]]; [by left; left|right]. exists c. by rewrite <- (out_denies _ _ _ Hrm). }
  destruct Hres as [A1 A2 A3 _ A5 A6 A7 A8 A9 A10 A11]. change (o_DirPath (merge_options options)) with mdir in *.
  assert (Hout1 : outside mdir (st_fs s) fs1).
  { apply (outside_trans _ _ fs0); [done|]. apply (outside_trans _ _ (made_dir (merge_options options) fs0));
      [|by apply open_frame_outside].
    destruct (made_dir_spec (merge_options options) fs0) as (M1 & M2 & _). split; [intros p _; by rewrite M1|done]. }
  destruct (wal_Open (hint_options mdir) fs1) as [[e|h] fs2] eqn:Eo.
  { eexists (inl e), _. split; [reflexivity|]. split; [done|]. split; [|by left; eapply open_refused].
    apply (outside_trans _ _ fs1); [done|]. eapply fs_frame_outside. apply (wal_Open_fails _ _ _ _ Eo). }
  destruct (dr_hint_segs _ _ _ _ _ _ _ A5) as (hsegs & Hh & Hlog & Hone).
  destruct (wal_Open_law _ _ _ _ hsegs Eo I2 Hh) as (O1 & O2 & O3 & O4 & O5 & O6 & O7).
  pose proof (wal_Open_limit _ _ _ _ Eo) as O8. simpl in O2, O3, O5, O6, O7, O8.
  assert (Hhs : wal_segs h fs2 = [(1, [])]).
  { rewrite O5. destruct Hone as [->|[cs ->]]; [done|]. rewrite segs_log_cons in Hlog.
    unfold segs_log in Hlog. simpl in Hlog. rewrite app_nil_r in Hlog. by apply fmap_nil_inv in Hlog as ->. }
  assert (Hw : wal_ok (db_dataFiles mdb) fs1) by apply A1.
  destruct (wal_ok_frame (db_dataFiles mdb) fs1 fs2 Hw) as [W1 W2].
  { intros id Hid. rewrite A9, A10. by apply (exts_frame mdir hintFileNameSuffix). }
  eexists (inr _), _. split; [reflexivity|]. split; [done|]. simpl. split; [|split].
  - apply (outside_trans _ _ fs1); [done|by eapply fs_frame_outside].
  - split; simpl; try done.
    + rewrite O7. set_solver.
    + unfold wal_log. by rewrite W2, A6.
    + apply A1.
    + by exists h, [].
    + apply (dir_segs_frame _ _ fs0); [by apply (removed_empty (st_fs s))|]. intros id Hid.
      rewrite (exts_frame mdir hintFileNameSuffix mergeFinNameSuffix fs1 fs2) by done.
      rewrite (of_files _ _ _ A7).
      * by destruct (made_dir_spec (merge_options options) fs0) as [-> _].
      * intros id' Hid'. split; apply not_eq_sym; by apply ext_ne_file.
  - split_and!; simpl; rewrite ?A2; try done; [apply A1|]. rewrite A11.
    intros Hq. unfold open_watcher. rewrite (proj2 (Z.ltb_lt _ _)) by done. by eexists.
Qed.

(** ** The rotation that starts the merge *)
Lemma seg_blocks_records segs bss :
  Forall2 seg_blocks segs bss -> Forall (fun pc => is_record pc.2) (segs_log segs).
Proof.
  intros H. destruct (segs_blocks_items segs bss H) as (items & Hi & _).
  apply Forall_forall. intros pc Hpc. apply list_elem_of_lookup in Hpc as [i Hpc].
  destruct (Forall2_lookup_l _ _ _ _ _ Hi Hpc) as (it & _ & _ & E & Hr). by exists it.2.
Qed.

(** The store once the log is rotated and the lock is free again. *)
Definition rotated s (w : wal) (fs : FileSys) : Store :=
  MkStore (set_mu mu_free (set_dataFiles w (set_mergeRunning true (set_mu (MkRWMutex true 0) (st_db s))))) fs.

Lemma rotated_good T s w fs :
  db_good T s -> wal_OpenNewActiveSegment (db_dataFiles (st_db s)) (st_fs s) = (None, w, fs) ->
  let n := wal_ActiveSegmentID (db_dataFiles (st_db s)) in
  let old := wal_segs (db_dataFiles (st_db s)) (st_fs s) in
  db_good T (rotated s w fs) /\ db_view (rotated s w fs) = db_view s /\
  wal_segs w fs = old ++ [(n + 1, [])] /\ Forall (fun sg : seg => sg.1 <= n) old /\
  to_read old (segs_log old) /\ 0 < n /\ n + 1 < 2 ^ 32 /\
  outside (o_DirPath (db_options (st_db s))) (st_fs s) fs /\ fs_dirs fs = fs_dirs (st_fs s).
Proof.
  intros [G1 G2 G3 G4 G5 (D1 & D2 & pre & post & bss & fin & hints & D3 & D4)] Ho n old.
  destruct exts_ne as (N1 & N2 & N3). destruct exts_in as (I1 & I2 & I3).
  pose proof (di_wal s G1) as Hw.
  destruct (wal_OpenNewActiveSegment_law _ _ _ _ Hw Ho) as (R1 & R2 & R3 & R4 & R5 & R6 & R7).
  fold n old in R5. rewrite D1, D2 in R6.
  assert (Hlast : last old.*1 = Some n) by (symmetry; by apply wal_ActiveSegmentID_law).
  pose proof (wal_segs_dir _ _ R1) as Hd'. rewrite R5 in Hd'.
  pose proof (ds_sorted _ _ _ _ _ _ Hd') as Hsort. rewrite fmap_app in Hsort.
  apply StronglySorted_app in Hsort as (Hlt & Hs1 & _).
  assert (Hle : Forall (fun sg : seg => sg.1 <= n) old).
  { apply Forall_forall. intros sg Hsg.
    assert (sg.1 < n + 1); [|lia]. apply Hlt; [apply list_elem_of_fmap; by exists sg|]. by left. }
  assert (Hn : seg_id_ok n).
  { apply (ds_ids _ _ _ _ _ _ Hd'). rewrite fmap_app, elem_of_app. left. by apply last_Some_elem_of. }
  assert (Hn1 : seg_id_ok (n + 1)).
  { apply (ds_ids _ _ _ _ _ _ Hd'). rewrite fmap_app, elem_of_app. right. by left. }
  assert (Hold : old = pre ++ post).
  { eapply dir_segs_unique; [|apply D3]. unfold old. rewrite <- D1, <- D2. by apply wal_segs_dir. }
  destruct (db_inv_extend w fs s G1 R1) as [E1 E2]; [rewrite R4; apply G1| |].
  { intros x. unfold wal_log. fold old. rewrite R5, segs_log_app, elem_of_app. by left. }
  unfold seg_id_ok in *. split_and!; try done; try lia.
  - split; try done.
    + destruct E1 as [F1 F2 F3 F4 F5]. by split.
    + split_and!; simpl; [congruence|congruence|].
      exists pre, (post ++ [(n + 1, [])]), (bss ++ [[]]), fin, hints. split.
      * destruct D3 as [Q1 Q2 Q3 Q4 Q5 Q6 Q7 Q8 Q9 Q10]. split; try done.
        -- rewrite (assoc_L (++)), <- Hold, <- R5, <- D1, <- R2. rewrite <- R3 in D2.
           rewrite <- D2. by apply wal_segs_dir.
        -- by rewrite (frame_fin _ dataFileNameSuffix (st_fs s) fs).
        -- apply Forall_app. split; [done|]. apply Forall_singleton. simpl.
           destruct post as [|sg post']; [destruct Q6 as [_ ->]; [done|lia]|].
           assert (Hin : sg ∈ old) by (rewrite Hold, elem_of_app; right; left).
           rewrite Forall_forall in Hle, Q5. specialize (Hle _ Hin). specialize (Q5 sg ltac:(left)). simpl in Q5. lia.
        -- intros E. by apply app_nil in E as [_ E].
        -- apply Forall2_app; [done|]. constructor; [|constructor]. split; [apply Forall_nil_2|done].
        -- destruct Q8 as (hs & H1 & H2). exists hs. split; [|done].
           apply (dir_segs_frame _ _ (st_fs s)); [done|]. intros id Hid.
           by apply (exts_frame _ dataFileNameSuffix).
      * unfold disk_view. rewrite concat_app. simpl. rewrite !app_nil_r. rewrite <- E2 in D4. exact D4.
  - split; [|apply segs_log_NoDup; by apply wal_segs_wf].
    apply Forall_forall. intros pc Hpc. split; [done|].
    assert (Hrec : Forall (fun pc => is_record pc.2) (segs_log old)).
    { rewrite Hold, segs_log_app. apply Forall_app. split; [apply D3|]. apply (seg_blocks_records post bss), D3. }
    rewrite Forall_forall in Hrec. by apply Hrec.
  - by eapply fs_frame_outside.
Qed.

Lemma rotated_merging s w fs :
  db_good T0 s -> db_options (st_db s) = options ->
  (forall k v e, db_view s !! k = Some (v, e) -> 0 <= e) ->
  wal_OpenNewActiveSegment (db_dataFiles (st_db s)) (st_fs s) = (None, w, fs) ->
  let n := wal_ActiveSegmentID (db_dataFiles (st_db s)) in
  let old := wal_segs (db_dataFiles (st_db s)) (st_fs s) in
  merging T0 Tend options old n (segs_log old).*1 [] (rotated s w fs).
Proof.
  intros Hg Hopt He Ho n old.
  destruct (rotated_good T0 s w fs Hg Ho) as (R1 & R2 & R3 & R4 & R5 & R6 & R7 & R8 & R9).
  assert (Etodo : todo_view (rotated s w fs) (segs_log old).*1 = db_view s).
  { apply map_eq. intros k. rewrite todo_view_lookup, R2. rewrite db_view_lookup. unfold db_rec.
    change (db_index (st_db (rotated s w fs))) with (db_index (st_db s)).
    destruct (mt_map (db_index (st_db s)) !! k) as [op|] eqn:Ek; [|done].
    destruct (di_index s (dg_inv _ _ Hg) k op Ek) as (p & r & -> & Hin & _).
    rewrite decide_True; [done|]. apply list_elem_of_fmap. by exists (p, record_bytes r). }
  exists [(n + 1, [])], [[]]. split.
  - split; try done.
    + repeat constructor. simpl. lia.
    + constructor; [|constructor]. split; [apply Forall_nil_2|done].
  - split; rewrite Etodo; [|done|exact He]. simpl. unfold hint_view. simpl. rewrite R2.
    by rewrite (right_id_L ∅ (∪)).
Qed.

(** ** The whole run *)

(** A merge that has ended: the database is what the calls made of it, and its
    merge directory is complete. *)
Definition merge_done (n : Z) (hints : list (ChunkPosition * LogRecord)) s : Prop :=
  exists T old, merging T Tend options old n [] hints s /\ T <= Tend /\
    (length hints <= length (segs_log old))%nat /\
    Forall (fun sg : seg => sg.1 <= n) old /\ merge_ready mdir n hints (st_fs s) /\
    0 < n /\ n + 1 < 2 ^ 32 /\ db_mergeRunning (st_db s) = false.

Lemma time_at_end i : others_ok -> T0 <= Tend -> time_at T0 ops i <= Tend.
Proof. intros H HT. destruct i; [done|]. by destruct (H i) as (_ & _ & _ & ?). Qed.

(** The rounds of a merge of [k] chunks: opening the merge database, the chunks,
    the end of the log. *)
Definition rounds (k : nat) : nat := S (S k).

Lemma merge_segments_spec n old s m :
  others_ok -> merge_now_ok -> T0 <= Tend -> can_open_merge (st_fs s) -> (length (segs_log old) < mr_fuel run)%nat ->
  merging T0 Tend options old n (segs_log old).*1 [] s -> live_eq T0 (db_view s) m -> to_read old (segs_log old) ->
  Forall (fun sg : seg => sg.1 <= n) old -> 0 < n -> n + 1 < 2 ^ 32 ->
  (exists e s' i, merge_segments run n s = Ret (Some e, s') /\ merge_error (st_fs s) e /\
     (i <= rounds (length (segs_log old)))%nat /\ kept_at m i s s') \/
  (exists i s0, segments_store n s i = Ret s0 /\ refused_in (time_at T0 ops i) (ops i) (spec_at m ops i) s0) \/
  exists s' hints, merge_segments run n s = Ret (None, s') /\
    let i := rounds (length (segs_log old)) in
    merging (time_at T0 ops i) Tend options old n [] hints s' /\
    live_eq (time_at T0 ops i) (db_view s') (spec_at m ops i) /\ merge_ready mdir n hints (st_fs s') /\
    (length hints <= length (segs_log old))%nat /\ db_mergeRunning (st_db s') = db_mergeRunning (st_db s).
Proof.
  intros Hoth Hnow HT Hcan Hf Hm Hv Hto Hle Hn Hn1. unfold merge_segments.
  destruct (merging_calls 0 old n _ [] s m Hoth Hv Hm) as [(s1 & E1 & Hm1 & Hv1 & Hout1 & Hd1 & Hr1)|H];
    [intros p Hp; by eapply to_read_in| |by right; left; exists 0%nat, s].
  rewrite (gbind_Ret _ _ _ _ _ E1).
  assert (Ho1 : db_options (st_db s1) = options) by (destruct Hm1 as (new & bss & M & _); apply M).
  assert (Hg1 : db_good (time_at T0 ops 1) s1) by by eapply merging_good.
  assert (Hmd : mdir <> o_DirPath options) by apply Hcan.
  assert (Hcan1 : can_open_merge (st_fs s1)).
  { destruct Hcan. split; try done. unfold os_dir_exists in *. by rewrite Hd1. }
  destruct (openMergeDB_spec s1 Ho1 Hcan1) as (res & s2 & E2 & Ed2 & Hout2 & H2). rewrite (gbind_Ret _ _ _ _ _ E2).
  assert (Hv2 : live_eq (time_at T0 ops 1) (db_view s2) (spec_at m ops 1)).
  { rewrite (view_outside (time_at T0 ops 1) mdir s1 s2); try done. congruence. }
  assert (Hk2 : kept_at m 1 s s2).
  { split; [|split; [done|by rewrite Ed2, Hr1]]. apply (good_outside _ mdir s1); [done|congruence|done|done]. }
  destruct res as [e|mdb].
  { left. exists e, s2, 1%nat. split; [done|]. split; [|by split; [unfold rounds; lia|]].
    destruct H2 as [H2|[c Hc]]; [by left|right; exists c]. by rewrite <- (out_denies _ _ _ Hout1). }
  destruct H2 as (Hside & Hcl).
  assert (Es2 : s2 = MkStore (st_db s1) (st_fs s2)) by (rewrite <- Ed2; by destruct s2).
  assert (Hm2 : merging (time_at T0 ops 1) Tend options old n (segs_log old).*1 [] s2).
  { rewrite Es2. apply merging_inside; [exact Hm1|by apply (outside_inside mdir)]. }
  assert (Hreader : segs_log (reader_segs (wal_NewReaderWithMax (db_dataFiles (st_db s2)) n (st_fs s2))) = segs_log old).
  { destruct Hm2 as (new & bss & [M1 M2 M3 M4 M5 M6] & _).
    rewrite wal_NewReaderWithMax_law, M3, filter_app by (done || apply M1).
    rewrite (filter_all _ old), (filter_none _ new); [by rewrite app_nil_r| |].
    - intros sg Hsg. rewrite Forall_forall in M5. specialize (M5 sg Hsg). simpl in *. lia.
    - intros sg Hsg. rewrite Forall_forall in Hle. by apply Hle. }
  assert (Hclose : forall mdb' e s', closable mdir mdb' ->
    (close_merge_db mdb' ;;; gret (A := option error) e) s' = Ret (e, s')).
  { intros mdb' e s' Hc. by rewrite (gbind_Ret _ _ _ _ _ (close_merge_db_spec _ _ s' Hc)). }
  destruct (merge_loop_spec m mdir old n Hmd Hnow Hoth (segs_log old) (mr_fuel run) 1 _ mdb s2 [] Hreader Hto Hf Hm2
    Hv2 Hside Hcl) as [(e & mdb3 & s3 & j & E3 & Hwr3 & Hcl3 & Hj & K1 & K2 & K3)|
      [(k & s0 & Hk & Href)|(mdb3 & s3 & hints & E3 & Hm3 & Hv3 & Hside3 & Hcl3 & Hlen3 & Hr3)]].
  - left. exists e, s3, j. rewrite (gbind_Ret _ _ _ _ _ E3). split; [by apply Hclose|]. split; [by left|].
    split; [unfold rounds; lia|]. split; [done|]. split; [done|]. by rewrite K3, Ed2, Hr1.
  - right; left. exists (S k), s0. split; [|done]. cbn [segments_store]. rewrite E1. cbn [mbind outcome_bind].
    rewrite E2. exact Hk.
  - rewrite (gbind_Ret _ _ _ _ _ E3). set (k := rounds (length (segs_log old))).
    assert (Hdir : o_DirPath (db_options mdb3) = mdir) by apply Hcl3. rewrite Hdir.
    destruct (write_merge_finished_spec mdir mdb3 hints n s3 Hside3) as (err & s4 & E4 & Ed4 & Hout4 & H4); [lia|].
    rewrite (gbind_Ret _ _ _ _ _ E4), Hclose by done.
    change (1 + S _)%nat with k in *.
    assert (Ho3 : db_options (st_db s3) = options) by (destruct Hm3 as (new & bss & M & _); apply M).
    assert (Hg3 : db_good (time_at T0 ops k) s3) by by eapply merging_good.
    assert (Hv4 : live_eq (time_at T0 ops k) (db_view s4) (spec_at m ops k)).
    { rewrite (view_outside (time_at T0 ops k) mdir s3 s4); try done. congruence. }
    assert (Hk4 : db_mergeRunning (st_db s4) = db_mergeRunning (st_db s)) by (by rewrite Ed4, Hr3, Ed2, Hr1).
    destruct err as [e|].
    { left. exists e, s4, k. split; [done|]. split; [by left|]. split; [done|]. split; [|done].
      apply (good_outside _ mdir s3); [done|congruence|done|done]. }
    right; right. exists s4, hints. split; [done|].
    assert (Es4 : s4 = MkStore (st_db s3) (st_fs s4)) by (rewrite <- Ed4; by destruct s4).
    split; [|by split_and!].
    rewrite Es4. apply merging_inside; [exact Hm3|by apply (outside_inside mdir)].
Qed.

(** Clearing the flag of a running merge changes nothing else. *)
Lemma merging_running T old n P hints m s :
  merging T Tend options old n P hints s ->
  merging T Tend options old n P hints (MkStore (set_mergeRunning m (st_db s)) (st_fs s)).
Proof.
  intros (new & bss & [[[G1 G2 G3 G4 G5] H2 H3 H4 H5 H6] M2 M3 M4 M5 M6] & [V1 V2 V3]). exists new, bss.
  split; [|by split]. by split.
Qed.

(** The part of [doMerge] before the copying: rotated, or an error. *)
Lemma doMerge_starts s :
  db_good T0 s -> wal_IsEmpty (db_dataFiles (st_db s)) (st_fs s) = false ->
  db_mergeRunning (st_db s) = false ->
  (exists e s', doMerge run s = Ret (Some e, s') /\ wal_refused e /\ db_view s' = db_view s /\
     db_mu (st_db s') = mu_free /\ db_mergeRunning (st_db s') = false) \/
  exists w fs, wal_OpenNewActiveSegment (db_dataFiles (st_db s)) (st_fs s) = (None, w, fs) /\
    doMerge run s = (let! err := merge_segments run (wal_ActiveSegmentID (db_dataFiles (st_db s))) in
                     db_modify (set_mergeRunning false) ;;; gret err) (rotated s w fs).
Proof.
  intros [G1 G2 G3 G4 G5 G6] Hne Hrun. unfold doMerge.
  set (s1 := MkStore (set_mu (MkRWMutex true 0) (st_db s)) (st_fs s)).
  assert (L1 : db_with_mu mu_Lock s = Ret (tt, s1)) by (unfold db_with_mu; by rewrite G3).
  rewrite (gbind_Ret _ _ _ _ _ L1).
  rewrite (gbind_Ret _ _ s1 (st_db s1) s1 eq_refl), (gbind_Ret _ _ s1 (st_fs s1) s1 eq_refl).
  change (db_closed (st_db s1)) with (db_closed (st_db s)).
  change (db_mergeRunning (st_db s1)) with (db_mergeRunning (st_db s)).
  change (db_dataFiles (st_db s1)) with (db_dataFiles (st_db s)). change (st_fs s1) with (st_fs s).
  rewrite G4, Hne, Hrun.
  rewrite (gbind_Ret _ _ s1 tt (MkStore (set_mergeRunning true (st_db s1)) (st_fs s)) eq_refl).
  destruct (wal_OpenNewActiveSegment (db_dataFiles (st_db s)) (st_fs s)) as [[err w] fs] eqn:E.
  set (s2 := MkStore (set_dataFiles w (set_mergeRunning true (st_db s1))) fs).
  assert (L2 : db_fs_step wal_OpenNewActiveSegment (MkStore (set_mergeRunning true (st_db s1)) (st_fs s))
    = Ret (err, s2)) by (unfold db_fs_step; simpl; by rewrite E).
  rewrite (gbind_Ret _ _ _ _ _ L2).
  rewrite (gbind_Ret _ _ s2 tt (rotated s w fs) eq_refl).
  destruct err as [e|]; [|right; by exists w, fs].
  left. eexists e, _. split; [reflexivity|]. split; [by right; right; left; eexists _, _, _, _|].
  split; [|done]. destruct (wal_OpenNewActiveSegment_fails _ _ _ _ _ (di_wal s G1) E) as [_ Hread].
  by apply view_readable.
Qed.

(** The store on which the calls of round [j] of the whole run are made. *)
Definition round_store s (j : nat) : outcome Store :=
  match wal_OpenNewActiveSegment (db_dataFiles (st_db s)) (st_fs s) with
  | (None, w, fs) => segments_store (wal_ActiveSegmentID (db_dataFiles (st_db s))) (rotated s w fs) j
  | _ => Panic
  end.

(** The log refuses a call the other goroutines make in some round of the run. *)
Definition refused_call (m : vmap) s : Prop :=
  exists j s0, round_store s j = Ret s0 /\ refused_in (time_at T0 ops j) (ops j) (spec_at m ops j) s0.

(** A run that ends with an error: the database shows what the calls made until
    then have made of the map, and the lock and the flag of the merge are free. *)
Definition merge_failed (m : vmap) s (res : outcome (option error * Store)) : Prop :=
  exists e s' i, res = Ret (Some e, s') /\ merge_error (st_fs s) e /\
    (i <= rounds (length (wal_log (db_dataFiles (st_db s)) (st_fs s))))%nat /\
    live_eq (time_at T0 ops i) (db_view s') (spec_at m ops i) /\
    db_mu (st_db s') = mu_free /\ db_mergeRunning (st_db s') = false.

Lemma doMerge_spec s m :
  db_good T0 s -> db_options (st_db s) = options -> db_mergeRunning (st_db s) = false ->
  wal_IsEmpty (db_dataFiles (st_db s)) (st_fs s) = false ->
  (forall k v e, db_view s !! k = Some (v, e) -> 0 <= e) ->
  live_eq T0 (db_view s) m ->
  others_ok -> merge_now_ok -> T0 <= Tend -> can_open_merge (st_fs s) ->
  (length (wal_log (db_dataFiles (st_db s)) (st_fs s)) < mr_fuel run)%nat ->
  merge_failed m s (doMerge run s) \/ refused_call m s \/
  exists s' hints, doMerge run s = Ret (None, s') /\
    merge_done (wal_ActiveSegmentID (db_dataFiles (st_db s))) hints s' /\
    let i := rounds (length (wal_log (db_dataFiles (st_db s)) (st_fs s))) in
    db_good (time_at T0 ops i) s' /\ live_eq (time_at T0 ops i) (db_view s') (spec_at m ops i).
Proof.
  intros Hg Ho Hrun Hne Hexp Hv Hoth Hnow HT Hcan Hf.
  destruct (doMerge_starts s Hg Hne Hrun) as [(e & s' & E & He & Ev & Emu & Erun)|(w & fs & Hrot & ->)].
  { left. exists e, s', 0%nat. split; [done|]. split; [by left|]. split; [lia|]. rewrite Ev. by split_and!. }
  destruct (rotated_good T0 s w fs Hg Hrot) as (R1 & R2 & R3 & R4 & R5 & R6 & R7 & R8 & R9).
  pose proof (rotated_merging s w fs Hg Ho Hexp Hrot) as Hm. simpl in Hm.
  set (n := wal_ActiveSegmentID (db_dataFiles (st_db s))) in *.
  set (old := wal_segs (db_dataFiles (st_db s)) (st_fs s)) in *.
  assert (Hcan' : can_open_merge (st_fs (rotated s w fs))).
  { destruct Hcan. split; try done. unfold os_dir_exists in *. simpl. by rewrite R9. }
  destruct (merge_segments_spec n old (rotated s w fs) m)
    as [(e & s' & i & E & He & Hi & K1 & K2 & K3)|[(i & s0 & Hi & Href)|(s' & hints & E & Hm' & Hv' & Hready & Hlen & Hr')]];
    try done.
  - by rewrite R2.
  - left. rewrite (gbind_Ret _ _ _ _ _ E). exists e. eexists _, i. split; [reflexivity|].
    split; [destruct He as [He|[c Hc]]; [by left|right; exists c; by rewrite <- (out_denies _ _ _ R8)]|].
    split; [exact Hi|]. split; [exact K2|]. by split; [apply K1|].
  - right; left. exists i, s0. split; [|done]. unfold round_store. by rewrite Hrot.
  - right; right. rewrite (gbind_Ret _ _ _ _ _ E). eexists _, hints. split; [reflexivity|].
    change (length (wal_log _ _)) with (length (segs_log old)). set (i := rounds _) in *.
    assert (Hm2 : merging (time_at T0 ops i) Tend options old n [] hints (MkStore (set_mergeRunning false (st_db s')) (st_fs s')))
      by by apply merging_running.
    split; [|split; [by eapply merging_good|exact Hv']].
    exists (time_at T0 ops i), old. split_and!; try done. by apply time_at_end.
Qed.

End merge_loop.
