(* ===== verification/MergeOpen.v ===== *)
(** * Taking over a merge directory

    What [loadMergeFiles] makes of the directory a finished merge leaves: the
    merged segments replace the old ones, the hint file and the file that ends
    the merge follow them, and the disk stands for the same map as before.  Then
    opening the directory anew, or reopening the files of a running database,
    shows that map. *)
From S2P Require Import Prelude GoBinary Config GoOs Filepath WalLib Record BTreeLib Index Watch.
From S2P Require Import Store Batch DB Open View BatchSpec CommitSpec Recovery OpenSpec DBSpec.
From S2P Require Import Merge MergeSpec MergeLoop.
Open Scope Z_scope.

Section merge_open.
Context {W : WalLib} {WL : WalLaws W} {B : BTreeLib item item_less} {BL : BTreeLaws B}
  {SF : Snowflake} {SL : SnowflakeLaws SF} {MH : MemHashLib}.
Implicit Types (s : Store) (b : Batch) (k v : bytes) (r : LogRecord).

(** ** Moving the segments *)

(** The segment ids. *)
Lemma ids_to_elem n id : id ∈ ids_to n <-> 0 < id <= n.
Proof.
  unfold ids_to. rewrite list_elem_of_fmap. split.
  - intros (i & -> & Hi). apply elem_of_seq in Hi. lia.
  - intros H. exists (Z.to_nat (id - 1)). split; [lia|]. apply elem_of_seq. lia.
Qed.

Lemma ids_to_NoDup n : NoDup (ids_to n).
Proof. apply NoDup_fmap; [intros x y ?; lia|apply NoDup_seq]. Qed.

Section moves.
Context (mdir dir : bytes) (Hdirs : mdir <> dir).

(** What becomes of the data segment [id]. *)
Definition moved (fs : FileSys) (id : Z) : option bytes :=
  match fs_files fs !! SegmentFileName mdir dataFileNameSuffix id with
  | Some [] => None
  | o => o
  end.

Lemma dirs_ne ext ext' id id' : SegmentFileName mdir ext id <> SegmentFileName dir ext' id'.
Proof.
  intros E. apply Hdirs. by rewrite <- (SegmentFileName_dir mdir ext id), E, SegmentFileName_dir.
Qed.

Lemma len_0 (c : bytes) : (len c =? 0) = bool_decide (c = []).
Proof. by destruct c. Qed.

(** What a step of the takeover leaves, the system refusing nothing: the file
    [dst] is [c], the others but [src] are as before. *)
Record moves (src dst : path) (c : option bytes) (fs fs' : FileSys) : Prop := {
  mo_dst : fs_files fs' !! dst = c;
  mo_rest : forall p, p <> dst -> p <> src -> fs_files fs' !! p = fs_files fs !! p;
  mo_dirs : fs_dirs fs' = fs_dirs fs;
  mo_denies : fs_denies fs' = fs_denies fs;
}.

Lemma load_segment_spec fs id : os_works fs ->
  exists fs', load_segment mdir dir id fs = Ret (None, fs') /\
    moves (SegmentFileName mdir dataFileNameSuffix id) (SegmentFileName dir dataFileNameSuffix id) (moved fs id) fs fs'.
Proof.
  intros Hos. unfold load_segment, copyFile, os_Stat, moved. rewrite !Hos.
  pose proof (dirs_ne dataFileNameSuffix dataFileNameSuffix id id) as Hne.
  set (src := SegmentFileName mdir _ id) in *. set (dst := SegmentFileName dir _ id) in *.
  assert (H1 : exists fs1, (match match fs_files fs !! dst with Some c => StatOk (len c) | None => StatNotExist end with
      | StatOk _ => os_Remove fs dst | _ => (None, fs) end) = (None, fs1) /\
    fs_files fs1 !! dst = None /\ (forall p, p <> dst -> fs_files fs1 !! p = fs_files fs !! p) /\
    fs_dirs fs1 = fs_dirs fs /\ fs_denies fs1 = fs_denies fs).
  { unfold os_Remove. rewrite Hos. destruct (fs_files fs !! dst) as [c|] eqn:Ed; [|by exists fs].
    eexists. split; [reflexivity|]. simpl. split; [by rewrite lookup_delete_eq|]. split; [|done].
    intros p Hp. by rewrite lookup_delete_ne. }
  destruct H1 as (fs1 & -> & H1 & H2 & H3 & H4). cbn [mbind outcome_bind].
  assert (Hos1 : os_works fs1) by (intros c; by rewrite H4). rewrite Hos1, <- (H2 src Hne).
  destruct (fs_files fs1 !! src) as [c|] eqn:Ec; simpl; [|exists fs1; split; [done|split; auto]].
  rewrite len_0. case_bool_decide as Hc; simpl; [subst c; exists fs1; split; [done|split; auto]|].
  unfold os_Rename. rewrite Hos1, Ec. simpl. eexists. split; [reflexivity|]. split; [|intros p Hp Hp'|done|done]; simpl.
  - rewrite lookup_insert_eq. by destruct c.
  - rewrite lookup_insert_ne, lookup_delete_ne by done. by apply H2.
Qed.

Lemma load_segments_spec ids fs :
  os_works fs -> NoDup ids -> Forall seg_id_ok ids ->
  exists fs', load_segments mdir dir ids fs = Ret (None, fs') /\
    (forall id, id ∈ ids -> fs_files fs' !! SegmentFileName dir dataFileNameSuffix id = moved fs id) /\
    (forall p, (forall id, id ∈ ids -> p <> SegmentFileName dir dataFileNameSuffix id /\
                                       p <> SegmentFileName mdir dataFileNameSuffix id) ->
       fs_files fs' !! p = fs_files fs !! p) /\
    fs_dirs fs' = fs_dirs fs /\ fs_denies fs' = fs_denies fs.
Proof.
  destruct exts_in as (I1 & _). revert fs. induction ids as [|id ids IH]; intros fs Hos Hnd Hok; cbn [load_segments].
  { exists fs. split_and!; try done. intros id Hid. by apply not_elem_of_nil in Hid. }
  apply NoDup_cons in Hnd as [Hni Hnd]. apply Forall_cons in Hok as [Hid Hok].
  destruct (load_segment_spec fs id Hos) as (fs1 & -> & [A1 A2 A3 A4]). cbn [mbind outcome_bind].
  destruct (IH fs1) as (fs2 & -> & B1 & B2 & B3 & B4); [by intros c; rewrite A4|done|done|].
  rewrite Forall_forall in Hok.
  assert (Hother : forall d id', id' ∈ ids ->
    SegmentFileName d dataFileNameSuffix id <> SegmentFileName d dataFileNameSuffix id').
  { intros d id' Hin E.
    destruct (SegmentFileName_inj d _ _ id id' I1 I1 Hid (Hok _ Hin) E) as [_ ->]. done. }
  exists fs2. split; [done|]. split_and!; [| |congruence|congruence].
  - intros id' [->|Hin]%elem_of_cons.
    + rewrite B2; [done|]. intros id' Hin. split; [by apply Hother|]. apply not_eq_sym, dirs_ne.
    + rewrite B1 by done. unfold moved. rewrite A2; [done|apply dirs_ne|]. by apply not_eq_sym, Hother.
  - intros p Hp. rewrite B2; [apply A2; apply Hp; by left|]. intros id' Hin. apply Hp. by right.
Qed.

(** The two files moved whatever their size. *)
Lemma copyFile_force_spec ext fs : os_works fs ->
  is_Some (fs_files fs !! SegmentFileName mdir ext 1) ->
  exists fs', copyFile mdir dir ext 1 true fs = Ret fs' /\
    moves (SegmentFileName mdir ext 1) (SegmentFileName dir ext 1) (fs_files fs !! SegmentFileName mdir ext 1) fs fs'.
Proof.
  intros Hos [c Ec]. unfold copyFile, os_Stat. rewrite Hos, Ec. simpl. unfold os_Rename. rewrite Hos, Ec. simpl.
  eexists. split; [reflexivity|]. split; [by apply lookup_insert_eq| |done|done]. intros p H1 H2. simpl.
  by rewrite lookup_insert_ne, lookup_delete_ne.
Qed.
End moves.

(** ** The whole of [loadMergeFiles] *)
Record taken_over (dir : bytes) (n : Z) (fs fs' : FileSys) : Prop := {
  to_data : forall id, seg_id_ok id -> fs_files fs' !! SegmentFileName dir dataFileNameSuffix id
    = if decide (id <= n) then moved (mergeDirPath dir) fs id
      else fs_files fs !! SegmentFileName dir dataFileNameSuffix id;
  to_hint : forall id, seg_id_ok id -> fs_files fs' !! SegmentFileName dir hintFileNameSuffix id
    = fs_files fs !! SegmentFileName (if decide (id = 1) then mergeDirPath dir else dir) hintFileNameSuffix id;
  to_fin : fs_files fs' !! SegmentFileName dir mergeFinNameSuffix 1
    = fs_files fs !! SegmentFileName (mergeDirPath dir) mergeFinNameSuffix 1;
  to_dirs : fs_dirs fs' = fs_dirs fs ∖ {[mergeDirPath dir]};
  to_denies : fs_denies fs' = fs_denies fs;
}.

Lemma loadMergeFiles_takes dir fs n :
  os_works fs -> mergeDirPath dir <> dir -> mergeDirPath dir ∈ fs_dirs fs ->
  getMergeFinSegmentId fs (mergeDirPath dir) = Ret (inr n) -> 0 < n < 2 ^ 32 - 1 ->
  is_Some (fs_files fs !! SegmentFileName (mergeDirPath dir) hintFileNameSuffix 1) ->
  exists fs', loadMergeFiles dir fs = Ret (None, fs') /\ taken_over dir n fs fs'.
Proof.
  intros Hos Hne Hin Hfin Hn Hhint. set (mdir := mergeDirPath dir) in *.
  destruct exts_ne as (N1 & N2 & N3). destruct exts_in as (I1 & I2 & I3). pose proof seg_id_1 as Hid1.
  unfold loadMergeFiles. fold mdir. unfold os_StatDir, os_dir_exists. rewrite Hos, bool_decide_eq_true_2 by done.
  rewrite Hfin. cbn [mbind outcome_bind].
  assert (Hids : Forall seg_id_ok (ids_to n)).
  { apply Forall_forall. intros id Hid. apply ids_to_elem in Hid. unfold seg_id_ok. lia. }
  destruct (load_segments_spec mdir dir Hne (ids_to n) fs Hos (ids_to_NoDup n) Hids) as (fs1 & -> & A1 & A2 & A3 & A4).
  cbn [mbind outcome_bind]. rewrite decide_False by lia.
  assert (Hos1 : os_works fs1) by (intros c; by rewrite A4).
  rewrite Forall_forall in Hids.
  assert (Hf1 : forall d ext id, ext ∈ wal_exts -> ext <> dataFileNameSuffix -> seg_id_ok id ->
    fs_files fs1 !! SegmentFileName d ext id = fs_files fs !! SegmentFileName d ext id).
  { intros d ext id He Hx Hid. apply A2. intros id' Hid'. split; apply ext_ne_file; auto. }
  assert (Hsome : is_Some (fs_files fs1 !! SegmentFileName mdir mergeFinNameSuffix 1)).
  { rewrite Hf1 by done. unfold getMergeFinSegmentId, os_Open in Hfin. rewrite Hos in Hfin.
    destruct (fs_files fs !! _); [by eexists|]. injection Hfin as <-. lia. }
  destruct (copyFile_force_spec mdir dir mergeFinNameSuffix fs1 Hos1 Hsome) as (fs2 & -> & [B1 B2 B3 B4]).
  assert (Hos2 : os_works fs2) by (intros c; by rewrite B4).
  assert (Hf2 : forall d ext id, ext ∈ wal_exts -> ext <> mergeFinNameSuffix -> seg_id_ok id ->
    fs_files fs2 !! SegmentFileName d ext id = fs_files fs1 !! SegmentFileName d ext id).
  { intros d ext id He Hx Hid. apply B2; by apply ext_ne_file. }
  assert (Hsome2 : is_Some (fs_files fs2 !! SegmentFileName mdir hintFileNameSuffix 1)) by by rewrite Hf2, Hf1.
  cbn [mbind outcome_bind].
  destruct (copyFile_force_spec mdir dir hintFileNameSuffix fs2 Hos2 Hsome2) as (fs3 & -> & [C1 C2 C3 C4]).
  assert (Hos3 : os_works fs3) by (intros c; by rewrite C4). cbn [mbind outcome_bind].
  assert (Hf3 : forall d ext id, ext ∈ wal_exts -> ext <> hintFileNameSuffix -> seg_id_ok id ->
    fs_files fs3 !! SegmentFileName d ext id = fs_files fs2 !! SegmentFileName d ext id).
  { intros d ext id He Hx Hid. apply C2; by apply ext_ne_file. }
  assert (Hrm : forall ext id, fs_files (os_RemoveAll fs3 mdir).2 !! SegmentFileName dir ext id
    = fs_files fs3 !! SegmentFileName dir ext id).
  { intros ext id. apply os_RemoveAll_outside. rewrite SegmentFileName_dir. by apply not_eq_sym. }
  eexists. split; [reflexivity|]. split.
  - intros id Hid. rewrite Hrm, Hf3, Hf2 by done. case_decide as Hle.
    + apply A1, ids_to_elem. unfold seg_id_ok in Hid. lia.
    + apply A2. intros id' Hid'. split; [|apply not_eq_sym; by apply dirs_ne].
      intros E. apply (SegmentFileName_inj dir) in E as [_ ->]; auto. apply ids_to_elem in Hid'. lia.
  - intros id Hid. rewrite Hrm. case_decide as H1.
    + subst id. by rewrite C1, Hf2, Hf1.
    + rewrite C2; [by rewrite Hf2, Hf1| |apply not_eq_sym; by apply dirs_ne].
      intros E. by apply (SegmentFileName_inj dir) in E as [_ ->].
  - by rewrite Hrm, Hf3, B1, Hf1.
  - unfold os_RemoveAll. rewrite Hos3. simpl. by rewrite C3, B3, A3.
  - by rewrite os_RemoveAll_denies, C4, B4, A4.
Qed.

(** ** The disk afterwards *)
Definition nonempty_segs (segs : list seg) : list seg := filter (fun sg : seg => sg.2 <> []) segs.

Lemma nonempty_segs_log segs : segs_log (nonempty_segs segs) = segs_log segs.
Proof.
  unfold nonempty_segs. induction segs as [|[id cs] segs IH]; [done|]. rewrite filter_cons. case_decide as H; simpl in H.
  - by rewrite !segs_log_cons, IH.
  - by rewrite H, segs_log_cons, IH.
Qed.

Lemma nonempty_segs_length segs : (length (nonempty_segs segs) <= length (segs_log segs))%nat.
Proof.
  unfold nonempty_segs. induction segs as [|[id cs] segs IH]; [done|]. rewrite filter_cons, segs_log_cons, length_app.
  case_decide as H; simpl in *; [|lia]. destruct cs; [done|]. simpl. lia.
Qed.

Lemma nonempty_segs_sorted segs :
  StronglySorted Z.lt segs.*1 -> StronglySorted Z.lt (nonempty_segs segs).*1.
Proof.
  unfold nonempty_segs. induction segs as [|sg segs IH]; intros H; [constructor|].
  rewrite fmap_cons in H. apply StronglySorted_inv in H as [Hs Hall]. rewrite filter_cons.
  case_decide; [|by apply IH]. rewrite fmap_cons. constructor; [by apply IH|].
  rewrite Forall_forall in *. intros x Hx. apply Hall.
  apply list_elem_of_fmap in Hx as (sg' & -> & Hx). apply list_elem_of_filter in Hx as [_ Hx].
  apply list_elem_of_fmap. by exists sg'.
Qed.

(** The merged segments fit under the segment where the merge began. *)
Definition merge_fits (mdir : bytes) (n : Z) (fs : FileSys) : Prop :=
  forall id, seg_id_ok id -> n < id -> fs_files fs !! SegmentFileName mdir dataFileNameSuffix id = None.

Lemma taken_over_segs dir n fs fs' msegs old new :
  taken_over dir n fs fs' -> merge_fits (mergeDirPath dir) n fs ->
  dir_segs seg_ok seg_chunks (mergeDirPath dir) dataFileNameSuffix fs msegs ->
  dir_segs seg_ok seg_chunks dir dataFileNameSuffix fs (old ++ new) ->
  Forall (fun sg : seg => sg.1 <= n) old -> Forall (fun sg : seg => n < sg.1) new ->
  dir_segs seg_ok seg_chunks dir dataFileNameSuffix fs' (nonempty_segs msegs ++ new) /\
  Forall (fun sg : seg => sg.1 <= n) (nonempty_segs msegs).
Proof.
  intros Hto Hfits Hm Hd Hold Hnew. rewrite Forall_forall in Hold, Hnew.
  assert (Hle : forall sg, sg ∈ nonempty_segs msegs -> sg ∈ msegs /\ sg.2 <> [] /\ sg.1 <= n).
  { intros sg Hsg. apply list_elem_of_filter in Hsg as [H1 H2]. split; [done|]. split; [done|].
    destruct (decide (sg.1 <= n)); [done|]. exfalso.
    assert (Hin : sg.1 ∈ msegs.*1) by (apply list_elem_of_fmap; by exists sg).
    apply (dir_segs_elem _ _ _ _ _ _ _ Hm) in Hin as [Hid [c Hc]]. rewrite Hfits in Hc; [done|done|lia]. }
  pose proof (ds_sorted _ _ _ _ _ _ Hd) as Hs. rewrite fmap_app in Hs.
  apply StronglySorted_app in Hs as (_ & _ & Hs).
  split; [|by apply Forall_forall; intros sg Hsg; apply Hle]. split.
  - rewrite fmap_app. apply StronglySorted_app. split_and!; [|apply nonempty_segs_sorted, Hm|done].
    intros x1 x2 H1 H2. apply list_elem_of_fmap in H1 as (sg1 & -> & H1), H2 as (sg2 & -> & H2).
    destruct (Hle _ H1) as (_ & _ & ?). specialize (Hnew _ H2). simpl in Hnew. lia.
  - intros id Hid. rewrite fmap_app, elem_of_app in Hid. destruct Hid as [Hid|Hid].
    + apply list_elem_of_fmap in Hid as (sg & -> & H1). apply (ds_ids _ _ _ _ _ _ Hm).
      apply list_elem_of_fmap. exists sg. split; [done|]. by apply Hle.
    + apply (ds_ids _ _ _ _ _ _ Hd). rewrite fmap_app, elem_of_app. by right.
  - intros id Hid. rewrite (to_data _ _ _ _ Hto id Hid). case_decide as Hn.
    + unfold moved. pose proof (ds_file _ _ _ _ _ _ Hm id Hid) as Hf.
      assert (Hnn : id ∉ new.*1).
      { intros Hin. apply list_elem_of_fmap in Hin as (sg & -> & Hsg). specialize (Hnew _ Hsg). simpl in Hnew. lia. }
      assert (Hnone : id ∉ (nonempty_segs msegs).*1 -> id ∉ (nonempty_segs msegs ++ new).*1).
      { rewrite fmap_app, elem_of_app. tauto. }
      destruct (fs_files fs !! _) as [c|] eqn:Ec.
      * destruct Hf as [Hok Hin]. destruct c as [|x c].
        -- apply Hnone. intros Hc. apply list_elem_of_fmap in Hc as ([id' cs] & -> & Hsg).
           destruct (Hle _ Hsg) as (Hsg' & Hne & _). simpl in *.
           destruct (dir_segs_file _ _ _ _ _ _ _ _ Hm Hsg') as (c & Hc & _ & ->).
           rewrite Ec in Hc. injection Hc as <-. destruct Hne. by apply (seg_chunks_nil id' [] Hok).
        -- split; [done|]. rewrite elem_of_app. left. apply list_elem_of_filter. split; [|done]. simpl.
           intros E. by apply (seg_chunks_nil id (x :: c) Hok) in E.
      * apply Hnone. intros Hc. apply Hf. apply list_elem_of_fmap in Hc as (sg & -> & Hsg).
        apply list_elem_of_fmap. exists sg. split; [done|]. by apply Hle.
    + pose proof (ds_file _ _ _ _ _ _ Hd id Hid) as Hf.
      destruct (fs_files fs !! _) as [c|].
      * destruct Hf as [Hok Hin]. split; [done|]. rewrite elem_of_app in *. destruct Hin as [Hin|Hin]; [|by right].
        specialize (Hold _ Hin). simpl in Hold. lia.
      * rewrite !fmap_app, !elem_of_app in *. intros [Hc|Hc]; [|by apply Hf; right].
        apply list_elem_of_fmap in Hc as (sg & -> & Hsg). destruct (Hle _ Hsg) as (_ & _ & ?). lia.
Qed.

(** A directory ready to be taken over, next to the data of a running database. *)
Lemma merge_ready_taken T Tend options old n hints s :
  let dir := o_DirPath options in let mdir := mergeDirPath dir in
  os_works (st_fs s) -> mdir <> dir -> merging T Tend options old n [] hints s ->
  (length hints <= length (segs_log old))%nat -> Forall (fun sg : seg => sg.1 <= n) old -> 0 < n -> n + 1 < 2 ^ 32 ->
  merge_ready mdir n hints (st_fs s) -> merge_fits mdir n (st_fs s) ->
  exists fs' pre new bss, loadMergeFiles dir (st_fs s) = Ret (None, fs') /\
    disk_rep dir fs' pre new bss n hints /\ new <> [] /\ live_eq Tend (db_view s) (disk_view bss hints) /\
    (open_fuel pre new hints <= 2 * length (wal_log (db_dataFiles (st_db s)) (st_fs s)) + 1)%nat.
Proof.
  intros dir mdir Hos Hne (new & bss & [M1 M2 M3 M4 M5 M6] & [V _ _]) Hlen Hold Hn Hn1 [R1 R2 R3 R4 R5] Hfits.
  destruct R2 as (msegs & Hm & Hmlog), R4 as (cs & Hh & Hcs).
  destruct (dir_segs_file _ _ _ _ _ _ 1 cs Hh ltac:(left)) as (ch & Hch & Hchok & Ecs).
  assert (Hsome : is_Some (fs_files (st_fs s) !! SegmentFileName mdir hintFileNameSuffix 1)) by (by eexists).
  destruct (loadMergeFiles_takes dir (st_fs s) n) as (fs' & E & Hto); try done; [by apply R5|lia|].
  destruct (dg_disk _ _ M1) as (D1 & D2 & pre0 & post0 & bss0 & fin0 & hints0 & D3 & _).
  rewrite M2 in D1, D3. fold dir in D1, D3.
  assert (Hd : dir_segs seg_ok seg_chunks dir dataFileNameSuffix (st_fs s) (old ++ new)).
  { rewrite <- M3, <- D1, <- D2. apply wal_segs_dir, (di_wal s (dg_inv _ _ M1)). }
  destruct (taken_over_segs dir n _ fs' msegs old new Hto Hfits Hm Hd Hold M5) as [Hd' Hpre].
  exists fs', (nonempty_segs msegs), new, bss. split; [done|]. split; [|split_and!; [done| |]].
  - assert (Hlog : segs_log (nonempty_segs msegs) = (fun h => (h.1, record_bytes h.2)) <$> hints)
      by (by rewrite nonempty_segs_log).
    split; try done; try lia.
    + rewrite <- (R5 Hos). unfold getMergeFinSegmentId, os_Open.
      rewrite (to_denies _ _ _ _ Hto), (to_fin _ _ _ _ Hto), !Hos. done.
    + exists [(1, cs)]. split; [|split; [|by right; eexists]].
      * destruct (dr_hint_segs _ _ _ _ _ _ _ D3) as (hs & Hhs & _ & Hone).
        split; [repeat constructor|intros id Hid; by apply (ds_ids _ _ _ _ _ _ Hh)|].
        intros id Hid. rewrite (to_hint _ _ _ _ Hto id Hid). case_decide as H1.
        -- subst id. fold mdir. by apply (ds_file _ _ _ _ _ _ Hh 1).
        -- pose proof (ds_file _ _ _ _ _ _ Hhs id Hid) as Hf.
           assert (Hni : id ∉ hs.*1).
           { destruct Hone as [->|[c ->]]; [apply not_elem_of_nil|]. simpl. by intros ->%list_elem_of_singleton. }
           destruct (fs_files (st_fs s) !! SegmentFileName dir hintFileNameSuffix id) as [c|]; [|simpl; by intros ->%list_elem_of_singleton].
           destruct Hf as [_ Hin]. destruct Hni. apply list_elem_of_fmap. by exists (id, seg_chunks id c).
      * rewrite segs_log_cons. unfold segs_log. simpl. by rewrite app_nil_r.
    + apply Forall_forall. intros h Hh'. rewrite Forall_forall in R3. destruct (R3 h Hh'). split; [|done].
      rewrite Hlog. apply list_elem_of_fmap. by exists h.
    + rewrite Hlog. apply Forall_forall. intros pc Hpc. apply list_elem_of_fmap in Hpc as (h & -> & Hh').
      rewrite Forall_forall in R3. exists h.2. split; [done|]. apply (R3 h Hh').
  - etransitivity; [exact V|]. rewrite todo_view_nil, (left_id_L ∅ (∪)). done.
  - unfold open_fuel, wal_log. rewrite M3, segs_log_app, length_app.
    pose proof (nonempty_segs_length msegs) as Hl. rewrite Hmlog, length_fmap in Hl. lia.
Qed.

(** ** Opening anew, and reopening *)
Context (run : MergeRun) (options : Options) (Tend T0 : Z).

(** [Open] finds its directory there, or makes it. *)
Lemma open_dir_works dir fs : os_works fs -> exists fs1, open_dir dir fs = (None, fs1) /\
  fs_files fs1 = fs_files fs /\ fs_denies fs1 = fs_denies fs /\ fs_dirs fs ⊆ fs_dirs fs1.
Proof.
  intros Hos. unfold open_dir, os_StatDir, os_MkdirAll. rewrite !Hos. destruct (os_dir_exists fs dir); [by exists fs|].
  eexists. split; [reflexivity|]. simpl. split_and!; [done|done|set_solver].
Qed.

(** Only directories were made. *)
Lemma same_files_ready T old n hints s fs1 :
  fs_files fs1 = fs_files (st_fs s) -> fs_denies fs1 = fs_denies (st_fs s) -> fs_dirs (st_fs s) ⊆ fs_dirs fs1 ->
  merging T Tend options old n [] hints s -> merge_ready (mergeDirPath (o_DirPath options)) n hints (st_fs s) ->
  let s' := MkStore (st_db s) fs1 in
  merging T Tend options old n [] hints s' /\ db_view s' = db_view s /\
  merge_ready (mergeDirPath (o_DirPath options)) n hints fs1.
Proof.
  intros Ef Ed Hsub Hm [R1 (ms & R2 & R2') R3 (cs & R4 & R4') R5] s'.
  assert (Hin : inside (o_DirPath options) (st_fs s) fs1) by (split; [intros p _; by rewrite Ef|done]).
  split; [by apply merging_inside|]. split.
  - destruct Hm as (new & bss & [M1 M2 _ _ _ _] & _). rewrite <- M2 in Hin at 1. by apply (good_inside T).
  - assert (Hfr : forall ext segs, dir_segs seg_ok seg_chunks (mergeDirPath (o_DirPath options)) ext (st_fs s) segs ->
      dir_segs seg_ok seg_chunks (mergeDirPath (o_DirPath options)) ext fs1 segs).
    { intros ext segs H. apply (dir_segs_frame _ _ (st_fs s)); [done|]. intros id _. by rewrite Ef. }
    split; try done.
    + set_solver.
    + exists ms. auto.
    + exists cs. auto.
    + intros Hos. rewrite <- R5 by (intros c; by rewrite <- Ed).
      apply getMergeFinSegmentId_frame; [done|by rewrite Ef].
Qed.

Lemma merge_done_open cron_Parse cron_AddFunc now n hints s :
  merge_done options Tend n hints s -> os_works (st_fs s) ->
  merge_fits (mergeDirPath (o_DirPath options)) n (st_fs s) ->
  mergeDirPath (o_DirPath options) <> o_DirPath options -> Tend <= now ->
  checkOptions cron_Parse options = None -> cron_AddFunc (o_AutoMergeCronExpr options) = None ->
  o_WatchQueueSize options < 2 ^ 64 ->
  exists fuel0, forall fuel, (fuel0 <= fuel)%nat ->
    exists res fs', DB_Open cron_Parse cron_AddFunc (inr true) fuel now options (st_fs s) = Ret (res, fs') /\
      match res with
      | inl e => wal_open_error e
      | inr db => db_good now (MkStore db fs') /\ live_eq now (db_view (MkStore db fs')) (db_view s)
      end.
Proof.
  intros (T & old & Hm & HT & Hlen & Hold & Hready & Hn & Hn1 & _) Hos Hfits Hne Hnow Hopt Hcron Hq.
  destruct (open_dir_works (o_DirPath options) (st_fs s) Hos) as (fs1 & Hdir & Ef & Ed & Hsub).
  destruct (same_files_ready T old n hints s fs1 Ef Ed Hsub Hm Hready) as (Hm' & Ev & Hready').
  destruct (merge_ready_taken T Tend options old n hints (MkStore (st_db s) fs1))
    as (fs2 & pre & new & bss & E & Hrep & Hnew & Hv & _); try done.
  { intros c. simpl. by rewrite Ed. }
  { intros id Hid Hlt. simpl. rewrite Ef. by apply Hfits. }
  rewrite Ev in Hv. exists (open_fuel pre (open_post pre new) hints). intros fuel Hf.
  destruct (DB_Open_loaded cron_Parse cron_AddFunc fuel now options (st_fs s) fs1 fs2 pre new bss n hints)
    as (res & fs' & E' & Hres); try done.
  exists res, fs'. split; [done|]. destruct res as [e|db]; [apply Hres|]. destruct Hres as [A1 _ _ A2 _ _ _ _ _ _ _].
  split; [done|]. etransitivity; [exact A2|]. symmetry. by apply (live_eq_mono Tend).
Qed.
(** *** The files of a running database *)
(** The database [merge_reopen] starts the index of. *)
Definition reopened (w : wal) (h : option wal) (db : DB) : DB :=
  set_index NewIndexer (set_dataFiles w (set_hintFile h (set_mu (MkRWMutex true 0) db))).

Lemma reopened_inv db w h fs fs0 :
  db_inv (MkStore db fs0) -> wal_ok w fs -> wal_pend w = [] ->
  let s := MkStore (set_watcher (db_watcher db) (reopened w h db)) fs in db_inv s /\ db_view s = ∅.
Proof.
  intros [_ _ _ I4 I5] Hw Hp s. split.
  - split; try done. intros k op. simpl. by rewrite newBTree_map, lookup_empty.
  - apply map_eq. intros k. rewrite db_view_lookup. unfold db_rec. simpl. by rewrite newBTree_map, lookup_empty.
Qed.

Lemma disk_rep_reopen dir fs w fs' pre post bss fin hints :
  post <> [] -> disk_rep dir fs pre post bss fin hints -> wal_ok w fs' ->
  wal_dir w = dir -> wal_ext w = dataFileNameSuffix ->
  wal_segs w fs' = (match pre ++ post with [] => [(1, [])] | _ => pre ++ post end) ->
  fs_frame dir dataFileNameSuffix fs fs' ->
  disk_rep dir fs' pre post bss fin hints /\ wal_segs w fs' = pre ++ post.
Proof.
  intros Hne Hrep H1 H2 H3 H4 H5.
  destruct (disk_rep_open dir fs w fs' pre post bss fin hints Hrep H1 H2 H3 H4 H5) as (R1 & R2 & _).
  assert (Happ : pre ++ post <> []) by (intros [_ ?]%app_nil; done).
  assert (E1 : open_post pre post = post) by (unfold open_post; by destruct (pre ++ post)).
  assert (E2 : open_bss pre post bss = bss) by (unfold open_bss; by destruct (pre ++ post)).
  by rewrite E1, E2 in *.
Qed.

(** What a database shows does not depend on its lock, its pools or its hint file. *)
Definition same_data (d d' : DB) : Prop :=
  db_dataFiles d' = db_dataFiles d /\ db_index d' = db_index d /\ db_encodeHeader d' = db_encodeHeader d /\
  db_options d' = db_options d /\ db_watcher d' = db_watcher d.

Lemma same_data_inv d d' fs :
  same_data d d' -> db_inv (MkStore d fs) ->
  db_inv (MkStore d' fs) /\ db_view (MkStore d' fs) = db_view (MkStore d fs).
Proof.
  intros (E1 & E2 & E3 & E4 & E5) [I1 I2 I3 I4 I5]. cbn [st_db st_fs] in *. split.
  - split; cbn [st_db st_fs]; by rewrite ?E1, ?E2, ?E3, ?E4, ?E5.
  - unfold db_view. cbn [st_db st_fs]. by rewrite E1, E2.
Qed.

Lemma loadIndex_mu fuel now db fs err db' fs' :
  loadIndex fuel now db fs = Ret (err, db', fs') -> db_mu db' = db_mu db.
Proof.
  unfold loadIndex. destruct (loadIndexFromHintFile _ _ _ _) as [[[[e|] i] fs1]| |]; simpl; [by intros [= _ <- _]| |done|done].
  destruct (loadIndexFromWAL _ _ _ _ _ _) as [[[e i'] w]| |]; simpl; [by intros [= _ <- _]|done|done].
Qed.

Lemma merge_reopen_spec n hints s :
  merge_done options Tend n hints s -> os_works (st_fs s) ->
  merge_fits (mergeDirPath (o_DirPath options)) n (st_fs s) ->
  mergeDirPath (o_DirPath options) <> o_DirPath options -> Tend <= mr_reload_now run ->
  (2 * length (wal_log (db_dataFiles (st_db s)) (st_fs s)) < mr_fuel run)%nat ->
  exists err s', merge_reopen run s = Ret (err, s') /\
    match err with
    | Some e => wal_open_error e
    | None => db_good (mr_reload_now run) s' /\ live_eq (mr_reload_now run) (db_view s') (db_view s)
    end.
Proof.
  intros (T & old & Hm & HT & Hlen & Hold & Hready & Hn & Hn1 & _) Hos Hfits Hne Hnow Hf.
  destruct (merge_ready_taken T Tend options old n hints s Hos Hne Hm Hlen Hold Hn Hn1 Hready Hfits)
    as (fs2 & pre & new & bss & E & Hrep & Hnew & Hv & Hfuel).
  destruct Hm as (new0 & bss0 & [[G1 G2 G3 G4 G5 _] Ho _ _ _ _] & _).
  set (s0 := MkStore (set_mu (MkRWMutex true 0) (st_db s)) (st_fs s)).
  destruct (closeFiles_spec s0) as (cerr & cw & ch & Ec). unfold merge_reopen, with_lock.
  assert (L1 : db_with_mu mu_Lock s = Ret (tt, s0)) by (unfold db_with_mu; by rewrite G3).
  rewrite (gbind_Ret _ _ _ _ _ L1). unfold gbind at 1 2. rewrite Ec. cbn [st_db st_fs].
  change (db_options (set_hintFile _ _)) with (db_options (st_db s)). rewrite Ho.
  change (st_fs s0) with (st_fs s). rewrite E. cbn [mbind outcome_bind].
  unfold openWalFiles. destruct (wal_Open (wal_options options) fs2) as [[e|w] fs3] eqn:Eo.
  { eexists (Some e), _. split; [reflexivity|]. by eexists _, _, _. }
  destruct exts_in as (I1 & _).
  destruct (wal_Open_law _ _ _ _ (pre ++ new) Eo I1) as (O1 & O2 & O3 & O4 & O5 & O6 & O7); [apply Hrep|].
  destruct (disk_rep_reopen _ fs2 w fs3 pre new bss n hints Hnew Hrep O1 O2 O3 O5 O6) as [Hrep3 Hsegs].
  change (set_index NewIndexer _) with (reopened w ch (st_db s)).
  destruct (reopened_inv (st_db s) w ch fs3 (st_fs s) ltac:(by destruct s) O1 O4) as [N1 N2].
  destruct (loadIndex_spec (mr_fuel run) (mr_reload_now run) (db_watcher (st_db s)) (reopened w ch (st_db s)) fs3
    pre new bss n hints) as (err & db' & fs4 & El & Hl); simpl; rewrite ?Ho; try done; [lia|].
  rewrite El. cbn [mbind outcome_bind]. apply loadIndex_mu in El. simpl in El.
  assert (L2 : db_with_mu mu_Unlock (MkStore db' fs4) = Ret (tt, MkStore (set_mu mu_free db') fs4))
    by (unfold db_with_mu; simpl; by rewrite El).
  rewrite (gbind_Ret _ _ _ _ _ L2). eexists err, _.
  split; [reflexivity|]. destruct err as [e|]; [apply Hl|].
  destruct Hl as ((i & w' & -> & D1 & D2 & D3) & K1 & K2 & K3 & K4 & K5). simpl in K2, K5, D1. rewrite Ho in *.
  set (db1 := set_dataFiles w' (set_index i (reopened w ch (st_db s)))) in *.
  destruct (same_data_inv (set_watcher (db_watcher (st_db s)) db1) (set_mu mu_free db1) fs4) as [J1 J2];
    [by split_and!|exact K1|].
  split.
  - split; [exact J1|exact G2|done|exact G4|exact G5|].
    split; [|split]; simpl; rewrite ?Ho; [done|done|]. exists pre, new, bss, n, hints. split; [done|].
    rewrite J2. exact K3.
  - rewrite J2. etransitivity; [exact K3|]. symmetry. by apply (live_eq_mono Tend).
Qed.
End merge_open.
