(* ===== verification/MergeProps.v ===== *)
(** * Properties of merging

    A merge keeps every live key while other goroutines call the database, and
    what it leaves on the disk shows the same map when the database is opened
    again or reopens its files, when the system refuses nothing; a rename it refuses
    loses a segment.  The examples at the end show where the code falls short: a
    smaller segment size, a record whose expiry overflowed, a merge that was
    interrupted, a rename that fails and an end mark that cannot be opened. *)
From S2P Require Import Prelude GoBinary Config GoOs Filepath WalLib WalModel Record BTreeLib Index Watch.
From S2P Require Import Store Batch DB Open View BatchSpec CommitSpec Recovery OpenSpec DBSpec Instances.
From S2P Require Import Merge MergeSpec MergeLoop MergeOpen.
Open Scope Z_scope.

Section merge_props.
Context {W : WalLib} {WL : WalLaws W} {B : BTreeLib item item_less} {BL : BTreeLaws B}
  {SF : Snowflake} {SL : SnowflakeLaws SF} {MH : MemHashLib}.

(** A call of [Merge] the theorems speak of: a database in use, not closed and
    not being merged, whose log has a chunk; expiry times that did not overflow;
    other goroutines that call the API between the rounds, all before [Tend]; a
    merge directory that can be opened; rounds enough for the log. *)
Record mergeable (run : MergeRun) (options : Options) (Tend T0 : Z) (ops : nat -> list dop) (s : Store) : Prop := {
  mg_good : db_good T0 s;
  mg_options : db_options (st_db s) = options;
  mg_idle : db_mergeRunning (st_db s) = false;
  mg_written : wal_IsEmpty (db_dataFiles (st_db s)) (st_fs s) = false;
  mg_expiry : forall k v e, db_view s !! k = Some (v, e) -> 0 <= e;
  mg_others : others_ok run Tend T0 ops;
  mg_now : merge_now_ok run Tend;
  mg_end : T0 <= Tend;
  mg_can : can_open_merge run options (st_fs s);
  mg_fuel : (length (wal_log (db_dataFiles (st_db s)) (st_fs s)) < mr_fuel run)%nat;
}.

(** The rounds a merge of the log of [s] takes. *)
Definition merge_rounds (s : Store) : nat := rounds (length (wal_log (db_dataFiles (st_db s)) (st_fs s))).

Lemma mergeable_doMerge run options Tend T0 ops s :
  mergeable run options Tend T0 ops s ->
  merge_failed T0 ops (db_view s) s (doMerge run s) \/ refused_call run T0 ops (db_view s) s \/
  exists s' hints, doMerge run s = Ret (None, s') /\
    merge_done options Tend (wal_ActiveSegmentID (db_dataFiles (st_db s))) hints s' /\
    db_good (time_at T0 ops (merge_rounds s)) s' /\
    live_eq (time_at T0 ops (merge_rounds s)) (db_view s') (spec_at (db_view s) ops (merge_rounds s)).
Proof. intros [H1 H2 H3 H4 H5 H6 H7 H8 H9 H10]. by apply (doMerge_spec run options Tend T0 ops s (db_view s)). Qed.

(** The error of [doMerge] is that of [Merge]. *)
Lemma doMerge_failed run T0 ops s re :
  merge_failed T0 ops (db_view s) s (doMerge run s) -> merge_failed T0 ops (db_view s) s (DB_Merge run re s).
Proof.
  intros (e & s' & i & E & H). exists e, s', i. split; [|exact H]. unfold DB_Merge. by rewrite (gbind_Ret _ _ _ _ _ E).
Qed.

(** C7: [Merge(false)] on a database in use, with expiry times that have not
    overflowed: it returns nil, and the database is what the calls of the other
    goroutines, made between its rounds, made of the map it had; or it returns an
    error of the log library or of the system, and the database shows what the
    calls made until then made of that map, its lock and the flag of the merge
    free; or the log refuses one of those calls in the course of this run.  When it
    has returned nil, the system refuses nothing, and the merged segments fit under
    the segment where the merge began, opening the directory takes the merged files
    over and shows the same live keys, or reports an error of the log library. *)
Theorem merge_then_open run options Tend T0 ops s :
  mergeable run options Tend T0 ops s ->
  merge_failed T0 ops (db_view s) s (DB_Merge run false s) \/ refused_call run T0 ops (db_view s) s \/
  exists s', DB_Merge run false s = Ret (None, s') /\
    db_good (time_at T0 ops (merge_rounds s)) s' /\
    live_eq (time_at T0 ops (merge_rounds s)) (db_view s') (spec_at (db_view s) ops (merge_rounds s)) /\
    (os_works (st_fs s') ->
     merge_fits (mergeDirPath (o_DirPath options)) (wal_ActiveSegmentID (db_dataFiles (st_db s))) (st_fs s') ->
     forall cron_Parse cron_AddFunc now, Tend <= now -> checkOptions cron_Parse options = None ->
     cron_AddFunc (o_AutoMergeCronExpr options) = None ->
     exists fuel0, forall fuel, (fuel0 <= fuel)%nat ->
       exists res fs', DB_Open cron_Parse cron_AddFunc (inr true) fuel now options (st_fs s') = Ret (res, fs') /\
         match res with
         | inl e => wal_open_error e
         | inr db => db_good now (MkStore db fs') /\ live_eq now (db_view (MkStore db fs')) (db_view s')
         end).
Proof.
  intros Hm.
  destruct (mergeable_doMerge _ _ _ _ _ _ Hm) as [H|[H|(s' & hints & E & Hd & Hg & Hv)]].
  - left. by apply doMerge_failed.
  - by right; left.
  - right; right. exists s'. unfold DB_Merge. rewrite (gbind_Ret _ _ _ _ _ E). split_and!; try done.
    intros Hos Hfits cp ca now Hnow Hopt Hcron. eapply (merge_done_open options Tend); try done.
    + apply Hm.
    + apply Hm.
Qed.

(** C8: [Merge(true)], the files reopened under the lock, when the system refuses
    nothing and the merged segments fit under the segment where the merge began:
    the database takes the merged segments over while it runs and goes on showing
    the live keys it had, those of the calls made during the merge included.
    Otherwise the merge itself ended with an error and the database shows the map
    as it was then, or the log library could not be opened again, or the log
    refused one of the calls in the course of this run. *)
Theorem merge_reopen_keeps_keys run options Tend T0 ops s :
  mergeable run options Tend T0 ops s -> Tend <= mr_reload_now run ->
  (forall s', doMerge run s = Ret (None, s') -> os_works (st_fs s') /\
     merge_fits (mergeDirPath (o_DirPath options)) (wal_ActiveSegmentID (db_dataFiles (st_db s))) (st_fs s') /\
     (2 * length (wal_log (db_dataFiles (st_db s')) (st_fs s')) < mr_fuel run)%nat) ->
  merge_failed T0 ops (db_view s) s (DB_Merge run true s) \/
  (exists e s', DB_Merge run true s = Ret (Some e, s') /\ wal_open_error e) \/
  refused_call run T0 ops (db_view s) s \/
  exists s', DB_Merge run true s = Ret (None, s') /\ db_good (mr_reload_now run) s' /\
    live_eq (mr_reload_now run) (db_view s') (spec_at (db_view s) ops (merge_rounds s)).
Proof.
  intros Hm Hnow Hfits.
  destruct (mergeable_doMerge _ _ _ _ _ _ Hm) as [H|[H|(s1 & hints & E & Hd & Hg & Hv)]].
  - left. by apply doMerge_failed.
  - by do 2 right; left.
  - destruct (Hfits s1 E) as (Hf0 & Hf1 & Hf2). unfold DB_Merge. rewrite (gbind_Ret _ _ _ _ _ E).
    destruct (merge_reopen_spec run options Tend _ hints s1 Hd Hf0 Hf1) as (err & s2 & E2 & H2); try done; [apply Hm|].
    simpl. rewrite E2. destruct err as [e|].
    + right; left. by exists e, s2.
    + do 3 right. exists s2. split; [done|]. destruct H2 as [G2 V2]. split; [done|].
      etransitivity; [exact V2|]. apply (live_eq_mono (time_at T0 ops (merge_rounds s))); [|done].
      etransitivity; [|exact Hnow]. by eapply time_at_end; apply Hm.
Qed.

(** ** A rename that fails *)

(** Only renames fail. *)
Definition renames_fail (fs : FileSys) : Prop :=
  forall c, fs_denies fs c <> None -> exists src dst, c = OsRename src dst.

Lemma renames_only fs c : renames_fail fs -> (forall src dst, c <> OsRename src dst) -> fs_denies fs c = None.
Proof. intros H Hc. destruct (fs_denies fs c) eqn:E; [|done]. destruct (H c) as (src & dst & ->); [by rewrite E|by destruct (Hc src dst)]. Qed.

(** A rename, whether it fails or not, touches its two files at most. *)
Lemma os_Rename_rest fs src dst p : p <> src -> p <> dst -> fs_files (os_Rename fs src dst).2 !! p = fs_files fs !! p.
Proof.
  intros H1 H2. unfold os_Rename. destruct (fs_denies fs _); [done|]. destruct (fs_files fs !! src); [|done]. simpl.
  by rewrite lookup_insert_ne, lookup_delete_ne by done.
Qed.

Lemma os_Rename_denies fs src dst : fs_denies (os_Rename fs src dst).2 = fs_denies fs.
Proof. unfold os_Rename. destruct (fs_denies fs _); [done|]. by destruct (fs_files fs !! src). Qed.

Lemma copyFile_quiet mdir dir ext id force fs : renames_fail fs ->
  exists fs', copyFile mdir dir ext id force fs = Ret fs' /\ fs_denies fs' = fs_denies fs /\
    (forall p, p <> SegmentFileName mdir ext id -> p <> SegmentFileName dir ext id -> fs_files fs' !! p = fs_files fs !! p) /\
    (fs_denies fs (OsRename (SegmentFileName mdir ext id) (SegmentFileName dir ext id)) <> None -> fs' = fs).
Proof.
  intros Hr. unfold copyFile, os_Stat. rewrite (renames_only fs (OsStat _)) by done.
  destruct (fs_files fs !! _) as [c|]; [|by exists fs]. destruct (negb force && _); [by exists fs|].
  eexists. split; [reflexivity|]. split; [apply os_Rename_denies|]. split; [intros p ? ?; by apply os_Rename_rest|].
  intros H. unfold os_Rename. by destruct (fs_denies fs (OsRename _ _)).
Qed.

(** One round, its rename failing or not. *)
Lemma load_segment_quiet mdir dir id fs : renames_fail fs ->
  exists fs', load_segment mdir dir id fs = Ret (None, fs') /\ fs_denies fs' = fs_denies fs /\
    (forall p, p <> SegmentFileName mdir dataFileNameSuffix id -> p <> SegmentFileName dir dataFileNameSuffix id ->
       fs_files fs' !! p = fs_files fs !! p) /\
    (fs_denies fs (OsRename (SegmentFileName mdir dataFileNameSuffix id) (SegmentFileName dir dataFileNameSuffix id)) <> None ->
       fs_files fs' !! SegmentFileName dir dataFileNameSuffix id = None).
Proof.
  intros Hr. unfold load_segment, os_Stat, os_Remove. set (dst := SegmentFileName dir _ id).
  rewrite (renames_only fs (OsStat dst)), (renames_only fs (OsRemove dst)) by done.
  destruct (fs_files fs !! dst) as [c|] eqn:Ed.
  - set (fs1 := MkFileSys _ _ _). destruct (copyFile_quiet mdir dir dataFileNameSuffix id false fs1) as (fs2 & -> & H1 & H2 & H3); [done|].
    cbn [mbind outcome_bind]. exists fs2. split; [done|]. split; [done|]. split.
    + intros p Hp Hp'. rewrite H2 by done. simpl. by rewrite lookup_delete_ne.
    + intros H. rewrite (H3 H). simpl. by rewrite lookup_delete_eq.
  - destruct (copyFile_quiet mdir dir dataFileNameSuffix id false fs) as (fs2 & -> & H1 & H2 & H3); [done|].
    cbn [mbind outcome_bind]. exists fs2. split; [done|]. split; [done|]. split; [done|]. intros H. by rewrite (H3 H).
Qed.

(** The whole loop: a segment whose rename fails is gone from the data directory. *)
Lemma load_segments_quiet mdir dir ids fs id : mdir <> dir -> renames_fail fs -> Forall seg_id_ok ids -> seg_id_ok id ->
  fs_denies fs (OsRename (SegmentFileName mdir dataFileNameSuffix id) (SegmentFileName dir dataFileNameSuffix id)) <> None ->
  exists fs', load_segments mdir dir ids fs = Ret (None, fs') /\ fs_denies fs' = fs_denies fs /\
    (id ∈ ids \/ fs_files fs !! SegmentFileName dir dataFileNameSuffix id = None ->
     fs_files fs' !! SegmentFileName dir dataFileNameSuffix id = None).
Proof.
  intros Hne. revert fs. induction ids as [|i ids IH]; intros fs Hr Hids Hid Hd; cbn [load_segments].
  { exists fs. split; [done|]. split; [done|]. intros [H|H]; [by apply not_elem_of_nil in H|done]. }
  apply Forall_cons in Hids as [Hi Hids].
  destruct (load_segment_quiet mdir dir i fs Hr) as (fs1 & -> & E1 & Hrest & Hgone). cbn [mbind outcome_bind].
  destruct (IH fs1) as (fs2 & -> & E2 & H2); [intros c; rewrite E1; apply Hr|done|done|by rewrite E1|].
  exists fs2. split; [done|]. split; [congruence|]. intros H. apply H2.
  destruct (decide (i = id)) as [->|Hni]; [right; by apply Hgone|].
  destruct H as [H|H]; [apply elem_of_cons in H as [->|H]; [done|by left]|right].
  destruct exts_in as (I1 & _). rewrite Hrest; [done| |].
  - intros E. apply Hne. rewrite <- (SegmentFileName_dir mdir dataFileNameSuffix i), <- E. apply SegmentFileName_dir.
  - intros E. apply (SegmentFileName_inj dir) in E as [_ E]; [congruence|done..].
Qed.

(** C30: The error of [os.Rename] is dropped: when the system refuses to rename one
    merged segment, and nothing else goes wrong, [loadMergeFiles] reports success,
    and that segment is gone from both directories, with the records in it, and so
    is the original it replaces. *)
Theorem failed_rename_loses_segment dir fs n id :
  mergeDirPath dir <> dir -> mergeDirPath dir ∈ fs_dirs fs ->
  getMergeFinSegmentId fs (mergeDirPath dir) = Ret (inr n) -> 0 < id <= n -> n < 2 ^ 32 - 1 ->
  renames_fail fs ->
  fs_denies fs (OsRename (SegmentFileName (mergeDirPath dir) dataFileNameSuffix id)
                         (SegmentFileName dir dataFileNameSuffix id)) <> None ->
  exists fs', loadMergeFiles dir fs = Ret (None, fs') /\
    fs_files fs' !! SegmentFileName (mergeDirPath dir) dataFileNameSuffix id = None /\
    fs_files fs' !! SegmentFileName dir dataFileNameSuffix id = None.
Proof.
  intros Hne Hin Hfin Hid Hn Hr Hd. set (mdir := mergeDirPath dir) in *.
  destruct exts_ne as (N1 & N2 & N3). destruct exts_in as (I1 & I2 & I3). pose proof seg_id_1 as Hid1.
  assert (Hok : seg_id_ok id) by (unfold seg_id_ok; lia).
  unfold loadMergeFiles. fold mdir. unfold os_StatDir, os_dir_exists.
  rewrite (renames_only fs (OsStatDir mdir)), bool_decide_eq_true_2, Hfin by done. cbn [mbind outcome_bind].
  destruct (load_segments_quiet mdir dir (ids_to n) fs id) as (fs1 & -> & E1 & H1); try done.
  { apply Forall_forall. intros i Hi. apply ids_to_elem in Hi. unfold seg_id_ok. lia. }
  cbn [mbind outcome_bind]. rewrite decide_False by lia.
  assert (Hr1 : renames_fail fs1) by (intros c; rewrite E1; apply Hr).
  destruct (copyFile_quiet mdir dir mergeFinNameSuffix 1 true fs1 Hr1) as (fs2 & -> & E2 & H2 & _). cbn [mbind outcome_bind].
  assert (Hr2 : renames_fail fs2) by (intros c; rewrite E2; apply Hr1).
  destruct (copyFile_quiet mdir dir hintFileNameSuffix 1 true fs2 Hr2) as (fs3 & -> & E3 & H3 & _). cbn [mbind outcome_bind].
  assert (Hr3 : renames_fail fs3) by (intros c; rewrite E3; apply Hr2).
  eexists. split; [reflexivity|]. split.
  - unfold os_RemoveAll. rewrite (renames_only fs3 (OsRemoveAll mdir)) by done. simpl.
    apply map_lookup_filter_None_2. right. intros c _. simpl. rewrite SegmentFileName_dir. tauto.
  - rewrite os_RemoveAll_outside by (rewrite SegmentFileName_dir; by apply not_eq_sym).
    rewrite H3, H2; [|by apply ext_ne_file..]. apply H1. left. apply ids_to_elem. lia.
Qed.
End merge_props.

(** ** A merge of a sample database *)
Lemma live_eq_expiry T m m' :
  live_eq T m m' -> (forall k v e, m' !! k = Some (v, e) -> 0 <= e) ->
  forall k v e, m !! k = Some (v, e) -> 0 <= e.
Proof.
  intros H Hm k v e Hk. destruct (decide (0 <= e)) as [|He]; [done|]. exfalso.
  rewrite live_eq_lookup in H. specialize (H k). rewrite !live_lookup, Hk in H.
  assert (Hx : expired e T = false) by (unfold expired; apply andb_false_iff; left; apply Z.ltb_ge; lia).
  rewrite Hx in H. destruct (m' !! k) as [[v' e']|] eqn:E; [|done].
  destruct (expired e' T); [done|]. injection H as <- <-. by apply He, (Hm k v).
Qed.

(** The history before the merge: a key, one overwritten, one deleted. *)
Definition merge_history : list dop :=
  [DPut 6 7 ($"a") ($"1"); DPut 8 9 ($"b") ($"1"); DPut 10 11 ($"b") ($"2"); DPut 12 13 ($"c") ($"3");
   DDelete 14 15 ($"c")].

(** Another goroutine writes in the second round and deletes in the fourth. *)
Definition merge_calls (i : nat) : list dop :=
  match i with
  | 2%nat => [DPut 20 21 ($"d") ($"4")]
  | 4%nat => [DDelete 22 23 ($"a")]
  | _ => []
  end.

Definition sample_merge : MergeRun :=
  MkMergeRun no_cron no_cron (inr true) 100 100 30 30 (fun i => calls (merge_calls i)).

Lemma merge_calls_time j : time_at 15 merge_calls (5 + j) = 23.
Proof. induction j as [|j IH]; [done|exact IH]. Qed.

Lemma merge_calls_ok : others_ok sample_merge 30 15 merge_calls.
Proof.
  intros i. split; [reflexivity|].
  assert (Hend : time_at 15 merge_calls (S i) <= 30).
  { destruct i as [|[|[|[|i]]]]; [vm_compute; discriminate..|].
    change (S (S (S (S (S i))))) with (5 + i)%nat. by rewrite merge_calls_time. }
  destruct i as [|[|[|[|[|i]]]]]; (split; [|split; [|exact Hend]]);
    solve [exact I|constructor|by repeat constructor|vm_compute; intuition discriminate].
Qed.

(** What the theorems ask of the store, computed. *)
Definition merge_ready_store (s : Store) : bool :=
  bool_decide (wal_IsEmpty (db_dataFiles (st_db s)) (st_fs s) = false) &&
  bool_decide (db_mergeRunning (st_db s) = false) &&
  bool_decide (os_dir_exists (st_fs s) (mergeDirPath (mergeDirPath sample_dir)) = false) &&
  bool_decide (length (wal_log (db_dataFiles (st_db s)) (st_fs s)) = 10%nat).

Definition merge_history_ready : bool :=
  match sample_runs merge_history with Ret (_, s) => merge_ready_store s | _ => false end.

Lemma sample_mergeable : exists s rs, sample_runs merge_history = Ret (rs, s) /\
  mergeable sample_merge sample_options 30 15 merge_calls s /\
  length (wal_log (db_dataFiles (st_db s)) (st_fs s)) = 10%nat.
Proof.
  destruct (sample_history_store merge_history) as (rs & s & E & G & O & V).
  { vm_compute. intuition discriminate. }
  { by repeat constructor. }
  { vm_compute. reflexivity. }
  assert (Hr : merge_history_ready = true) by (vm_compute; reflexivity).
  unfold merge_history_ready in Hr. rewrite E in Hr. unfold merge_ready_store in Hr.
  rewrite !andb_true_iff, !bool_decide_eq_true in Hr. destruct Hr as [[[H1 H2] H3] H4].
  exists s, rs. split; [exact E|]. split; [|exact H4]. split; try assumption.
  - apply (live_eq_expiry _ _ _ V). intros k v e Hk.
    assert (Hall : bool_decide (map_Forall (fun (_ : bytes) (ve : bytes * Z) => 0 <= ve.2)
      (dops_spec merge_history ∅).2) = true) by (vm_compute; reflexivity).
    apply bool_decide_eq_true in Hall. exact (Hall k (v, e) Hk).
  - exact merge_calls_ok.
  - unfold merge_now_ok. simpl. lia.
  - lia.
  - split; try (vm_compute; reflexivity); [vm_compute; lia|vm_compute; discriminate|vm_compute; discriminate|exact H3].
  - rewrite H4. simpl. lia.
Qed.

(** The calls of a round, on the store of that round, succeed. *)
Definition round_fine (s : Store) (j : nat) : bool :=
  match round_store sample_merge s j with
  | Ret s0 => match dops_run (merge_calls j) s0 with Ret ([ResErr None], _) => true | _ => false end
  | _ => false
  end.

Definition rounds_fine : bool :=
  match sample_runs merge_history with Ret (_, s) => round_fine s 2 && round_fine s 4 | _ => false end.

Lemma one_call_not_refused T o m s : refused_in T [o] m s ->
  match dops_run [o] s with Ret ([ResErr None], _) => true | _ => false end = true -> False.
Proof.
  intros (ops1 & o1 & ops2 & xs & s1 & Eo & E & _ & _ & (e & s2 & m' & E2 & _)) H.
  destruct ops1 as [|o2 ops1]; [|destruct ops1; discriminate Eo]. injection Eo as <- _.
  cbn in E. injection E as _ <-. cbn [dops_run] in H. rewrite (gbind_Ret _ _ _ _ _ E2) in H. discriminate H.
Qed.

Lemma sample_not_refused s rs : sample_runs merge_history = Ret (rs, s) ->
  ~ refused_call sample_merge 15 merge_calls (db_view s) s.
Proof.
  intros E (j & s0 & Ej & Href). assert (Hf : rounds_fine = true) by (vm_compute; reflexivity).
  unfold rounds_fine in Hf. rewrite E in Hf. apply andb_true_iff in Hf as [H2 H4]. unfold round_fine in H2, H4.
  destruct j as [|[|[|[|[|j]]]]].
  3: { rewrite Ej in H2. exact (one_call_not_refused _ _ _ _ Href H2). }
  4: { rewrite Ej in H4. exact (one_call_not_refused _ _ _ _ Href H4). }
  all: destruct Href as (ops1 & o & ops2 & xs & s1 & Eo & _); destruct ops1; discriminate Eo.
Qed.

(** The merge directory holds one segment of each kind. *)
Definition merge_dir_small (fs : FileSys) : bool :=
  forallb (fun p : path => bool_decide (p.1 = mergeDirPath sample_dir ->
             p ∈ (fun ext => SegmentFileName (mergeDirPath sample_dir) ext 1) <$> wal_exts))
    (map_to_list (fs_files fs)).*1.

Lemma merge_dir_small_fits fs n :
  0 < n -> merge_dir_small fs = true -> merge_fits (mergeDirPath sample_dir) n fs.
Proof.
  intros Hn H id Hid Hlt. destruct (fs_files fs !! _) as [c|] eqn:Ec; [|done]. exfalso.
  unfold merge_dir_small in H. rewrite forallb_forall in H.
  assert (Hin : SegmentFileName (mergeDirPath sample_dir) dataFileNameSuffix id ∈ (map_to_list (fs_files fs)).*1).
  { apply list_elem_of_fmap. exists (SegmentFileName (mergeDirPath sample_dir) dataFileNameSuffix id, c).
    split; [done|]. by apply elem_of_map_to_list. }
  apply list_elem_of_In, H, bool_decide_eq_true in Hin.
  specialize (Hin (SegmentFileName_dir _ _ _)). apply list_elem_of_fmap in Hin as (ext & E & He).
  apply SegmentFileName_inj in E as [_ ->]; [lia|apply exts_in|done|done|apply seg_id_1].
Qed.

(** What the theorems ask of the run, computed: the merge of the sample ends well,
    its directory fits, and the system refuses nothing. *)
Definition merge_ends (s s' : Store) : Prop :=
  wal_ActiveSegmentID (db_dataFiles (st_db s)) = 1 /\ merge_dir_small (st_fs s') = true /\
  length (wal_log (db_dataFiles (st_db s')) (st_fs s')) = 14%nat /\ fs_denies (st_fs s') = (fun _ => None).

Lemma sample_merge_ends : match sample_runs merge_history with
  | Ret (_, s) => match doMerge sample_merge s with
                  | Ret (None, s') => merge_ends s s' /\
                      match DB_Merge sample_merge true s with Ret (None, _) => true | _ => false end = true
                  | _ => False
                  end
  | _ => False
  end.
Proof. vm_compute. repeat split; reflexivity. Qed.

Lemma model_wal_opens e : ~ wal_open_error e.
Proof. intros (o & fs1 & fs2 & E). cbn in E. unfold wm_Open in E. by destruct (dir_ids _ _ _). Qed.

Lemma merge_then_open_witness : exists s rs s', sample_runs merge_history = Ret (rs, s) /\
  mergeable sample_merge sample_options 30 15 merge_calls s /\ DB_Merge sample_merge false s = Ret (None, s') /\
  live_eq 23 (db_view s') (spec_at (db_view s) merge_calls 12) /\
  exists fuel0, forall fuel, (fuel0 <= fuel)%nat ->
    exists db fs', DB_Open no_cron no_cron (inr true) fuel 40 sample_options (st_fs s') = Ret (inr db, fs') /\
      db_good 40 (MkStore db fs') /\ live_eq 40 (db_view (MkStore db fs')) (db_view s').
Proof.
  destruct sample_mergeable as (s & rs & E & Hm & Hlen). pose proof sample_merge_ends as Hend. rewrite E in Hend.
  destruct (doMerge sample_merge s) as [[[e|] s1]| |] eqn:Ed; [destruct Hend| |destruct Hend|destruct Hend].
  destruct Hend as ((H1 & H2 & H3 & H4) & _).
  assert (Em : DB_Merge sample_merge false s = Ret (None, s1)) by (unfold DB_Merge; rewrite (gbind_Ret _ _ _ _ _ Ed); reflexivity).
  destruct (merge_then_open sample_merge sample_options 30 15 merge_calls s Hm)
    as [(e & s2 & i & Ex & _)|[H|(s' & E' & _ & Hv & Hopen)]].
  - rewrite Em in Ex. discriminate Ex.
  - destruct (sample_not_refused s rs E H).
  - rewrite Em in E'. injection E' as <-. exists s, rs, s1. split; [exact E|]. split; [exact Hm|]. split; [exact Em|].
    split; [unfold merge_rounds in Hv; rewrite Hlen in Hv; exact Hv|].
    destruct (Hopen ltac:(intros c; rewrite H4; reflexivity) ltac:(rewrite H1; apply merge_dir_small_fits; [lia|exact H2])
      no_cron no_cron 40 ltac:(lia) ltac:(vm_compute; reflexivity) ltac:(reflexivity)) as (fuel0 & Hf).
    exists fuel0. intros fuel Hle. destruct (Hf fuel Hle) as (res & fs' & Eo & Hres).
    destruct res as [e|db]; [destruct (model_wal_opens e Hres)|]. exists db, fs'. split; [exact Eo|exact Hres].
Defined.

Lemma merge_reopen_keeps_keys_witness : exists s rs s', sample_runs merge_history = Ret (rs, s) /\
  mergeable sample_merge sample_options 30 15 merge_calls s /\ DB_Merge sample_merge true s = Ret (None, s') /\
  db_good 30 s' /\ live_eq 30 (db_view s') (spec_at (db_view s) merge_calls 12).
Proof.
  destruct sample_mergeable as (s & rs & E & Hm & Hlen). pose proof sample_merge_ends as Hend. rewrite E in Hend.
  destruct (doMerge sample_merge s) as [[[e|] s1]| |] eqn:Ed; [destruct Hend| |destruct Hend|destruct Hend].
  destruct Hend as ((H1 & H2 & H3 & H4) & Hrun).
  destruct (DB_Merge sample_merge true s) as [[[e|] s2]| |] eqn:Em; [discriminate Hrun| |discriminate Hrun|discriminate Hrun].
  destruct (merge_reopen_keeps_keys sample_merge sample_options 30 15 merge_calls s Hm)
    as [(e & s3 & i & Ex & _)|[(e & s3 & Ex & _)|[H|(s' & E' & Hg & Hv)]]].
  - apply Z.le_refl.
  - intros s' Es. rewrite Ed in Es. injection Es as <-. split; [intros c; rewrite H4; reflexivity|].
    rewrite H1, H3. split; [apply merge_dir_small_fits; [lia|exact H2]|vm_compute; lia].
  - rewrite Em in Ex. discriminate Ex.
  - rewrite Em in Ex. discriminate Ex.
  - destruct (sample_not_refused s rs E H).
  - rewrite Em in E'. injection E' as <-. exists s, rs, s2. split; [exact E|]. split; [exact Hm|]. split; [exact Em|].
    split; [exact Hg|]. unfold merge_rounds in Hv. rewrite Hlen in Hv. exact Hv.
Defined.

(** ** Where the code falls short *)

(** A merge without other goroutines. *)
Definition quiet_merge : MergeRun :=
  MkMergeRun no_cron no_cron (inr true) 100 100 101 102 (fun _ => gret tt).

(** Run [ops], close, open with [options], change the system by [f], [Merge(true)],
    then read three keys. *)
Definition read_after_merge_on (f : FileSys -> FileSys) (options : Options) (ops : list dop) : option (option error * list dres) :=
  match sample_runs ops with
  | Ret (_, s) =>
      match DB_Close None s with
      | Ret (_, s) =>
          match DB_Open no_cron no_cron (inr true) 100 50 options (st_fs s) with
          | Ret (inr db, fs) =>
              match DB_Merge quiet_merge true (MkStore db (f fs)) with
              | Ret (err, s) =>
                  match dops_run [DGet 110 ($"a"); DGet 110 ($"b"); DGet 110 ($"c")] s with
                  | Ret (rs, _) => Some (err, rs)
                  | _ => None
                  end
              | _ => None
              end
          | _ => None
          end
      | _ => None
      end
  | _ => None
  end.

Definition read_after_merge : Options -> list dop -> option (option error * list dres) := read_after_merge_on id.

Definition three_puts : list dop :=
  [DPut 6 7 ($"a") ($"1"); DPut 8 9 ($"b") ($"2"); DPut 10 11 ($"c") ($"3")].

(** With the segment size the keys were written with, all is well. *)
Example merge_same_segment_size :
  read_after_merge sample_options three_puts
    = Some (None, [ResVal (inr ($"1")); ResVal (inr ($"2")); ResVal (inr ($"3"))]).
Proof. vm_compute. reflexivity. Qed.

(** The database reopened with a smaller segment size: the merge writes more
    segments than the log had, [loadMergeFiles] moves only as many as the log had
    and removes the others, and [Merge] reports success. *)
Example merge_lowered_segment_size :
  read_after_merge (MkOptions sample_dir 20 false 0 8 []) three_puts
    = Some (None, [ResVal (inr ($"1")); ResVal (inl io_EOF); ResVal (inl io_EOF)]).
Proof. vm_compute. reflexivity. Qed.

(** The rename of the first merged segment fails: [Merge] returns nil and every
    key is lost. *)
Definition rename_1 : os_call :=
  OsRename (SegmentFileName (mergeDirPath sample_dir) dataFileNameSuffix 1) (SegmentFileName sample_dir dataFileNameSuffix 1).

Definition no_rename : error := ErrNew ($"rename: permission denied").

Example merge_failed_rename :
  read_after_merge_on (fs_deny rename_1 no_rename) sample_options three_puts
    = Some (None, [ResVal (inl io_EOF); ResVal (inl io_EOF); ResVal (inl io_EOF)]).
Proof. vm_compute. reflexivity. Qed.

(** The file that ends the merge is there but cannot be opened: the merge counts as
    not finished and its segments are thrown away, but its hint file is installed:
    [Merge] returns nil and two of the three keys cannot be read. *)
Example merge_unreadable_end :
  read_after_merge_on (fs_deny (OsOpen (SegmentFileName (mergeDirPath sample_dir) mergeFinNameSuffix 1)) no_rename)
    sample_options three_puts
    = Some (None, [ResVal (inr ($"1")); ResVal (inl io_EOF); ResVal (inl io_EOF)]).
Proof. vm_compute. reflexivity. Qed.

(** The disk a merge has left, on a system that refuses that rename. *)
Definition merged_disk : option FileSys :=
  match sample_runs merge_history with
  | Ret (_, s) => match doMerge sample_merge s with
                  | Ret (None, s') => Some (fs_deny rename_1 no_rename (st_fs s'))
                  | _ => None
                  end
  | _ => None
  end.

Definition merged_disk_ready (fs : FileSys) : bool :=
  bool_decide (mergeDirPath sample_dir ∈ fs_dirs fs) &&
  match getMergeFinSegmentId fs (mergeDirPath sample_dir) with Ret (inr 1) => true | _ => false end &&
  match fs_files fs !! SegmentFileName (mergeDirPath sample_dir) dataFileNameSuffix 1 with Some (_ :: _) => true | _ => false end &&
  match fs_files fs !! SegmentFileName sample_dir dataFileNameSuffix 1 with Some (_ :: _) => true | _ => false end.

Lemma merged_disk_is_ready : match merged_disk with Some fs => merged_disk_ready fs | None => false end = true.
Proof. vm_compute. reflexivity. Qed.

Lemma merged_disk_denies fs : merged_disk = Some fs ->
  forall c, fs_denies fs c = if decide (c = rename_1) then Some no_rename else None.
Proof.
  unfold merged_disk. destruct (sample_runs merge_history) as [[? s]| |]; [|discriminate..].
  destruct (doMerge sample_merge s) as [[[e|] s']| |]; [discriminate| |discriminate..]. intros [= <-] c. reflexivity.
Qed.

Lemma failed_rename_loses_segment_witness : exists fs fs', merged_disk = Some fs /\ merged_disk_ready fs = true /\
  loadMergeFiles sample_dir fs = Ret (None, fs') /\
  fs_files fs' !! SegmentFileName (mergeDirPath sample_dir) dataFileNameSuffix 1 = None /\
  fs_files fs' !! SegmentFileName sample_dir dataFileNameSuffix 1 = None.
Proof.
  pose proof merged_disk_is_ready as Hr. destruct merged_disk as [fs|] eqn:E; [|discriminate Hr].
  pose proof (merged_disk_denies fs E) as Hd. pose proof Hr as Hready. unfold merged_disk_ready in Hr.
  apply andb_true_iff in Hr as [Hr _]. apply andb_true_iff in Hr as [Hr _]. apply andb_true_iff in Hr as [H1 H2].
  apply bool_decide_eq_true in H1.
  destruct (failed_rename_loses_segment sample_dir fs 1 1) as (fs' & H).
  - intros H. vm_compute in H. discriminate H.
  - exact H1.
  - destruct (getMergeFinSegmentId fs (mergeDirPath sample_dir)) as [[e|[|p|p]]| |]; try discriminate H2.
    destruct p; try discriminate H2. reflexivity.
  - lia.
  - vm_compute. reflexivity.
  - intros c Hc. rewrite Hd in Hc. destruct (decide (c = rename_1)) as [->|]; [|destruct (Hc eq_refl)].
    do 2 eexists. reflexivity.
  - rewrite Hd. destruct (decide _) as [_|Hne]; [discriminate|destruct (Hne eq_refl)].
  - exists fs, fs'. split; [reflexivity|]. split; [exact Hready|exact H].
Defined.

(** A ttl so long that the expiry overflows: the key can be read, and a merge
    drops it. *)
Definition overflowed_ttl : list dop :=
  [DPut 6 7 ($"a") ($"1"); DPutWithTTL 8 9 10 ($"b") ($"2") (2 ^ 63 - 1)].

Example overflowed_ttl_reads :
  match sample_runs (overflowed_ttl ++ [DGet 11 ($"b")]) with
  | Ret (rs, _) => last rs = Some (ResVal (inr ($"2")))
  | _ => False
  end.
Proof. vm_compute. reflexivity. Qed.

Example merge_overflowed_ttl :
  read_after_merge sample_options overflowed_ttl
    = Some (None, [ResVal (inr ($"1")); ResVal (inl ErrKeyNotFound); ResVal (inl ErrKeyNotFound)]).
Proof. vm_compute. reflexivity. Qed.

(** A merge cut short after an earlier merge: run [ops1], [Merge(true)], [ops2],
    read [k], merge again up to the file that ends the merge, which is missing,
    open the directory and read [k] once more. *)
Definition interrupted_merge (ops1 ops2 : list dop) (k : bytes) : option (list (error + bytes)) :=
  match sample_runs ops1 with
  | Ret (_, s) =>
      match (DB_Merge quiet_merge true ;;; dops_run ops2 ;;; let! v := DB_Get 115 k in
             DB_Merge quiet_merge false ;;; gret v) s with
      | Ret (v, s) =>
          let fs := (os_Remove (st_fs s) (SegmentFileName (mergeDirPath sample_dir) mergeFinNameSuffix 1)).2 in
          match DB_Open no_cron no_cron (inr true) 100 150 sample_options fs with
          | Ret (inr db, fs) =>
              match DB_Get 160 k (MkStore db fs) with Ret (v', _) => Some [v; v'] | _ => None end
          | _ => None
          end
      | _ => None
      end
  | _ => None
  end.

(** The hint file of the unfinished merge replaces the one of the database: the
    positions in it are those of files that are removed, and a key reads the value
    of another. *)
Example interrupted_merge_reads_another_value :
  interrupted_merge [DPut 6 7 ($"a") ($"1"); DPut 8 9 ($"b") ($"2")] [DDelete 110 111 ($"a")] ($"b")
    = Some [inr ($"2"); inr ($"1")].
Proof. vm_compute. reflexivity. Qed.
