(* ===== verification/Strs.v ===== *)
(** * Go strings and form values

    What the server, the proxy and the command line use of [strings], [strconv],
    [net/url] and [unicode/utf8]: splitting and trimming, the escaping of query
    components, query strings and forms. *)
From S2P Require Import Prelude.
From stdpp Require Import pretty.
Open Scope Z_scope.

(** ** [strings] *)

(** [strings.TrimPrefix], telling whether the prefix was there. *)
Fixpoint cut_prefix (p s : bytes) : option bytes :=
  match p, s with
  | [], _ => Some s
  | _ :: _, [] => None
  | x :: p, y :: s => if decide (x = y) then cut_prefix p s else None
  end.

(** [strings.Split(s, sep)] for a separator of one byte. *)
Fixpoint strings_Split (sep : byte) (s : bytes) : list bytes :=
  match s with
  | [] => [[]]
  | c :: s =>
      if decide (c = sep) then [] :: strings_Split sep s
      else match strings_Split sep s with [] => [[c]] | x :: xs => (c :: x) :: xs end
  end.

(** [strings.Cut(s, sep)]: the part before, and the part after if [sep] is there. *)
Fixpoint strings_Cut (sep : byte) (s : bytes) : bytes * option bytes :=
  match s with
  | [] => ([], None)
  | c :: s => if decide (c = sep) then ([], Some s) else let '(a, b) := strings_Cut sep s in (c :: a, b)
  end.

Definition strings_Contains (s : bytes) (c : byte) : bool := bool_decide (c ∈ s).

Fixpoint strings_Join (sep : bytes) (xs : list bytes) : bytes :=
  match xs with
  | [] => []
  | [x] => x
  | x :: xs => x ++ sep ++ strings_Join sep xs
  end.

Fixpoint drop_while (P : byte -> bool) (s : bytes) : bytes :=
  match s with
  | [] => []
  | c :: s' => if P c then drop_while P s' else s
  end.

(** [strings.TrimRight(s, cutset)] for a set of one byte. *)
Definition strings_TrimRight (s : bytes) (c : byte) : bytes :=
  rev (drop_while (fun x => bool_decide (x = c)) (rev s)).

(** The white space of Unicode, in UTF-8. *)
Definition white_space : list bytes :=
  [[x09]; [x0a]; [x0b]; [x0c]; [x0d]; [x20]; [xc2; x85]; [xc2; xa0]; [xe1; x9a; x80];
   [xe2; x80; x80]; [xe2; x80; x81]; [xe2; x80; x82]; [xe2; x80; x83]; [xe2; x80; x84]; [xe2; x80; x85];
   [xe2; x80; x86]; [xe2; x80; x87]; [xe2; x80; x88]; [xe2; x80; x89]; [xe2; x80; x8a]; [xe2; x80; xa8];
   [xe2; x80; xa9]; [xe2; x80; xaf]; [xe2; x81; x9f]; [xe3; x80; x80]].

(** Drop one of [seqs] from the front, and again. *)
Definition strip_one (seqs : list bytes) (s : bytes) : option bytes := head (omap (fun p => cut_prefix p s) seqs).

Fixpoint strip_all (fuel : nat) (seqs : list bytes) (s : bytes) : bytes :=
  match fuel with
  | O => s
  | S fuel => match strip_one seqs s with Some s' => strip_all fuel seqs s' | None => s end
  end.

Definition trim_left (s : bytes) : bytes := strip_all (length s) white_space s.
Definition trim_right (s : bytes) : bytes := rev (strip_all (length s) (rev (A := byte) <$> white_space) (rev s)).

Definition strings_TrimSpace (s : bytes) : bytes := trim_right (trim_left s).

(** [strings.ToLower] on ASCII text. *)
Definition lower_byte (c : byte) : byte :=
  if (65 <=? byte_val c) && (byte_val c <=? 90) then to_byte (byte_val c + 32) else c.
Definition strings_ToLower (s : bytes) : bytes := lower_byte <$> s.

(** [%d] *)
Definition itoa (z : Z) : bytes := String.list_byte_of_string (pretty z).

(** A character below the space, or DEL. *)
Definition is_ctl (c : byte) : bool := (byte_val c <? 32) || (byte_val c =? 127).

(** ** [net/url]: query components *)
Definition in_range (lo hi : byte) (c : byte) : bool := (byte_val lo <=? byte_val c) && (byte_val c <=? byte_val hi).

Definition is_digit (c : byte) : bool := in_range x30 x39 c.
Definition is_alpha (c : byte) : bool := in_range x61 x7a c || in_range x41 x5a c.

Definition unhex (c : byte) : option Z :=
  if in_range x30 x39 c then Some (byte_val c - 48)
  else if in_range x61 x66 c then Some (byte_val c - 87)
  else if in_range x41 x46 c then Some (byte_val c - 55)
  else None.

Definition upper_hex (z : Z) : byte := to_byte (if z <? 10 then 48 + z else 55 + z).

(** [url.QueryUnescape] *)
Fixpoint url_QueryUnescape (s : bytes) : option bytes :=
  match s with
  | [] => Some []
  | c :: s =>
      if decide (c = x25) then
        match s with
        | a :: b :: s =>
            match unhex a, unhex b with
            | Some x, Some y => cons (to_byte (16 * x + y)) <$> url_QueryUnescape s
            | _, _ => None
            end
        | _ => None
        end
      else cons (if decide (c = x2b) then x20 else c) <$> url_QueryUnescape s
  end.

(** The characters [url.QueryEscape] leaves alone. *)
Definition unreserved (c : byte) : bool :=
  is_alpha c || is_digit c || bool_decide (c ∈ [x2d; x5f; x2e; x7e]).

Definition escape_byte (c : byte) : bytes :=
  if unreserved c then [c]
  else if decide (c = x20) then [x2b]
  else [x25; upper_hex (byte_val c / 16); upper_hex (byte_val c mod 16)].

Definition url_QueryEscape (s : bytes) : bytes := s ≫= escape_byte.

(** ** [url.Values]

    A map from keys to lists of values, as the list of its pairs: for each key the
    values in their order. *)
Abbreviation Values := (list (bytes * bytes)).

Definition Values_Get (v : Values) (key : bytes) : bytes :=
  match list_find (fun kv => kv.1 = key) v with Some (_, kv) => kv.2 | None => [] end.

(** One pair of a query string: nothing if it is empty, has a semicolon or does
    not unescape. *)
Definition parse_pair (s : bytes) : option (bytes * bytes) :=
  if strings_Contains s x3b then None
  else if decide (s = []) then None
  else
    let '(key, value) := strings_Cut x3d s in
    key ← url_QueryUnescape key;
    value ← url_QueryUnescape (default [] value);
    Some (key, value).

(** [url.ParseQuery], its error dropped. *)
Definition url_ParseQuery (query : bytes) : Values := omap parse_pair (strings_Split x26 query).

(** [Values.Encode]: sorted by key, the values of a key in their order. *)
Fixpoint insert_pair (kv : bytes * bytes) (v : Values) : Values :=
  match v with
  | [] => [kv]
  | kv' :: v' => match bytes_cmp kv.1 kv'.1 with Gt => kv' :: insert_pair kv v' | _ => kv :: v end
  end.

Definition sort_values (v : Values) : Values := foldr insert_pair [] v.

Definition encode_pair (kv : bytes * bytes) : bytes := url_QueryEscape kv.1 ++ x3d :: url_QueryEscape kv.2.

Definition Values_Encode (v : Values) : bytes := strings_Join [x26] (encode_pair <$> sort_values v).

Example encode_ex : Values_Encode [($"value", $"a b&c"); ($"key", $"k=1")] = $"key=k%3D1&value=a+b%26c".
Proof. vm_compute. reflexivity. Qed.
Example parse_ex : url_ParseQuery ($"key=k%3D1&&x;y=2&value=a+b%26c&z=%zz") = [($"key", $"k=1"); ($"value", $"a b&c")].
Proof. vm_compute. reflexivity. Qed.
Example trim_ex : strings_TrimSpace ([x20; x0a] ++ $"a b" ++ [xc2; xa0; x0a]) = $"a b".
Proof. vm_compute. reflexivity. Qed.
Example split_ex : strings_Split x2c ($"a,,b") = [$"a"; []; $"b"].
Proof. vm_compute. reflexivity. Qed.

(** * Facts *)
Lemma Split_cons sep s : exists x xs, strings_Split sep s = x :: xs.
Proof.
  induction s as [|c s IH]; simpl; [by eexists _, _|]. case_decide; [by eexists _, _|].
  destruct IH as (x & xs & ->). by eexists _, _.
Qed.

Lemma Split_none sep s : sep ∉ s -> strings_Split sep s = [s].
Proof.
  induction s as [|c s IH]; intros H; simpl; [done|]. apply not_elem_of_cons in H as [H1 H2].
  rewrite decide_False by done. by rewrite IH.
Qed.

Lemma Split_app sep a s : sep ∉ a -> strings_Split sep (a ++ sep :: s) = a :: strings_Split sep s.
Proof.
  induction a as [|c a IH]; intros H; simpl; [by rewrite decide_True|].
  apply not_elem_of_cons in H as [H1 H2]. rewrite decide_False by done. by rewrite IH.
Qed.

Lemma Split_Join sep xs :
  xs <> [] -> Forall (fun x : bytes => sep ∉ x) xs -> strings_Split sep (strings_Join [sep] xs) = xs.
Proof.
  intros Hne H. induction H as [|x xs Hx H IH]; [done|]. destruct xs as [|y xs]; [by apply Split_none|].
  change (strings_Join [sep] (x :: y :: xs)) with (x ++ sep :: strings_Join [sep] (y :: xs)).
  rewrite Split_app by done. by rewrite IH.
Qed.

Lemma Cut_app sep a s : sep ∉ a -> strings_Cut sep (a ++ sep :: s) = (a, Some s).
Proof.
  induction a as [|c a IH]; intros H; simpl; [by rewrite decide_True|].
  apply not_elem_of_cons in H as [H1 H2]. rewrite decide_False by done. by rewrite IH.
Qed.

Lemma Cut_none sep a : sep ∉ a -> strings_Cut sep a = (a, None).
Proof.
  induction a as [|c a IH]; intros H; simpl; [done|].
  apply not_elem_of_cons in H as [H1 H2]. rewrite decide_False by done. by rewrite IH.
Qed.

(** A fact about every byte, by trying them all. *)
Definition all_bytes : bytes := (fun n : nat => to_byte (Z.of_nat n)) <$> seq 0 256.

Lemma all_bytes_elem c : c ∈ all_bytes.
Proof.
  apply list_elem_of_fmap. exists (Z.to_nat (byte_val c)). pose proof (byte_val_range c).
  rewrite Z2Nat.id by lia. split; [by rewrite to_byte_val|]. apply elem_of_seq. lia.
Qed.

Lemma byte_forall (P : byte -> bool) : forallb P all_bytes = true -> forall c, P c = true.
Proof. intros H c. rewrite forallb_forall in H. apply H, list_elem_of_In, all_bytes_elem. Qed.

(** What [QueryEscape] makes of a byte: no separator, and it reads back. *)
Definition escape_reads (c : byte) : bool :=
  bool_decide (x26 ∉ escape_byte c) && bool_decide (x3d ∉ escape_byte c) && bool_decide (x3b ∉ escape_byte c) &&
  bool_decide (Forall (fun c => is_ctl c = false /\ c <> x20 /\ c <> x23) (escape_byte c)) &&
  match escape_byte c with
  | [d] => negb (bool_decide (d = x25)) && bool_decide ((if decide (d = x2b) then x20 else d) = c)
  | [p; a; b] =>
      bool_decide (p = x25) &&
      match unhex a, unhex b with Some x, Some y => bool_decide (to_byte (16 * x + y) = c) | _, _ => false end
  | _ => false
  end.

Lemma escape_reads_all : forall c, escape_reads c = true.
Proof. apply byte_forall. vm_compute. reflexivity. Qed.

Lemma QueryUnescape_app c s :
  url_QueryUnescape (escape_byte c ++ s) = cons c <$> url_QueryUnescape s.
Proof.
  pose proof (escape_reads_all c) as H. unfold escape_reads in H. rewrite !andb_true_iff in H.
  destruct H as [_ H]. destruct (escape_byte c) as [|d [|a [|b [|? ?]]]]; try done; simpl.
  - apply andb_true_iff in H as [H1 H2]. apply negb_true_iff, bool_decide_eq_false in H1.
    apply bool_decide_eq_true in H2. rewrite decide_False by done. by rewrite H2.
  - apply andb_true_iff in H as [H1 H2]. apply bool_decide_eq_true in H1. rewrite decide_True by done.
    destruct (unhex a), (unhex b); try done. apply bool_decide_eq_true in H2. by rewrite H2.
Qed.

Lemma QueryUnescape_Escape s : url_QueryUnescape (url_QueryEscape s) = Some s.
Proof.
  unfold url_QueryEscape. induction s as [|c s IH]; [done|]. rewrite bind_cons, QueryUnescape_app, IH. done.
Qed.

Lemma QueryEscape_free s sep : sep ∈ [x26; x3d; x3b] -> sep ∉ url_QueryEscape s.
Proof.
  intros Hsep Hin. unfold url_QueryEscape in Hin. apply list_elem_of_bind in Hin as (c & Hin & _).
  pose proof (escape_reads_all c) as H. unfold escape_reads in H.
  rewrite !andb_true_iff, !bool_decide_eq_true in H. destruct H as [[[[H1 H2] H3] _] _].
  rewrite !elem_of_cons in Hsep. destruct Hsep as [->|[->|[->|Hsep]]]; [done..|]. by apply not_elem_of_nil in Hsep.
Qed.

(** ** Forms read back *)
Lemma parse_encode_pair kv : parse_pair (encode_pair kv) = Some kv.
Proof.
  destruct kv as [k v]. unfold parse_pair, encode_pair. simpl.
  assert (Hsc : x3b ∉ url_QueryEscape k ++ x3d :: url_QueryEscape v).
  { rewrite elem_of_app, elem_of_cons. intros [H|[H|H]]; [|done|]; by apply QueryEscape_free in H; [|set_solver]. }
  unfold strings_Contains. rewrite bool_decide_eq_false_2 by done.
  rewrite decide_False by (by destruct (url_QueryEscape k)).
  rewrite Cut_app by (apply QueryEscape_free; set_solver). simpl.
  by rewrite !QueryUnescape_Escape.
Qed.

Lemma omap_reads {A B} (f : A -> B) (g : B -> option A) (l : list A) :
  (forall x, g (f x) = Some x) -> omap g (f <$> l) = l.
Proof. intros H. induction l as [|x l IH]; [done|]. rewrite fmap_cons. cbn. by rewrite H, IH. Qed.

Lemma ParseQuery_Encode v : url_ParseQuery (Values_Encode v) = sort_values v.
Proof.
  unfold url_ParseQuery, Values_Encode. destruct (sort_values v) as [|kv l] eqn:E; [done|].
  rewrite Split_Join; [| done |].
  - apply omap_reads, parse_encode_pair.
  - apply Forall_fmap, Forall_true. intros [k w]. simpl. unfold encode_pair. simpl.
    rewrite elem_of_app, elem_of_cons. intros [H|[H|H]]; [|done|]; by apply QueryEscape_free in H; [|set_solver].
Qed.

Lemma Get_cons k v kv l :
  Values_Get ((k, v) :: l) kv = if decide (k = kv) then v else Values_Get l kv.
Proof.
  unfold Values_Get. simpl. case_decide; [done|]. by destruct (list_find _ l) as [[? ?]|].
Qed.

Lemma Get_insert k v l key :
  Values_Get (insert_pair (k, v) l) key = if decide (k = key) then v else Values_Get l key.
Proof.
  induction l as [|[k' v'] l IH]; cbn [insert_pair]; [by rewrite Get_cons|]. cbn [fst snd].
  destruct (bytes_cmp k k') eqn:E; try by rewrite Get_cons.
  rewrite !Get_cons, IH. repeat case_decide; try done. subst.
  by rewrite (proj2 (bytes_cmp_eq key key) eq_refl) in E.
Qed.

(** Sorting keeps the first value of every key. *)
Lemma Get_sort v key : Values_Get (sort_values v) key = Values_Get v key.
Proof.
  unfold sort_values. induction v as [|[k x] v IH]; [done|]. cbn [foldr].
  by rewrite Get_insert, IH, Get_cons.
Qed.

Lemma Get_app v1 v2 key :
  Values_Get (v1 ++ v2) key = if decide (key ∈ v1.*1) then Values_Get v1 key else Values_Get v2 key.
Proof.
  induction v1 as [|[k x] v1 IH]; [done|]. rewrite <- app_comm_cons, !Get_cons, IH.
  rewrite fmap_cons. simpl. repeat case_decide; try done; set_solver.
Qed.
