(* ===== verification/Flags.v ===== *)
(** * Command-line flags

    What [flag.Parse] makes of the arguments of a program, for flags of type [int]
    and [string]: the package [flag] of Go with [strconv.ParseInt].  A program
    whose arguments do not parse ends before it does anything: the texts that go
    to the standard error then are left out. *)
From S2P Require Import Prelude GoBinary Config Strs.
From stdpp Require Import pretty.
Open Scope Z_scope.

(** ** [strconv.ParseInt(s, 0, 64)] *)
Definition lower (c : byte) : byte := to_byte (Z.lor (byte_val c) 32).

(** The value of a digit in any base, up to 35. *)
Definition digit_of (c : byte) : option Z :=
  if is_digit c then Some (byte_val c - 48)
  else if in_range x61 x7a (lower c) then Some (byte_val (lower c) - 97 + 10)
  else None.

Definition errParse : error := ErrNew ($"parse error").
Definition errRange : error := ErrNew ($"value out of range").

(** The digits from left to right, [n] what they are worth so far; whether there
    were underscores. *)
Fixpoint uint_digits (base : Z) (s : bytes) (n : Z) (underscores : bool) : error + (Z * bool) :=
  match s with
  | [] => inr (n, underscores)
  | c :: s =>
      if bool_decide (c = x5f) then uint_digits base s n true else
      match digit_of c with
      | None => inl errParse
      | Some d =>
          if base <=? d then inl errParse
          else if 2 ^ 64 <=? n * base + d then inl errRange
          else uint_digits base s (n * base + d) underscores
      end
  end.

(** The base a literal says it has, and the rest of it. *)
Definition uint_base (s : bytes) : Z * bytes :=
  match s with
  | x30 :: (c :: (_ :: _) as rest) =>
      if bool_decide (lower c = x62) then (2, tail rest)
      else if bool_decide (lower c = x6f) then (8, tail rest)
      else if bool_decide (lower c = x78) then (16, tail rest)
      else (8, rest)
  | x30 :: rest => (8, rest)
  | _ => (10, s)
  end.

(** What the last character was: nothing yet, a digit or a prefix, an
    underscore, or something else. *)
Inductive Saw : Type := SawNothing | SawDigit | SawUnderscore | SawOther.

Fixpoint underscores_separate (hex : bool) (s : bytes) (saw : Saw) : bool :=
  match s with
  | [] => match saw with SawUnderscore => false | _ => true end
  | c :: s =>
      if is_digit c || hex && in_range x61 x66 (lower c) then underscores_separate hex s SawDigit
      else if bool_decide (c = x5f) then
        match saw with SawDigit => underscores_separate hex s SawUnderscore | _ => false end
      else match saw with SawUnderscore => false | _ => underscores_separate hex s SawOther end
  end.

Definition underscoreOK (s : bytes) : bool :=
  match s with
  | x30 :: c :: s' =>
      if bool_decide (lower c ∈ [x62; x6f; x78]) then underscores_separate (bool_decide (lower c = x78)) s' SawDigit
      else underscores_separate false s SawNothing
  | _ => underscores_separate false s SawNothing
  end.

Definition ParseUint (s : bytes) : error + Z :=
  match s with
  | [] => inl errParse
  | _ =>
      let '(base, digits) := uint_base s in
      match uint_digits base digits 0 false with
      | inl err => inl err
      | inr (n, underscores) => if underscores && negb (underscoreOK s) then inl errParse else inr n
      end
  end.

Definition ParseInt (s : bytes) : error + Z :=
  let '(neg, digits) := match s with x2b :: s => (false, s) | x2d :: s => (true, s) | _ => (false, s) end in
  match s with
  | [] => inl errParse
  | _ =>
      match ParseUint digits with
      | inl err => inl err
      | inr un =>
          if negb neg && (2 ^ 63 <=? un) then inl errRange
          else if neg && (2 ^ 63 <? un) then inl errRange
          else inr (if neg then - un else un)
      end
  end.

(** ** [flag] *)

(** The flags a program defines with their values, which tell their types. *)
Inductive FlagValue : Type := FInt (n : Z) | FString (s : bytes).
Abbreviation FlagSet := (gmap bytes FlagValue).

(** [Value.Set] *)
Definition flag_Set (old : FlagValue) (value : bytes) : error + FlagValue :=
  match old with
  | FInt _ => match ParseInt value with inl err => inl err | inr n => inr (FInt n) end
  | FString _ => inr (FString value)
  end.

(** How [parseOne] reads an argument: no flag, the end of the flags, bad syntax,
    or the name of a flag with the value after an equals sign. *)
Inductive Argument : Type := NoFlag | EndOfFlags | BadSyntax | AFlag (name : bytes) (value : option bytes).

Definition argument (s : bytes) : Argument :=
  match s with
  | x2d :: ((c :: rest) as one) =>
      let name := if bool_decide (c = x2d) then rest else one in
      if bool_decide (c = x2d) && bool_decide (rest = []) then EndOfFlags else
      match name with
      | [] => BadSyntax
      | c :: more =>
          if bool_decide (c = x2d) || bool_decide (c = x3d) then BadSyntax
          else let '(before, value) := strings_Cut x3d more in AFlag (c :: before) value
      end
  | _ => NoFlag
  end.

(** [flag.Parse]: the flags set and the arguments left, or the status the process
    ends with. *)
Fixpoint flag_Parse (formal : FlagSet) (args : list bytes) : Z + (FlagSet * list bytes) :=
  match args with
  | [] => inr (formal, [])
  | s :: rest =>
      match argument s with
      | NoFlag => inr (formal, args)
      | EndOfFlags => inr (formal, rest)
      | BadSyntax => inl 2
      | AFlag name value =>
          match formal !! name with
          | None => inl (if bool_decide (name ∈ [$"help"; $"h"]) then 0 else 2)
          | Some old =>
              let set value (parse : FlagSet -> Z + (FlagSet * list bytes)) :=
                match flag_Set old value with inl _ => inl 2 | inr new => parse (<[name := new]> formal) end in
              match value, rest with
              | Some value, _ => set value (fun formal => flag_Parse formal rest)
              | None, value :: rest => set value (fun formal => flag_Parse formal rest)
              | None, [] => inl 2
              end
          end
      end
  end.

Definition flag_int (formal : FlagSet) (name : bytes) : Z := match formal !! name with Some (FInt n) => n | _ => 0 end.
Definition flag_string (formal : FlagSet) (name : bytes) : bytes := match formal !! name with Some (FString s) => s | _ => [] end.

(** ** What the flags of a program are worth *)

(** Decimal numbers parse back. *)
Lemma digit_char x : (x < 10)%N ->
  let c := Ascii.byte_of_ascii (pretty_N_char x) in digit_of c = Some (Z.of_N x) /\ (x <> 0%N -> c ∉ [x30; x2b; x2d]) /\ c <> x5f.
Proof.
  intros Hx. assert (x = 0 \/ x = 1 \/ x = 2 \/ x = 3 \/ x = 4 \/ x = 5 \/ x = 6 \/ x = 7 \/ x = 8 \/ x = 9)%N as H by lia.
  repeat destruct H as [->|H]; [..|subst]; (split; [reflexivity|split; [|discriminate]]); intros Hne; try done;
    apply (bool_decide_unpack _); vm_compute; exact I.
Qed.

#[local] Abbreviation text s := (String.list_byte_of_string s).

Lemma pretty_digits x s u : Z.of_N x < 2 ^ 64 ->
  uint_digits 10 (text (pretty_N_go x s)) 0 u = uint_digits 10 (text s) (Z.of_N x) u.
Proof.
  revert s. induction (N.lt_wf_0 x) as [x _ IH]; intros s Hx.
  destruct (decide (x = 0)%N) as [->|Hne]; [done|]. rewrite pretty_N_go_step by lia.
  rewrite IH by (try apply N.div_lt; lia). change (text (String ?c s)) with (Ascii.byte_of_ascii c :: text s).
  destruct (digit_char (x mod 10)) as (Hd & _ & Hu); [lia|]. cbn [uint_digits]. rewrite bool_decide_eq_false_2, Hd by done.
  rewrite (proj2 (Z.leb_gt 10 _)) by lia. rewrite (proj2 (Z.leb_gt _ _)) by lia. f_equal. lia.
Qed.

Lemma pretty_head x s : (0 < x)%N -> exists c l, text (pretty_N_go x s) = c :: l /\ c ∉ [x30; x2b; x2d].
Proof.
  revert s. induction (N.lt_wf_0 x) as [x _ IH]; intros s Hx. rewrite pretty_N_go_step by lia.
  destruct (decide (x < 10)%N) as [Hl|Hl]; [|apply IH; try apply N.div_lt; lia].
  rewrite N.div_small, N.mod_small by done. do 2 eexists. split; [reflexivity|]. apply digit_char; lia.
Qed.

(** A literal that begins with none of a sign and a zero. *)
Lemma uint_base_10 c l : c ∉ [x30; x2b; x2d] -> uint_base (c :: l) = (10, c :: l).
Proof. intros Hc. destruct c; try done. destruct Hc. by left. Qed.

Lemma ParseInt_unsigned c l : c ∉ [x30; x2b; x2d] ->
  ParseInt (c :: l) = match ParseUint (c :: l) with
                      | inl err => inl err
                      | inr un => if 2 ^ 63 <=? un then inl errRange else inr un
                      end.
Proof.
  intros Hc. destruct c; try (unfold ParseInt; destruct (ParseUint _); [done|]; cbn [negb andb]; by destruct (_ <=? _));
    destruct Hc; rewrite !elem_of_cons; auto.
Qed.

Lemma ParseUint_pretty x : Z.of_N x < 2 ^ 64 -> (0 < x)%N -> exists c l, text (pretty x) = c :: l /\ c ∉ [x30; x2b; x2d] /\
  ParseUint (text (pretty x)) = inr (Z.of_N x).
Proof.
  intros Hx Hp. unfold pretty, pretty_N. rewrite decide_False by lia. pose proof (pretty_digits x "" false Hx) as Hd.
  destruct (pretty_head x "" Hp) as (c & l & E & Hc). rewrite E in *. exists c, l. split; [done|]. split; [done|].
  unfold ParseUint. rewrite (uint_base_10 c l Hc), Hd. done.
Qed.

Lemma ParseInt_itoa z : - 2 ^ 63 <= z < 2 ^ 63 -> ParseInt (itoa z) = inr z.
Proof.
  intros Hz. unfold itoa. destruct z as [|x|x]; [reflexivity| |].
  - change (pretty (Z.pos x)) with (pretty (N.pos x)). destruct (ParseUint_pretty (N.pos x)) as (c & l & E & Hc & Ep); [lia..|].
    rewrite E in *. rewrite ParseInt_unsigned, Ep by done. by rewrite (proj2 (Z.leb_gt _ _)) by lia.
  - change (text (pretty (Z.neg x))) with (x2d :: text (pretty (N.pos x))).
    destruct (ParseUint_pretty (N.pos x)) as (c & l & E & Hc & Ep); [lia..|]. unfold ParseInt. rewrite Ep. cbn [negb andb].
    by rewrite (proj2 (Z.ltb_ge _ _)) by lia.
Qed.

(** A flag and its value, written in one argument or in two. *)
Record Setting : Type := MkSetting { se_joined : bool; se_name : bytes; se_value : FlagValue }.

Definition value_text (v : FlagValue) : bytes := match v with FInt n => itoa n | FString s => s end.

Definition setting_args (a : Setting) : list bytes :=
  if se_joined a then [x2d :: se_name a ++ x3d :: value_text (se_value a)]
  else [x2d :: se_name a; value_text (se_value a)].

(** The name can be told from its value and the flags from what follows them. *)
Definition name_ok (name : bytes) : Prop := name <> [] /\ head name <> Some x2d /\ x3d ∉ name.
#[export] Instance name_ok_dec name : Decision (name_ok name).
Proof. unfold name_ok. apply _. Defined.

Definition setting_ok (formal : FlagSet) (a : Setting) : Prop :=
  name_ok (se_name a) /\
  match formal !! se_name a, se_value a with
  | Some (FInt _), FInt n => - 2 ^ 63 <= n < 2 ^ 63
  | Some (FString _), FString _ => True
  | _, _ => False
  end.

Definition set_flag (formal : FlagSet) (a : Setting) : FlagSet := <[se_name a := se_value a]> formal.

Lemma argument_joined name value : name_ok name -> argument (x2d :: name ++ x3d :: value) = AFlag name (Some value).
Proof.
  intros (Hne & Hh & Heq). destruct name as [|c more]; [done|]. apply not_elem_of_cons in Heq as [Hc Hmore].
  assert (E1 : bool_decide (c = x2d) = false) by (apply bool_decide_eq_false; by intros ->).
  assert (E2 : bool_decide (c = x3d) = false) by (by apply bool_decide_eq_false).
  unfold argument. cbn [app]. cbv zeta. rewrite !E1. cbn [andb]. rewrite ?E1, E2. cbn [orb]. by rewrite Cut_app.
Qed.

Lemma argument_name name : name_ok name -> argument (x2d :: name) = AFlag name None.
Proof.
  intros (Hne & Hh & Heq). destruct name as [|c more]; [done|]. apply not_elem_of_cons in Heq as [Hc Hmore].
  assert (E1 : bool_decide (c = x2d) = false) by (apply bool_decide_eq_false; by intros ->).
  assert (E2 : bool_decide (c = x3d) = false) by (by apply bool_decide_eq_false).
  unfold argument. cbv zeta. rewrite !E1. cbn [andb]. rewrite ?E1, E2. cbn [orb]. by rewrite Cut_none.
Qed.

Lemma flag_Parse_setting formal a rest : setting_ok formal a ->
  flag_Parse formal (setting_args a ++ rest) = flag_Parse (set_flag formal a) rest.
Proof.
  intros [Hn Hv]. unfold setting_args, set_flag.
  destruct (formal !! se_name a) as [old|] eqn:E; [|done].
  assert (Es : flag_Set old (value_text (se_value a)) = inr (se_value a)).
  { destruct old, (se_value a) as [m|b]; try done. cbn [flag_Set value_text]. by rewrite ParseInt_itoa. }
  destruct (se_joined a); cbn [app flag_Parse].
  - by rewrite argument_joined, E, Es.
  - by rewrite argument_name, E, Es.
Qed.

Lemma setting_ok_set formal a b : setting_ok formal a -> setting_ok formal b -> setting_ok (set_flag formal a) b.
Proof.
  unfold setting_ok, set_flag. intros [_ Ha] [Hn Hb]. split; [done|]. destruct (decide (se_name a = se_name b)) as [E|Hne].
  - rewrite E in *. rewrite lookup_insert_eq. by destruct (formal !! se_name b) as [[]|], (se_value a), (se_value b).
  - by rewrite lookup_insert_ne.
Qed.

(** Settings written one after the other, each in either form, parse to the flags
    they set, the last one of a name winning, and leave the arguments after them,
    of which the first is no flag. *)
Theorem flags_roundtrip formal settings args : Forall (setting_ok formal) settings ->
  match args with [] => True | s :: _ => argument s = NoFlag end ->
  flag_Parse formal ((settings ≫= setting_args) ++ args) = inr (fold_left set_flag settings formal, args).
Proof.
  intros Hs Ha. revert formal Hs. induction settings as [|a settings IH]; intros formal Hs.
  { destruct args as [|s rest]; [done|]. cbn [mbind list_bind app flag_Parse fold_left]. by rewrite Ha. }
  apply Forall_cons in Hs as [H1 Hs]. rewrite bind_cons, <- (assoc_L (++)), flag_Parse_setting by done.
  apply IH. eapply Forall_impl; [exact Hs|]. intros b. by apply setting_ok_set.
Qed.
