(* ===== verification/Examples.v ===== *)
(** * The example programs

    [examples/*/main.go] with the test data of [utils/rand_kv.go], each a program
    that opens a database in a directory of its own, calls it and prints.  A
    program is a computation on what it has printed, the readings of the clock it
    has made, the random numbers it has drawn, and the store. *)
From S2P Require Import Prelude GoBinary Config GoOs Filepath WalLib WalModel Record BTreeLib Index Watch.
From S2P Require Import Store Batch DB Open View BatchSpec CommitSpec Recovery OpenSpec DBSpec Instances Traverse Iterator.
From S2P Require Import Merge WatchDB Strs.
Open Scope Z_scope.

(** ** Test data *)

(** [math/rand]: [Intn] draws a number below its argument, [Int63] one of 63 bits. *)
Class Rand : Type := {
  rand_state : Type;
  rand_Intn : Z -> rand_state -> Z * rand_state;
  rand_Int63 : rand_state -> Z * rand_state;
}.
Class RandLaws (R : Rand) : Prop := {
  rand_Intn_law : forall n r, 0 < n -> 0 <= (rand_Intn n r).1 < n;
  rand_Int63_law : forall r, 0 <= (rand_Int63 r).1 < 2 ^ 63;
}.

Definition letters : bytes := $"abcdefghijklmnopqrstuvwxyzABCDEFGHIJKLMNOPQRSTUVWXYZ0123456789".

(** [%0wd] of an [int]: the sign counts in the width. *)
Definition pad_int (w : nat) (i : Z) : bytes :=
  let digits := itoa (Z.abs i) in
  if i <? 0 then $"-" ++ replicate (w - 1 - length digits) x30 ++ digits
  else replicate (w - length digits) x30 ++ digits.

Definition GetTestKey (i : Z) : bytes := $"rosedb-test-key-" ++ pad_int 9 i.

Section random.
Context {R : Rand}.

(** The loop that fills the slice; an index out of range panics. *)
Fixpoint random_letters (n : nat) (r : rand_state) : outcome (bytes * rand_state) :=
  match n with
  | O => Ret ([], r)
  | S n =>
      let '(i, r) := rand_Intn (len letters) r in
      match (if i <? 0 then None else letters !! Z.to_nat i) with
      | None => Panic
      | Some c => '(b, r) ← random_letters n r; Ret (c :: b, r)
      end
  end.

(** [RandomValue(n)]; a negative length panics. *)
Definition RandomValue (n : Z) (r : rand_state) : outcome (bytes * rand_state) :=
  if n <? 0 then Panic else
  '(b, r) ← random_letters (Z.to_nat n) r; Ret ($"rosedb-test-value-" ++ b, r).

(** The directory of the default options, [TempDir] the one for temporary files. *)
Definition tempDBDir (TempDir : bytes) (r : rand_state) : bytes * rand_state :=
  let '(n, r) := rand_Int63 r in (filepath_Join [TempDir; $"rosedb-temp" ++ itoa n], r).

(** Random values are as long as asked for, and made of the letters. *)
Lemma random_letters_spec {RL : RandLaws R} n r : exists b r', random_letters n r = Ret (b, r') /\
  length b = n /\ Forall (fun c => c ∈ letters) b.
Proof.
  revert r. induction n as [|n IH]; intros r; [by exists [], r|]. cbn [random_letters].
  pose proof (rand_Intn_law (len letters) r ltac:(vm_compute; reflexivity)) as Hi. destruct (rand_Intn (len letters) r) as [i r1].
  cbn [fst] in Hi. rewrite (proj2 (Z.ltb_ge i 0)) by lia.
  destruct (lookup_lt_is_Some_2 letters (Z.to_nat i)) as [c Hc]; [unfold len in Hi; lia|]. rewrite Hc.
  destruct (IH r1) as (b & r' & -> & Hl & Hb). cbn [mbind outcome_bind]. exists (c :: b), r'. split; [done|].
  split; [by rewrite <- Hl|]. constructor; [by eapply list_elem_of_lookup_2|done].
Qed.

(** The default options are accepted by [Open]. *)
Lemma default_options_accepted cron_Parse TempDir r : checkOptions cron_Parse (DefaultOptions (tempDBDir TempDir r).1) = None.
Proof.
  unfold checkOptions, tempDBDir. destruct (rand_Int63 r) as [n r']. cbn [fst DefaultOptions o_DirPath o_SegmentSize o_AutoMergeCronExpr].
  rewrite decide_False; [reflexivity|]. unfold filepath_Join. 
  destruct (filter _ _) as [|x xs] eqn:E.
  - apply (f_equal (fun l => bool_decide (($"rosedb-temp" ++ itoa n) ∈ l))) in E. rewrite bool_decide_eq_true_2 in E; [done|].
    apply list_elem_of_filter. split; [done|]. right. left.
  - unfold filepath_Clean. by case_decide.
Qed.
End random.

(** ** [Duration.String]

    [fmtFrac] writes the fraction without its trailing zeros and returns what is
    left of the number; the digits come out last first. *)
Fixpoint fmtFrac (prec : nat) (v : Z) (printing : bool) (acc : bytes) : bytes * Z :=
  match prec with
  | O => ((if printing then $"." else []) ++ acc, v)
  | S prec =>
      let digit := v mod 10 in
      let printing := printing || negb (digit =? 0) in
      fmtFrac prec (v / 10) printing (if printing then to_byte (48 + digit) :: acc else acc)
  end.

Definition with_unit (prec : nat) (u : Z) (unit : bytes) : bytes :=
  let '(frac, v) := fmtFrac prec u false [] in itoa v ++ frac ++ unit.

Definition Duration_String (d : Z) : bytes :=
  let u := Z.abs d in
  (if d <? 0 then $"-" else []) ++
  (if u =? 0 then $"0s"
   else if u <? 1000 then with_unit 0 u ($"ns")
   else if u <? 1000000 then with_unit 3 u ([xc2; xb5] ++ $"s")
   else if u <? 1000000000 then with_unit 6 u ($"ms")
   else
     let '(frac, s) := fmtFrac 9 u false [] in
     let m := s / 60 in
     (if 0 <? m then (if 0 <? m / 60 then itoa (m / 60) ++ $"h" else []) ++ itoa (m mod 60) ++ $"m" else []) ++
     itoa (s mod 60) ++ frac ++ $"s").

Definition Second : Z := 1000000000.

(** ** Programs *)

(** [fmt] prints to the standard output, [println] to the standard error, and
    [log] to the standard error with the time. *)
Inductive line : Type := Stdout (b : bytes) | Stderr (b : bytes) | Logged (b : bytes).

(** The machine a program runs on: the system, the readings of the clock, what
    the lock file answers, the rounds the loops over a log may take when it is
    opened, the parsers of the scheduler. *)
Record Machine : Type := MkMachine {
  mc_GOOS : bytes;
  mc_clock : nat -> Z;
  mc_hold : error + bool;
  mc_unlock : option error;
  mc_fuel : nat;
  mc_cron_Parse : bytes -> option error;
  mc_cron_AddFunc : bytes -> option error;
}.

(** How a program ends; [panic(err)] runs the deferred calls. *)
Inductive exit : Type := Finished | Panicked (e : error).

Section programs.
Context {W : WalLib} {B : BTreeLib item item_less} {SF : Snowflake} {MH : MemHashLib} {RX : Regexp} {R : Rand}.
Context (mc : Machine).

Record Prog : Type := MkProg {
  pg_out : list line;
  pg_ticks : nat;
  pg_rand : rand_state;
  pg_store : Store;
}.
Definition program (A : Type) : Type := GoM Prog A.

Definition print (l : list line) : program unit :=
  gmodify (fun p => MkProg (pg_out p ++ l) (pg_ticks p) (pg_rand p) (pg_store p)).

(** A call of the database that may read the clock [n] times. *)
Definition call {A} (n : nat) (m : (nat -> Z) -> DbM A) : program A := fun p =>
  '(a, s) ← m (fun i => mc_clock mc (pg_ticks p + i)) (pg_store p);
  Ret (a, MkProg (pg_out p) (pg_ticks p + n) (pg_rand p) s).

(** A call of a batch. *)
Definition call_batch {A} (n : nat) (b : Batch) (m : (nat -> Z) -> BatchM A) : program (A * Batch) := fun p =>
  '(a, (b, s)) ← m (fun i => mc_clock mc (pg_ticks p + i)) (b, pg_store p);
  Ret ((a, b), MkProg (pg_out p) (pg_ticks p + n) (pg_rand p) s).

Definition draw {A} (f : rand_state -> outcome (A * rand_state)) : program A := fun p =>
  '(a, r) ← f (pg_rand p); Ret (a, MkProg (pg_out p) (pg_ticks p) r (pg_store p)).

Definition ex_Put (k v : bytes) : program (option error) := call 2 (fun t => DB_Put (t 0%nat) (t 1%nat) k v).
Definition ex_PutWithTTL (k v : bytes) (ttl : Z) : program (option error) :=
  call 3 (fun t => DB_PutWithTTL (t 0%nat) (t 1%nat) (t 2%nat) k v ttl).
Definition ex_Get (k : bytes) : program (error + bytes) := call 1 (fun t => DB_Get (t 0%nat) k).
Definition ex_Delete (k : bytes) : program (option error) := call 2 (fun t => DB_Delete (t 0%nat) (t 1%nat) k).
Definition ex_Expire (k : bytes) (ttl : Z) : program (option error) :=
  call 4 (fun t => DB_Expire (t 0%nat) (t 1%nat) (t 2%nat) (t 3%nat) k ttl).
Definition ex_TTL (k : bytes) : program (error + Z) := call 1 (fun t => DB_TTL (t 0%nat) k).

(** [if err != nil { panic(err) }] *)
Definition must (e : option error) (k : program exit) : program exit :=
  match e with Some e => gret (Panicked e) | None => k end.

(** [for i := 0; i < n; i++] *)
Fixpoint for_loop (n : nat) (i : Z) (body : Z -> program unit) : program unit :=
  match n with O => gret tt | S n => body i ;;; for_loop n (i + 1) body end.

(** The options of an example: the defaults but for the directory. *)
Definition example_options (windows other : bytes) (queue : Z) : Options :=
  let options := DefaultOptions [] in
  MkOptions (if bool_decide (mc_GOOS mc = $"windows") then windows else other) (o_SegmentSize options) (o_Sync options)
    (o_BytesPerSync options) queue (o_AutoMergeCronExpr options).

(** Open, panic if that fails, run, and close at the end. *)
Definition with_db (options : Options) (r : rand_state) (body : program exit) (fs : FileSys) :
    outcome (exit * list line * FileSys) :=
  '(res, fs) ← DB_Open (mc_cron_Parse mc) (mc_cron_AddFunc mc) (mc_hold mc) (mc_fuel mc) (mc_clock mc 0) options fs;
  match res with
  | inl err => Ret (Panicked err, [], fs)
  | inr db =>
      '(x, p) ← body (MkProg [] 1 r (MkStore db fs));
      '(_, s) ← DB_Close (mc_unlock mc) (pg_store p);
      Ret (x, pg_out p, st_fs s)
  end.

(** ** [examples/basic] *)
Definition basic_body : program exit :=
  let! err := ex_Put ($"name") ($"rosedb") in
  must err (
    let! r := ex_Get ($"name") in
    match r with
    | inl err => gret (Panicked err)
    | inr val =>
        print [Stderr val] ;;;
        let! err := ex_Delete ($"name") in
        must err (gret Finished)
    end).

Definition basic_main (r : rand_state) (fs : FileSys) : outcome (exit * list line * FileSys) :=
  let options := example_options ($"C:\rosedb_basic") ($"/tmp/rosedb_basic") 0 in
  '(x, out, fs) ← with_db options r basic_body fs;
  Ret (x, out, (os_RemoveAll fs (o_DirPath options)).2).

(** ** [examples/batch] *)
Definition batch_body : program exit :=
  let! b := call 0 (fun _ => NewBatch DefaultBatchOptions) in
  let! r := call_batch 0 b (fun _ => Batch_Put ($"name") ($"rosedb")) in
  let! r := call_batch 1 r.2 (fun t => Batch_Get (t 0%nat) ($"name")) in
  print [Stderr (match r.1 with inl _ => [] | inr val => val end)] ;;;
  let! r := call_batch 0 r.2 (fun _ => Batch_Delete ($"name")) in
  let! _ := call_batch 2 r.2 (fun t => Batch_Commit (t 0%nat) (t 1%nat)) in
  gret Finished.

Definition batch_main (r : rand_state) (fs : FileSys) : outcome (exit * list line * FileSys) :=
  with_db (example_options ($"C:\rosedb_batch") ($"/tmp/rosedb_batch") 0) r batch_body fs.

(** ** [examples/ttl] *)

(** A duration with an error is -1. *)
Definition ttl_value (r : error + Z) : Z := match r with inl _ => -1 | inr d => d end.

Definition ttl_body : program exit :=
  let! err := ex_PutWithTTL ($"name") ($"rosedb") (5 * Second) in
  must err (
    let! r := ex_TTL ($"name") in
    match r with
    | inl err => gret (Panicked err)
    | inr ttl =>
        print [Stderr (Duration_String ttl)] ;;;
        let! _ := ex_Put ($"name2") ($"rosedb2") in
        let! err := ex_Expire ($"name2") (2 * Second) in
        must err (
          let! r := ex_TTL ($"name2") in
          print (match r with inl err => [Logged (error_Error err)] | inr _ => [] end) ;;;
          print [Stderr (Duration_String (ttl_value r))] ;;;
          gret Finished)
    end).

Definition ttl_main (r : rand_state) (fs : FileSys) : outcome (exit * list line * FileSys) :=
  with_db (example_options ($"C:\rosedb_ttl") ($"/tmp/rosedb_ttl") 0) r ttl_body fs.

(** ** [examples/iterate] *)
Definition key_line (k : bytes) : line := Stdout ($"key =  " ++ k).
Definition pair_line (k v : bytes) : line := Stdout ($"key = " ++ k ++ $", value = " ++ v).

Definition print_key : key_fn (list line) := fun k out => ((true, None), out ++ [key_line k]).
Definition print_pair : kv_fn (list line) := fun k v out => ((true, None), out ++ [pair_line k v]).

(** A traversal whose callback prints; it reads the clock at each key. *)
Definition printing {A} (m : (bytes -> Z) -> list line -> DbM A) (lines : A -> list line) : program unit := fun p =>
  '(a, s) ← m (fun _ => mc_clock mc (pg_ticks p)) (pg_out p) (pg_store p);
  Ret (tt, MkProg (lines a) (pg_ticks p) (pg_rand p) s).

Definition dbIteratorExample : program unit :=
  printing (fun clock => DB_AscendKeys clock [] true print_key) snd ;;;
  printing (fun clock => DB_Ascend clock print_pair) id ;;;
  printing (fun clock => DB_DescendKeys clock [] true print_key) snd ;;;
  printing (fun clock => DB_Descend clock print_pair) id.

(** An iterator's method on the store of the program. *)
Definition on_iterator {A} (f : Store -> outcome A) : program A := fun p => a ← f (pg_store p); Ret (a, p).

Definition item_lines (o : option (bytes * bytes)) : list line :=
  match o with Some (k, v) => [pair_line k v] | None => [] end.

(** The loop over an iterator that has been rewound. *)
Fixpoint iterator_loop (fuel : nat) (clock : bytes -> Z) (it : Iterator) : program Iterator :=
  match fuel with
  | O => glift Blocked
  | S fuel' =>
      if Iterator_Valid it then
        print (item_lines (Iterator_Item it)) ;;;
        let! it := on_iterator (fun s => Iterator_Next fuel clock s it) in
        iterator_loop fuel' clock it
      else gret it
  end.

(** One of the two loops of [customIteratorExample], up to the report of [Err].  A
    loop over the index goes round once for each of its entries at most. *)
Definition iterator_example (opts : IteratorOptions) (complaint : bytes) : program Iterator := fun p =>
  let clock := fun _ : bytes => mc_clock mc (pg_ticks p) in
  let fuel := S (Z.to_nat (MemoryBTree_Size (db_index (st_db (pg_store p))))) in
  (let! it := call 0 (fun _ => DB_NewIterator fuel clock opts) in
   let! it := on_iterator (fun s => Iterator_Rewind fuel clock s it) in
   let! it := iterator_loop fuel clock it in
   print (match Iterator_Err it with Some err => [Stdout (complaint ++ error_Error err)] | None => [] end) ;;;
   gret it) p.

(** The deferred [Close] calls run in the end, the last one first. *)
Definition customIteratorExample : program unit :=
  let opts c := MkIteratorOptions (io_Prefix DefaultIteratorOptions) (io_Reverse DefaultIteratorOptions) c in
  let! iter1 := iterator_example (opts true) ($"Iterator encountered errors but continued: ") in
  let! iter2 := iterator_example (opts false) ($"Iterator stopped due to error: ") in
  let! _ := on_iterator (fun _ => Iterator_Close iter2) in
  let! _ := on_iterator (fun _ => Iterator_Close iter1) in
  gret tt.

Definition sample_pairs : list (bytes * bytes) :=
  [($"key13", $"value13"); ($"key11", $"value11"); ($"key35", $"value35"); ($"key27", $"value27"); ($"key41", $"value41")].

(** The puts, their errors dropped. *)
Fixpoint put_pairs (l : list (bytes * bytes)) : program unit :=
  match l with [] => gret tt | (k, v) :: l => let! _ := ex_Put k v in put_pairs l end.

Definition iterate_body : program exit :=
  put_pairs sample_pairs ;;; dbIteratorExample ;;; customIteratorExample ;;; gret Finished.

Definition iterate_main (r : rand_state) (fs : FileSys) : outcome (exit * list line * FileSys) :=
  with_db (example_options ($"C:\rosedb_iterate") ($"/tmp/rosedb_iterate") 0) r iterate_body fs.

(** ** [examples/watch] *)
Definition put_test_key (n i : Z) : program unit :=
  let! v := draw (RandomValue n) in let! _ := ex_Put (GetTestKey i) v in gret tt.
Definition delete_test_key (i : Z) : program unit := let! _ := ex_Delete (GetTestKey i) in gret tt.

Definition watch_body : program exit :=
  for_loop 10 0 (put_test_key 64) ;;; for_loop (10 / 2) 0 delete_test_key ;;; gret Finished.

Definition watch_main (r : rand_state) (fs : FileSys) : outcome (exit * list line * FileSys) :=
  with_db (example_options ($"C:\rosedb_watch") ($"/tmp/rosedb_watch") 1000) r watch_body fs.

(** What the watching goroutine prints of what it receives; a closed channel
    gives nil. *)
Fixpoint watch_lines (received : list (option Event)) : list line :=
  match received with
  | [] => []
  | None :: _ => [Stdout ($"The db is closed, so the watch channel is closed.")]
  | Some event :: received => Stdout ($"Get a new event: key" ++ e_Key event ++ $" ") :: watch_lines received
  end.

(** ** [examples/merge] *)
Definition merge_body (run : MergeRun) : program exit :=
  for_loop (Z.to_nat 100000) 0 (put_test_key 128) ;;; for_loop (Z.to_nat (100000 / 2)) 0 delete_test_key ;;;
  let! _ := call 0 (fun _ => DB_Merge run true) in
  gret Finished.

Definition merge_main (run : MergeRun) (r : rand_state) (fs : FileSys) : outcome (exit * list line * FileSys) :=
  with_db (example_options ($"C:\rosedb_merge") ($"/tmp/rosedb_merge") 0) r (merge_body run) fs.
End programs.
