(* ===== verification/ExamplesProps.v ===== *)
(** * What the example programs print

    Each example but the merge, which prints nothing, on a directory of its own that
    is not there yet, prints what its comments promise, whatever log, tree, hash and
    ids are under the database: or the directory could not be opened, or the log
    refused a write. *)
From S2P Require Import Prelude GoBinary Config GoOs Filepath WalLib WalModel Record BTreeLib Index Watch.
From S2P Require Import Store Batch DB Open View BatchSpec CommitSpec Recovery OpenSpec DBSpec Instances Traverse Iterator.
From S2P Require Import Merge WatchDB Strs Examples.
Open Scope Z_scope.

Section examples.
Context {W : WalLib} {WL : WalLaws W} {B : BTreeLib item item_less} {BL : BTreeLaws B}
  {SF : Snowflake} {SL : SnowflakeLaws SF} {MH : MemHashLib} {RX : Regexp} {R : Rand}.
Context (mc : Machine).
Implicit Types (p q : Prog) (m : vmap).

(** The clock does not go back, the lock file is free, an empty schedule is
    accepted, and loops over a new log and its index may end. *)
Record machine_ok : Prop := {
  mo_clock : forall i, mc_clock mc i <= mc_clock mc (S i);
  mo_hold : mc_hold mc = inr true;
  mo_cron : mc_cron_AddFunc mc [] = None;
  mo_fuel : (10 <= mc_fuel mc)%nat;
}.
Context (MO : machine_ok).

Lemma clock_mono i j : (i <= j)%nat -> mc_clock mc i <= mc_clock mc j.
Proof. induction 1 as [|j _ IH]; [lia|]. pose proof (mo_clock MO j). lia. Qed.

(** ** Programs on a map *)
Definition now_of p : Z := mc_clock mc (pg_ticks p).

Record at_map m p : Prop := {
  am_good : db_good (now_of p) (pg_store p);
  am_view : live_eq (now_of p) (db_view (pg_store p)) m;
  am_idle : db_mergeRunning (st_db (pg_store p)) = false;
}.

(** The program goes on from [p], [n] readings of the clock later: what it
    printed and drew is unchanged, its options too. *)
Definition goes_on (n : nat) p q : Prop :=
  pg_out q = pg_out p /\ pg_rand q = pg_rand p /\ db_options (st_db (pg_store q)) = db_options (st_db (pg_store p)) /\
  pg_ticks q = (pg_ticks p + n)%nat.

(** The log refuses what the call at [p] writes: the error is its error, and index,
    watcher and map stay as they were. *)
Definition log_refused (e : error) p q : Prop := exists m, refused_batch e m (pg_store p) (pg_store q).

(** A call of the API does what it means on the map, or the log refuses it. *)
Lemma call_dop {A} (n : nat) (f : (nat -> Z) -> DbM A) (g : A -> dres) (o : dop) m p :
  at_map m p -> dop_run o = as_res g (f (fun i => mc_clock mc (pg_ticks p + i))) -> dop_ok o ->
  now_of p <= (dop_times o).1 <= (dop_times o).2 -> (dop_times o).2 <= mc_clock mc (pg_ticks p + n) ->
  (exists a q, call mc n f p = Ret (a, q) /\ g a = (dop_spec o m).1 /\ at_map (dop_spec o m).2 q /\ goes_on n p q) \/
  (exists a e q, call mc n f p = Ret (a, q) /\ g a = ResErr (Some e) /\ (dop_spec o m).1 = ResErr None /\ pg_out q = pg_out p /\ log_refused e p q).
Proof.
  intros [H1 H2 H3] Hf Hok Ht1 Ht2. unfold call.
  destruct (dop_spec_live_eq (now_of p) o (db_view (pg_store p)) m H2) as [E1 E2]; [lia|lia|].
  destruct (dop_step (now_of p) o (pg_store p) H1 Ht1 Hok) as [(s1 & Er & Hg & Ho & Hv & Hm & _)|(e & s1 & m1 & Er & Es & Href & _)];
    rewrite Hf in Er; unfold as_res, gbind in Er; destruct (f _ (pg_store p)) as [[a s2]| |]; try discriminate Er;
    injection Er as Ea <-; cbn [mbind outcome_bind].
  - left. eexists _, _. split; [reflexivity|]. split; [congruence|]. split; [|by split_and!].
    split; unfold now_of; cbn [pg_store pg_ticks].
    + by apply (db_good_mono (dop_times o).2).
    + apply (live_eq_mono (dop_times o).2); [done|]. by etransitivity.
    + by rewrite Hm.
  - right. exists a, e. eexists. split; [reflexivity|]. split; [done|]. split; [congruence|]. split; [done|by exists m1].
Qed.

Lemma tick_le p i j : (i <= j)%nat -> mc_clock mc (pg_ticks p + i) <= mc_clock mc (pg_ticks p + j).
Proof. intros H. apply clock_mono. lia. Qed.

Lemma tick_0 p : now_of p = mc_clock mc (pg_ticks p + 0).
Proof. unfold now_of. f_equal. lia. Qed.

(** A write that the map accepts: it succeeds, or the log refuses it. *)
Definition wrote (n : nat) m' (c : program (option error)) p : Prop :=
  (exists q, c p = Ret (None, q) /\ at_map m' q /\ goes_on n p q) \/
  (exists e q, c p = Ret (Some e, q) /\ pg_out q = pg_out p /\ log_refused e p q).

Lemma call_write n (f : (nat -> Z) -> DbM (option error)) o m m' p :
  at_map m p -> dop_run o = as_res ResErr (f (fun i => mc_clock mc (pg_ticks p + i))) -> dop_ok o ->
  now_of p <= (dop_times o).1 <= (dop_times o).2 -> (dop_times o).2 <= mc_clock mc (pg_ticks p + n) ->
  dop_spec o m = (ResErr None, m') -> wrote n m' (call mc n f) p.
Proof.
  intros Ha Hf Hok Ht1 Ht2 Es. destruct (call_dop n f ResErr o m p Ha Hf Hok Ht1 Ht2) as [H|H]; rewrite Es in H; [left|right].
  - destruct H as (a & q & E & Eg & Hq & Hgo). cbn in Eg. injection Eg as ->. by exists q.
  - destruct H as (a & e & q & E & Eg & _ & Hout & Href). injection Eg as ->. by exists e, q.
Qed.

(** A read answers as the map. *)
Lemma call_read {A} n (f : (nat -> Z) -> DbM A) (g : A -> dres) o m p a :
  at_map m p -> dop_run o = as_res g (f (fun i => mc_clock mc (pg_ticks p + i))) -> dop_ok o ->
  now_of p <= (dop_times o).1 <= (dop_times o).2 -> (dop_times o).2 <= mc_clock mc (pg_ticks p + n) ->
  dop_spec o m = (g a, m) -> (forall a1 a2, g a1 = g a2 -> a1 = a2) -> (forall a1 e, g a1 <> ResErr e) ->
  exists q, call mc n f p = Ret (a, q) /\ at_map m q /\ goes_on n p q.
Proof.
  intros Ha Hf Hok Ht1 Ht2 Es Hinj Hne. destruct (call_dop n f g o m p Ha Hf Hok Ht1 Ht2) as [H|H]; rewrite Es in H.
  - destruct H as (a1 & q & E & Eg & Hq & Hgo). apply Hinj in Eg as ->. by exists q.
  - destruct H as (a1 & e & q & _ & Eg & _). by apply Hne in Eg.
Qed.

Ltac ticks := repeat split; cbn [dop_times fst snd]; rewrite ?tick_0; apply tick_le; lia.

Lemma ex_Put_at m p k v : at_map m p -> kv_ok k v 0 -> wrote 2 (<[k := (v, 0)]> m) (ex_Put mc k v) p.
Proof.
  intros Ha Hk. apply (call_write 2 _ (DPut (mc_clock mc (pg_ticks p + 0)) (mc_clock mc (pg_ticks p + 1)) k v) m); done || ticks.
Qed.

Lemma ex_Delete_at m p k : at_map m p -> kv_ok k [] 0 -> wrote 2 (delete k m) (ex_Delete mc k) p.
Proof.
  intros Ha Hk. apply (call_write 2 _ (DDelete (mc_clock mc (pg_ticks p + 0)) (mc_clock mc (pg_ticks p + 1)) k) m); done || ticks.
Qed.

Lemma ex_PutWithTTL_at m p k v ttl : at_map m p -> kv_ok k v 0 ->
  wrote 3 (<[k := (v, i64 (now_of p + ttl))]> m) (ex_PutWithTTL mc k v ttl) p.
Proof.
  intros Ha Hk. rewrite tick_0. apply (call_write 3 _ (DPutWithTTL (mc_clock mc (pg_ticks p + 0)) (mc_clock mc (pg_ticks p + 1))
    (mc_clock mc (pg_ticks p + 2)) k v ttl) m); done || ticks.
Qed.

Lemma ex_Expire_at m p k v e ttl : at_map m p -> k <> [] -> live (now_of p) m !! k = Some (v, e) ->
  wrote 4 (<[k := (v, i64 (now_of p + ttl))]> m) (ex_Expire mc k ttl) p.
Proof.
  intros Ha Hk Hl. rewrite tick_0 in *. apply (call_write 4 _ (DExpire (mc_clock mc (pg_ticks p + 0)) (mc_clock mc (pg_ticks p + 1))
    (mc_clock mc (pg_ticks p + 2)) (mc_clock mc (pg_ticks p + 3)) k ttl) m); try done; [ticks|ticks|].
  cbn [dop_spec]. unfold spec_set_expire. by rewrite Hl.
Qed.

Lemma ex_Get_at m p k : at_map m p -> k <> [] ->
  exists q, ex_Get mc k p = Ret (spec_get (now_of p) m k, q) /\ at_map m q /\ goes_on 1 p q.
Proof.
  intros Ha Hk. rewrite tick_0. apply (call_read 1 _ ResVal (DGet (mc_clock mc (pg_ticks p + 0)) k)); try done; [ticks|ticks|].
  by intros ? ? [= ?].
Qed.

Lemma ex_TTL_at m p k : at_map m p -> k <> [] ->
  exists q, ex_TTL mc k p = Ret (spec_ttl (now_of p) m k, q) /\ at_map m q /\ goes_on 1 p q.
Proof.
  intros Ha Hk. rewrite tick_0. apply (call_read 1 _ ResDur (DTTL (mc_clock mc (pg_ticks p + 0)) k)); try done; [ticks|ticks|].
  by intros ? ? [= ?].
Qed.

(** Printing leaves the database alone. *)
Lemma print_at l m p : at_map m p -> exists q, print l p = Ret (tt, q) /\ at_map m q /\ pg_out q = pg_out p ++ l /\
  pg_ticks q = pg_ticks p /\ pg_rand q = pg_rand p /\ pg_store q = pg_store p.
Proof. intros [H1 H2 H3]. eexists. split; [reflexivity|]. by split_and!. Qed.
(** ** Opening and closing *)

(** The directory of an example before its first run. *)
Definition fresh (options : Options) (fs : FileSys) : Prop :=
  os_dir_exists fs (mergeDirPath (o_DirPath options)) = false /\ disk_rep (o_DirPath options) fs [] [] [] 0 [].

(** What the examples ask of their options. *)
Definition example_like (options : Options) : Prop :=
  o_DirPath options <> [] /\ 0 < o_SegmentSize options /\ o_AutoMergeCronExpr options = [] /\
  o_WatchQueueSize options < 2 ^ 64 /\ mergeDirPath (o_DirPath options) <> o_DirPath options.

Definition open_example (options : Options) (fs : FileSys) : outcome ((error + DB) * FileSys) :=
  DB_Open (mc_cron_Parse mc) (mc_cron_AddFunc mc) (mc_hold mc) (mc_fuel mc) (mc_clock mc 0) options fs.

Lemma open_fresh options fs r : example_like options -> fresh options fs ->
  (exists e fs', open_example options fs = Ret (inl e, fs') /\ open_error fs e) \/
  (exists db fs', open_example options fs = Ret (inr db, fs') /\ db_options db = options /\
     at_map ∅ (MkProg [] 1 r (MkStore db fs')) /\ db_watcher db = open_watcher options).
Proof.
  intros (H1 & H2 & H3 & H4 & H5) [Hm Hd]. unfold open_example. rewrite (mo_hold MO).
  destruct (DB_Open_spec (mc_cron_Parse mc) (mc_cron_AddFunc mc) (mc_fuel mc) (mc_clock mc 0) options fs [] [] [] 0 [])
    as (res & fs' & E & Hres); try done.
  - unfold checkOptions. rewrite decide_False by done. rewrite decide_False by lia. by rewrite H3, decide_False.
  - rewrite H3. apply (mo_cron MO).
  - pose proof (mo_fuel MO). unfold open_fuel, open_post. simpl. lia.
  - rewrite E. destruct res as [e|db]; [left; exists e, fs'; split; [done|apply Hres]|right]. exists db, fs'. destruct Hres as [G O M V _ _ _ _ _ _ Hw].
    split; [done|]. split; [done|]. split; [|done]. pose proof (mo_clock MO 0).
    split; unfold now_of; cbn [pg_ticks pg_store st_db]; [by apply (db_good_mono (mc_clock mc 0))| |done].
    by apply (live_eq_mono (mc_clock mc 0)).
Qed.

(** Nothing keeps [Close] from running. *)
Definition closable (options : Options) (s : Store) : Prop :=
  db_mu (st_db s) = mu_free /\ db_mergeRunning (st_db s) = false /\ db_options (st_db s) = options.

Lemma close_runs u options s : closable options s -> o_WatchQueueSize options <= 0 -> exists err s', DB_Close u s = Ret (err, s').
Proof.
  intros (Hmu & Hidle & <-) Hq. unfold DB_Close. rewrite Hidle. unfold with_lock, gbind, db_with_mu. rewrite Hmu.
  cbn [mu_Lock mu_free mu_writer mu_readers mu_announced orb negb Nat.eqb]. set (s0 := MkStore _ _).
  assert (Hf : exists err s', closeFiles s0 = Ret (err, s') /\ db_mu (st_db s') = MkRWMutex true 0 /\
    o_WatchQueueSize (db_options (st_db s')) <= 0).
  { unfold closeFiles. destruct (wal_Close _ _) as [[[e|] w] fs]; [by do 2 eexists|]. cbn [st_db set_dataFiles db_hintFile].
    destruct (db_hintFile (st_db s0)) as [h|]; [|by do 2 eexists]. destruct (wal_Close h _) as [[e' h'] fs']. by do 2 eexists. }
  destruct Hf as (err & s1 & -> & Hmu1 & Hq1). destruct err as [e|].
  { unfold gret. rewrite Hmu1. by do 2 eexists. }
  destruct u as [e|]; [unfold gret; rewrite Hmu1; by do 2 eexists|]. unfold db_get, gret, db_modify.
  rewrite (proj2 (Z.ltb_ge _ _)) by done. cbn [st_db set_closed db_mu]. rewrite Hmu1. by do 2 eexists.
Qed.

Lemma at_map_closable m p : at_map m p -> closable (db_options (st_db (pg_store p))) (pg_store p).
Proof. intros [[_ _ Hmu _ _ _] _ Hidle]. by split_and!. Qed.

(** A program on a new directory: the opening fails, or its body runs on an empty
    map and the database is closed after it. *)
Lemma with_db_fresh options r body fs : example_like options -> o_WatchQueueSize options <= 0 -> fresh options fs ->
  (exists e fs', with_db mc options r body fs = Ret (Panicked e, [], fs') /\ open_error fs e) \/
  (exists db fs', open_example options fs = Ret (inr db, fs') /\ db_options db = options /\
     let p := MkProg [] 1 r (MkStore db fs') in at_map ∅ p /\
     forall x q, body p = Ret (x, q) -> closable options (pg_store q) -> exists fs2, with_db mc options r body fs = Ret (x, pg_out q, fs2)).
Proof.
  intros Ho Hq Hf. unfold with_db. fold (open_example options fs).
  destruct (open_fresh options fs r Ho Hf) as [(e & fs' & E & He)|(db & fs' & E & Eo & Ha & _)]; rewrite E; cbn [mbind outcome_bind].
  - left. by exists e, fs'.
  - right. exists db, fs'. split; [done|]. split; [done|]. split; [done|]. intros x q Ex Hcl. rewrite Ex. cbn [mbind outcome_bind].
    destruct (close_runs (mc_unlock mc) options (pg_store q) Hcl Hq) as (err & s' & ->). by eexists.
Qed.

Lemma example_options_like windows other queue : windows <> [] -> other <> [] -> queue < 2 ^ 64 ->
  mergeDirPath windows <> windows -> mergeDirPath other <> other -> example_like (example_options mc windows other queue).
Proof. intros H1 H2 H3 H4 H5. unfold example_options. split_and!; cbn; try done; by case_bool_decide. Qed.

Ltac example_like := apply example_options_like; vm_compute; first [reflexivity|let H := fresh in intros H; discriminate H].

(** Options may be compared along a run. *)
Lemma goes_on_options n p q : goes_on n p q -> db_options (st_db (pg_store q)) = db_options (st_db (pg_store p)).
Proof. by intros (_ & _ & ? & _). Qed.
(** ** [examples/basic] *)
Definition basic_options : Options := example_options mc ($"C:\rosedb_basic") ($"/tmp/rosedb_basic") 0.

Lemma basic_body_prints p : at_map ∅ p -> pg_out p = [] ->
  (exists q, basic_body mc p = Ret (Finished, q) /\ at_map ∅ q /\ pg_out q = [Stderr ($"rosedb")] /\
     db_options (st_db (pg_store q)) = db_options (st_db (pg_store p))) \/
  (exists e p1 q, basic_body mc p = Ret (Panicked e, q) /\ (pg_out q = [] \/ pg_out q = [Stderr ($"rosedb")]) /\ log_refused e p1 q).
Proof.
  intros Ha Hout. unfold basic_body.
  destruct (ex_Put_at ∅ p ($"name") ($"rosedb") Ha ltac:(by split_and!)) as [(p1 & E1 & Ha1 & Hg1)|(e & q & E & Hq & Href)].
  2: { right. exists e, p, q. rewrite (gbind_Ret _ _ _ _ _ E). split; [done|]. split; [left; congruence|done]. }
  rewrite (gbind_Ret _ _ _ _ _ E1). cbn [must].
  destruct (ex_Get_at _ p1 ($"name") Ha1 ltac:(done)) as (p2 & E2 & Ha2 & Hg2). rewrite (gbind_Ret _ _ _ _ _ E2).
  change (spec_get (now_of p1) (<[$"name" := ($"rosedb", 0)]> ∅) ($"name")) with (inr (A := error) ($"rosedb")). cbn iota.
  destruct (print_at [Stderr ($"rosedb")] _ p2 Ha2) as (p3 & E3 & Ha3 & Ho3 & _ & _ & Hs3). rewrite (gbind_Ret _ _ _ _ _ E3).
  assert (Hout3 : pg_out p3 = [Stderr ($"rosedb")]).
  { rewrite Ho3. destruct Hg2 as (-> & _), Hg1 as (-> & _). by rewrite Hout. }
  destruct (ex_Delete_at _ p3 ($"name") Ha3 ltac:(by split_and!)) as [(p4 & E4 & Ha4 & Hg4)|(e & q & E & Hq & Href)].
  - left. exists p4. rewrite (gbind_Ret _ _ _ _ _ E4). split; [done|]. split; [exact Ha4|].
    split; [destruct Hg4 as (-> & _); exact Hout3|]. rewrite (goes_on_options _ _ _ Hg4), Hs3, (goes_on_options _ _ _ Hg2).
    exact (goes_on_options _ _ _ Hg1).
  - right. exists e, p3, q. rewrite (gbind_Ret _ _ _ _ _ E). split; [done|]. split; [right; congruence|done].
Qed.
(** [examples/basic] prints the value it put, and its directory is gone unless the
    operating system keeps it, which the program does not look at. *)
Theorem basic_prints r fs : fresh basic_options fs ->
  (exists e fs', basic_main mc r fs = Ret (Panicked e, [], fs') /\ open_error fs e) \/
  (exists db fs' e p1 q, open_example basic_options fs = Ret (inr db, fs') /\
     basic_body mc (MkProg [] 1 r (MkStore db fs')) = Ret (Panicked e, q) /\
     (pg_out q = [] \/ pg_out q = [Stderr ($"rosedb")]) /\ log_refused e p1 q) \/
  (exists fs', basic_main mc r fs = Ret (Finished, [Stderr ($"rosedb")], fs') /\
     (os_dir_exists fs' (o_DirPath basic_options) = false \/
      exists fs2 err, os_RemoveAll fs2 (o_DirPath basic_options) = (Some err, fs'))).
Proof.
  intros Hf. assert (Hl : example_like basic_options) by example_like.
  unfold basic_main. fold basic_options.
  destruct (with_db_fresh basic_options r (basic_body mc) fs Hl ltac:(done) Hf) as [(e & fs' & E & He)|(db & fs' & E & Eo & Ha & Hend)].
  { left. rewrite E. by eexists e, _. }
  destruct (basic_body_prints _ Ha eq_refl) as [(q & Eq & Haq & Hout & Hoq)|(e & p1 & q & Eq & Hout & Href)].
  - right; right. destruct (Hend Finished q Eq) as (fs2 & ->).
    { rewrite <- Eo. change (db_options db) with (db_options (st_db (pg_store (MkProg [] 1 r (MkStore db fs'))))). rewrite <- Hoq.
      by apply (at_map_closable ∅). }
    destruct (os_RemoveAll fs2 (o_DirPath basic_options)) as [err fs3] eqn:Er.
    exists fs3. cbn [mbind outcome_bind]. rewrite Er, Hout. split; [done|]. destruct err as [err|]; [right; by exists fs2, err|left].
    unfold os_RemoveAll in Er. destruct (fs_denies fs2 _); [discriminate Er|]. injection Er as <-.
    unfold os_dir_exists. cbn [fs_dirs]. apply bool_decide_eq_false. set_solver.
  - right; left. by exists db, fs', e, p1, q.
Qed.

(** ** [examples/batch] *)
Definition batch_options : Options := example_options mc ($"C:\rosedb_batch") ($"/tmp/rosedb_batch") 0.

(** A method of the batch on a batch that holds the lock. *)
Definition in_batch m p (b : Batch) : Prop :=
  writable b (pg_store p) /\ pool_ok (pg_store p) /\ batch_view b (pg_store p) = m /\
  db_mu (st_db (pg_store p)) = MkRWMutex true 0 /\ b_committed b = false /\ b_rollbacked b = false /\ is_Some (b_batchId b).

Lemma call_batch_writes n (f : (nat -> Z) -> BatchM (option error)) m m' p b :
  in_batch m p b ->
  (exists b' s', f (fun i => mc_clock mc (pg_ticks p + i)) (b, pg_store p) = Ret (None, (b', s')) /\ writes_as m' b (pg_store p) b' s') ->
  exists b' q, call_batch mc n b f p = Ret ((None, b'), q) /\ in_batch m' q b' /\ pg_out q = pg_out p /\
    db_options (st_db (pg_store q)) = db_options (st_db (pg_store p)) /\
    db_mergeRunning (st_db (pg_store q)) = db_mergeRunning (st_db (pg_store p)).
Proof.
  intros ((Hb & Hs & Hc & Hro) & _ & _ & Hmu & Hcm & Hrb & Hid) (b' & s' & E & J1 & J2 & J3 & J4 & (S1 & S2 & S3 & S4 & _) & (pool & Hq)).
  unfold call_batch. rewrite E. cbn [mbind outcome_bind]. eexists b', _. split; [reflexivity|]. cbn [pg_store pg_out].
  split; [|by rewrite Hq]. split; [split_and!; [done|done|by rewrite Hq|by rewrite S1]|].
  split_and!; [done|done|by rewrite Hq|by rewrite S2|by rewrite S3|by rewrite S4].
Qed.

Lemma NewBatch_at m p : at_map m p ->
  exists b q, call mc 0 (fun _ => NewBatch DefaultBatchOptions) p = Ret (b, q) /\ in_batch (db_view (pg_store p)) q b /\
    pg_out q = pg_out p /\ db_options (st_db (pg_store q)) = db_options (st_db (pg_store p)) /\
    db_mergeRunning (st_db (pg_store q)) = db_mergeRunning (st_db (pg_store p)) /\ db_view (pg_store q) = db_view (pg_store p).
Proof.
  intros [[[A1 A2 A3 A4 A5] G2 G3 G4 G5 G6] _ _]. destruct sf_NewNode_law as [node Hn].
  unfold call, NewBatch, make_batch. cbn [DefaultBatchOptions bo_ReadOnly]. rewrite Hn. cbn [mbind outcome_bind].
  unfold Batch_lock, gbind, b_get, on_db, db_with_mu. cbn [b_options DefaultBatchOptions bo_ReadOnly]. rewrite G3.
  cbn [mu_Lock mu_free mu_writer mu_readers mu_announced orb negb Nat.eqb mbind outcome_bind]. do 2 eexists. split; [reflexivity|].
  split; [|done]. split; [|by split_and!]. split; [apply empty_batch_inv|by split_and!].
Qed.

Lemma spec_get_insert t k v m : spec_get t (<[k := (v, 0)]> m) k = inr v.
Proof. unfold spec_get. by rewrite live_lookup, lookup_insert_eq. Qed.

(** Whether or not the log takes it, the commit gives the lock back. *)
Lemma batch_commits p m b : in_batch m p b ->
  exists res q, call_batch mc 2 b (fun t => Batch_Commit (t 0%nat) (t 1%nat)) p = Ret (res, q) /\ pg_out q = pg_out p /\
    (db_mergeRunning (st_db (pg_store p)) = false -> closable (db_options (st_db (pg_store p))) (pg_store q)).
Proof.
  intros (Hw & Hp & _ & Hmu & Hcm & Hrb & Hid). unfold call_batch. cbn beta.
  set (clock := mc_clock mc (pg_ticks p + 0)). set (now := mc_clock mc (pg_ticks p + 1)).
  destruct (decide (b_pendingWrites b = [])) as [Hnil|Hne].
  - pose proof Hw as (_ & _ & Hc & Hro). rewrite (Batch_Commit_nothing clock now b (pg_store p) mu_free Hc (or_intror Hnil)) by (by rewrite Hro, Hmu).
    cbn [mbind outcome_bind]. do 2 eexists. split; [reflexivity|]. split; [done|]. intros Hidle. by split_and!.
  - assert (Hcc : can_commit b (pg_store p)) by by split_and!.
    destruct (Batch_Commit_spec clock now b (pg_store p) Hcc) as (res & b' & s' & -> & _ & _ & Hmu' & (_ & S2 & _ & S4 & _) & _).
    cbn [mbind outcome_bind]. do 2 eexists. split; [reflexivity|]. split; [done|]. intros Hidle. unfold closable. cbn [pg_store]. by rewrite S4.
Qed.

Lemma batch_body_prints p : at_map ∅ p -> pg_out p = [] ->
  exists q, batch_body mc p = Ret (Finished, q) /\ pg_out q = [Stderr ($"rosedb")] /\
    closable (db_options (st_db (pg_store p))) (pg_store q).
Proof.
  intros Ha Hout. pose proof Ha as [_ _ Hidle]. unfold batch_body.
  destruct (NewBatch_at ∅ p Ha) as (b & p1 & E1 & Hb1 & O1 & Op1 & Im1 & V1). rewrite (gbind_Ret _ _ _ _ _ E1).
  destruct (call_batch_writes 0 (fun _ => Batch_Put ($"name") ($"rosedb")) _ _ p1 b Hb1
    (Batch_Put_spec ($"name") ($"rosedb") b (pg_store p1) (proj1 Hb1) (proj1 (proj2 Hb1)) ltac:(by split_and!)))
    as (b2 & p2 & E2 & Hb2 & O2 & Op2 & Im2). rewrite (gbind_Ret _ _ _ _ _ E2). cbn [snd].
  pose proof Hb2 as ((B1 & B2 & B3 & B4) & Pl2 & Vw2 & Mu2 & C2 & R2 & Id2).
  destruct (Batch_Get_spec (mc_clock mc (pg_ticks p2 + 0)) ($"name") b2 (pg_store p2) B1 B2 B3 ltac:(done)) as (s3 & E3 & Hr3).
  assert (Eg : spec_get (mc_clock mc (pg_ticks p2 + 0)) (batch_view b2 (pg_store p2)) ($"name") = inr ($"rosedb"))
    by (rewrite Vw2; apply spec_get_insert).
  rewrite Eg in E3. destruct Hr3 as (I3 & _ & f & Es3 & _).
  set (p3 := MkProg (pg_out p2) (pg_ticks p2 + 1) (pg_rand p2) s3).
  assert (E3' : call_batch mc 1 b2 (fun t => Batch_Get (t 0%nat) ($"name")) p2 = Ret ((inr ($"rosedb"), b2), p3))
    by (unfold call_batch; by rewrite E3).
  rewrite (gbind_Ret _ _ _ _ _ E3'). cbn [fst snd].
  set (p4 := MkProg (pg_out p3 ++ [Stderr ($"rosedb")]) (pg_ticks p3) (pg_rand p3) (pg_store p3)).
  rewrite (gbind_Ret (print [Stderr ($"rosedb")]) _ p3 tt p4 eq_refl).
  assert (Hb4 : in_batch (batch_view b2 s3) p4 b2).
  { unfold in_batch. cbn [p4 p3 pg_store]. split; [split_and!; [done|done|by rewrite Es3|done]|].
    split; [by rewrite Es3|]. split; [done|]. split; [by rewrite Es3|done]. }
  destruct (call_batch_writes 0 (fun _ => Batch_Delete ($"name")) _ _ p4 b2 Hb4
    (Batch_Delete_spec ($"name") b2 (pg_store p4) (proj1 Hb4) (proj1 (proj2 Hb4)) ltac:(by split_and!)))
    as (b5 & p5 & E5 & Hb5 & O5 & Op5 & Im5). rewrite (gbind_Ret _ _ _ _ _ E5). cbn [snd].
  destruct (batch_commits p5 _ b5 Hb5) as (res & q & Eq & Oq & Hcl). rewrite (gbind_Ret _ _ _ _ _ Eq).
  exists q. split; [done|]. rewrite Oq, O5. cbn [p4 p3 pg_out]. rewrite O2, O1, Hout. split; [done|].
  assert (Hop : db_options (st_db (pg_store p5)) = db_options (st_db (pg_store p))).
  { rewrite Op5. cbn [p4 p3 pg_store]. rewrite Es3. cbn. congruence. }
  rewrite <- Hop. apply Hcl. rewrite Im5. cbn [p4 p3 pg_store]. rewrite Es3. cbn. congruence.
Qed.

(** [examples/batch] prints the value the batch put and has not committed yet. *)
Theorem batch_prints r fs : fresh batch_options fs ->
  (exists e fs', batch_main mc r fs = Ret (Panicked e, [], fs') /\ open_error fs e) \/
  (exists fs', batch_main mc r fs = Ret (Finished, [Stderr ($"rosedb")], fs')).
Proof.
  intros Hf. assert (Hl : example_like batch_options) by example_like. unfold batch_main. fold batch_options.
  destruct (with_db_fresh batch_options r (batch_body mc) fs Hl ltac:(done) Hf) as [H|(db & fs' & E & Eo & Ha & Hend)]; [by left|right].
  destruct (batch_body_prints _ Ha eq_refl) as (q & Eq & Hout & Hcl). cbn [pg_store st_db] in Hcl. rewrite Eo in Hcl.
  destruct (Hend Finished q Eq Hcl) as (fs2 & ->). exists fs2. by rewrite Hout.
Qed.
(** ** [examples/ttl] *)
Definition ttl_options : Options := example_options mc ($"C:\rosedb_ttl") ($"/tmp/rosedb_ttl") 0.

Lemma spec_ttl_insert now e k v m : 0 < e < 2 ^ 63 -> 0 <= now < e -> spec_ttl now (<[k := (v, e)]> m) k = inr (e - now).
Proof.
  intros He Hn. unfold spec_ttl. rewrite live_lookup, lookup_insert_eq. unfold expired.
  rewrite (proj2 (Z.ltb_lt 0 e)), (proj2 (Z.leb_gt e now)) by lia. cbn [andb].
  cbn iota. rewrite (proj2 (Z.ltb_lt 0 e)), i64_small by lia. done.
Qed.

(** What is left of a duration that began at one reading and is asked at another. *)
Definition left_of (ttl : Z) (i j : nat) : Z := ttl - (mc_clock mc j - mc_clock mc i).

(** The readings stay in range, and each duration outlasts the calls it spans. *)
Definition in_time : Prop :=
  0 <= mc_clock mc 1 /\ mc_clock mc 11 < 2 ^ 62 /\ 0 < left_of (5 * Second) 1 4 /\ 0 < left_of (2 * Second) 7 11.

(** The statements up to the first line printed. *)
Definition ttl_start : program unit :=
  let! _ := ex_PutWithTTL mc ($"name") ($"rosedb") (5 * Second) in
  let! r := ex_TTL mc ($"name") in
  print [Stderr (Duration_String (ttl_value r))].

Lemma left_ttl n ttl p0 p m k v : pg_ticks p = (pg_ticks p0 + n)%nat -> 0 <= now_of p0 < 2 ^ 62 -> 0 < ttl < 2 ^ 62 ->
  0 < left_of ttl (pg_ticks p0) (pg_ticks p) ->
  spec_ttl (now_of p) (<[k := (v, i64 (now_of p0 + ttl))]> m) k = inr (left_of ttl (pg_ticks p0) (pg_ticks p)).
Proof.
  intros Hn H0 Ht Hl. pose proof (clock_mono (pg_ticks p0) (pg_ticks p) ltac:(lia)) as Hm. unfold left_of, now_of in *.
  rewrite i64_small by lia. rewrite spec_ttl_insert by lia. f_equal. lia.
Qed.

Lemma ttl_body_prints p : in_time -> pg_ticks p = 1%nat -> at_map ∅ p -> pg_out p = [] ->
  let first := Stderr (Duration_String (left_of (5 * Second) 1 4)) in
  (exists q, ttl_body mc p = Ret (Finished, q) /\ pg_out q = [first; Stderr (Duration_String (left_of (2 * Second) 7 11))] /\
     closable (db_options (st_db (pg_store p))) (pg_store q)) \/
  (exists e p1 q, ttl_body mc p = Ret (Panicked e, q) /\ (pg_out q = [] \/ pg_out q = [first]) /\ log_refused e p1 q) \/
  (exists p1 e q, ttl_start p = Ret (tt, p1) /\ ex_Put mc ($"name2") ($"rosedb2") p1 = Ret (Some e, q) /\ log_refused e p1 q).
Proof.
  intros (T1 & T2 & T3 & T4) Hn Ha Hout first. unfold ttl_body, ttl_start.
  pose proof (clock_mono 1 11 ltac:(lia)) as M1. pose proof (clock_mono 1 7 ltac:(lia)) as M2. pose proof (clock_mono 7 11 ltac:(lia)) as M3.
  destruct (ex_PutWithTTL_at ∅ p ($"name") ($"rosedb") (5 * Second) Ha ltac:(by split_and!)) as [(p1 & E1 & Ha1 & G1)|(e & q & E & Hq & Href)].
  2: { right; left. exists e, p, q. rewrite (gbind_Ret _ _ _ _ _ E). split; [done|]. split; [left; congruence|done]. }
  rewrite !(gbind_Ret _ _ _ _ _ E1). cbn [must]. pose proof G1 as (O1 & _ & Op1 & N1).
  destruct (ex_TTL_at _ p1 ($"name") Ha1 ltac:(done)) as (p2 & E2 & Ha2 & O2 & _ & Op2 & N2).
  rewrite (left_ttl 3) in E2; [|exact N1|unfold now_of; rewrite Hn; lia|unfold Second; lia|by rewrite N1, Hn].
  rewrite N1, Hn in E2. change (1 + 3)%nat with 4%nat in E2. rewrite !(gbind_Ret _ _ _ _ _ E2). cbn [ttl_value]. fold first.
  destruct (print_at [first] _ p2 Ha2) as (p3 & E3 & Ha3 & O3 & N3 & _ & S3). rewrite !(gbind_Ret _ _ _ _ _ E3).
  assert (Hout3 : pg_out p3 = [first]) by (rewrite O3, O2, O1, Hout; done).
  destruct (ex_Put_at _ p3 ($"name2") ($"rosedb2") Ha3 ltac:(by split_and!)) as [(p4 & E4 & Ha4 & O4 & _ & Op4 & N4)|(e & q & E & Hq & Href)].
  2: { right; right. exists p3, e, q. by split_and!. }
  rewrite (gbind_Ret _ _ _ _ _ E4). assert (N47 : pg_ticks p4 = 7%nat) by lia.
  destruct (ex_Expire_at _ p4 ($"name2") ($"rosedb2") 0 (2 * Second) Ha4 ltac:(done)) as [(p5 & E5 & Ha5 & O5 & _ & Op5 & N5)|(e & q & E & Hq & Href)].
  { by rewrite live_lookup, lookup_insert_eq. }
  2: { right; left. exists e, p4, q. rewrite (gbind_Ret _ _ _ _ _ E). split; [done|]. split; [right; congruence|done]. }
  rewrite (gbind_Ret _ _ _ _ _ E5). cbn [must].
  destruct (ex_TTL_at _ p5 ($"name2") Ha5 ltac:(done)) as (p6 & E6 & Ha6 & O6 & _ & Op6 & N6).
  rewrite (left_ttl 4) in E6; [|exact N5|unfold now_of; rewrite N47; lia|unfold Second; lia|by rewrite N5, N47].
  rewrite N5, N47 in E6. change (7 + 4)%nat with 11%nat in E6. rewrite (gbind_Ret _ _ _ _ _ E6). cbn [ttl_value].
  left. eexists. split; [reflexivity|]. split; [cbn; by rewrite O6, O5, O4, Hout3|].
  pose proof (at_map_closable _ _ Ha6) as Hcl. rewrite Op6, Op5, Op4, S3, Op2, Op1 in Hcl. exact Hcl.
Qed.

(** [examples/ttl] prints what is left of each duration when it asks: the five
    seconds less the time since the first put read the clock, and the two seconds
    less the time since [Expire] did. *)
Theorem ttl_prints_time_left r fs : in_time -> fresh ttl_options fs ->
  let first := Stderr (Duration_String (left_of (5 * Second) 1 4)) in
  (exists e fs', ttl_main mc r fs = Ret (Panicked e, [], fs') /\ open_error fs e) \/
  (exists db fs', open_example ttl_options fs = Ret (inr db, fs') /\ let p := MkProg [] 1 r (MkStore db fs') in
     (exists e p1 q, ttl_body mc p = Ret (Panicked e, q) /\ (pg_out q = [] \/ pg_out q = [first]) /\ log_refused e p1 q) \/
     (exists p1 e q, ttl_start p = Ret (tt, p1) /\ ex_Put mc ($"name2") ($"rosedb2") p1 = Ret (Some e, q) /\ log_refused e p1 q)) \/
  (exists fs', ttl_main mc r fs = Ret (Finished, [first; Stderr (Duration_String (left_of (2 * Second) 7 11))], fs')).
Proof.
  intros Ht Hf first. assert (Hl : example_like ttl_options) by example_like. unfold ttl_main. fold ttl_options.
  destruct (with_db_fresh ttl_options r (ttl_body mc) fs Hl ltac:(done) Hf) as [H|(db & fs' & E & Eo & Ha & Hend)]; [by left|right].
  destruct (ttl_body_prints (MkProg [] 1 r (MkStore db fs')) Ht eq_refl Ha eq_refl) as [(q & Eq & Hout & Hcl)|H]; [right|left; by exists db, fs'].
  cbn [pg_store st_db] in Hcl. rewrite Eo in Hcl. destruct (Hend Finished q Eq Hcl) as (fs2 & ->). exists fs2. by rewrite Hout.
Qed.
(** ** [examples/iterate] *)
Definition iterate_options : Options := example_options mc ($"C:\rosedb_iterate") ($"/tmp/rosedb_iterate") 0.

Definition pairs_map (l : list (bytes * bytes)) m : vmap := fold_left (fun m kv => <[kv.1 := (kv.2, 0)]> m) l m.

(** The puts reach the map, or the log refuses one of them. *)
Lemma put_pairs_at l m p : Forall (fun kv => kv_ok kv.1 kv.2 0) l -> at_map m p ->
  (exists n q, put_pairs mc l p = Ret (tt, q) /\ at_map (pairs_map l m) q /\ goes_on n p q) \/
  (exists l1 k v l2 p1 e q, l = l1 ++ (k, v) :: l2 /\ put_pairs mc l1 p = Ret (tt, p1) /\ ex_Put mc k v p1 = Ret (Some e, q) /\ log_refused e p1 q).
Proof.
  intros Hl. revert m p. induction Hl as [|[k v] l Hk _ IH]; intros m p Ha.
  { left. exists 0%nat, p. split; [done|]. split; [done|]. by split_and!. }
  cbn [put_pairs]. destruct (ex_Put_at m p k v Ha Hk) as [(q & E & Hq & G)|(e & q & E & _ & Href)].
  - destruct (IH _ q Hq) as [(n & q' & E' & Hq' & G')|(l1 & k1 & v1 & l2 & p1 & e & q' & -> & E1 & E2 & Href)].
    + left. exists (2 + n)%nat, q'. rewrite (gbind_Ret _ _ _ _ _ E). split; [done|]. split; [done|].
      destruct G as (? & ? & ? & ?), G' as (? & ? & ? & ?). split_and!; try congruence. lia.
    + right. exists ((k, v) :: l1), k1, v1, l2, p1, e, q'. split; [done|]. split; [|done].
      cbn [put_pairs]. by rewrite (gbind_Ret _ _ _ _ _ E).
  - right. by exists [], k, v, l, p, e, q.
Qed.

(** The pairs in the order of their keys. *)
Definition ordered_pairs : list (bytes * bytes) :=
  [($"key11", $"value11"); ($"key13", $"value13"); ($"key27", $"value27"); ($"key35", $"value35"); ($"key41", $"value41")].

Definition pair_lines (l : list (bytes * bytes)) : list line := (fun kv => pair_line kv.1 kv.2) <$> l.
Definition key_lines (l : list (bytes * bytes)) : list line := (fun kv => key_line kv.1) <$> l.

(** The program after it has printed [L]. *)
Definition says (L : list line) p : Prog := MkProg (pg_out p ++ L) (pg_ticks p) (pg_rand p) (pg_store p).

Lemma says_at L m p : at_map m p -> at_map m (says L p).
Proof. intros [H1 H2 H3]. by split. Qed.

Lemma says_says L L' p : says L' (says L p) = says (L ++ L') p.
Proof. unfold says. cbn [pg_out pg_ticks pg_rand pg_store]. by rewrite (assoc_L (++)). Qed.

Lemma says_nothing p : says [] p = p.
Proof. destruct p. unfold says. simpl. by rewrite app_nil_r. Qed.

Lemma walk_prints {X} (h : X -> list line -> (bool * option error) * list line) (f : X -> line) l out :
  (forall x out, h x out = ((true, None), out ++ [f x])) -> walk h l out = out ++ (f <$> l).
Proof.
  intros Hh. revert out. induction l as [|x l IH]; intros out; [by rewrite app_nil_r|].
  cbn [walk]. rewrite Hh, IH, <- (assoc_L (++)). done.
Qed.

Lemma printing_says {A} (f : (bytes -> Z) -> list line -> DbM A) (lines : A -> list line) a L p :
  f (fun _ => now_of p) (pg_out p) (pg_store p) = Ret (a, pg_store p) -> lines a = pg_out p ++ L ->
  printing mc f lines p = Ret (tt, says L p).
Proof. unfold printing, now_of. intros -> E. cbn [mbind outcome_bind]. by rewrite E. Qed.

(** The pairs a program's traversals go through. *)
Definition kvs_of p : list (bytes * bytes) := live_kvs (fun _ => now_of p) (pg_store p).

Lemma kvs_of_keys p : omap (key_of (fun _ => now_of p) (pg_store p) true) (mt_entries (db_index (st_db (pg_store p)))) = (kvs_of p).*1.
Proof.
  unfold kvs_of, live_kvs, key_of. induction (mt_entries _) as [|e l IH]; [done|]. simpl.
  destruct (shown _ _ e); simpl; [by f_equal|done].
Qed.

Lemma prints_keys (go : MemoryBTree -> handle_fn (outcome (list line)) -> outcome (list line) -> outcome (list line)) es m p :
  at_map m p -> in_index (pg_store p) es -> (forall f o, go (db_index (st_db (pg_store p))) f o = visit f es o) ->
  printing mc (fun clock => traverse_keys go clock [] true print_key) snd p
    = Ret (tt, says (key_line <$> omap (key_of (fun _ => now_of p) (pg_store p) true) es) p).
Proof.
  intros [Hg _ _] Hin Hgo. eapply printing_says; [by apply (traverse_keys_visit go _ [] None); try done; apply Hg|].
  cbn [snd]. rewrite (walk_prints _ key_line) by done. f_equal. f_equal. by apply filter_all.
Qed.

Lemma prints_pairs (go : MemoryBTree -> handle_fn (outcome (list line)) -> outcome (list line) -> outcome (list line)) onerr es m p :
  at_map m p -> in_index (pg_store p) es -> (forall f o, go (db_index (st_db (pg_store p))) f o = visit f es o) ->
  printing mc (fun clock => traverse go (fun db fs => value_fn db fs clock onerr print_pair)) id p
    = Ret (tt, says (pair_lines (omap (shown (fun _ => now_of p) (pg_store p)) es)) p).
Proof.
  intros [Hg _ _] Hin Hgo. eapply printing_says; [by apply (traverse_visit go); try done; apply Hg|].
  unfold id. by rewrite (walk_prints _ (fun kv => pair_line kv.1 kv.2)).
Qed.

Lemma dbIteratorExample_says m p : at_map m p ->
  dbIteratorExample mc p = Ret (tt, says (((key_lines (kvs_of p) ++ pair_lines (kvs_of p)) ++
    key_lines (reverse (kvs_of p))) ++ pair_lines (reverse (kvs_of p))) p).
Proof.
  intros Ha. unfold dbIteratorExample. rewrite <- !says_says.
  assert (Hk : forall l, key_lines l = key_line <$> l.*1) by (intros l; unfold key_lines; by rewrite <- list_fmap_compose).
  rewrite !Hk, fmap_reverse, <- kvs_of_keys, <- omap_reverse_list. unfold kvs_of, live_kvs. rewrite <- omap_reverse_list.
  etransitivity; [exact (gbind_Ret _ _ _ _ _ (prints_keys MemoryBTree_Ascend _ m p Ha (in_index_all _) (Ascend_visit _)))|].
  match goal with |- gbind _ _ ?q = _ => set (p1 := q) end. assert (Ha1 : at_map m p1) by by apply says_at.
  etransitivity; [exact (gbind_Ret _ _ _ _ _ (prints_pairs MemoryBTree_Ascend _ _ m _ Ha1 (in_index_all _) (Ascend_visit _)))|].
  match goal with |- gbind _ _ ?q = _ => set (p2 := q) end. assert (Ha2 : at_map m p2) by by apply says_at.
  etransitivity; [exact (gbind_Ret _ _ _ _ _ (prints_keys MemoryBTree_Descend _ m _ Ha2 (in_index_reverse _) (Descend_visit _)))|].
  match goal with |- _ _ _ ?q = _ => set (p3 := q) end. assert (Ha3 : at_map m p3) by by apply says_at.
  exact (prints_pairs MemoryBTree_Descend _ _ m p3 Ha3 (in_index_reverse _) (Descend_visit _)).
Qed.

(** The loop over an iterator prints what the iterator has left. *)
Lemma iterator_loop_says clock opts ord s0 p : wal_ok (db_dataFiles (st_db s0)) (st_fs s0) -> log_extends s0 (pg_store p) ->
  let f := item_shown clock (io_Prefix opts) s0 in
  forall fuel it l, items_ok s0 l -> (length l < fuel)%nat -> iterator_on opts it ord (skip_items f l) (head (skip_items f l) ≫= f) ->
  forall L, exists it', iterator_loop fuel clock it (says L p) = Ret (it', says (L ++ pair_lines (omap f l)) p) /\ iterator_on opts it' ord [] None.
Proof.
  intros Hw Hs f. induction fuel as [|fuel IH]; intros it l Hok Hf Hon L; [lia|].
  cbn [iterator_loop]. rewrite (Iterator_Valid_on _ _ _ _ _ Hon), (Iterator_Item_on _ _ _ _ _ Hon), <- omap_skip_items.
  pose proof (items_ok_skip f _ _ Hok) as Hsub. pose proof (skip_items_length f l) as Hlen.
  destruct (skip_items f l) as [|i l'] eqn:Es.
  { exists it. simpl. by rewrite app_nil_r. }
  destruct (skip_items_head f i l l' Es) as [[k v] Hy]. rewrite bool_decide_eq_true_2 by done. cbn [head mbind option_bind]. rewrite Hy.
  apply Forall_cons in Hsub as [_ Hsub]. simpl in Hlen.
  destruct (Iterator_Next_on clock (S fuel) opts (pg_store p) s0 it ord i l' _ Hw Hs Hsub ltac:(lia) Hon) as (it' & En & Hon').
  destruct (IH it' l' Hsub ltac:(lia) Hon' (L ++ [pair_line k v])) as (it2 & E2 & Hon2). exists it2. split; [|done].
  assert (EL : L ++ pair_lines (omap f (i :: l')) = (L ++ [pair_line k v]) ++ pair_lines (omap f l'))
    by (rewrite omap_cons_eq, Hy; unfold pair_lines; by rewrite <- (assoc_L (++))).
  rewrite EL, <- E2, <- says_says.
  etransitivity; [exact (gbind_Ret (print [pair_line k v]) _ _ _ _ eq_refl)|].
  refine (gbind_Ret _ _ _ it' _ _). unfold on_iterator. cbn [says pg_store]. by rewrite En.
Qed.

(** The index with the mark of a clone. *)
Definition cloned_index mt' p : Prog :=
  MkProg (pg_out p) (pg_ticks p) (pg_rand p) (MkStore (set_index mt' (st_db (pg_store p))) (st_fs (pg_store p))).

Lemma cloned_index_at mt' m p : mt_entries mt' = mt_entries (db_index (st_db (pg_store p))) -> at_map m p ->
  at_map m (cloned_index mt' p) /\ kvs_of (cloned_index mt' p) = kvs_of p.
Proof.
  intros E. assert (Em : mt_map mt' = mt_map (db_index (st_db (pg_store p)))) by (unfold mt_map; by rewrite E).
  assert (Ev : db_view (pg_store (cloned_index mt' p)) = db_view (pg_store p)) by (unfold db_view; simpl; by rewrite Em).
  intros [[[I1 I2 I3 I4 I5] G2 G3 G4 G5 (D1 & D2 & pre & post & bss & fin & hints & D3 & D4)] Hv Hi]. split.
  - split; [|by rewrite Ev|done]. split; [split; try done; simpl; by rewrite Em|done..|].
    split; [done|]. split; [done|]. exists pre, post, bss, fin, hints. split; [done|]. by rewrite Ev.
  - unfold kvs_of, live_kvs. cbn [cloned_index pg_store st_db set_index db_index]. rewrite E. apply list_omap_ext.
    apply Forall2_same_length_lookup_2; [done|]. intros i x y Hx Hy. simplify_eq. unfold shown, live_at, db_rec.
    cbn [cloned_index pg_store st_db st_fs set_index db_index db_dataFiles]. by rewrite Em.
Qed.

Definition plain (opts : IteratorOptions) : Prop := io_Prefix opts = [] /\ io_Reverse opts = false.

Lemma iterator_example_says opts complaint m p : plain opts -> at_map m p -> 
  exists it mt' ord, iterator_example mc opts complaint p = Ret (it, says (pair_lines (kvs_of p)) (cloned_index mt' p)) /\
    mt_entries mt' = mt_entries (db_index (st_db (pg_store p))) /\ iterator_on opts it ord [] None.
Proof.
  intros [Hpre Hrev] Ha. pose proof Ha as [[Hi _ _ _ _ _] _ _]. unfold iterator_example.
  set (clock := fun _ : bytes => mc_clock mc (pg_ticks p)). set (s := pg_store p) in *.
  set (fuel := S (Z.to_nat (MemoryBTree_Size (db_index (st_db s))))).
  assert (Hf : (length (mt_entries (db_index (st_db s))) < fuel)%nat).
  { unfold fuel, MemoryBTree_Size. rewrite bt_Len_spec. unfold mt_entries, len. rewrite length_fmap. lia. }
  destruct (DB_NewIterator_on clock fuel opts s Hi Hf) as (it0 & mt' & E0 & Et & Hok & Hlen & Hon0).
  destruct (cloned_index_at mt' m p Et Ha) as [Ha1 Ek1].
  assert (Ex : log_extends s (pg_store (cloned_index mt' p))) by exact (log_extends_refl s (di_wal s Hi)).
  destruct (Iterator_Rewind_on clock fuel opts _ s it0 _ _ _ (di_wal s Hi) Ex Hok Hlen Hon0) as (it1 & E1 & Hon1).
  destruct (iterator_loop_says clock opts _ s (cloned_index mt' p) (di_wal s Hi) Ex fuel it1 _ Hok Hlen Hon1 []) as (it2 & E2 & Hon2).
  exists it2, mt', (iter_order (mt_tree (db_index (st_db s))) (io_Reverse opts)). split; [|done].
  assert (Ec : call mc 0 (fun _ => DB_NewIterator fuel clock opts) p = Ret (it0, cloned_index mt' p)).
  { unfold call. fold s. rewrite E0. cbn [mbind outcome_bind]. unfold cloned_index. by rewrite Nat.add_0_r. }
  rewrite (gbind_Ret _ _ _ _ _ Ec).
  assert (Er : on_iterator (fun s => Iterator_Rewind fuel clock s it0) (cloned_index mt' p) = Ret (it1, cloned_index mt' p))
    by (unfold on_iterator; by rewrite E1).
  rewrite (gbind_Ret _ _ _ _ _ Er). rewrite says_nothing in E2. rewrite (gbind_Ret _ _ _ _ _ E2).
  destruct Hon2 as (ii & -> & _). cbn [Iterator_Err it_lastError app].
  etransitivity; [exact (gbind_Ret (print []) _ _ _ _ eq_refl)|].
  rewrite omap_item_order, Hrev, filter_all by (intros; unfold has_prefix; by rewrite Hpre).
  exact (f_equal (fun q => Ret (_, q)) (says_nothing _)).
Qed.

Lemma says_cloned L mt' p : cloned_index mt' (says L p) = says L (cloned_index mt' p).
Proof. done. Qed.

Lemma customIteratorExample_says m p : at_map m p ->
  exists mt', customIteratorExample mc p = Ret (tt, says (pair_lines (kvs_of p) ++ pair_lines (kvs_of p)) (cloned_index mt' p)) /\
    mt_entries mt' = mt_entries (db_index (st_db (pg_store p))).
Proof.
  intros Ha. unfold customIteratorExample.
  destruct (iterator_example_says (MkIteratorOptions [] false true) ($"Iterator encountered errors but continued: ") m p
    (conj eq_refl eq_refl) Ha) as (it1 & mt1 & ord1 & E1 & Et1 & H1).
  destruct (cloned_index_at mt1 m p Et1 Ha) as [Ha1 Ek1]. set (p1 := says (pair_lines (kvs_of p)) (cloned_index mt1 p)) in *.
  assert (Hp1 : at_map m p1) by by apply says_at.
  destruct (iterator_example_says (MkIteratorOptions [] false false) ($"Iterator stopped due to error: ") m p1
    (conj eq_refl eq_refl) Hp1) as (it2 & mt2 & ord2 & E2 & Et2 & H2).
  change (kvs_of p1) with (kvs_of (cloned_index mt1 p)) in E2. rewrite Ek1 in E2. unfold p1 in E2. rewrite says_cloned, says_says in E2.
  destruct (Iterator_Close_on _ _ _ _ _ H1) as (it1' & C1), (Iterator_Close_on _ _ _ _ _ H2) as (it2' & C2).
  exists mt2. split; [|by rewrite Et2].
  etransitivity; [exact (gbind_Ret _ _ _ _ _ E1)|]. etransitivity; [exact (gbind_Ret _ _ _ _ _ E2)|].
  unfold gbind, on_iterator. rewrite C2, C1. done.
Qed.

(** What [examples/iterate] prints of the pairs, in the order of their keys. *)
Definition iterate_lines (l : list (bytes * bytes)) : list line :=
  key_lines l ++ pair_lines l ++ key_lines (reverse l) ++ pair_lines (reverse l) ++ pair_lines l ++ pair_lines l.

Lemma pairs_map_lookup k x : pairs_map sample_pairs ∅ !! k = Some x <-> x.2 = 0 /\ (k, x.1) ∈ ordered_pairs.
Proof.
  assert (E : pairs_map sample_pairs ∅ = list_to_map (reverse ((fun kv : bytes * bytes => (kv.1, (kv.2, 0))) <$> sample_pairs))) by reflexivity.
  rewrite E, <- elem_of_list_to_map by (apply (bool_decide_unpack _); vm_compute; exact I).
  rewrite elem_of_reverse, list_elem_of_fmap. destruct x as [v e]. cbn [fst snd].
  assert (Hin : (k, v) ∈ sample_pairs <-> (k, v) ∈ ordered_pairs) by (unfold sample_pairs, ordered_pairs; rewrite !elem_of_cons; tauto).
  rewrite <- Hin. split.
  - intros ([k' v'] & E1 & H). cbn [fst snd] in E1. assert (k = k' /\ v = v' /\ e = 0) as (-> & -> & ->) by (split_and!; congruence). by split.
  - intros [-> H]. by exists (k, v).
Qed.

Lemma kvs_of_samples p : at_map (pairs_map sample_pairs ∅) p -> kvs_of p = ordered_pairs.
Proof.
  intros [_ Hv _]. apply sorted_pairs_unique; [apply StronglySorted_keys, live_kvs_sorted|by repeat constructor|].
  intros [k v]. unfold kvs_of. rewrite live_kvs_elem. rewrite Hv. setoid_rewrite live_lookup. split.
  - intros [e He]. destruct (pairs_map _ _ !! k) as [[v' e']|] eqn:E; [|done]. apply pairs_map_lookup in E as [_ E].
    simpl in *. by case_match; simplify_eq.
  - intros H. exists 0. by rewrite (proj2 (pairs_map_lookup k (v, 0)) (conj eq_refl H)).
Qed.

Lemma iterate_body_prints p : at_map ∅ p -> pg_out p = [] ->
  (exists q, iterate_body mc p = Ret (Finished, q) /\ pg_out q = iterate_lines ordered_pairs /\
     closable (db_options (st_db (pg_store p))) (pg_store q)) \/
  (exists l1 k v l2 p1 e q, sample_pairs = l1 ++ (k, v) :: l2 /\ put_pairs mc l1 p = Ret (tt, p1) /\ ex_Put mc k v p1 = Ret (Some e, q) /\ log_refused e p1 q).
Proof.
  intros Ha Hout. destruct (put_pairs_at sample_pairs ∅ p ltac:(by repeat constructor) Ha) as [(n & p1 & E1 & Ha1 & G1)|H]; [left|by right].
  pose proof (kvs_of_samples p1 Ha1) as Ek. pose proof (dbIteratorExample_says _ p1 Ha1) as E2. rewrite Ek in E2.
  match type of E2 with _ = Ret (tt, ?q) => set (p2 := q) in * end. assert (Ha2 : at_map (pairs_map sample_pairs ∅) p2) by by apply says_at.
  destruct (customIteratorExample_says _ p2 Ha2) as (mt' & E3 & Et). rewrite (kvs_of_samples p2 Ha2) in E3.
  match type of E3 with _ = Ret (tt, ?q) => exists q end. split; [|split].
  - unfold iterate_body. rewrite (gbind_Ret _ _ _ _ _ E1). etransitivity; [exact (gbind_Ret _ _ _ _ _ E2)|].
    exact (gbind_Ret _ _ _ _ _ E3).
  - unfold p2, says, iterate_lines. cbn [cloned_index pg_out]. destruct G1 as (-> & _). rewrite Hout. by rewrite <- !(assoc_L (++)).
  - rewrite <- (goes_on_options _ _ _ G1). 
    exact (at_map_closable _ _ (says_at _ _ _ (proj1 (cloned_index_at mt' _ p2 Et Ha2)))).
Qed.

(** C19: [examples/iterate] prints the pairs it put in the order of their keys, and
    against it, through the traversals and through the iterators. *)
Theorem iterate_prints_in_order r fs : fresh iterate_options fs ->
  (exists e fs', iterate_main mc r fs = Ret (Panicked e, [], fs') /\ open_error fs e) \/
  (exists db fs' l1 k v l2 p1 e q, open_example iterate_options fs = Ret (inr db, fs') /\ sample_pairs = l1 ++ (k, v) :: l2 /\
     put_pairs mc l1 (MkProg [] 1 r (MkStore db fs')) = Ret (tt, p1) /\ ex_Put mc k v p1 = Ret (Some e, q) /\ log_refused e p1 q) \/
  (exists fs', iterate_main mc r fs = Ret (Finished, iterate_lines ordered_pairs, fs')).
Proof.
  intros Hf. assert (Hl : example_like iterate_options) by example_like. unfold iterate_main. fold iterate_options.
  destruct (with_db_fresh iterate_options r (iterate_body mc) fs Hl ltac:(done) Hf) as [H|(db & fs' & E & Eo & Ha & Hend)]; [by left|right].
  destruct (iterate_body_prints _ Ha eq_refl) as [(q & Eq & Hout & Hcl)|(l1 & k & v & l2 & p1 & e & q & H)]; [right|left].
  - cbn [pg_store st_db] in Hcl. rewrite Eo in Hcl. destruct (Hend Finished q Eq Hcl) as (fs2 & ->). exists fs2. by rewrite Hout.
  - by exists db, fs', l1, k, v, l2, p1, e, q.
Qed.
(** ** [examples/watch]

    The calls of its loops, from the reading [t] of the clock on. *)
Fixpoint put_calls (t : nat) (i : Z) (vs : list bytes) : list dop :=
  match vs with
  | [] => []
  | v :: vs => DPut (mc_clock mc (t + 0)) (mc_clock mc (t + 1)) (GetTestKey i) v :: put_calls (t + 2) (i + 1) vs
  end.

Fixpoint delete_calls (t : nat) (i : Z) (n : nat) : list dop :=
  match n with
  | O => []
  | S n => DDelete (mc_clock mc (t + 0)) (mc_clock mc (t + 1)) (GetTestKey i) :: delete_calls (t + 2) (i + 1) n
  end.

(** The calls of the main goroutine, with the values drawn. *)
Definition watch_calls (t : nat) (vs : list bytes) : list dop := put_calls t 0 vs ++ delete_calls (t + 2 * length vs) 0 5.

Lemma put_loop_calls len_ n i p q : for_loop n i (put_test_key mc len_) p = Ret (tt, q) ->
  exists vs xs, length vs = n /\ pg_ticks q = (pg_ticks p + 2 * n)%nat /\
    dops_run (put_calls (pg_ticks p) i vs) (pg_store p) = Ret (xs, pg_store q).
Proof.
  revert i p. induction n as [|n IH]; intros i p; cbn [for_loop].
  { intros [= <-]. exists [], []. split_and!; [done|lia|done]. }
  unfold gbind at 1. unfold put_test_key at 1, draw, ex_Put, call, gbind at 1 2.
  destruct (RandomValue len_ (pg_rand p)) as [[v r]| |]; cbn [mbind outcome_bind]; [|done..]. cbn [pg_ticks pg_store].
  destruct (DB_Put _ _ _ _ _) as [[res s]| |] eqn:E; cbn [mbind outcome_bind]; [|done..]. intros H.
  destruct (IH _ _ H) as (vs & xs & Hl & Ht & Hr). cbn [pg_ticks pg_store] in *. exists (v :: vs), (ResErr res :: xs).
  split; [by rewrite <- Hl|]. split; [lia|]. cbn [put_calls dops_run dop_run]. unfold gbind at 1.
  rewrite (as_res_eq _ _ _ _ _ E). unfold gbind. by rewrite Hr.
Qed.

Lemma delete_loop_calls n i p q : for_loop n i (delete_test_key mc) p = Ret (tt, q) ->
  exists xs, pg_ticks q = (pg_ticks p + 2 * n)%nat /\ dops_run (delete_calls (pg_ticks p) i n) (pg_store p) = Ret (xs, pg_store q).
Proof.
  revert i p. induction n as [|n IH]; intros i p; cbn [for_loop].
  { intros [= <-]. exists []. split; [lia|done]. }
  unfold gbind at 1. unfold delete_test_key at 1, ex_Delete, call, gbind at 1.
  destruct (DB_Delete _ _ _ _) as [[res s]| |] eqn:E; cbn [mbind outcome_bind]; [|done..]. intros H.
  destruct (IH _ _ H) as (xs & Ht & Hr). cbn [pg_ticks pg_store] in *. exists (ResErr res :: xs).
  split; [lia|]. cbn [delete_calls dops_run dop_run]. unfold gbind at 1.
  rewrite (as_res_eq _ _ _ _ _ E). unfold gbind. by rewrite Hr.
Qed.

(** The body makes these calls. *)
Lemma watch_body_calls p x q : watch_body mc p = Ret (x, q) ->
  exists vs xs, length vs = 10%nat /\ dops_run (watch_calls (pg_ticks p) vs) (pg_store p) = Ret (xs, pg_store q).
Proof.
  unfold watch_body, gbind. destruct (for_loop 10 0 _ p) as [[[] p1]| |] eqn:E1; [|done..].
  change (Z.to_nat (10 / 2)) with 5%nat.
  destruct (for_loop _ 0 _ p1) as [[[] p2]| |] eqn:E2; [|done..]. intros [= <- <-].
  destruct (put_loop_calls _ _ _ _ _ E1) as (vs & xs & Hl & Ht & Hr). destruct (delete_loop_calls _ _ _ _ E2) as (ys & _ & Hd).
  exists vs, (xs ++ ys). split; [done|]. rewrite Ht in Hd.
  unfold watch_calls. rewrite Hl, (dops_run_app _ _ _ _ _ Hr). by rewrite (gbind_Ret _ _ _ _ _ Hd).
Qed.

Definition watch_line (k : bytes) : line := Stdout ($"Get a new event: key" ++ k ++ $" ").
Definition test_keys (n : nat) : list bytes := GetTestKey <$> seqZ 0 (Z.of_nat n).

Lemma put_calls_keys t i vs m : (snd ∘ fst) <$> dops_notices (put_calls t i vs) m = GetTestKey <$> seqZ i (len vs).
Proof.
  revert t i m. induction vs as [|v vs IH]; intros t i m; [done|]. cbn [put_calls dops_notices dop_notices app].
  rewrite fmap_cons, IH. unfold len. rewrite length_cons, (seqZ_cons i) by lia. rewrite fmap_cons. do 3 f_equal; lia.
Qed.

Lemma delete_calls_keys t i n m : (snd ∘ fst) <$> dops_notices (delete_calls t i n) m = GetTestKey <$> seqZ i (Z.of_nat n).
Proof.
  revert t i m. induction n as [|n IH]; intros t i m; [done|]. cbn [delete_calls dops_notices dop_notices app].
  rewrite fmap_cons, IH, (seqZ_cons i (Z.of_nat (S n))) by lia. rewrite fmap_cons. do 3 f_equal; lia.
Qed.

Lemma watch_lines_events (evs : list Event) : watch_lines (Some <$> evs) = watch_line <$> (e_Key <$> evs).
Proof. induction evs as [|e evs IH]; [done|]. cbn [fmap list_fmap watch_lines]. f_equal. exact IH. Qed.

Lemma watch_calls_times T t vs : T <= mc_clock mc t -> times_ok T (watch_calls t vs).
Proof.
  assert (Hstep : forall T j, T <= mc_clock mc j -> T <= mc_clock mc (j + 1) /\ mc_clock mc (j + 1) <= mc_clock mc (j + 2)).
  { intros T' j Hj. pose proof (clock_mono j (j + 1) ltac:(lia)). pose proof (clock_mono (j + 1) (j + 2) ltac:(lia)). lia. }
  assert (Hd : forall n i j T, T <= mc_clock mc j -> times_ok T (delete_calls j i n)).
  { induction n as [|n IH]; intros i j T' Hj; [done|]. cbn [delete_calls times_ok dop_times fst snd].
    destruct (Hstep T' j Hj) as [H1 H2]. split; [lia|]. by apply IH. }
  unfold watch_calls. generalize 0 at 1 as i. revert t T. induction vs as [|v vs IH]; intros t T i Ht.
  { apply Hd. cbn [length]. by replace (t + 2 * 0)%nat with t by lia. }
  cbn [put_calls app times_ok dop_times fst snd]. destruct (Hstep T t Ht) as [H1 H2]. split; [lia|].
  cbn [length]. replace (t + 2 * S (length vs))%nat with ((t + 2) + 2 * length vs)%nat by lia. by apply IH.
Qed.

Lemma watch_calls_ok t vs : length vs = 10%nat -> Forall (fun v => len v < 2 ^ 31) vs -> Forall dop_ok (watch_calls t vs).
Proof.
  intros Hl Hvs. do 10 (destruct vs as [|? vs]; [discriminate Hl|]). destruct vs; [|discriminate Hl].
  assert (Hk : forall i v, len v < 2 ^ 31 -> i ∈ [0; 1; 2; 3; 4; 5; 6; 7; 8; 9] -> kv_ok (GetTestKey i) v 0).
  { intros i v Hv Hi. assert (Hlen : len (GetTestKey i) = 25).
    { revert i Hi. apply Forall_forall. apply (bool_decide_unpack _). vm_compute. exact I. }
    split; [done|]. rewrite Hlen. split; [|lia]. change (maxLogRecordHeaderSize + 25) with 56. lia. }
  unfold watch_calls. apply Forall_app. repeat (apply Forall_cons in Hvs as [? Hvs]).
  split; repeat (constructor; [apply Hk; [done|set_solver]|]); constructor.
Qed.

(** Every write is accepted by the map. *)
Definition accepted (o : dop) : Prop := forall m, (dop_spec o m).1 = ResErr None.

Lemma accepted_answers ops m : Forall accepted ops -> (dops_spec ops m).1 = replicate (length ops) (ResErr None).
Proof.
  intros H. revert m. induction H as [|o ops Ho _ IH]; intros m; [done|]. cbn [dops_spec length replicate].
  specialize (Ho m). destruct (dop_spec o m) as [x m1]. specialize (IH m1). destruct (dops_spec ops m1). simpl in *. by rewrite Ho, IH.
Qed.

Lemma watch_calls_accepted t vs : Forall accepted (watch_calls t vs).
Proof.
  assert (Hp : forall vs t i, Forall accepted (put_calls t i vs)) by (clear; intros vs; induction vs; constructor; done).
  assert (Hd : forall n t i, Forall accepted (delete_calls t i n)) by (clear; intros n; induction n; constructor; done).
  apply Forall_app. split; [apply Hp|apply Hd].
Qed.

Lemma sys_reach_length s ops xs σ : sys_reach s ops xs σ -> length xs = length ops.
Proof. induction 1; [done| |done]. rewrite !length_app. simpl. lia. Qed.

Definition watch_options : Options := example_options mc ($"C:\rosedb_watch") ($"/tmp/rosedb_watch") 1000.
Definition watch_all : list line := watch_line <$> test_keys 10 ++ test_keys 5.

Lemma watch_delivers_lines T s m t vs xs σ :
  db_good T s -> live_eq T (db_view s) m -> watching 1000 s -> length vs = 10%nat -> Forall (fun v => len v < 2 ^ 31) vs ->
  T <= mc_clock mc t -> sys_reach s (watch_calls t vs) xs σ -> Forall (fun x => x = ResErr None) xs ->
  exists w, db_watcher (st_db (y_store σ)) = Some w /\
    (w_done w = false -> watch_lines (Some <$> y_received σ) `prefix_of` watch_all /\
       exists σ', rtc goroutine_step σ σ' /\ watch_lines (Some <$> y_received σ') = watch_all).
Proof.
  intros Hg Hv Hw Hl Hvs Ht Hr Hxs.
  destruct (sys_reach_watched T 1000 s m (watch_calls t vs) xs σ Hg Hv Hw Hr) as (evs & w & Hwa).
  - by apply watch_calls_times.
  - by apply watch_calls_ok.
  - rewrite (accepted_answers _ _ (watch_calls_accepted t vs)), <- (sys_reach_length _ _ _ _ Hr). clear -Hxs.
    induction Hxs as [|x xs -> _ IH]; [done|]. simpl. by rewrite <- IH.
  - pose proof Hwa as [_ _ _ Hdb _ Hn]. exists w. split; [done|]. intros Hd.
    assert (Hk : e_Key <$> evs = test_keys 10 ++ test_keys 5).
    { transitivity ((snd ∘ fst) <$> (event_notice <$> evs)); [by rewrite <- list_fmap_compose|]. rewrite Hn. unfold watch_calls.
      rewrite dops_notices_app, fmap_app, put_calls_keys, delete_calls_keys. unfold len. by rewrite Hl. }
    assert (Hlen : len evs <= 1000 - 2) by (apply (f_equal length) in Hk; rewrite length_fmap in Hk; unfold len; rewrite Hk; vm_compute; discriminate).
    destruct (watch_delivers _ _ 1000 evs _ σ w (proj1 Hw) Hwa Hd Hlen) as ([l Hpre] & σ' & Hsteps & Hrec). unfold watch_all. split.
    + rewrite watch_lines_events, <- Hk, Hpre, !fmap_app. by apply prefix_app_r.
    + exists σ'. split; [done|]. by rewrite Hrec, watch_lines_events, Hk.
Qed.

(** The lines of [examples/watch].  Its main goroutine makes ten puts and five
    deletions; whatever of it and of the watching goroutine runs first, what
    is printed are the keys put and deleted, in order, and all of them are while
    the database stays open. *)
Theorem watch_prints_in_order (r : rand_state) fs : fresh watch_options fs ->
  (exists e fs', open_example watch_options fs = Ret (inl e, fs') /\ open_error fs e) \/
  (exists db fs', open_example watch_options fs = Ret (inr db, fs') /\
     (forall x q, watch_body mc (MkProg [] 1 r (MkStore db fs')) = Ret (x, q) ->
        exists vs xs, length vs = 10%nat /\ dops_run (watch_calls 1 vs) (MkStore db fs') = Ret (xs, pg_store q)) /\
     forall vs xs σ, length vs = 10%nat -> Forall (fun v => len v < 2 ^ 31) vs ->
       sys_reach (MkStore db fs') (watch_calls 1 vs) xs σ -> Forall (fun x => x = ResErr None) xs ->
       exists w, db_watcher (st_db (y_store σ)) = Some w /\
         (w_done w = false -> watch_lines (Some <$> y_received σ) `prefix_of` watch_all /\
            exists σ', rtc goroutine_step σ σ' /\ watch_lines (Some <$> y_received σ') = watch_all)).
Proof.
  intros Hf. assert (Hl : example_like watch_options) by example_like.
  destruct (open_fresh watch_options fs r Hl Hf) as [H|(db & fs' & E & Eo & Ha & Ew)]; [by left|right].
  exists db, fs'. split; [done|]. split; [exact (watch_body_calls (MkProg [] 1 r (MkStore db fs')))|]. intros vs xs σ Hvl Hvs Hr Hxs. destruct Ha as [Hg Hv _].
  refine (watch_delivers_lines _ _ ∅ 1 vs xs σ Hg Hv _ Hvl Hvs _ Hr Hxs); [|done].
  split; [lia|]. cbn [st_db pg_store]. by rewrite Ew, Eo.
Qed.
End examples.

(** ** A run

    On the model of the log and of the tree, with a clock that goes on at each
    reading. *)
#[local] Instance ConstRand : Rand := { rand_state := unit; rand_Intn _ r := (0, r); rand_Int63 r := (0, r) }.
#[local] Instance AnyRegexp : Regexp := { regexp_Compile _ := inr (fun _ => true) }.

Definition sample_machine : Machine :=
  MkMachine ($"linux") (fun i => 5 + Z.of_nat i) (inr true) None 100 no_cron no_cron.

Lemma sample_machine_ok : machine_ok sample_machine.
Proof. split; [intros i; cbn; lia|reflexivity|reflexivity|cbn; lia]. Qed.

Lemma sample_fresh : fresh (iterate_options sample_machine) fs_empty.
Proof. split; [vm_compute; reflexivity|apply empty_disk_rep]. Qed.

Definition iterate_out : option (list line) :=
  match iterate_main sample_machine tt fs_empty with Ret (Finished, out, _) => Some out | _ => None end.

Lemma iterate_out_lines : iterate_out = Some (iterate_lines ordered_pairs).
Proof. vm_compute. reflexivity. Qed.

Lemma iterate_prints_in_order_witness : fresh (iterate_options sample_machine) fs_empty /\
  exists fs', iterate_main sample_machine tt fs_empty = Ret (Finished, iterate_lines ordered_pairs, fs').
Proof.
  split; [exact sample_fresh|]. pose proof iterate_out_lines as Hout. unfold iterate_out in Hout.
  destruct (iterate_prints_in_order (R := ConstRand) sample_machine sample_machine_ok tt fs_empty sample_fresh) as [(e & fs' & E & _)|[_|H]].
  - rewrite E in Hout. discriminate Hout.
  - destruct (iterate_main (R := ConstRand) sample_machine tt fs_empty) as [[[[|e] out] fs']| |]; try discriminate Hout.
    injection Hout as ->. exists fs'. reflexivity.
  - exact H.
Defined.
