(* ===== verification/Json.v ===== *)
(** * JSON

    What the server and the proxy use of [encoding/json] and [encoding/base64]:
    the text of strings, the parser of JSON values, and how a value is read into
    a string, a byte slice, a slice of strings or a number. *)
From S2P Require Import Prelude Strs.
From stdpp Require Import pretty.
Open Scope Z_scope.

(** ** [base64.StdEncoding] *)
Definition base64_char (z : Z) : byte :=
  to_byte (if z <? 26 then 65 + z else if z <? 52 then 71 + z else if z <? 62 then z - 4
           else if z =? 62 then 43 else 47).

Definition base64_value (c : byte) : option Z :=
  if in_range x41 x5a c then Some (byte_val c - 65)
  else if in_range x61 x7a c then Some (byte_val c - 71)
  else if in_range x30 x39 c then Some (byte_val c + 4)
  else if decide (c = x2b) then Some 62
  else if decide (c = x2f) then Some 63
  else None.

Fixpoint base64_encode (s : bytes) : bytes :=
  match s with
  | [] => []
  | [a] =>
      let x := byte_val a in
      [base64_char (x / 4); base64_char (x mod 4 * 16); x3d; x3d]
  | [a; b] =>
      let x := byte_val a in let y := byte_val b in
      [base64_char (x / 4); base64_char (x mod 4 * 16 + y / 16); base64_char (y mod 16 * 4); x3d]
  | a :: b :: c :: s =>
      let x := byte_val a in let y := byte_val b in let z := byte_val c in
      base64_char (x / 4) :: base64_char (x mod 4 * 16 + y / 16)
        :: base64_char (y mod 16 * 4 + z / 64) :: base64_char (z mod 64) :: base64_encode s
  end.

(** The last quantum may be padded; the bits left over are ignored. *)
Fixpoint base64_quanta (s : bytes) : option bytes :=
  match s with
  | [] => Some []
  | a :: b :: c :: d :: s =>
      x ← base64_value a;
      y ← base64_value b;
      if decide (c = x3d) then
        if decide (d = x3d /\ s = []) then Some [to_byte (x * 4 + y / 16)] else None
      else
        z ← base64_value c;
        if decide (d = x3d) then
          if decide (s = []) then Some [to_byte (x * 4 + y / 16); to_byte (y * 16 + z / 4)] else None
        else
          w ← base64_value d;
          rest ← base64_quanta s;
          Some (to_byte (x * 4 + y / 16) :: to_byte (y * 16 + z / 4) :: to_byte (z * 64 + w) :: rest)
  | _ => None
  end.

(** Line ends are skipped. *)
Definition base64_decode (s : bytes) : option bytes :=
  base64_quanta (filter (fun c => c ∉ [x0a; x0d]) s).

(** ** UTF-8 *)

(** The bytes of the rune at the front, if they are valid. *)
Definition utf8_rune (s : bytes) : option (bytes * bytes) :=
  let cont := in_range x80 xbf in
  match s with
  | a :: s1 =>
      if byte_val a <? 128 then Some ([a], s1) else
      match s1 with
      | b :: s2 =>
          if in_range xc2 xdf a && cont b then Some ([a; b], s2) else
          match s2 with
          | c :: s3 =>
              if (bool_decide (a = xe0) && in_range xa0 xbf b || bool_decide (a = xed) && in_range x80 x9f b
                  || (in_range xe1 xec a || in_range xee xef a) && cont b) && cont c
              then Some ([a; b; c], s3) else
              match s3 with
              | d :: s4 =>
                  if (bool_decide (a = xf0) && in_range x90 xbf b || bool_decide (a = xf4) && in_range x80 x8f b
                      || in_range xf1 xf3 a && cont b) && cont c && cont d
                  then Some ([a; b; c; d], s4) else None
              | [] => None
              end
          | [] => None
          end
      | [] => None
      end
  | [] => None
  end.

(** The code point of a rune below the surrogates and its UTF-8. *)
Definition utf8_encode (r : Z) : bytes :=
  if r <? 128 then [to_byte r]
  else if r <? 2048 then [to_byte (192 + r / 64); to_byte (128 + r mod 64)]
  else if r <? 65536 then [to_byte (224 + r / 4096); to_byte (128 + r / 64 mod 64); to_byte (128 + r mod 64)]
  else [to_byte (240 + r / 262144); to_byte (128 + r / 4096 mod 64); to_byte (128 + r / 64 mod 64);
        to_byte (128 + r mod 64)].

(** [utf8.RuneError], U+FFFD. *)
Definition rune_error : bytes := [xef; xbf; xbd].

(** ** Writing strings *)
Definition hex_digit (z : Z) : byte := to_byte (if z <? 10 then 48 + z else 87 + z).

Definition json_escape_byte (c : byte) : bytes :=
  if bool_decide (c ∈ [x22; x5c]) then [x5c; c]
  else if decide (c = x0a) then $"\n"
  else if decide (c = x0d) then $"\r"
  else if decide (c = x09) then $"\t"
  else if (byte_val c <? 32) || bool_decide (c ∈ [x3c; x3e; x26])
  then $"\u00" ++ [hex_digit (byte_val c / 16); hex_digit (byte_val c mod 16)]
  else [c].

(** The rune of a string as JSON text: invalid bytes become U+FFFD. *)
Fixpoint json_chars (fuel : nat) (s : bytes) : bytes :=
  match fuel with
  | O => []
  | S fuel =>
      match s with
      | [] => []
      | c :: s' =>
          if byte_val c <? 128 then json_escape_byte c ++ json_chars fuel s' else
          match utf8_rune s with
          | None => $"\ufffd" ++ json_chars fuel s'
          | Some (r, rest) =>
              (if decide (r = [xe2; x80; xa8]) then $"\u2028"
               else if decide (r = [xe2; x80; xa9]) then $"\u2029" else r) ++ json_chars fuel rest
          end
      end
  end.

Definition json_string (s : bytes) : bytes := x22 :: json_chars (length s) s ++ [x22].

(** ** Reading values *)
#[warnings="-automatic-prop-lowering"]
Inductive json : Type :=
| JNull
| JBool (b : bool)
| JNum (literal : bytes)
| JStr (s : bytes)
| JArr (l : list json)
| JObj (l : list (bytes * json)).

Definition json_space (c : byte) : bool := bool_decide (c ∈ [x20; x09; x0a; x0d]).
Definition skip_space (s : bytes) : bytes := drop_while json_space s.

(** Four hexadecimal digits. *)
Definition hex4 (s : bytes) : option (Z * bytes) :=
  match s with
  | a :: b :: c :: d :: s =>
      w ← unhex a; x ← unhex b; y ← unhex c; z ← unhex d;
      Some (w * 4096 + x * 256 + y * 16 + z, s)
  | _ => None
  end.

Definition surrogate (r : Z) : bool := (55296 <=? r) && (r <? 57344).

(** The second half of a surrogate pair. *)
Definition low_half (s : bytes) : option (Z * bytes) :=
  match cut_prefix ($"\u") s ≫= hex4 with
  | Some (r, s) => if (56320 <=? r) && (r <? 57344) then Some (r, s) else None
  | None => None
  end.

(** The text after [\u]. *)
Definition unicode_escape (s : bytes) : option (bytes * bytes) :=
  '(r, s) ← hex4 s;
  if surrogate r then
    match (if r <? 56320 then low_half s else None) with
    | Some (r', s) => Some (utf8_encode ((r - 55296) * 1024 + (r' - 56320) + 65536), s)
    | None => Some (rune_error, s)
    end
  else Some (utf8_encode r, s).

Definition simple_escape (c : byte) : option byte :=
  if bool_decide (c ∈ [x22; x5c; x2f]) then Some c
  else if decide (c = x62) then Some x08
  else if decide (c = x66) then Some x0c
  else if decide (c = x6e) then Some x0a
  else if decide (c = x72) then Some x0d
  else if decide (c = x74) then Some x09
  else None.

(** A string after its opening quote. *)
Fixpoint parse_string (fuel : nat) (s : bytes) : option (bytes * bytes) :=
  match fuel with
  | O => None
  | S fuel =>
      match s with
      | [] => None
      | c :: s' =>
          if decide (c = x22) then Some ([], s')
          else if decide (c = x5c) then
            match s' with
            | [] => None
            | e :: s' =>
                if decide (e = x75) then
                  '(r, s') ← unicode_escape s';
                  '(t, rest) ← parse_string fuel s';
                  Some (r ++ t, rest)
                else
                  c ← simple_escape e;
                  '(t, rest) ← parse_string fuel s';
                  Some (c :: t, rest)
            end
          else if byte_val c <? 32 then None
          else
            match utf8_rune s with
            | Some (r, s') => '(t, rest) ← parse_string fuel s'; Some (r ++ t, rest)
            | None => '(t, rest) ← parse_string fuel s'; Some (rune_error ++ t, rest)
            end
      end
  end.

(** Digits, at least one. *)
Fixpoint take_digits (s : bytes) : bytes * bytes :=
  match s with
  | c :: s' => if is_digit c then let '(d, rest) := take_digits s' in (c :: d, rest) else ([], s)
  | [] => ([], [])
  end.

Definition digits1 (s : bytes) : option (bytes * bytes) :=
  match take_digits s with ([], _) => None | r => Some r end.

(** A number: sign, integer part, fraction, exponent. *)
Definition parse_number (s : bytes) : option (bytes * bytes) :=
  let '(sign, s) := match cut_prefix [x2d] s with Some s' => ([x2d], s') | None => ([], s) end in
  '(int, s) ← match cut_prefix [x30] s with Some s' => Some ([x30], s') | None => digits1 s end;
  '(frac, s) ← match cut_prefix [x2e] s with
               | Some s' => '(d, r) ← digits1 s'; Some (x2e :: d, r)
               | None => Some ([], s)
               end;
  '(exp, s) ← match s with
              | c :: s' =>
                  if bool_decide (c ∈ [x65; x45]) then
                    let '(sg, s') := match s' with
                                     | d :: s'' => if bool_decide (d ∈ [x2b; x2d]) then ([d], s'') else ([], s')
                                     | [] => ([], s')
                                     end in
                    '(d, r) ← digits1 s'; Some (c :: sg ++ d, r)
                  else Some ([], s)
              | [] => Some ([], s)
              end;
  Some (sign ++ int ++ frac ++ exp, s).

(** Values nest at most ten thousand deep. *)
Definition maxNestingDepth : Z := 10000.

Fixpoint parse_value (fuel : nat) (depth : Z) (s : bytes) : option (json * bytes) :=
  match fuel with
  | O => None
  | S fuel =>
      match skip_space s with
      | [] => None
      | c :: s' =>
          if decide (c = x22) then '(t, rest) ← parse_string (S (length s')) s'; Some (JStr t, rest)
          else if decide (c = x7b) then
            if maxNestingDepth <=? depth then None else
            match cut_prefix [x7d] (skip_space s') with
            | Some rest => Some (JObj [], rest)
            | None => '(l, rest) ← parse_members fuel (depth + 1) s'; Some (JObj l, rest)
            end
          else if decide (c = x5b) then
            if maxNestingDepth <=? depth then None else
            match cut_prefix [x5d] (skip_space s') with
            | Some rest => Some (JArr [], rest)
            | None => '(l, rest) ← parse_elements fuel (depth + 1) s'; Some (JArr l, rest)
            end
          else if decide (c = x6e) then rest ← cut_prefix ($"ull") s'; Some (JNull, rest)
          else if decide (c = x74) then rest ← cut_prefix ($"rue") s'; Some (JBool true, rest)
          else if decide (c = x66) then rest ← cut_prefix ($"alse") s'; Some (JBool false, rest)
          else '(t, rest) ← parse_number (c :: s'); Some (JNum t, rest)
      end
  end
with parse_elements (fuel : nat) (depth : Z) (s : bytes) : option (list json * bytes) :=
  match fuel with
  | O => None
  | S fuel =>
      '(v, rest) ← parse_value fuel depth s;
      match cut_prefix [x2c] (skip_space rest) with
      | Some rest => '(l, rest) ← parse_elements fuel depth rest; Some (v :: l, rest)
      | None => rest ← cut_prefix [x5d] (skip_space rest); Some ([v], rest)
      end
  end
with parse_members (fuel : nat) (depth : Z) (s : bytes) : option (list (bytes * json) * bytes) :=
  match fuel with
  | O => None
  | S fuel =>
      s ← cut_prefix [x22] (skip_space s);
      '(key, rest) ← parse_string (S (length s)) s;
      rest ← cut_prefix [x3a] (skip_space rest);
      '(v, rest) ← parse_value fuel depth rest;
      match cut_prefix [x2c] (skip_space rest) with
      | Some rest => '(l, rest) ← parse_members fuel depth rest; Some ((key, v) :: l, rest)
      | None => rest ← cut_prefix [x7d] (skip_space rest); Some ([(key, v)], rest)
      end
  end.

(** Each round reads a byte: the length of the text is fuel enough. *)
Definition json_fuel (s : bytes) : nat := 2 * length s + 2.

(** The text a [json.Decoder] reads first, the rest of the stream ignored. *)
Definition json_Decode (s : bytes) : option json := fst <$> parse_value (json_fuel s) 0 s.

(** The value [json.Unmarshal] reads: nothing but space after it. *)
Definition json_Unmarshal (s : bytes) : option json :=
  '(v, rest) ← parse_value (json_fuel s) 0 s;
  if decide (skip_space rest = []) then Some v else None.

(** ** Reading Go values *)

(** Field names match up to case, the Kelvin sign and the long s included. *)
Fixpoint json_fold_loop (fuel : nat) (s : bytes) : bytes :=
  match fuel, s with
  | S fuel, c :: s' =>
      match cut_prefix [xe2; x84; xaa] s, cut_prefix [xc5; xbf] s with
      | Some s, _ => x6b :: json_fold_loop fuel s
      | _, Some s => x73 :: json_fold_loop fuel s
      | _, _ => lower_byte c :: json_fold_loop fuel s'
      end
  | _, _ => []
  end.
Definition json_fold (s : bytes) : bytes := json_fold_loop (length s) s.

(** A string; [null] leaves the old value. *)
Definition json_to_string (old : bytes) (v : json) : option bytes :=
  match v with JStr s => Some s | JNull => Some old | _ => None end.

Definition digits_value (s : bytes) : Z := fold_left (fun n c => 10 * n + (byte_val c - 48)) s 0.

(** A [uint8]. *)
Definition json_to_uint8 (v : json) : option byte :=
  match v with
  | JNum lit => if forallb is_digit lit && (digits_value lit <=? 255) then Some (to_byte (digits_value lit)) else None
  | JNull => Some x00
  | _ => None
  end.

(** A [[]byte]: base64, or an array of numbers. *)
Definition json_to_bytes (v : json) : option bytes :=
  match v with
  | JStr s => base64_decode s
  | JNull => Some []
  | JArr l => mapM json_to_uint8 l
  | _ => None
  end.

(** A [[]string]. *)
Definition json_to_strings (v : json) : option (list bytes) :=
  match v with
  | JArr l => mapM (json_to_string []) l
  | JNull => Some []
  | _ => None
  end.

(** Does the number fit a [float64]?  Beyond [2^1024 - 2^970] it rounds to
    infinity. *)
Definition json_number_fits (lit : bytes) : bool :=
  let lit := default lit (cut_prefix [x2d] lit) in
  let '(int, s) := take_digits lit in
  let '(frac, s) := match cut_prefix [x2e] s with Some s => take_digits s | None => ([], s) end in
  let e := tail s in
  let e := match cut_prefix [x2d] e with
           | Some d => - digits_value d
           | None => digits_value (default e (cut_prefix [x2b] e))
           end in
  let m := digits_value (int ++ frac) in
  let e := e - len frac in
  let digits := len (drop_while (fun c => bool_decide (c = x30)) (int ++ frac)) in
  if m =? 0 then true
  else if 310 <? digits + e then false
  else if digits + e <? 309 then true
  else if 0 <=? e then m * 10 ^ e <? 2 ^ 1024 - 2 ^ 970
  else m <? (2 ^ 1024 - 2 ^ 970) * 10 ^ (- e).

(** A [float64], kept as its text. *)
Definition json_to_float (old : bytes) (v : json) : option bytes :=
  match v with
  | JNum lit => if json_number_fits lit then Some lit else None
  | JNull => Some old
  | _ => None
  end.

(** A list of strings as [json.Encoder] writes it; a nil slice is [null]. *)
Definition json_strings (l : list bytes) : bytes :=
  match l with
  | [] => $"null"
  | _ => $"[" ++ strings_Join ($",") (json_string <$> l) ++ $"]"
  end.

Example base64_ex : base64_encode ($"hello") = $"aGVsbG8=" /\ base64_decode ($"aGVsbG8=") = Some ($"hello").
Proof. vm_compute. split; reflexivity. Qed.

(** Text with its quotes written as apostrophes. *)
Definition quoted (s : bytes) : bytes := (fun c => if decide (c = x27) then x22 else c) <$> s.

Example json_ex :
  json_Decode (quoted ($" {'a' : [1, -2.5e3, 'x\n\u00e9\ud83d\ude00', null], 'b': {}} tail"))
  = Some (JObj [($"a", JArr [JNum ($"1"); JNum ($"-2.5e3"); JStr ($"x" ++ [x0a; xc3; xa9; xf0; x9f; x98; x80]); JNull]);
                ($"b", JObj [])]).
Proof. vm_compute. reflexivity. Qed.
Example json_strict_ex : json_Unmarshal ($"{} x") = None /\ json_Unmarshal (quoted ($"{'a':1,}")) = None /\ json_Unmarshal ($"01") = None.
Proof. vm_compute. repeat split; reflexivity. Qed.
Example json_string_ex : json_string ($"a<b" ++ [x0a; x01; xff]) = quoted ($"'a\u003cb\n\u0001\ufffd'").
Proof. vm_compute. reflexivity. Qed.

(** * Facts *)

(** ** Base64 *)
Definition base64_reads (z : Z) : bool :=
  bool_decide (base64_value (base64_char z) = Some z) && bool_decide (base64_char z <> x3d) &&
  bool_decide (base64_char z ∉ [x0a; x0d]).

Lemma base64_char_reads z : 0 <= z < 64 ->
  base64_value (base64_char z) = Some z /\ base64_char z <> x3d /\ base64_char z ∉ [x0a; x0d].
Proof.
  intros Hz. assert (H : forallb (fun n : nat => base64_reads (Z.of_nat n)) (seq 0 64) = true) by (vm_compute; reflexivity).
  rewrite forallb_forall in H. specialize (H (Z.to_nat z)). rewrite Z2Nat.id in H by lia.
  unfold base64_reads in H. rewrite !andb_true_iff, !bool_decide_eq_true in H.
  destruct H as [[H1 H2] H3]; [|by split_and!]. apply list_elem_of_In, elem_of_seq. lia.
Qed.

Lemma to_byte_eq z b : z mod 256 = byte_val b -> to_byte z = b.
Proof. intros E. apply byte_val_inj. by rewrite byte_val_to_byte. Qed.

(** Text without line ends is decoded as it is. *)
Definition no_line_end (s : bytes) : Prop := Forall (fun c => c ∉ [x0a; x0d]) s.

Lemma list_ind3 {A} (P : list A -> Prop) :
  P [] -> (forall a, P [a]) -> (forall a b, P [a; b]) ->
  (forall a b c l, P l -> P (a :: b :: c :: l)) -> forall l, P l.
Proof.
  intros H0 H1 H2 H3. fix IH 1. intros [|a [|b [|c l]]]; [exact H0|apply H1|apply H2|apply H3, IH].
Qed.

Lemma base64_quanta_encode s : base64_quanta (base64_encode s) = Some s /\ no_line_end (base64_encode s).
Proof.
  induction s as [|a|a b|a b c s [IH1 IH2]] using list_ind3; [by split; [|constructor]|..].
  - pose proof (byte_val_range a) as Ha. cbn [base64_encode]. cbv zeta.
    destruct (base64_char_reads (byte_val a / 4)) as (A1 & _ & A3); [lia|].
    destruct (base64_char_reads (byte_val a mod 4 * 16)) as (B1 & B2 & B3); [lia|].
    split; [|repeat constructor; [done|done|set_solver..]]. cbn [base64_quanta]. rewrite A1, B1. cbn [mbind option_bind].
    rewrite decide_True by done. do 2 f_equal. apply to_byte_eq. lia.
  - pose proof (byte_val_range a) as Ha. pose proof (byte_val_range b) as Hb. cbn [base64_encode]. cbv zeta.
    destruct (base64_char_reads (byte_val a / 4)) as (A1 & _ & A3); [lia|].
    destruct (base64_char_reads (byte_val a mod 4 * 16 + byte_val b / 16)) as (B1 & B2 & B3); [lia|].
    destruct (base64_char_reads (byte_val b mod 16 * 4)) as (C1 & C2 & C3); [lia|].
    split; [|repeat constructor; [done|done|done|set_solver..]]. cbn [base64_quanta]. rewrite A1, B1. cbn [mbind option_bind].
    rewrite decide_False by done. rewrite C1. cbn [mbind option_bind]. rewrite decide_True by done. rewrite decide_True by done.
    do 2 f_equal; [|f_equal]; apply to_byte_eq; lia.
  - pose proof (byte_val_range a) as Ha. pose proof (byte_val_range b) as Hb. pose proof (byte_val_range c) as Hc.
    cbn [base64_encode]. cbv zeta.
    destruct (base64_char_reads (byte_val a / 4)) as (A1 & _ & A3); [lia|].
    destruct (base64_char_reads (byte_val a mod 4 * 16 + byte_val b / 16)) as (B1 & B2 & B3); [lia|].
    destruct (base64_char_reads (byte_val b mod 16 * 4 + byte_val c / 64)) as (C1 & C2 & C3); [lia|].
    destruct (base64_char_reads (byte_val c mod 64)) as (D1 & D2 & D3); [lia|].
    split; [|repeat constructor; done]. cbn [base64_quanta]. rewrite A1, B1. cbn [mbind option_bind].
    rewrite decide_False by done. rewrite C1. cbn [mbind option_bind]. rewrite decide_False by done. rewrite D1. cbn [mbind option_bind]. rewrite IH1. cbn [mbind option_bind].
    do 2 f_equal; [|f_equal; [|f_equal]]; apply to_byte_eq; lia.
Qed.

Lemma base64_roundtrip s : base64_decode (base64_encode s) = Some s.
Proof.
  destruct (base64_quanta_encode s) as [H1 H2]. unfold base64_decode.
  rewrite filter_all; [done|]. intros c Hc. unfold no_line_end in H2. rewrite Forall_forall in H2. by apply H2.
Qed.

(** ** Strings read back *)
Lemma utf8_rune_app s r s' :
  utf8_rune s = Some (r, s') ->
  s = r ++ s' /\ r <> [] /\ forall t, utf8_rune (r ++ t) = Some (r, t).
Proof.
  unfold utf8_rune. destruct s as [|a s1]; [done|].
  destruct (byte_val a <? 128) eqn:E1; [intros [= <- <-]; split_and!; [done..|intros t; simpl; by rewrite E1]|].
  destruct s1 as [|b s2]; [done|].
  destruct (in_range xc2 xdf a && _) eqn:E2; [intros [= <- <-]; split_and!; [done..|intros t; simpl; by rewrite E1, E2]|].
  destruct s2 as [|c s3]; [done|].
  destruct (_ && in_range x80 xbf c) eqn:E3 at 1.
  { intros [= <- <-]. split_and!; [done..|]. intros t. cbn [app]. by rewrite E1, E2, E3. }
  destruct s3 as [|d s4]; [done|].
  destruct (_ && in_range x80 xbf d) eqn:E4 at 1; [|done].
  intros [= <- <-]. split_and!; [done..|]. intros t. cbn [app]. by rewrite E1, E2, E3, E4.
Qed.

(** Text of valid runes. *)
Fixpoint utf8_valid_loop (fuel : nat) (s : bytes) : bool :=
  match fuel, s with
  | _, [] => true
  | O, _ => false
  | S fuel, _ => match utf8_rune s with Some (_, s) => utf8_valid_loop fuel s | None => false end
  end.
Definition utf8_valid (s : bytes) : bool := utf8_valid_loop (length s) s.

(** What [json_escape_byte] makes of an ASCII character reads as that character. *)
Definition escape_byte_reads (c : byte) : bool :=
  if negb (byte_val c <? 128) then true else
  match json_escape_byte c with
  | [d] => bool_decide (d = c) && negb (bool_decide (d ∈ [x22; x5c])) && negb (byte_val d <? 32)
  | [e; d] => bool_decide (e = x5c) && negb (bool_decide (d = x75)) && bool_decide (simple_escape d = Some c)
  | [e; u; w; x; y; z] =>
      bool_decide (e = x5c) && bool_decide (u = x75) &&
      match hex4 [w; x; y; z] with
      | Some (r, _) => negb (surrogate r) && bool_decide (utf8_encode r = [c])
      | None => false
      end
  | _ => false
  end.

Lemma escape_byte_reads_all : forall c, escape_byte_reads c = true.
Proof. apply byte_forall. vm_compute. reflexivity. Qed.

Lemma hex4_app w x y z r rest t :
  hex4 [w; x; y; z] = Some (r, rest) -> hex4 (w :: x :: y :: z :: t) = Some (r, t).
Proof.
  unfold hex4. destruct (unhex w), (unhex x), (unhex y), (unhex z); try done. cbn [mbind option_bind]. by intros [= -> _].
Qed.

Lemma parse_string_unicode fuel w x y z r t u rest :
  hex4 [w; x; y; z] = Some (r, []) -> surrogate r = false -> parse_string fuel t = Some (u, rest) ->
  parse_string (S fuel) (x5c :: x75 :: w :: x :: y :: z :: t) = Some (utf8_encode r ++ u, rest).
Proof.
  intros Eh Hs Hp. cbn [parse_string]. rewrite decide_False by done. rewrite decide_True by done. rewrite decide_True by done.
  unfold unicode_escape. rewrite (hex4_app _ _ _ _ _ _ _ Eh). cbn [mbind option_bind]. rewrite Hs.
  cbn [mbind option_bind]. by rewrite Hp.
Qed.

(** One character of a string. *)
Lemma parse_string_escape fuel c t u rest : byte_val c < 128 ->
  parse_string fuel t = Some (u, rest) ->
  parse_string (S fuel) (json_escape_byte c ++ t) = Some (c :: u, rest).
Proof.
  intros Hc Hp. pose proof (escape_byte_reads_all c) as H. unfold escape_byte_reads in H.
  rewrite (proj2 (Z.ltb_lt _ _) Hc) in H. cbn [negb] in H.
  destruct (json_escape_byte c) as [|e [|u1 [|w [|x [|y [|z [|? ?]]]]]]]; try done.
  - rewrite !andb_true_iff, !negb_true_iff, bool_decide_eq_true, bool_decide_eq_false in H.
    destruct H as [[-> H2] H3]. cbn [parse_string app].
    rewrite decide_False by set_solver. rewrite decide_False by set_solver. rewrite H3.
    unfold utf8_rune. rewrite (proj2 (Z.ltb_lt _ _) Hc). by rewrite Hp.
  - rewrite !andb_true_iff, !negb_true_iff, !bool_decide_eq_true, bool_decide_eq_false in H.
    destruct H as [[-> H2] H3]. cbn [parse_string app].
    rewrite decide_False by done. rewrite decide_True by done. rewrite decide_False by done.
    rewrite H3. cbn [mbind option_bind]. by rewrite Hp.
  - rewrite !andb_true_iff, !bool_decide_eq_true in H. destruct H as [[-> ->] H].
    destruct (hex4 [w; x; y; z]) as [[r r']|] eqn:Eh; [|done].
    rewrite andb_true_iff, negb_true_iff, bool_decide_eq_true in H. destruct H as [Hs He].
    change (c :: u) with ([c] ++ u). rewrite <- He. pose proof (hex4_app _ _ _ _ _ _ [] Eh) as Eh'. by apply (parse_string_unicode fuel w x y z r t u).
Qed.

Lemma parse_string_rune fuel r t u rest :
  (forall t, utf8_rune (r ++ t) = Some (r, t)) -> (exists a r', r = a :: r' /\ 128 <= byte_val a) ->
  parse_string fuel t = Some (u, rest) -> parse_string (S fuel) (r ++ t) = Some (r ++ u, rest).
Proof.
  intros Hr (a & r' & -> & Ha) Hp. specialize (Hr t). cbn [parse_string app] in *.
  assert (Hlow : forall c, byte_val c < 128 -> a <> c) by (intros c Hc ->; lia).
  rewrite decide_False by (apply Hlow; vm_compute; reflexivity).
  rewrite decide_False by (apply Hlow; vm_compute; reflexivity).
  rewrite (proj2 (Z.ltb_ge _ _)) by lia. rewrite Hr. by rewrite Hp.
Qed.

Lemma utf8_rune_low a s : byte_val a < 128 -> utf8_rune (a :: s) = Some ([a], s).
Proof. intros H. unfold utf8_rune. by rewrite (proj2 (Z.ltb_lt _ _) H). Qed.

Lemma parse_json_chars n s rest : utf8_valid_loop n s = true -> (length s <= n)%nat ->
  forall fuel, (length (json_chars n s) < fuel)%nat ->
  parse_string fuel (json_chars n s ++ x22 :: rest) = Some (s, rest).
Proof.
  revert s. induction n as [|n IH]; intros s Hv Hn fuel Hf;
    (destruct fuel as [|fuel]; [lia|]); (destruct s as [|a s]; [by cbn [json_chars parse_string app]; rewrite decide_True|]);
    [simpl in Hn; lia|].
  cbn [utf8_valid_loop] in Hv. cbn [json_chars] in *.
  destruct (byte_val a <? 128) eqn:Ea.
  - apply Z.ltb_lt in Ea. rewrite utf8_rune_low in Hv by done. rewrite <- (assoc_L (++)).
    apply parse_string_escape; [done|]. apply IH; [done|simpl in Hn; lia|].
    rewrite length_app in Hf. assert (json_escape_byte a <> []); [|destruct (json_escape_byte a); simpl in *; [done|lia]].
    pose proof (escape_byte_reads_all a) as H. unfold escape_byte_reads in H.
    rewrite (proj2 (Z.ltb_lt _ _) Ea) in H. by destruct (json_escape_byte a).
  - destruct (utf8_rune (a :: s)) as [[r s']|] eqn:Er; [|done].
    destruct (utf8_rune_app _ _ _ Er) as (Es & Hne & Hr).
    destruct r as [|a' r]; [done|]. injection Es as <- ->. simpl in Hn. rewrite length_app in Hn.
    assert (Hlen : forall e : bytes, (length (e ++ json_chars n s') < S fuel)%nat -> e <> [] ->
      (length (json_chars n s') < fuel)%nat).
    { intros e He1 He2. rewrite length_app in He1. destruct e; [done|simpl in *; lia]. }
    assert (Hs' : forall e, (length (e ++ json_chars n s') < S fuel)%nat -> e <> [] ->
      parse_string fuel (json_chars n s' ++ x22 :: rest) = Some (s', rest)).
    { intros e He1 He2. apply IH; [done|lia|by eapply Hlen]. }
    rewrite <- (assoc_L (++)). change (a :: r ++ s') with ((a :: r) ++ s').
    case_decide as D1.
    { rewrite D1. apply (parse_string_unicode fuel x32 x30 x32 x38 8232); [done|done|]. by apply (Hs' ($"\u2028")). }
    case_decide as D2.
    { rewrite D2. apply (parse_string_unicode fuel x32 x30 x32 x39 8233); [done|done|]. by apply (Hs' ($"\u2029")). }
    apply parse_string_rune; [done| |by eapply Hs'].
    exists a, r. split; [done|]. apply Z.ltb_ge in Ea. lia.
Qed.

Lemma skip_space_quote s : skip_space (x22 :: s) = x22 :: s.
Proof. reflexivity. Qed.

Lemma parse_json_string fuel depth s rest : utf8_valid s = true ->
  parse_value (S fuel) depth (json_string s ++ rest) = Some (JStr s, rest).
Proof.
  intros Hv. unfold json_string. cbn [app parse_value]. rewrite skip_space_quote. rewrite decide_True by done.
  rewrite <- (assoc_L (++)). cbn [app].
  rewrite (parse_json_chars (length s) s rest Hv); [done|done|]. rewrite length_app. lia.
Qed.

(** Lists of strings. *)
Lemma json_string_head s : exists t, json_string s = x22 :: t.
Proof. by eexists. Qed.

Lemma parse_elements_S fuel depth s :
  parse_elements (S fuel) depth s =
    '(v, rest) ← parse_value fuel depth s;
    match cut_prefix [x2c] (skip_space rest) with
    | Some rest => '(l, rest) ← parse_elements fuel depth rest; Some (v :: l, rest)
    | None => rest ← cut_prefix [x5d] (skip_space rest); Some ([v], rest)
    end.
Proof. reflexivity. Qed.

Lemma comma_next t : cut_prefix [x2c] (skip_space (x2c :: t)) = Some t.
Proof. reflexivity. Qed.

Lemma quote_next t : cut_prefix [x22] (skip_space (x22 :: t)) = Some t.
Proof. reflexivity. Qed.

Lemma comma_text_next t : cut_prefix [x2c] (skip_space ($"," ++ t)) = Some t.
Proof. reflexivity. Qed.

Lemma colon_next t : cut_prefix [x3a] (skip_space ($":" ++ t)) = Some t.
Proof. reflexivity. Qed.

Lemma parse_json_strings l fuel depth rest :
  l <> [] -> Forall (fun s => utf8_valid s = true) l -> (length l < fuel)%nat ->
  parse_elements fuel depth (strings_Join ($",") (json_string <$> l) ++ x5d :: rest) = Some (JStr <$> l, rest).
Proof.
  intros Hne Hl. revert fuel. induction Hl as [|s l Hs Hl IH]; intros fuel Hf; [done|].
  destruct fuel as [|[|fuel]]; [simpl in Hf; lia..|]. destruct l as [|s' l].
  - cbn [fmap list_fmap strings_Join]. rewrite parse_elements_S, parse_json_string by done. reflexivity.
  - change (json_string <$> s :: s' :: l) with (json_string s :: (json_string <$> s' :: l)).
    assert (E : strings_Join ($",") (json_string s :: (json_string <$> s' :: l))
      = json_string s ++ x2c :: strings_Join ($",") (json_string <$> s' :: l)) by reflexivity.
    rewrite E, <- (assoc_L (++)), <- app_comm_cons. clear E.
    rewrite parse_elements_S, parse_json_string by done. cbn [mbind option_bind]. rewrite comma_next.
    rewrite IH; [done|done|simpl in *; lia].
Qed.

Lemma mapM_reads {A B} (f : A -> B) (g : B -> option A) (l : list A) :
  (forall x, g (f x) = Some x) -> mapM g (f <$> l) = Some l.
Proof. intros H. apply mapM_Some_2, Forall2_fmap_l, Forall_Forall2_diag, Forall_true. exact H. Qed.

(** A list of valid strings survives the journey. *)
Lemma json_strings_roundtrip l rest :
  Forall (fun s => utf8_valid s = true) l ->
  json_Decode (json_strings l ++ rest) ≫= json_to_strings = Some l.
Proof.
  intros Hl. unfold json_Decode. destruct l as [|s l]; [reflexivity|].
  unfold json_fuel. rewrite Nat.add_comm.
  set (fuel := (2 * _)%nat). assert (Hfuel : (length (s :: l) < S fuel)%nat).
  { subst fuel. unfold json_strings. rewrite !length_app.
    assert (H : forall ls : list bytes, (length ls <= S (length (strings_Join ($",") (json_string <$> ls))))%nat).
    { induction ls as [|x [|y ls] IH]; [simpl; lia|simpl; lia|].
      change (strings_Join ($",") (json_string <$> x :: y :: ls))
        with (json_string x ++ $"," ++ strings_Join ($",") (json_string <$> y :: ls)).
      rewrite !length_app. simpl length in *. lia. }
    specialize (H (s :: l)). simpl length in *. lia. }
  change (json_strings (s :: l) ++ rest)
    with (x5b :: (strings_Join ($",") (json_string <$> s :: l) ++ [x5d]) ++ rest).
  rewrite <- (assoc_L (++)). cbn [parse_value Nat.add].
  match goal with |- context [skip_space (x5b :: ?t)] => change (skip_space (x5b :: t)) with (x5b :: t) end.
  cbn [app]. rewrite decide_False by done. rewrite decide_False by done. rewrite decide_True by done.
  change (maxNestingDepth <=? 0) with false.
  assert (E : exists t, strings_Join ($",") (json_string <$> s :: l) ++ x5d :: rest = x22 :: t).
  { destruct l; [by eexists|]. by eexists. }
  destruct E as [t E]. rewrite E.
  change (cut_prefix [x5d] (skip_space (x22 :: t))) with (@None bytes). 
  rewrite <- E, parse_json_strings by done. cbn [mbind option_bind fst fmap option_fmap option_map json_to_strings].
  by apply mapM_reads.
Qed.
