(* ===== verification/Http.v ===== *)
(** * HTTP

    What the server, the proxy and the command line use of [net/http] and
    [net/url]: requests and their forms, response writers, the parsing of URLs and
    the requests a client sends.  The network itself is the class [Network]: its
    state and what sending a request answers.  Multipart bodies are read by the
    function [multipart_ReadForm] of the class [MultipartLib]. *)
From S2P Require Import Prelude Config Strs.
Open Scope Z_scope.

(** ** Headers

    The keys are in canonical form, as the server and [Header.Add] keep them. *)
Abbreviation Header := (gmap bytes (list bytes)).

Definition Header_Get (h : Header) (key : bytes) : bytes :=
  match h !! key with Some (v :: _) => v | _ => [] end.
Definition Header_Set (h : Header) (key value : bytes) : Header := <[key := [value]]> h.
Definition Header_Add (h : Header) (key value : bytes) : Header := <[key := default [] (h !! key) ++ [value]]> h.

(** The loops that copy every value of every key. *)
Definition Header_copy (dst src : Header) : Header :=
  map_fold (fun k vv h => fold_left (fun h v => Header_Add h k v) vv h) dst src.

(** ** Requests, as a handler sees them

    The body as it can still be read, and whether reading it ends in an error;
    [rq_EscapedPath] is the path as it was sent. *)
Record Request : Type := MkRequest {
  rq_Method : bytes;
  rq_Path : bytes;
  rq_EscapedPath : bytes;
  rq_ForceQuery : bool;
  rq_RawQuery : bytes;
  rq_Header : Header;
  rq_Body : bytes;
  rq_BodyErr : bool;
  rq_Form : option Values;
  rq_PostForm : option Values;
}.

Definition set_Body (b : bytes) (r : Request) : Request :=
  MkRequest (rq_Method r) (rq_Path r) (rq_EscapedPath r) (rq_ForceQuery r) (rq_RawQuery r) (rq_Header r)
    b (rq_BodyErr r) (rq_Form r) (rq_PostForm r).
Definition set_forms (form postForm : option Values) (r : Request) : Request :=
  MkRequest (rq_Method r) (rq_Path r) (rq_EscapedPath r) (rq_ForceQuery r) (rq_RawQuery r) (rq_Header r)
    (rq_Body r) (rq_BodyErr r) form postForm.

Definition MethodGet : bytes := $"GET".
Definition MethodPost : bytes := $"POST".
Definition MethodPut : bytes := $"PUT".
Definition MethodPatch : bytes := $"PATCH".
Definition MethodDelete : bytes := $"DELETE".

(** The media type of a Content-Type header. *)
Definition media_type (ct : bytes) : bytes := strings_ToLower (strings_TrimSpace (strings_Cut x3b ct).1).

Definition form_type : bytes := $"application/x-www-form-urlencoded".

Class MultipartLib : Type := { multipart_ReadForm : bytes -> bytes -> option Values }.

Section forms.
Context {ML : MultipartLib}.

Definition maxFormSize : Z := 10 * MB.

(** [parsePostForm]: a form body is read, up to ten megabytes; [None] for no
    form at all. *)
Definition parsePostForm (r : Request) : option Values * Request :=
  if bool_decide (media_type (Header_Get (rq_Header r) ($"Content-Type")) = form_type) then
    if maxFormSize <? len (rq_Body r)
    then (None, set_Body (drop (Z.to_nat (maxFormSize + 1)) (rq_Body r)) r)
    else if rq_BodyErr r then (None, set_Body [] r)
    else (Some (url_ParseQuery (rq_Body r)), set_Body [] r)
  else (None, r).

(** [Request.ParseForm]; the callers drop its error. *)
Definition ParseForm (r : Request) : Request :=
  let '(postForm, r) :=
    match rq_PostForm r with
    | Some f => (f, r)
    | None =>
        if bool_decide (rq_Method r ∈ [MethodPost; MethodPut; MethodPatch])
        then let '(f, r) := parsePostForm r in (default [] f, r)
        else ([], r)
    end in
  let form := match rq_Form r with
              | Some f => f
              | None => postForm ++ url_ParseQuery (rq_RawQuery r)
              end in
  set_forms (Some form) (Some postForm) r.

(** [Request.ParseMultipartForm], for a request whose form is not parsed yet. *)
Definition ParseMultipartForm (r : Request) : Request :=
  let r := ParseForm r in
  match multipart_ReadForm (Header_Get (rq_Header r) ($"Content-Type")) (rq_Body r) with
  | None => r
  | Some f => set_Body [] (set_forms (Some (default [] (rq_Form r) ++ f)) (Some (default [] (rq_PostForm r) ++ f)) r)
  end.

(** [Request.FormValue] *)
Definition FormValue (r : Request) (key : bytes) : bytes * Request :=
  let r := match rq_Form r with None => ParseMultipartForm r | Some _ => r end in
  (Values_Get (default [] (rq_Form r)) key, r).
End forms.

(** [r.URL.Query().Get(key)] *)
Definition Query_Get (r : Request) (key : bytes) : bytes := Values_Get (url_ParseQuery (rq_RawQuery r)) key.

(** [r.URL.RequestURI()] *)
Definition RequestURI (r : Request) : bytes :=
  (if decide (rq_EscapedPath r = []) then $"/" else rq_EscapedPath r) ++
  (if rq_ForceQuery r || negb (bool_decide (rq_RawQuery r = [])) then x3f :: rq_RawQuery r else []).

(** [io.ReadAll(r.Body)] *)
Definition ReadAll (r : Request) : option bytes := if rq_BodyErr r then None else Some (rq_Body r).

(** ** Responses

    A client reads the body from the connection: [rp_Body] are the bytes that arrive,
    [rp_BodyErr] is the error when the connection breaks off before the body's end. *)
Record Response : Type := MkResponse {
  rp_StatusCode : Z;
  rp_Header : Header;
  rp_Body : bytes;
  rp_BodyErr : option error;
}.

(** [io.ReadAll(resp.Body)]: what has arrived, and the error. *)
Definition io_ReadAll (resp : Response) : bytes * option error := (rp_Body resp, rp_BodyErr resp).

Record ResponseWriter : Type := MkWriter {
  w_Header : Header;
  w_Status : option Z;
  w_Body : bytes;
}.

Definition new_writer : ResponseWriter := MkWriter ∅ None [].

Definition StatusOK : Z := 200.
Definition StatusBadRequest : Z := 400.
Definition StatusUnauthorized : Z := 401.
Definition StatusForbidden : Z := 403.
Definition StatusNotFound : Z := 404.
Definition StatusMethodNotAllowed : Z := 405.
Definition StatusInternalServerError : Z := 500.
Definition StatusBadGateway : Z := 502.

(** What a writer has written, as the client receives it. *)
Definition writer_response (w : ResponseWriter) : Response :=
  MkResponse (default StatusOK (w_Status w)) (w_Header w) (w_Body w) None.

(** Handlers: computations on a response writer and the state [S] of the program. *)
Definition HttpM (S A : Type) : Type := GoM (ResponseWriter * S) A.

Section writers.
Context {S : Type}.

Definition in_state {A} (m : GoM S A) : HttpM S A := fun '(w, s) =>
  match m s with Ret (a, s') => Ret (a, (w, s')) | Panic => Panic | Blocked => Blocked end.

(** [w.WriteHeader(code)]: the first one counts; a code out of range panics; an
    informational one is not the final status. *)
Definition WriteHeader (code : Z) : HttpM S unit := fun '(w, s) =>
  match w_Status w with
  | Some _ => Ret (tt, (w, s))
  | None =>
      if (code <? 100) || (999 <? code) then Panic
      else if (code <? 200) && negb (code =? 101) then Ret (tt, (w, s))
      else Ret (tt, (MkWriter (w_Header w) (Some code) (w_Body w), s))
  end.

(** [w.Write(b)] *)
Definition Write (b : bytes) : HttpM S unit := fun '(w, s) =>
  Ret (tt, (MkWriter (w_Header w) (Some (default StatusOK (w_Status w))) (w_Body w ++ b), s)).

(** [w.Header().Set(key, value)] *)
Definition SetHeader (key value : bytes) : HttpM S unit := fun '(w, s) =>
  Ret (tt, (MkWriter (Header_Set (w_Header w) key value) (w_Status w) (w_Body w), s)).

(** [http.Error] *)
Definition http_Error (msg : bytes) (code : Z) : HttpM S unit :=
  SetHeader ($"Content-Type") ($"text/plain; charset=utf-8") ;;;
  SetHeader ($"X-Content-Type-Options") ($"nosniff") ;;;
  WriteHeader code ;;;
  Write (msg ++ [x0a]).
End writers.

(** ** URLs *)
Record URL : Type := MkURL {
  u_Scheme : bytes;
  u_Opaque : bytes;
  u_Host : bytes;
  u_Path : bytes;
  u_ForceQuery : bool;
  u_RawQuery : bytes;
}.

(** The scheme of a URL, if it has one; [None] for a text that starts with a
    colon. *)
Fixpoint scheme_loop (first : bool) (s : bytes) : option (option (bytes * bytes)) :=
  match s with
  | [] => Some None
  | c :: s =>
      let continue :=
        match scheme_loop false s with
        | Some (Some (a, b)) => Some (Some (c :: a, b))
        | r => r
        end in
      if is_alpha c then continue
      else if is_digit c || bool_decide (c ∈ [x2b; x2d; x2e]) then (if first then Some None else continue)
      else if decide (c = x3a) then (if first then None else Some (Some ([], s)))
      else Some None
  end.

(** Split at the last [sep]. *)
Definition cut_last (sep : byte) (s : bytes) : option (bytes * bytes) :=
  match strings_Cut sep (rev s) with
  | (b, Some a) => Some (rev a, rev b)
  | (_, None) => None
  end.

(** [unescape] for a path: only the percent signs matter. *)
Fixpoint path_unescape (s : bytes) : option bytes :=
  match s with
  | [] => Some []
  | c :: s =>
      if decide (c = x25) then
        match s with
        | a :: b :: s =>
            match unhex a, unhex b with
            | Some x, Some y => cons (to_byte (16 * x + y)) <$> path_unescape s
            | _, _ => None
            end
        | _ => None
        end
      else cons c <$> path_unescape s
  end.

(** [unescape] for a host: no ASCII character that needs an escape, and of the
    escapes of ASCII only [%25]. *)
Definition host_char (c : byte) : bool :=
  (128 <=? byte_val c) || unreserved c || bool_decide (c ∈ $"!$&'()*+,;=:[]<>" ++ [x22]).

Fixpoint host_unescape (s : bytes) : option bytes :=
  match s with
  | [] => Some []
  | c :: s =>
      if decide (c = x25) then
        match s with
        | a :: b :: s =>
            match unhex a, unhex b with
            | Some x, Some y =>
                if (x <? 8) && negb (bool_decide ([a; b] = $"25")) then None
                else cons (to_byte (16 * x + y)) <$> host_unescape s
            | _, _ => None
            end
        | _ => None
        end
      else if host_char c then cons c <$> host_unescape s else None
  end.

(** A colon and digits, or nothing. *)
Definition valid_port (s : bytes) : bool :=
  match s with [] => true | c :: d => bool_decide (c = x3a) && forallb is_digit d end.

(** [parseHost]; the zone of an IPv6 address is not modelled apart. *)
Definition parse_host (host : bytes) : option bytes :=
  if bool_decide (head host = Some x5b) then
    match cut_last x5d host with
    | None => None
    | Some (_, port) => if valid_port port then host_unescape host else None
    end
  else
    match cut_last x3a host with
    | Some (_, port) => if valid_port (x3a :: port) then host_unescape host else None
    | None => host_unescape host
    end.

Definition user_char (c : byte) : bool := is_alpha c || is_digit c || bool_decide (c ∈ $"-._:~!$&'()*+,;=%@").

Definition parse_authority (a : bytes) : option bytes :=
  match cut_last x40 a with
  | None => parse_host a
  | Some (user, host) =>
      host ← parse_host host;
      if forallb user_char user then _ ← path_unescape user; Some host else None
  end.

(** [url.Parse] without the fragment. *)
Definition url_parse (raw : bytes) : option URL :=
  if existsb is_ctl raw then None
  else if decide (raw = [x2a]) then Some (MkURL [] [] [] raw false [])
  else
    sch ← scheme_loop true raw;
    let '(scheme, rest) := default ([], raw) sch in
    let scheme := strings_ToLower scheme in
    let '(path, query) := strings_Cut x3f rest in
    let force := bool_decide (query = Some []) in
    let query := default [] query in
    if negb (bool_decide (head path = Some x2f)) && negb (bool_decide (scheme = [])) then
      Some (MkURL scheme path [] [] force query)
    else if negb (bool_decide (head path = Some x2f)) && strings_Contains (strings_Cut x2f path).1 x3a then None
    else
      let authority :=
        if bool_decide (scheme <> []) || negb (bool_decide (is_Some (cut_prefix ($"///") path)))
        then cut_prefix ($"//") path else None in
      match authority with
      | Some a =>
          let '(auth, rest) := strings_Cut x2f a in
          host ← parse_authority auth;
          path ← path_unescape (match rest with Some p => x2f :: p | None => [] end);
          Some (MkURL scheme [] host path force query)
      | None => path ← path_unescape path; Some (MkURL scheme [] [] path force query)
      end.

Definition url_Parse (raw : bytes) : option URL :=
  let '(raw, fragment) := strings_Cut x23 raw in
  u ← url_parse raw;
  _ ← path_unescape (default [] fragment);
  Some u.

(** ** Requests a client sends *)
Record OutRequest : Type := MkOutRequest {
  oq_Method : bytes;
  oq_URL : URL;
  oq_Header : Header;
  oq_Body : bytes;
}.

Definition set_oq_Header (h : Header) (q : OutRequest) : OutRequest :=
  MkOutRequest (oq_Method q) (oq_URL q) h (oq_Body q).

Definition token_char (c : byte) : bool := is_alpha c || is_digit c || bool_decide (c ∈ $"!#$%&'*+-.^_`|~").

(** [http.NewRequest] *)
Definition http_NewRequest (method url body : bytes) : error + OutRequest :=
  let method := if decide (method = []) then MethodGet else method in
  if negb (forallb token_char method) then inl (ErrNew ($"net/http: invalid method"))
  else match url_Parse url with
       | None => inl (ErrNew ($"parse error"))
       | Some u => inr (MkOutRequest method u ∅ body)
       end.

(** The network and what lies behind it. *)
Class Network : Type := {
  World : Type;
  net_Do : OutRequest -> World -> (error + Response) * World;
}.

(** [client.Get(url)] *)
Definition http_Get `{Network} (url : bytes) (n : World) : (error + Response) * World :=
  match http_NewRequest MethodGet url [] with
  | inl err => (inl err, n)
  | inr q => net_Do q n
  end.

Example parse_url_ex :
  url_Parse ($"http://localhost:8080/get?key=a b#frag")
  = Some (MkURL ($"http") [] ($"localhost:8080") ($"/get") false ($"key=a b")).
Proof. vm_compute. reflexivity. Qed.
Example parse_url_bad_ex : url_Parse ($":8080/put") = None /\ url_Parse ($"http://h:80a/put") = None /\
  url_Parse ($"localhost:8080/put") = Some (MkURL ($"localhost") ($"8080/put") [] [] false []).
Proof. vm_compute. repeat split; reflexivity. Qed.
