(* ===== verification/Urls.v ===== *)
(** * Addresses and forms made of plain text

    What [url.Parse] makes of the address of a node followed by a path and a
    query, and what a receiver reads from a form or a query whose keys and values
    need no escape. *)
From S2P Require Import Prelude Config Strs Json Http.
Open Scope Z_scope.

(** Text that no part of a URL or of a form changes. *)
Definition plain (s : bytes) : Prop := Forall (fun c => unreserved c = true) s.
#[export] Instance plain_dec s : Decision (plain s).
Proof. unfold plain. apply _. Defined.

(** A host with an optional port. *)
Definition plain_host (h : bytes) : Prop := exists name port, h = name ++ port /\ name <> [] /\ plain name /\
  (port = [] \/ exists d, port = x3a :: d /\ Forall (fun c => is_digit c = true) d).

(** A path, and a query as it can follow one. *)
Definition plain_path (p : bytes) : Prop := exists q, p = x2f :: q /\ Forall (fun c => unreserved c || bool_decide (c = x2f) = true) q.
Definition query_text (q : bytes) : Prop := Forall (fun c => is_ctl c = false /\ c <> x23) q.

(** The addresses of nodes. *)
Definition http_url (host : bytes) : bytes := $"http://" ++ host.

(** Decide a closed statement by computing. *)
Ltac by_deciding := apply (bool_decide_unpack _); vm_compute; exact I.

(** ** Characters *)
Definition special : bytes := $"#?/@:%&=+; *[]".

Lemma unreserved_not_special c : unreserved c = true -> is_ctl c = false /\ c ∉ special /\ host_char c = true.
Proof.
  intros H. assert (E : implb (unreserved c) (negb (is_ctl c) && bool_decide (c ∉ special) && host_char c) = true).
  { revert c H. intros c _. revert c. apply byte_forall. vm_compute. reflexivity. }
  rewrite H in E. cbn [implb] in E. apply andb_true_iff in E as [[E1 E2]%andb_true_iff E3].
  apply negb_true_iff in E1. by apply bool_decide_eq_true in E2.
Qed.

Lemma digit_unreserved c : is_digit c = true -> unreserved c = true.
Proof. unfold unreserved. intros ->. by rewrite orb_true_r. Qed.

Lemma plain_free s c : plain s -> c ∈ special -> c ∉ s.
Proof.
  intros Hs Hc Hin. unfold plain in Hs. rewrite Forall_forall in Hs. by apply (unreserved_not_special c) in Hs as (_ & H & _).
Qed.

Lemma plain_no_ctl s : plain s -> Forall (fun c => is_ctl c = false) s.
Proof. intros H. eapply Forall_impl; [exact H|]. intros c Hc. by apply unreserved_not_special. Qed.

Lemma digits_plain d : Forall (fun c => is_digit c = true) d -> plain d.
Proof. intros H. eapply Forall_impl; [exact H|]. apply digit_unreserved. Qed.

(** ** Unescaping does nothing *)
Lemma QueryUnescape_plain s : plain s -> url_QueryUnescape s = Some s.
Proof.
  induction 1 as [|c s Hc Hs IH]; [done|]. cbn [url_QueryUnescape].
  apply unreserved_not_special in Hc as (_ & Hc & _).
  rewrite decide_False by (intros ->; apply Hc; by_deciding).
  rewrite decide_False by (intros ->; apply Hc; by_deciding). by rewrite IH.
Qed.

Lemma path_unescape_plain s : x25 ∉ s -> path_unescape s = Some s.
Proof.
  induction s as [|c s IH]; [done|]. intros [H1 H2]%not_elem_of_cons. cbn [path_unescape].
  rewrite decide_False by done. by rewrite IH.
Qed.

Lemma host_unescape_plain s : Forall (fun c => c <> x25 /\ host_char c = true) s -> host_unescape s = Some s.
Proof.
  induction 1 as [|c s [H1 H2] Hs IH]; [done|]. cbn [host_unescape]. rewrite decide_False by done. by rewrite H2, IH.
Qed.

(** ** Hosts *)
Lemma plain_host_free h c : plain_host h -> c ∈ special -> c <> x3a -> c ∉ h.
Proof.
  intros (name & port & -> & _ & Hn & Hp) Hc Hne. rewrite elem_of_app. intros [Hin|Hin]; [by apply (plain_free name c)|].
  destruct Hp as [->|(d & -> & Hd)]; [by apply not_elem_of_nil in Hin|].
  apply elem_of_cons in Hin as [Hin|Hin]; [done|]. by apply (plain_free d c (digits_plain d Hd)).
Qed.

Lemma plain_host_chars h : plain_host h -> Forall (fun c => is_ctl c = false /\ c <> x25 /\ host_char c = true) h.
Proof.
  intros Hh. pose proof (plain_host_free h x25 Hh ltac:(by_deciding) ltac:(discriminate)) as H25.
  destruct Hh as (name & port & -> & _ & Hn & Hp).
  assert (Hplain : forall s, plain s -> Forall (fun c => is_ctl c = false /\ host_char c = true) s).
  { intros s Hs. eapply Forall_impl; [exact Hs|]. intros c Hc. by apply unreserved_not_special in Hc as (? & _ & ?). }
  assert (H : Forall (fun c => is_ctl c = false /\ host_char c = true) (name ++ port)).
  { apply Forall_app. split; [by apply Hplain|]. destruct Hp as [->|(d & -> & Hd)]; [constructor|].
    constructor; [by vm_compute|]. by apply Hplain, digits_plain. }
  rewrite Forall_forall in H |- *. intros c Hc. destruct (H c Hc). split_and!; try done. by intros ->.
Qed.

Lemma elem_of_rev (c : byte) s : c ∈ rev s <-> c ∈ s.
Proof. by rewrite !list_elem_of_In, <- in_rev. Qed.

Lemma cut_last_none sep s : sep ∉ s -> cut_last sep s = None.
Proof. intros H. unfold cut_last. rewrite Cut_none; [done|]. by rewrite elem_of_rev. Qed.

Lemma cut_last_app sep a b : sep ∉ b -> cut_last sep (a ++ sep :: b) = Some (a, b).
Proof.
  intros H. unfold cut_last. rewrite rev_app_distr. cbn [rev]. rewrite <- (assoc_L (++)). cbn [app].
  rewrite Cut_app by (by rewrite elem_of_rev). by rewrite !rev_involutive.
Qed.

Lemma parse_host_plain h : plain_host h -> parse_host h = Some h.
Proof.
  intros Hh. assert (Hu : host_unescape h = Some h).
  { apply host_unescape_plain. eapply Forall_impl; [by apply plain_host_chars|]. by intros c (_ & ? & ?). }
  assert (H5b : x5b ∉ h) by (apply plain_host_free; [done|by_deciding|discriminate]).
  unfold parse_host. rewrite bool_decide_eq_false_2 by (destruct h; [done|intros [= ->]; apply H5b; left]).
  destruct Hh as (name & port & -> & _ & Hn & Hp). destruct Hp as [->|(d & -> & Hd)].
  - rewrite app_nil_r in *. rewrite cut_last_none; [done|]. apply plain_free; [done|by_deciding].
  - rewrite cut_last_app by (apply plain_free; [by apply digits_plain|by_deciding]).
    assert (E : valid_port (x3a :: d) = true).
    { cbn [valid_port]. rewrite bool_decide_eq_true_2 by done. simpl. apply forallb_forall. intros c Hc.
      rewrite Forall_forall in Hd. by apply Hd, list_elem_of_In. }
    by rewrite E.
Qed.

Lemma parse_authority_plain h : plain_host h -> parse_authority h = Some h.
Proof.
  intros Hh. unfold parse_authority. rewrite cut_last_none by (apply plain_host_free; [done|by_deciding|discriminate]).
  by apply parse_host_plain.
Qed.

(** ** Addresses *)
Lemma existsb_false (P : byte -> bool) s : Forall (fun c => P c = false) s -> existsb P s = false.
Proof. induction 1 as [|c s Hc Hs IH]; [done|]. simpl. by rewrite Hc. Qed.

Lemma plain_path_chars p : plain_path p -> Forall (fun c => is_ctl c = false /\ c <> x23 /\ c <> x3f /\ c <> x25) p.
Proof.
  intros (q & -> & Hq). constructor; [split_and!; [by vm_compute|discriminate..]|].
  eapply Forall_impl; [exact Hq|]. intros c Hc. apply orb_true_iff in Hc as [Hc|Hc].
  - apply unreserved_not_special in Hc as (H1 & H2 & _). split; [done|].
    split_and!; intros ->; apply H2; by_deciding.
  - apply bool_decide_eq_true in Hc as ->. split_and!; [by vm_compute|discriminate..].
Qed.

(** What follows the scheme. *)
Lemma url_parse_rest host path query tail :
  plain_host host -> plain_path path -> (tail = [] /\ query = None \/ exists q, tail = x3f :: q /\ query = Some q /\ query_text q) ->
  url_Parse (http_url host ++ path ++ tail)
    = Some (MkURL ($"http") [] host path (bool_decide (query = Some [])) (default [] query)).
Proof.
  intros Hh Hp Ht.
  assert (Htail : Forall (fun c => is_ctl c = false /\ c <> x23) tail).
  { destruct Ht as [[-> _]|(q & -> & _ & Hq)]; [constructor|]. constructor; [by vm_compute|done]. }
  assert (Hpath : Forall (fun c => is_ctl c = false /\ c <> x23) path).
  { eapply Forall_impl; [by apply plain_path_chars|]. by intros c (? & ? & _). }
  assert (Hhost : Forall (fun c => is_ctl c = false /\ c <> x23) host).
  { pose proof (plain_host_free host x23 Hh ltac:(by_deciding) ltac:(discriminate)) as H23.
    pose proof (plain_host_chars host Hh) as Hc. rewrite Forall_forall in Hc |- *. intros c Hin.
    split; [by apply Hc|by intros ->]. }
  assert (Hall : Forall (fun c => is_ctl c = false /\ c <> x23) (http_url host ++ path ++ tail)).
  { unfold http_url. rewrite <- (assoc_L (++)). apply Forall_app. split; [by_deciding|]. rewrite !Forall_app. done. }
  unfold url_Parse. rewrite Cut_none.
  2: { intros Hin. rewrite Forall_forall in Hall. by destruct (Hall _ Hin). }
  assert (E : url_parse (http_url host ++ path ++ tail)
    = Some (MkURL ($"http") [] host path (bool_decide (query = Some [])) (default [] query))); [|by rewrite E].
  unfold url_parse. rewrite existsb_false by (eapply Forall_impl; [exact Hall|]; by intros c [? _]).
  rewrite decide_False by done.
  change (scheme_loop true (http_url host ++ path ++ tail)) with (Some (Some ($"http", $"//" ++ host ++ path ++ tail))).
  cbn [mbind option_bind default from_option id].
  change (strings_ToLower ($"http")) with ($"http").
  assert (Hfree : x3f ∉ $"//" ++ host ++ path).
  { rewrite !elem_of_app. intros [H|[H|H]].
    - revert H. by_deciding.
    - by apply (plain_host_free host x3f Hh ltac:(by_deciding) ltac:(discriminate)).
    - pose proof (plain_path_chars path Hp) as Hc. rewrite Forall_forall in Hc. by destruct (Hc _ H) as (_ & _ & ? & _). }
  assert (Ecut : strings_Cut x3f ($"//" ++ host ++ path ++ tail) = ($"//" ++ host ++ path, query)).
  { destruct Ht as [[-> ->]|(q & -> & -> & _)].
    - rewrite app_nil_r. by apply Cut_none.
    - replace ($"//" ++ host ++ path ++ x3f :: q) with (($"//" ++ host ++ path) ++ x3f :: q) by (by rewrite <- !(assoc_L (++))).
      by apply Cut_app. }
  rewrite Ecut. cbn [fst snd]. destruct Hp as (p & -> & Hp').
  change (head ($"//" ++ host ++ x2f :: p)) with (Some x2f). rewrite (bool_decide_eq_true_2 (Some x2f = Some x2f)) by done.
  cbn [negb andb]. rewrite (bool_decide_eq_true_2 ($"http" <> [])) by discriminate. cbn [orb].
  change (cut_prefix ($"//") ($"//" ++ host ++ x2f :: p)) with (Some (host ++ x2f :: p)). cbv iota beta.
  rewrite Cut_app by (apply plain_host_free; [done|by_deciding|discriminate]).
  rewrite parse_authority_plain by done. cbn [mbind option_bind].
  rewrite path_unescape_plain; [done|]. intros H25.
  pose proof (plain_path_chars (x2f :: p) (ex_intro _ p (conj eq_refl Hp'))) as Hc.
  rewrite Forall_forall in Hc. by destruct (Hc _ H25) as (_ & _ & _ & ?).
Qed.

Lemma url_Parse_path host path : plain_host host -> plain_path path ->
  url_Parse (http_url host ++ path) = Some (MkURL ($"http") [] host path false []).
Proof.
  intros Hh Hp. rewrite <- (app_nil_r path) at 1.
  rewrite (url_parse_rest host path None []) by (by first [left | done]). by rewrite bool_decide_eq_false_2.
Qed.

Lemma url_Parse_query host path q : plain_host host -> plain_path path -> query_text q ->
  url_Parse (http_url host ++ path ++ x3f :: q) = Some (MkURL ($"http") [] host path (bool_decide (q = [])) q).
Proof.
  intros Hh Hp Hq. rewrite (url_parse_rest host path (Some q)) by (try done; right; by exists q).
  do 2 f_equal. apply bool_decide_ext. split; congruence.
Qed.

(** ** Forms of plain text *)
Lemma parse_plain_pair name s : plain name -> name <> [] -> plain s -> parse_pair (name ++ x3d :: s) = Some (name, s).
Proof.
  intros Hn Hne Hs. unfold parse_pair, strings_Contains.
  assert (Hsc : x3b ∉ name ++ x3d :: s).
  { rewrite elem_of_app, elem_of_cons.
    intros [H|[H|H]]; [by apply (plain_free name x3b Hn ltac:(by_deciding))|done|by apply (plain_free s x3b Hs ltac:(by_deciding))]. }
  rewrite bool_decide_eq_false_2 by done. rewrite decide_False by (by destruct name).
  rewrite Cut_app by (by apply plain_free; [|by_deciding]). cbn [default from_option id].
  by rewrite !QueryUnescape_plain.
Qed.

Lemma plain_pair_free name s : plain name -> plain s -> x26 ∉ name ++ x3d :: s.
Proof.
  intros Hn Hs. rewrite elem_of_app, elem_of_cons.
  intros [H|[H|H]]; [by apply (plain_free name x26 Hn ltac:(by_deciding))|done|by apply (plain_free s x26 Hs ltac:(by_deciding))].
Qed.

Lemma ParseQuery_plain name s : plain name -> name <> [] -> plain s -> url_ParseQuery (name ++ x3d :: s) = [(name, s)].
Proof.
  intros Hn Hne Hs. unfold url_ParseQuery. rewrite Split_none by by apply plain_pair_free. cbn.
  by rewrite parse_plain_pair.
Qed.

Lemma ParseQuery_plain_cons name s rest : plain name -> name <> [] -> plain s ->
  url_ParseQuery (name ++ x3d :: s ++ x26 :: rest) = (name, s) :: url_ParseQuery rest.
Proof.
  intros Hn Hne Hs. unfold url_ParseQuery.
  replace (name ++ x3d :: s ++ x26 :: rest) with ((name ++ x3d :: s) ++ x26 :: rest) by (by rewrite <- (assoc_L (++))).
  rewrite Split_app by by apply plain_pair_free. cbn. by rewrite parse_plain_pair.
Qed.

(** ** Lengths *)
Lemma QueryUnescape_len s v : url_QueryUnescape s = Some v -> (length v <= length s)%nat.
Proof.
  remember (length s) as n eqn:En. assert (Hn : (length s <= n)%nat) by lia. clear En. revert s v Hn.
  induction n as [|n IH]; intros s v Hn; destruct s as [|c s]; simpl in Hn; try lia; cbn [url_QueryUnescape].
  - by intros [= <-].
  - intros [= <-]. simpl. lia.
  - case_decide.
    + destruct s as [|a [|b s]]; try done. destruct (unhex a), (unhex b); try done.
      destruct (url_QueryUnescape s) as [v'|] eqn:E; [|done]. intros [= <-]. simpl in *.
      apply IH in E; simpl in *; lia.
    + destruct (url_QueryUnescape s) as [v'|] eqn:E; [|done]. intros [= <-]. simpl. apply IH in E; lia.
Qed.

Lemma Split_len sep s x : x ∈ strings_Split sep s -> (length x <= length s)%nat.
Proof.
  revert x. induction s as [|c s IH]; intros x; cbn [strings_Split].
  - intros ->%list_elem_of_singleton. done.
  - case_decide.
    + intros [->|Hin]%elem_of_cons; [simpl; lia|]. apply IH in Hin. simpl. lia.
    + destruct (Split_cons sep s) as (y & ys & E). rewrite E in IH |- *.
      intros [->|Hin]%elem_of_cons.
      * specialize (IH y (list_elem_of_here _ _)). simpl. lia.
      * specialize (IH x (list_elem_of_further _ _ _ Hin)). simpl. lia.
Qed.

Lemma Cut_len sep s a b : strings_Cut sep s = (a, b) -> (length a + length (default [] b) <= length s)%nat.
Proof.
  revert a b. induction s as [|c s IH]; intros a b; cbn [strings_Cut].
  - intros [= <- <-]. done.
  - case_decide; [intros [= <- <-]; simpl; lia|]. destruct (strings_Cut sep s) as [a' b'].
    intros [= <- <-]. specialize (IH a' b' eq_refl). simpl. lia.
Qed.

(** The values of a form are no longer than the form. *)
Lemma ParseQuery_len s key : (length (Values_Get (url_ParseQuery s) key) <= length s)%nat.
Proof.
  unfold Values_Get. destruct (list_find _ (url_ParseQuery s)) as [[i [k v]]|] eqn:E; [|simpl; lia].
  apply list_find_Some in E as (E & _). apply list_elem_of_lookup_2 in E. unfold url_ParseQuery in E.
  apply list_elem_of_omap in E as (x & Hx & Ex). apply Split_len in Hx. unfold parse_pair in Ex.
  destruct (strings_Contains x x3b); [done|]. destruct (decide (x = [])); [done|].
  destruct (strings_Cut x3d x) as [a b] eqn:Ec. apply Cut_len in Ec.
  destruct (url_QueryUnescape a); [|done]. cbn [mbind option_bind] in Ex.
  destruct (url_QueryUnescape (default [] b)) as [v'|] eqn:Ev; [|done]. injection Ex as <- <-.
  apply QueryUnescape_len in Ev. simpl. lia.
Qed.

(** Plain text is valid. *)
Lemma plain_ascii s : plain s -> Forall (fun c => byte_val c < 128) s.
Proof.
  intros H. eapply Forall_impl; [exact H|]. intros c Hc. cbn beta.
  assert (E : implb (unreserved c) (byte_val c <? 128) = true).
  { clear Hc. revert c. apply byte_forall. vm_compute. reflexivity. }
  rewrite Hc in E. by apply Z.ltb_lt.
Qed.
