(* ===== verification/Replication.v ===== *)
(** * Replication

    [server/replication.go]: the requests a master sends to its slaves after a
    write, one goroutine per slave with three attempts each. *)
From S2P Require Import Prelude Config Strs Json Http.
Open Scope Z_scope.

(** ** [SyncRequest] and its JSON *)
Record SyncRequest : Type := MkSyncRequest {
  Action : bytes;
  Key : bytes;
  Value : bytes;
}.

(** [json.Marshal(req)]; an empty value is left out.  The key of a request the
    replicator makes is not nil. *)
Definition SyncRequest_Marshal (req : SyncRequest) : bytes :=
  $"{" ++ json_string ($"action") ++ $":" ++ json_string (Action req)
  ++ $"," ++ json_string ($"key") ++ $":" ++ json_string (base64_encode (Key req))
  ++ (if decide (Value req = []) then []
      else $"," ++ json_string ($"value") ++ $":" ++ json_string (base64_encode (Value req)))
  ++ $"}".

(** One member of the object, into the field of its name; the flag says that no
    member had the wrong type. *)
Definition SyncRequest_member (acc : bool * SyncRequest) (m : bytes * json) : bool * SyncRequest :=
  let '(ok, req) := acc in
  let name := json_fold m.1 in
  if decide (name = $"action") then
    match json_to_string (Action req) m.2 with
    | Some a => (ok, MkSyncRequest a (Key req) (Value req)) | None => (false, req) end
  else if decide (name = $"key") then
    match json_to_bytes m.2 with
    | Some k => (ok, MkSyncRequest (Action req) k (Value req)) | None => (false, req) end
  else if decide (name = $"value") then
    match json_to_bytes m.2 with
    | Some v => (ok, MkSyncRequest (Action req) (Key req) v) | None => (false, req) end
  else acc.

(** [json.Unmarshal(body, &req)], from the empty request. *)
Definition SyncRequest_Unmarshal (body : bytes) : option SyncRequest :=
  match json_Unmarshal body with
  | Some (JObj l) =>
      let '(ok, req) := fold_left SyncRequest_member l (true, MkSyncRequest [] [] []) in
      if (ok : bool) then Some req else None
  | Some JNull => Some (MkSyncRequest [] [] [])
  | _ => None
  end.

(** ** [Replicator] *)
Record Replicator : Type := MkReplicator {
  slaves : list bytes;
  rep_syncKey : bytes;
}.

Definition NewReplicator (slaves : list bytes) (syncKey : bytes) : Replicator := MkReplicator slaves syncKey.

(** A goroutine [broadcast] starts: what it sends and where. *)
Record SyncTask : Type := MkSyncTask {
  t_url : bytes;
  t_data : bytes;
  t_syncKey : bytes;
}.

(** The goroutines started, one per slave. *)
Definition broadcast (r : Replicator) (req : SyncRequest) : list SyncTask :=
  if decide (slaves r = []) then []
  else
    let data := SyncRequest_Marshal req in
    (fun url => MkSyncTask url data (rep_syncKey r)) <$> slaves r.

Definition SyncPut (r : Replicator) (key value : bytes) : list SyncTask :=
  broadcast r (MkSyncRequest ($"put") key value).
Definition SyncDelete (r : Replicator) (key : bytes) : list SyncTask :=
  broadcast r (MkSyncRequest ($"delete") key []).

(** ** The goroutine *)
Definition maxRetries : nat := 3.

(** The request of one attempt. *)
Definition sync_request (t : SyncTask) : error + OutRequest :=
  match http_NewRequest MethodPost (t_url t ++ $"/sync") (t_data t) with
  | inl err => inl err
  | inr q =>
      let h := Header_Set (oq_Header q) ($"Content-Type") ($"application/json") in
      let h := if decide (t_syncKey t = []) then h else Header_Set h ($"X-Sync-Key") (t_syncKey t) in
      inr (set_oq_Header h q)
  end.

Section attempts.
Context {N : Network}.

(** The attempts left, each until one is answered with [StatusOK]; the result
    says whether one was. *)
Fixpoint sync_attempts (n : nat) (t : SyncTask) (w : World) : bool * World :=
  match n with
  | O => (false, w)
  | S n =>
      match sync_request t with
      | inl _ => (false, w)
      | inr q =>
          match net_Do q w with
          | (inr resp, w) => if rp_StatusCode resp =? StatusOK then (true, w) else sync_attempts n t w
          | (inl _, w) => sync_attempts n t w
          end
      end
  end.

Definition sync_goroutine (t : SyncTask) (w : World) : bool * World := sync_attempts maxRetries t w.
End attempts.

Example marshal_ex :
  SyncRequest_Marshal (MkSyncRequest ($"put") ($"k1") ($"v1")) = quoted ($"{'action':'put','key':'azE=','value':'djE='}").
Proof. vm_compute. reflexivity. Qed.
Example unmarshal_ex :
  SyncRequest_Unmarshal (quoted ($"{'ACTION':'put','key':[107,49],'other':{},'value':null}"))
  = Some (MkSyncRequest ($"put") ($"k1") []).
Proof. vm_compute. reflexivity. Qed.

(** * Facts *)

(** ** A request survives the journey *)
Lemma parse_members_S fuel depth s :
  parse_members (S fuel) depth s =
    s ← cut_prefix [x22] (skip_space s);
    '(key, rest) ← parse_string (S (length s)) s;
    rest ← cut_prefix [x3a] (skip_space rest);
    '(v, rest) ← parse_value fuel depth rest;
    match cut_prefix [x2c] (skip_space rest) with
    | Some rest => '(l, rest) ← parse_members fuel depth rest; Some ((key, v) :: l, rest)
    | None => rest ← cut_prefix [x7d] (skip_space rest); Some ([(key, v)], rest)
    end.
Proof. reflexivity. Qed.

(** A member whose value is a string. *)
Lemma parse_member fuel depth name s rest : utf8_valid name = true -> utf8_valid s = true ->
  parse_members (S (S fuel)) depth (json_string name ++ $":" ++ json_string s ++ rest) =
    match cut_prefix [x2c] (skip_space rest) with
    | Some rest => '(l, rest) ← parse_members (S fuel) depth rest; Some ((name, JStr s) :: l, rest)
    | None => rest ← cut_prefix [x7d] (skip_space rest); Some ([(name, JStr s)], rest)
    end.
Proof.
  intros Hn Hs. rewrite parse_members_S. unfold json_string at 1. cbn [app]. rewrite quote_next. cbn [mbind option_bind].
  rewrite <- (assoc_L (++)). cbn [app].
  rewrite (parse_json_chars (length name) name); [|done|done|rewrite length_app; lia].
  cbn [mbind option_bind].
  rewrite colon_next. cbn [mbind option_bind]. by rewrite parse_json_string.
Qed.

(** Base64 is ASCII. *)
Lemma base64_encode_ascii s : Forall (fun c => byte_val c < 128) (base64_encode s).
Proof.
  assert (H : forall z, 0 <= z < 64 -> byte_val (base64_char z) < 128).
  { intros z Hz. unfold base64_char. rewrite byte_val_to_byte. repeat case_match; lia. }
  induction s as [|a|a b|a b c s IH] using list_ind3; cbn [base64_encode]; [constructor|..];
    pose proof (byte_val_range a);
    try pose proof (byte_val_range b); try pose proof (byte_val_range c);
    repeat constructor; try (apply H; lia); try (vm_compute; reflexivity); done.
Qed.

Lemma ascii_valid s : Forall (fun c => byte_val c < 128) s -> utf8_valid s = true.
Proof.
  unfold utf8_valid. induction 1 as [|c s Hc Hs IH]; [done|]. cbn [length utf8_valid_loop].
  by rewrite utf8_rune_low.
Qed.

Lemma base64_valid s : utf8_valid (base64_encode s) = true.
Proof. apply ascii_valid, base64_encode_ascii. Qed.

Lemma json_object_start s : exists fuel, json_Unmarshal ($"{" ++ json_string ($"action") ++ s)
  = match parse_members (S (S (S (S fuel)))) 1 (json_string ($"action") ++ s) with
    | Some (l, rest) => if decide (skip_space rest = []) then Some (JObj l) else None
    | None => None
    end.
Proof.
  unfold json_Unmarshal, json_fuel. rewrite Nat.add_comm.
  assert (E : exists fuel, (2 * length ($"{" ++ json_string ($"action") ++ s))%nat = S (S (S fuel))).
  { rewrite !length_app. exists (2 * length ($"{" ++ json_string ($"action") ++ s) - 3)%nat. rewrite !length_app. simpl. lia. }
  destruct E as [fuel ->]. exists fuel. cbn [Nat.add]. cbn [parse_value].
  change (skip_space ($"{" ++ json_string ($"action") ++ s)) with (x7b :: json_string ($"action") ++ s).
  cbv iota. rewrite decide_False by done. rewrite decide_True by done.
  change (maxNestingDepth <=? 0) with false. cbv iota.
  change (cut_prefix [x7d] (skip_space (json_string ($"action") ++ s))) with (@None bytes). cbv iota.
  change (0 + 1) with 1. destruct (parse_members _ 1 _) as [[l rest]|]; [|done]. cbn [mbind option_bind].
  by case_decide.
Qed.

Lemma member_end t : cut_prefix [x2c] (skip_space ($"}" ++ t)) = None /\ cut_prefix [x7d] (skip_space ($"}" ++ t)) = Some t.
Proof. split; reflexivity. Qed.

(** [json.Unmarshal] gives back what [json.Marshal] was given. *)
Lemma SyncRequest_roundtrip req :
  utf8_valid (Action req) = true -> SyncRequest_Unmarshal (SyncRequest_Marshal req) = Some req.
Proof.
  intros Ha. destruct req as [action key value]. simpl in Ha. unfold SyncRequest_Unmarshal, SyncRequest_Marshal.
  cbn [Action Key Value].
  destruct (json_object_start ($":" ++ json_string action
    ++ $"," ++ json_string ($"key") ++ $":" ++ json_string (base64_encode key)
    ++ (if decide (value = []) then [] else $"," ++ json_string ($"value") ++ $":" ++ json_string (base64_encode value))
    ++ $"}")) as [fuel ->].
  rewrite parse_member by done. rewrite comma_text_next.
  rewrite parse_member by (done || apply base64_valid).
  case_decide as Hv.
  - subst value. cbn [app]. destruct (member_end []) as [E1 E2]. change ($"}") with ($"}" ++ []). rewrite E1, E2.
    cbn [mbind option_bind]. rewrite decide_True by done. cbn [fold_left].
    unfold SyncRequest_member. cbn [fst snd]. 
    rewrite decide_True by reflexivity. cbn [json_to_string]. rewrite decide_False by done. rewrite decide_True by reflexivity.
    cbn [json_to_bytes]. by rewrite base64_roundtrip.
  - rewrite <- (assoc_L (++)). rewrite comma_text_next. rewrite <- !(assoc_L (++)).
    rewrite parse_member by (done || apply base64_valid). destruct (member_end []) as [E1 E2].
    change ($"}") with ($"}" ++ []). rewrite E1, E2.
    cbn [mbind option_bind]. rewrite decide_True by done. cbn [fold_left].
    unfold SyncRequest_member. cbn [fst snd].
    rewrite decide_True by reflexivity. cbn [json_to_string]. rewrite decide_False by done. rewrite decide_True by reflexivity.
    cbn [json_to_bytes]. rewrite base64_roundtrip.
    rewrite decide_False by done. rewrite decide_False by done. rewrite decide_True by reflexivity. by rewrite base64_roundtrip.
Qed.
