(* ===== verification/Server.v ===== *)
(** * The HTTP server

    [server/server.go]: the handlers of the API over a database, the endpoint the
    replicas of a master call, and the role of the node; [HealthResponse] with its
    JSON.  A handler runs on the response writer and the state of the server; the
    goroutines a write starts are added to [sv_tasks]. *)
From S2P Require Import Prelude GoBinary Config GoOs WalLib Record BTreeLib Index Watch Store Batch DB.
From S2P Require Import Strs Json Http Replication.
Open Scope Z_scope.

(** ** Roles *)
Definition MASTER : bytes := $"MASTER".
Definition SLAVE : bytes := $"SLAVE".

(** ** [HealthResponse]; the number is kept as its text *)
Record HealthResponse : Type := MkHealthResponse {
  hr_Status : bytes;
  hr_Role : bytes;
  hr_Uptime : bytes;
  hr_MemoryAllocMB : bytes;
}.

Definition HealthResponse_Encode (h : HealthResponse) : bytes :=
  $"{" ++ json_string ($"status") ++ $":" ++ json_string (hr_Status h)
  ++ $"," ++ json_string ($"role") ++ $":" ++ json_string (hr_Role h)
  ++ $"," ++ json_string ($"uptime") ++ $":" ++ json_string (hr_Uptime h)
  ++ $"," ++ json_string ($"memory_alloc_mb") ++ $":" ++ hr_MemoryAllocMB h ++ $"}" ++ [x0a].

Definition HealthResponse_member (acc : bool * HealthResponse) (m : bytes * json) : bool * HealthResponse :=
  let '(ok, h) := acc in
  let '(MkHealthResponse status role uptime mem) := h in
  let name := json_fold m.1 in
  if decide (name = $"status") then
    match json_to_string status m.2 with Some x => (ok, MkHealthResponse x role uptime mem) | None => (false, h) end
  else if decide (name = $"role") then
    match json_to_string role m.2 with Some x => (ok, MkHealthResponse status x uptime mem) | None => (false, h) end
  else if decide (name = $"uptime") then
    match json_to_string uptime m.2 with Some x => (ok, MkHealthResponse status role x mem) | None => (false, h) end
  else if decide (name = $"memory_alloc_mb") then
    match json_to_float mem m.2 with Some x => (ok, MkHealthResponse status role uptime x) | None => (false, h) end
  else acc.

(** [json.NewDecoder(body).Decode(&health)], from the empty response. *)
Definition HealthResponse_Decode (body : bytes) : option HealthResponse :=
  match json_Decode body with
  | Some (JObj l) =>
      let '(ok, h) := fold_left HealthResponse_member l (true, MkHealthResponse [] [] [] ($"0")) in
      if (ok : bool) then Some h else None
  | Some JNull => Some (MkHealthResponse [] [] [] ($"0"))
  | _ => None
  end.

(** [Duration.String] of a whole number of seconds, not negative. *)
Definition seconds_String (d : Z) : bytes :=
  let h := d / 3600 in let m := d / 60 mod 60 in
  (if 0 <? h then itoa h ++ $"h" else []) ++ (if 0 <? d / 60 then itoa m ++ $"m" else []) ++ itoa (d mod 60) ++ $"s".

Section server.
Context {W : WalLib} {B : BTreeLib item item_less} {SF : Snowflake} {MH : MemHashLib} {RX : Regexp}
  {ML : MultipartLib}.

(** ** [Server]

    The lock of the role is held only to read or to set it. *)
Record Server : Type := MkServer {
  sv_db : Store;
  sv_replicator : option Replicator;
  sv_startTime : Z;
  sv_syncKey : bytes;
  sv_role : bytes;
  sv_tasks : list SyncTask;
}.

Definition set_sv_db (d : Store) (s : Server) : Server :=
  MkServer d (sv_replicator s) (sv_startTime s) (sv_syncKey s) (sv_role s) (sv_tasks s).
Definition set_sv_role (r : bytes) (s : Server) : Server :=
  MkServer (sv_db s) (sv_replicator s) (sv_startTime s) (sv_syncKey s) r (sv_tasks s).
Definition add_sv_tasks (l : list SyncTask) (s : Server) : Server :=
  MkServer (sv_db s) (sv_replicator s) (sv_startTime s) (sv_syncKey s) (sv_role s) (sv_tasks s ++ l).

Definition NewServer (now : Z) (db : Store) (replicator : option Replicator) (syncKey : bytes) : Server :=
  MkServer db replicator now syncKey MASTER [].

Definition ServerM (A : Type) : Type := HttpM Server A.

Definition GetRole : ServerM bytes := in_state (fun s => Ret (sv_role s, s)).
Definition SetRole (role : bytes) (s : Server) : Server := set_sv_role role s.

(** A call of [s.db]. *)
Definition call_db {A} (m : DbM A) : ServerM A := in_state (fun s =>
  match m (sv_db s) with Ret (a, d) => Ret (a, set_sv_db d s) | Panic => Panic | Blocked => Blocked end).

(** A call of [s.replicator], if there is one. *)
Definition call_replicator (f : Replicator -> list SyncTask) : ServerM unit := in_state (fun s =>
  Ret (tt, match sv_replicator s with Some rep => add_sv_tasks (f rep) s | None => s end)).

(** What the clocks show while a request is served: the id generator, the time of
    the database calls, the expiry checks of a traversal; and the memory in use,
    as text. *)
Record Moment : Type := MkMoment {
  mo_clock : Z;
  mo_now : Z;
  mo_key_clock : bytes -> Z;
  mo_memory : bytes;
}.
Context (t : Moment).

(** ** Handlers *)
Definition handlePut (r : Request) : ServerM unit :=
  let! role := GetRole in
  if bool_decide (role <> MASTER)
  then http_Error ($"Forbidden: Only MASTER node can accept write requests") StatusForbidden else
  if bool_decide (rq_Method r <> MethodPost) then http_Error ($"Method not allowed") StatusMethodNotAllowed else
  let '(key, r) := FormValue r ($"key") in
  let '(value, r) := FormValue r ($"value") in
  if bool_decide (key = []) || bool_decide (value = [])
  then http_Error ($"Missing key or value") StatusBadRequest else
  let! err := call_db (DB_Put (mo_clock t) (mo_now t) key value) in
  match err with
  | Some err => http_Error (error_Error err) StatusInternalServerError
  | None =>
      call_replicator (fun rep => SyncPut rep key value) ;;;
      WriteHeader StatusOK ;;;
      Write ($"OK" ++ [x0a])
  end.

Definition handleGet (r : Request) : ServerM unit :=
  if bool_decide (rq_Method r <> MethodGet) then http_Error ($"Method not allowed") StatusMethodNotAllowed else
  let key := Query_Get r ($"key") in
  if bool_decide (key = []) then http_Error ($"Missing key") StatusBadRequest else
  let! val := call_db (DB_Get (mo_now t) key) in
  match val with
  | inl err => http_Error (error_Error err) StatusNotFound
  | inr val =>
      WriteHeader StatusOK ;;;
      Write val ;;;
      Write [x0a]
  end.

Definition handleDelete (r : Request) : ServerM unit :=
  let! role := GetRole in
  if bool_decide (role <> MASTER)
  then http_Error ($"Forbidden: Only MASTER node can accept delete requests") StatusForbidden else
  if bool_decide (rq_Method r <> MethodDelete) && bool_decide (rq_Method r <> MethodPost)
  then http_Error ($"Method not allowed") StatusMethodNotAllowed else
  let '(key, r) := FormValue r ($"key") in
  let key := if bool_decide (key = []) then Query_Get r ($"key") else key in
  if bool_decide (key = []) then http_Error ($"Missing key") StatusBadRequest else
  let! err := call_db (DB_Delete (mo_clock t) (mo_now t) key) in
  match err with
  | Some err => http_Error (error_Error err) StatusInternalServerError
  | None =>
      call_replicator (fun rep => SyncDelete rep key) ;;;
      WriteHeader StatusOK ;;;
      Write ($"OK" ++ [x0a])
  end.

(** What a sync request asks of the database; another action asks nothing. *)
Definition sync_action (req : SyncRequest) : DbM (option error) :=
  if bool_decide (Action req = $"put") then DB_Put (mo_clock t) (mo_now t) (Key req) (Value req)
  else if bool_decide (Action req = $"delete") then DB_Delete (mo_clock t) (mo_now t) (Key req)
  else gret None.

Definition handleSync (r : Request) : ServerM unit :=
  if bool_decide (rq_Method r <> MethodPost) then http_Error ($"Method not allowed") StatusMethodNotAllowed else
  let! syncKey := in_state (fun s => Ret (sv_syncKey s, s)) in
  if bool_decide (syncKey <> []) && bool_decide (Header_Get (rq_Header r) ($"X-Sync-Key") <> syncKey)
  then http_Error ($"Unauthorized") StatusUnauthorized else
  match ReadAll r with
  | None => http_Error ($"Failed to read body") StatusBadRequest
  | Some body =>
      match SyncRequest_Unmarshal body with
      | None => http_Error ($"Invalid JSON") StatusBadRequest
      | Some req =>
          let! err := call_db (sync_action req) in
          match err with
          | Some err => http_Error (error_Error err) StatusInternalServerError
          | None =>
              WriteHeader StatusOK ;;;
              Write ($"SYNC OK" ++ [x0a])
          end
      end
  end.

Definition handleHealth (r : Request) : ServerM unit :=
  if bool_decide (rq_Method r <> MethodGet) then http_Error ($"Method not allowed") StatusMethodNotAllowed else
  let! role := GetRole in
  let! startTime := in_state (fun s => Ret (sv_startTime s, s)) in
  let res := MkHealthResponse ($"OK") role (seconds_String ((mo_now t - startTime) / 10 ^ 9)) (mo_memory t) in
  SetHeader ($"Content-Type") ($"application/json") ;;;
  WriteHeader StatusOK ;;;
  Write (HealthResponse_Encode res).

(** The callback of [AscendKeys]: it appends the key. *)
Definition append_key (k : bytes) (keys : list bytes) : (bool * option error) * list bytes :=
  ((true, None), keys ++ [k]).

Definition handleKeys (r : Request) : ServerM unit :=
  if bool_decide (rq_Method r <> MethodGet) then http_Error ($"Method not allowed") StatusMethodNotAllowed else
  let! res := call_db (DB_AscendKeys (mo_key_clock t) [] true append_key []) in
  let '(err, keys) := res in
  match err with
  | Some err => http_Error (error_Error err) StatusInternalServerError
  | None =>
      SetHeader ($"Content-Type") ($"application/json") ;;;
      WriteHeader StatusOK ;;;
      Write (json_strings keys ++ [x0a])
  end.

(** ** The routes

    [mux]: the path decides; [page] is the text of the admin page,
    [dashboard] of [AdminPage.v] in the program.  A path that is
    not clean is redirected before it comes here. *)
Context (page : bytes).

Definition handleAdmin (r : Request) : ServerM unit := Write page.

Definition mux (r : Request) : ServerM unit :=
  let path := rq_Path r in
  if bool_decide (path = $"/put") then handlePut r
  else if bool_decide (path = $"/get") then handleGet r
  else if bool_decide (path = $"/delete") then handleDelete r
  else if bool_decide (path = $"/health") then handleHealth r
  else if bool_decide (path = $"/keys") then handleKeys r
  else if bool_decide (path = $"/admin") then handleAdmin r
  else if bool_decide (path = $"/sync") then handleSync r
  else http_Error ($"404 page not found") StatusNotFound.

(** [s.ServeHTTP(w, r)]: the response and the server afterwards. *)
Definition ServeHTTP (r : Request) (s : Server) : outcome (Response * Server) :=
  '(_, (w, s)) ← mux r (new_writer, s);
  Ret (writer_response w, s).
End server.

Example uptime_ex : seconds_String 0 = $"0s" /\ seconds_String 61 = $"1m1s" /\ seconds_String 7200 = $"2h0m0s".
Proof. vm_compute. repeat split; reflexivity. Qed.
Example health_ex :
  HealthResponse_Decode (HealthResponse_Encode (MkHealthResponse ($"OK") MASTER ($"10s") ($"1.5")))
  = Some (MkHealthResponse ($"OK") MASTER ($"10s") ($"1.5")).
Proof. vm_compute. reflexivity. Qed.
