(* ===== verification/AdminPage.v ===== *)
(** * The admin page

    [server/admin.go]: the text of the page that [handleAdmin] writes.  The
    template has no actions, so executing it writes its text. *)
From S2P Require Import Prelude Strs.
Open Scope Z_scope.

(** A line of the page, with [`] for the double quote. *)
Definition page_line (s : bytes) : bytes := (fun c => if decide (c = x60) then x22 else c) <$> s.

Definition page_lines : list bytes := [
  [];
  $"<!DOCTYPE html>";
  $"<html>";
  $"<head>";
  $"<meta charset=`UTF-8`>";
  $"<title>RoseDB Dashboard</title>";
  [];
  $"<style>";
  $"body{";
  $"	font-family:Arial,sans-serif;";
  $"	background:#f5f5f5;";
  $"	padding:30px;";
  $"}";
  [];
  $".card{";
  $"	background:white;";
  $"	padding:20px;";
  $"	border-radius:10px;";
  $"	max-width:600px;";
  $"	box-shadow:0 2px 8px rgba(0,0,0,.1);";
  $"}";
  [];
  $"h1{";
  $"	color:#333;";
  $"}";
  [];
  $".item{";
  $"	margin:10px 0;";
  $"	font-size:18px;";
  $"}";
  $"</style>";
  [];
  $"</head>";
  [];
  $"<body>";
  [];
  $"<div class=`card`>";
  [];
  $"<h1>RoseDB Dashboard</h1>";
  [];
  $"<div class=`item`>";
  $"Status:";
  $"<span id=`status`>Loading...</span>";
  $"</div>";
  [];
  $"<div class=`item`>";
  $"Role:";
  $"<span id=`role`>Loading...</span>";
  $"</div>";
  [];
  $"<div class=`item`>";
  $"Uptime:";
  $"<span id=`uptime`>Loading...</span>";
  $"</div>";
  [];
  $"<div class=`item`>";
  $"Memory:";
  $"<span id=`memory`>Loading...</span>";
  $"</div>";
  [];
  $"</div>";
  [];
  $"<script>";
  [];
  $"async function loadHealth(){";
  [];
  $"	try{";
  [];
  $"		const res = await fetch('/health');";
  $"		const data = await res.json();";
  [];
  $"		document.getElementById('status').innerText =";
  $"			data.status;";
  [];
  $"		document.getElementById('role').innerText =";
  $"			data.role;";
  [];
  $"		document.getElementById('uptime').innerText =";
  $"			data.uptime;";
  [];
  $"		document.getElementById('memory').innerText =";
  $"			data.memory_alloc_mb.toFixed(2) + ` MB`;";
  [];
  $"	}catch(err){";
  [];
  $"		document.getElementById('status').innerText =";
  $"			`OFFLINE`;";
  [];
  $"	}";
  [];
  $"}";
  [];
  $"loadHealth();";
  [];
  $"setInterval(loadHealth,2000);";
  [];
  $"</script>";
  [];
  $"</body>";
  $"</html>";
  []
].

Definition dashboard : bytes := strings_Join [x0a] (page_line <$> page_lines).

(** Does a text begin an action of a template somewhere? *)
Fixpoint has_action (s : bytes) : bool :=
  match s with
  | [] => false
  | _ :: s' => bool_decide (is_Some (cut_prefix ($"{{") s)) || has_action s'
  end.

(** What it asks for, and the members of the answer it shows. *)
Fixpoint occurs (p s : bytes) : bool :=
  bool_decide (is_Some (cut_prefix p s)) || match s with [] => false | _ :: s => occurs p s end.

Example dashboard_is_text : len dashboard = 1277 /\ has_action dashboard = false.
Proof. split; vm_compute; reflexivity. Qed.

Example dashboard_reads_health :
  Forall (fun p => occurs p dashboard = true)
    [$"fetch('/health')"; $"data.status"; $"data.role"; $"data.uptime"; $"data.memory_alloc_mb"].
Proof. repeat constructor; vm_compute; reflexivity. Qed.
