(* ===== verification/Failover.v ===== *)
(** * Failover

    [server/failover.go]: the goroutine of a slave that asks the master for its
    health at every tick, and takes its role over after three failures in a row. *)
From S2P Require Import Prelude GoBinary Config GoOs WalLib Record BTreeLib Index Watch Store Batch DB.
From S2P Require Import Strs Json Http Replication Server.
Open Scope Z_scope.

Section failover.
Context {W : WalLib} {B : BTreeLib item item_less} {SF : Snowflake} {MH : MemHashLib} {RX : Regexp}
  {ML : MultipartLib} {N : Network}.
Implicit Types (s : Server) (w : World).

(** The goroutine's own state. *)
Record HeartbeatWorker : Type := MkHeartbeatWorker {
  hw_masterURL : bytes;
  hw_consecutiveFailures : Z;
}.

(** [StartHeartbeatWorker(masterURL, interval)]: the server, and the goroutine if
    one is started. *)
Definition StartHeartbeatWorker (masterURL : bytes) s : option HeartbeatWorker * Server :=
  if bool_decide (masterURL = []) then (None, s)
  else (Some (MkHeartbeatWorker masterURL 0), SetRole SLAVE s).

(** Does the answer of the master say that it is well? *)
Definition master_ok (answer : error + Response) : bool :=
  match answer with
  | inl _ => false
  | inr resp =>
      match HealthResponse_Decode (rp_Body resp) with
      | None => false
      | Some health => bool_decide (hr_Status health = $"OK")
      end
  end.

(** One more failure: the third makes the node a master and ends the goroutine. *)
Definition heartbeat_failed (hw : HeartbeatWorker) s : option HeartbeatWorker * Server :=
  let n := hw_consecutiveFailures hw + 1 in
  if 3 <=? n then (None, SetRole MASTER s)
  else (Some (MkHeartbeatWorker (hw_masterURL hw) n), s).

(** One tick: the goroutine if it goes on, the server, the network, and whether
    the master was asked and well. *)
Definition heartbeat_tick (hw : HeartbeatWorker) s w : option HeartbeatWorker * Server * World * option bool :=
  if bool_decide (sv_role s = MASTER) then (None, s, w, None) else
  let '(answer, w) := http_Get (hw_masterURL hw ++ $"/health") w in
  if master_ok answer then (Some (MkHeartbeatWorker (hw_masterURL hw) 0), s, w, Some true)
  else let '(hw, s) := heartbeat_failed hw s in (hw, s, w, Some false).

(** Ticks, with what the other goroutines of the node and the rest of the network
    do before each; the answers are collected. *)
Fixpoint heartbeat_run (envs : list (Server * World -> Server * World)) (hw : option HeartbeatWorker) s w :
    option HeartbeatWorker * Server * World * list bool :=
  match envs with
  | [] => (hw, s, w, [])
  | env :: envs =>
      let '(s, w) := env (s, w) in
      match hw with
      | None => heartbeat_run envs None s w
      | Some hw =>
          let '(hw, s, w, a) := heartbeat_tick hw s w in
          let '(hw, s, w, l) := heartbeat_run envs hw s w in
          (hw, s, w, option_list a ++ l)
      end
  end.

(** * What the goroutine does *)

(** Three failures in a row, [n] of them before the list. *)
Fixpoint three_failures (n : nat) (answers : list bool) : bool :=
  match answers with
  | [] => false
  | true :: answers => three_failures 0 answers
  | false :: answers => (2 <=? n)%nat || three_failures (S n) answers
  end.

Definition keeps_role (env : Server * World -> Server * World) : Prop :=
  forall s w, sv_role (env (s, w)).1 = sv_role s.

Lemma heartbeat_run_stopped envs s w : Forall keeps_role envs ->
  exists s' w', heartbeat_run envs None s w = (None, s', w', []) /\ sv_role s' = sv_role s.
Proof.
  intros H. revert s w. induction H as [|env envs He H IH]; intros s w; cbn [heartbeat_run]; [by exists s, w|].
  specialize (He s w). destruct (env (s, w)) as [s1 w1]. simpl in He.
  destruct (IH s1 w1) as (s' & w' & E & Er). exists s', w'. split; [done|congruence].
Qed.

Lemma heartbeat_run_spec envs url n s w hw' s' w' l :
  Forall keeps_role envs -> (n < 3)%nat -> sv_role s = SLAVE ->
  heartbeat_run envs (Some (MkHeartbeatWorker url (Z.of_nat n))) s w = (hw', s', w', l) ->
  if three_failures n l then sv_role s' = MASTER /\ hw' = None /\ (length l <= length envs)%nat
  else sv_role s' = SLAVE /\ is_Some hw' /\ length l = length envs.
Proof.
  intros H. revert n s w hw' s' w' l. induction H as [|env envs He H IH]; intros n s w hw' s' w' l Hn Hr;
    cbn [heartbeat_run]; [by intros [= <- <- <- <-]|].
  specialize (He s w). destruct (env (s, w)) as [s1 w1]. simpl in He.
  unfold heartbeat_tick. rewrite bool_decide_eq_false_2 by (rewrite He, Hr; discriminate).
  cbn [hw_masterURL]. destruct (http_Get _ w1) as [answer w2].
  destruct (master_ok answer) eqn:Ea.
  - destruct (heartbeat_run envs _ s1 w2) as [[[hw2 s2] w3] l2] eqn:E. intros [= <- <- <- <-].
    specialize (IH 0%nat s1 w2 hw2 s2 w3 l2 ltac:(lia) ltac:(congruence) E).
    cbn [option_list app three_failures length]. destruct (three_failures 0 l2); destruct IH as (? & ? & ?); split_and!; try done; lia.
  - unfold heartbeat_failed. cbn [hw_consecutiveFailures hw_masterURL].
    destruct (3 <=? Z.of_nat n + 1) eqn:E3.
    + destruct (heartbeat_run_stopped envs (SetRole MASTER s1) w2 H) as (s2 & w3 & -> & Er).
      intros [= <- <- <- <-]. cbn [option_list app three_failures length].
      apply Z.leb_le in E3. rewrite (proj2 (Nat.leb_le 2 n)) by lia. simpl. split_and!; [by rewrite Er|done|lia].
    + replace (Z.of_nat n + 1) with (Z.of_nat (S n)) by lia.
      destruct (heartbeat_run envs _ s1 w2) as [[[hw2 s2] w3] l2] eqn:E. intros [= <- <- <- <-].
      apply Z.leb_gt in E3.
      specialize (IH (S n) s1 w2 hw2 s2 w3 l2 ltac:(lia) ltac:(congruence) E).
      cbn [option_list app three_failures length]. rewrite (proj2 (Nat.leb_gt 2 n)) by lia. cbn [orb].
      destruct (three_failures (S n) l2); destruct IH as (? & ? & ?); split_and!; try done; lia.
Qed.

(** Three failures with a success among fewer: they come after it. *)
Lemma after_success n (l1 l2 l : list bool) : (n < 3)%nat ->
  replicate n false ++ true :: l = l1 ++ [false; false; false] ++ l2 -> exists l1', l = l1' ++ [false; false; false] ++ l2.
Proof.
  intros Hn E. destruct n as [|[|[|n]]]; [| | |lia]; simpl in E.
  - destruct l1 as [|a l1]; simpl in E; simplify_eq. by exists l1.
  - destruct l1 as [|a [|b l1]]; simpl in E; simplify_eq. by exists l1.
  - destruct l1 as [|a [|b [|c l1]]]; simpl in E; simplify_eq. by exists l1.
Qed.

(** [three_failures] is what it says. *)
Lemma three_failures_iff n l : (n < 3)%nat ->
  three_failures n l = true <-> exists l1 l2, replicate n false ++ l = l1 ++ [false; false; false] ++ l2.
Proof.
  revert n. induction l as [|[] l IH]; intros n Hn; cbn [three_failures].
  - split; [done|]. intros (l1 & l2 & E). apply (f_equal length) in E.
    rewrite !length_app, length_replicate in E. simpl in E. lia.
  - rewrite IH by lia. simpl. split.
    + intros (l1 & l2 & ->). exists (replicate n false ++ true :: l1), l2. by rewrite <- (assoc_L (++)).
    + intros (l1 & l2 & E). destruct (after_success n l1 l2 l Hn E) as [l1' ->]. eauto.
  - replace (replicate n false ++ false :: l) with (replicate (S n) false ++ l)
      by (by rewrite replicate_S_end, <- (assoc_L (++))).
    destruct (decide (n = 2%nat)) as [->|Hn2].
    + split; [|done]. intros _. by exists [], l.
    + rewrite (proj2 (Nat.leb_gt 2 n)) by lia. cbn [orb]. apply IH. lia.
Qed.

(** The goroutine ends with the third failure. *)
Lemma heartbeat_run_end envs url n s w hw' s' w' l l1 l2 :
  Forall keeps_role envs -> (n < 3)%nat -> sv_role s = SLAVE ->
  heartbeat_run envs (Some (MkHeartbeatWorker url (Z.of_nat n))) s w = (hw', s', w', l) ->
  replicate n false ++ l = l1 ++ [false; false; false] ++ l2 -> l2 = [].
Proof.
  intros H. revert n s w hw' s' w' l l1. induction H as [|env envs He H IH]; intros n s w hw' s' w' l l1 Hn Hr;
    cbn [heartbeat_run].
  { intros [= <- <- <- <-] E. apply (f_equal length) in E. rewrite !length_app, length_replicate in E. simpl in E. lia. }
  specialize (He s w). destruct (env (s, w)) as [s1 w1]. simpl in He.
  unfold heartbeat_tick. rewrite bool_decide_eq_false_2 by (rewrite He, Hr; discriminate).
  cbn [hw_masterURL]. destruct (http_Get _ w1) as [answer w2]. destruct (master_ok answer) eqn:Ea.
  - destruct (heartbeat_run envs _ s1 w2) as [[[hw2 s2] w3] l3] eqn:E. intros [= <- <- <- <-]. cbn [option_list app].
    intros E'. assert (Hr1 : sv_role s1 = SLAVE) by congruence.
    destruct (after_success n l1 l2 l3 Hn E') as [l1' E''].
    by apply (IH 0%nat s1 w2 hw2 s2 w3 l3 l1' ltac:(lia) Hr1 E).
  - unfold heartbeat_failed. cbn [hw_consecutiveFailures hw_masterURL].
    destruct (3 <=? Z.of_nat n + 1) eqn:E3.
    + destruct (heartbeat_run_stopped envs (SetRole MASTER s1) w2 H) as (s2 & w3 & -> & Er).
      intros [= <- <- <- <-] E. cbn [option_list app] in E. apply (f_equal length) in E.
      rewrite !length_app, length_replicate in E. simpl in E. destruct l2; [done|]. simpl in E. lia.
    + replace (Z.of_nat n + 1) with (Z.of_nat (S n)) by lia.
      destruct (heartbeat_run envs _ s1 w2) as [[[hw2 s2] w3] l3] eqn:E. intros [= <- <- <- <-] E'.
      apply Z.leb_gt in E3. cbn [option_list app] in E'.
      apply (IH (S n) s1 w2 hw2 s2 w3 l3 l1 ltac:(lia) ltac:(congruence) E).
      etransitivity; [|exact E']. by rewrite replicate_S_end, <- (assoc_L (++)).
Qed.

End failover.
