(* ===== verification/Proxy.v ===== *)
(** * The proxy

    [cmd/proxy/main.go]: the ring of nodes behind a lock, the handler that sends a
    request to the node of its key, the endpoint that adds a node, in the two halves
    that others can come between, and the goroutine that moves keys to a new node. *)
From S2P Require Import Prelude GoBinary Config Ring Strs Json Http.
Open Scope Z_scope.

(** ** [Proxy] *)
Record Proxy : Type := MkProxy {
  px_ring : ConsistentHashRing;
  px_nodes : list bytes;
}.

Definition NewProxy : Proxy := MkProxy (New 10 None) [].

Definition Proxy_AddNode (node : bytes) (p : Proxy) : Proxy :=
  MkProxy (AddNode (px_ring p) [node]) (px_nodes p ++ [node]).
Definition Proxy_GetNode (p : Proxy) (key : bytes) : bytes := GetNode (px_ring p) key.
Definition Proxy_GetNodes (p : Proxy) : list bytes := px_nodes p.

(** The proxy [main] makes of the flag [-nodes]; none when the flag is empty,
    which is fatal. *)
Definition proxy_of_flag (nodesFlag : bytes) : option Proxy :=
  if bool_decide (nodesFlag = []) then None
  else
    let nodes := strings_TrimSpace <$> strings_Split x2c nodesFlag in
    Some (fold_left (fun p node => Proxy_AddNode node p) nodes NewProxy).

Section proxy.
Context {ML : MultipartLib} {N : Network}.

(** The process: the proxy, the network, and the migrations started, each with
    the nodes there were and the new one. *)
Record ProxyState : Type := MkProxyState {
  ps_proxy : Proxy;
  ps_world : World;
  ps_migrations : list (list bytes * bytes);
}.

Definition PxM (A : Type) : Type := GoM ProxyState A.

Definition px_get : PxM Proxy := fun s => Ret (ps_proxy s, s).
Definition px_modify (f : Proxy -> Proxy) : PxM unit := fun s =>
  Ret (tt, MkProxyState (f (ps_proxy s)) (ps_world s) (ps_migrations s)).
Definition px_go_migrate (oldNodes : list bytes) (newNode : bytes) : PxM unit := fun s =>
  Ret (tt, MkProxyState (ps_proxy s) (ps_world s) (ps_migrations s ++ [(oldNodes, newNode)])).
(** What a client of the network does. *)
Definition px_net {A} (f : World -> A * World) : PxM A := fun s =>
  let '(a, w) := f (ps_world s) in Ret (a, MkProxyState (ps_proxy s) w (ps_migrations s)).

(** ** Forwarding *)

(** The body of the request sent on: the form encoded again, if the request had
    one; else what is left of the body. *)
Definition forward_body (r : Request) : bytes * Request :=
  if bool_decide (rq_Method r ∈ [MethodPost; MethodPut; MethodDelete]) then
    let r := ParseForm r in
    let form := default [] (rq_PostForm r) in
    if 0 <? len form then (Values_Encode form, r) else (rq_Body r, r)
  else (rq_Body r, r).

(** The bytes that arrive are sent on; an error of [io.Copy] is only logged. *)
Definition copy_response (resp : Response) : HttpM ProxyState unit :=
  (fun '(w, s) => Ret (tt, (MkWriter (Header_copy (w_Header w) (rp_Header resp)) (w_Status w) (w_Body w), s))) ;;;
  WriteHeader (rp_StatusCode resp) ;;;
  Write (rp_Body resp).

Definition forwardRequest (targetNode : bytes) (r : Request) : HttpM ProxyState unit :=
  let targetNode := strings_TrimRight targetNode x2f in
  let targetURL := targetNode ++ RequestURI r in
  let '(body, r) := forward_body r in
  match http_NewRequest (rq_Method r) targetURL body with
  | inl _ => http_Error ($"Error creating proxy request") StatusInternalServerError
  | inr proxyReq =>
      let proxyReq := set_oq_Header (Header_copy (oq_Header proxyReq) (rq_Header r)) proxyReq in
      let! res := in_state (px_net (net_Do proxyReq)) in
      match res with
      | inl _ => http_Error ($"Error forwarding request") StatusBadGateway
      | inr resp => copy_response resp
      end
  end.

(** The handler of [/get], [/put] and [/delete]. *)
Definition route_handler (r : Request) : HttpM ProxyState unit :=
  let '(key, r) := FormValue r ($"key") in
  let key := if bool_decide (key = []) then Query_Get r ($"key") else key in
  if bool_decide (key = []) then http_Error ($"Missing key parameter") StatusBadRequest else
  let! p := in_state px_get in
  let targetNode := Proxy_GetNode p key in
  if bool_decide (targetNode = []) then http_Error ($"No available nodes") StatusInternalServerError else
  forwardRequest targetNode r.

(** The handler of [/add-node] takes the lock twice, and others may add nodes in
    between.  Its first half, up to the list of nodes it reads: *)
Definition add_node_reads (r : Request) : HttpM ProxyState (option (list bytes * bytes)) :=
  if bool_decide (rq_Method r <> MethodPost)
  then http_Error ($"Method not allowed") StatusMethodNotAllowed ;;; gret None else
  let newNode := Query_Get r ($"node") in
  if bool_decide (newNode = [])
  then http_Error ($"Missing node parameter") StatusBadRequest ;;; gret None else
  let newNode := strings_TrimRight (strings_TrimSpace newNode) x2f in
  let! p := in_state px_get in
  let oldNodes := Proxy_GetNodes p in
  gret (Some (oldNodes, newNode)).

(** ... and its second half. *)
Definition add_node_adds (oldNodes : list bytes) (newNode : bytes) : HttpM ProxyState unit :=
  in_state (px_modify (Proxy_AddNode newNode)) ;;;
  in_state (px_go_migrate oldNodes newNode) ;;;
  WriteHeader StatusOK ;;;
  Write ($"Node added and migration started" ++ [x0a]).

Definition add_node_handler (r : Request) : HttpM ProxyState unit :=
  let! read := add_node_reads r in
  match read with
  | None => gret tt
  | Some (oldNodes, newNode) => add_node_adds oldNodes newNode
  end.

(** The routes of [main]. *)
Definition proxy_mux (r : Request) : HttpM ProxyState unit :=
  if bool_decide (rq_Path r ∈ [$"/get"; $"/put"; $"/delete"]) then route_handler r
  else if bool_decide (rq_Path r = $"/add-node") then add_node_handler r
  else http_Error ($"404 page not found") StatusNotFound.

Definition proxy_ServeHTTP (r : Request) (s : ProxyState) : outcome (Response * ProxyState) :=
  '(_, (w, s)) ← proxy_mux r (new_writer, s);
  Ret (writer_response w, s).

(** ** Moving keys to a new node *)

(** A form posted to [url]: a request that cannot be made is nil, and setting its
    header panics. *)
Definition post_form (url body : bytes) : PxM (error + Response) :=
  match http_NewRequest MethodPost url body with
  | inl _ => glift Panic
  | inr q => px_net (net_Do (set_oq_Header (Header_Set (oq_Header q) ($"Content-Type") form_type) q))
  end.

(** A response with [StatusOK], or nothing. *)
Definition ok_response (res : error + Response) : option Response :=
  match res with
  | inr resp => if rp_StatusCode resp =? StatusOK then Some resp else None
  | inl _ => None
  end.

(** One key of an old node. *)
Definition migrate_key (oldNode newNode key : bytes) : PxM unit :=
  let! p := px_get in
  if bool_decide (Proxy_GetNode p key <> newNode) then gret tt else
  let! res := px_net (http_Get (oldNode ++ $"/get?key=" ++ key)) in
  match ok_response res with
  | None => gret tt
  | Some getResp =>
      let '(valueBytes, _) := io_ReadAll getResp in
      let value := strings_TrimSpace valueBytes in
      let! res := post_form (newNode ++ $"/put") ($"key=" ++ key ++ $"&value=" ++ value) in
      match ok_response res with
      | None => gret tt
      | Some _ =>
          let! _ := post_form (oldNode ++ $"/delete") ($"key=" ++ key) in gret tt
      end
  end.

(** The keys an old node answers with. *)
Definition fetch_keys (oldNode : bytes) : PxM (option (list bytes)) :=
  let! res := px_net (http_Get (oldNode ++ $"/keys")) in
  match res with
  | inl _ => gret None
  | inr resp => gret (json_Decode (rp_Body resp) ≫= json_to_strings)
  end.

(** [others] is what the other goroutines of the proxy do before each key. *)
Context (others : PxM unit).

Fixpoint migrate_keys (oldNode newNode : bytes) (keys : list bytes) : PxM unit :=
  match keys with
  | [] => gret tt
  | key :: keys => others ;;; migrate_key oldNode newNode key ;;; migrate_keys oldNode newNode keys
  end.

Fixpoint migrateData (oldNodes : list bytes) (newNode : bytes) : PxM unit :=
  match oldNodes with
  | [] => gret tt
  | oldNode :: oldNodes =>
      let! keys := fetch_keys oldNode in
      match keys with
      | None => migrateData oldNodes newNode
      | Some keys => migrate_keys oldNode newNode keys ;;; migrateData oldNodes newNode
      end
  end.
End proxy.
