(* ===== verification/Cmd.v ===== *)
(** * The command lines

    [cmd/server/main.go], [cmd/cli/main.go] and what [cmd/proxy/main.go] makes of
    its arguments: how the server is put together from its flags and how it ends,
    and what the client asks for and prints.  A [main] is a function of the
    arguments of the process; a number is the status it exits with. *)
From S2P Require Import Prelude GoBinary Config GoOs Filepath WalLib Record BTreeLib Index Watch Store Batch DB Open.
From S2P Require Import Strs Flags Ring Json Http Replication Server AdminPage Failover Proxy.
Open Scope Z_scope.

Section server_main.
Context {W : WalLib} {B : BTreeLib item item_less} {SF : Snowflake} {MH : MemHashLib} {RX : Regexp}
  {ML : MultipartLib} {N : Network}.

(** The flags of the server. *)
Record ServerFlags : Type := MkServerFlags {
  fl_port : Z;
  fl_dbpath : bytes;
  fl_slaves : bytes;
  fl_sync_key : bytes;
  fl_master : bytes;
}.

Definition server_formal : FlagSet :=
  <[$"port" := FInt 8080]> (<[$"dbpath" := FString ($"/tmp/rosedb_server")]> (<[$"slaves" := FString []]>
  (<[$"sync-key" := FString []]> (<[$"master" := FString []]> ∅)))).

Definition server_args (args : list bytes) : Z + ServerFlags :=
  match flag_Parse server_formal args with
  | inl status => inl status
  | inr (f, _) => inr (MkServerFlags (flag_int f ($"port")) (flag_string f ($"dbpath")) (flag_string f ($"slaves"))
                         (flag_string f ($"sync-key")) (flag_string f ($"master")))
  end.

(** Where it listens. *)
Definition listen_addr (port : Z) : bytes := $":" ++ itoa port.

(** The options of its database. *)
Definition server_options (flags : ServerFlags) : Options :=
  let options := DefaultOptions [] in
  MkOptions (fl_dbpath flags) (o_SegmentSize options) (o_Sync options) (o_BytesPerSync options)
    (o_WatchQueueSize options) (o_AutoMergeCronExpr options).

Definition flag_replicator (flags : ServerFlags) : option Replicator :=
  if bool_decide (fl_slaves flags = []) then None
  else Some (NewReplicator (strings_TrimSpace <$> strings_Split x2c (fl_slaves flags)) (fl_sync_key flags)).

(** The server [main] starts, with its heartbeat goroutine; an error of [Open]
    is fatal.  [hold] is the answer of the file lock, [cron_Parse] and
    [cron_AddFunc] the parsers of the scheduler. *)
Definition server_start (cron_Parse cron_AddFunc : bytes -> option error) (hold : error + bool) (fuel : nat)
    (now : Z) (flags : ServerFlags) (fs : FileSys) :
    outcome ((error + (option HeartbeatWorker * Server)) * FileSys) :=
  '(r, fs) ← DB_Open cron_Parse cron_AddFunc hold fuel now (server_options flags) fs;
  match r with
  | inl err => Ret (inl err, fs)
  | inr db =>
      let srv := NewServer now (MkStore db fs) (flag_replicator flags) (fl_sync_key flags) in
      Ret (inr (if bool_decide (fl_master flags <> []) then StartHeartbeatWorker (fl_master flags) srv
                else (None, srv)), fs)
  end.

(** What a server that starts prints. *)
Definition start_lines (flags : ServerFlags) : list bytes :=
  [match flag_replicator flags with
   | Some rep => $"Running as MASTER with " ++ itoa (len (slaves rep)) ++ $" slaves"
   | None => $"Running as Standalone or SLAVE node"
   end;
   $"RoseDB HTTP Server is listening on " ++ listen_addr (fl_port flags); $"Data directory: " ++ fl_dbpath flags].

(** [main] up to the listening: the lines printed, and the status of a process
    that ends there or the address and the server. *)
Definition server_main (cron_Parse cron_AddFunc : bytes -> option error) (hold : error + bool) (fuel : nat)
    (now : Z) (args : list bytes) (fs : FileSys) :
    outcome (list bytes * (Z + (bytes * (option HeartbeatWorker * Server))) * FileSys) :=
  match server_args args with
  | inl status => Ret ([], inl status, fs)
  | inr flags =>
      '(r, fs) ← server_start cron_Parse cron_AddFunc hold fuel now flags fs;
      match r with
      | inl err => Ret ([], inl 1, fs)
      | inr srv => Ret (start_lines flags, inr (listen_addr (fl_port flags), srv), fs)
      end
  end.

(** [loggingMiddleware]: the handler between two lines of the log; [target] is
    the request line's target, [elapsed] the time spent as text. *)
Definition loggingMiddleware (target elapsed : bytes) (next : Request -> Server -> outcome (Response * Server))
    (r : Request) (s : Server) : outcome (Response * Server * list bytes) :=
  '(resp, s) ← next r s;
  Ret (resp, s, [$"Started " ++ rq_Method r ++ $" " ++ target;
                 $"Completed " ++ rq_Method r ++ $" " ++ target ++ $" in " ++ elapsed]).

(** The handler of the HTTP server. *)
Definition server_handler (t : Moment) (target elapsed : bytes) : Request -> Server -> outcome (Response * Server * list bytes) :=
  loggingMiddleware target elapsed (ServeHTTP t dashboard).

(** How the server ends: it could not listen, or it was told to stop and shut down
    in time, or not in time. *)
Inductive ServerEnd : Type :=
| ListenFailed
| ShutDown
| ShutdownTimeout.

(** The deferred [db.Close] runs when [main] returns; [log.Fatal] leaves the
    process without it. *)
Definition server_end (unlock_err : option error) (e : ServerEnd) (s : Server) : outcome (option error * Server) :=
  match e with
  | ListenFailed | ShutDown =>
      '(err, d) ← DB_Close unlock_err (sv_db s); Ret (err, set_sv_db d s)
  | ShutdownTimeout => Ret (None, s)
  end.
End server_main.

(** ** The proxy *)
Definition proxy_formal : FlagSet := <[$"port" := FInt 9000]> (<[$"nodes" := FString []]> ∅).

(** The address it listens on and the ring of its nodes. *)
Definition proxy_main (args : list bytes) : Z + (bytes * Proxy) :=
  match flag_Parse proxy_formal args with
  | inl status => inl status
  | inr (f, _) =>
      match proxy_of_flag (flag_string f ($"nodes")) with
      | None => inl 1
      | Some proxy => inr (listen_addr (flag_int f ($"port")), proxy)
      end
  end.

(** ** The client *)
Definition cli_formal : FlagSet := {[$"server" := FString ($"http://localhost:8080")]}.

Definition usage_text : list bytes :=
  [$"RoseDB CLI"; $"Usage:"; $"  get <key>"; $"  put <key> <value>"; $"  delete <key>"; $"  health"; [];
   $"Examples:"; $"  go run cmd/cli/main.go get name"; $"  go run cmd/cli/main.go put name Duy";
   $"  go run cmd/cli/main.go delete name"; $"  go run cmd/cli/main.go health";
   $"  go run cmd/cli/main.go -server http://localhost:8081 health"].

Section cli.
Context {N : Network}.

(** The lines printed, and the network afterwards. *)
Definition CliM : Type := World -> list bytes * World.

Definition print_lines (l : list bytes) : CliM := fun w => (l, w).

(** The body of the answer, or the error of the request or of reading it. *)
Definition answer_lines (res : error + Response) : list bytes :=
  match res with
  | inl err => [$"Error: " ++ error_Error err]
  | inr resp =>
      match io_ReadAll resp with
      | (_, Some err) => [$"Error: " ++ error_Error err]
      | (body, None) => [body]
      end
  end.

Definition print_answer (f : World -> (error + Response) * World) : CliM := fun w =>
  let '(res, w) := f w in (answer_lines res, w).

(** [http.PostForm] *)
Definition http_PostForm (url : bytes) (data : Values) (w : World) : (error + Response) * World :=
  match http_NewRequest MethodPost url (Values_Encode data) with
  | inl err => (inl err, w)
  | inr q => net_Do (set_oq_Header (Header_Set (oq_Header q) ($"Content-Type") form_type) q) w
  end.

Definition do_request (method url : bytes) (w : World) : (error + Response) * World :=
  match http_NewRequest method url [] with
  | inl err => (inl err, w)
  | inr q => net_Do q w
  end.

(** [main], the flag [-server] and the other arguments given. *)
Definition cli_main (serverAddr : bytes) (args : list bytes) : CliM :=
  match args with
  | [] => print_lines usage_text
  | cmd :: args =>
      if bool_decide (cmd = $"get") then
        match args with
        | [] => print_lines [$"Usage: get <key>"]
        | key :: _ => print_answer (http_Get (serverAddr ++ $"/get?key=" ++ key))
        end
      else if bool_decide (cmd = $"put") then
        match args with
        | key :: value :: _ => print_answer (http_PostForm (serverAddr ++ $"/put") [($"key", key); ($"value", value)])
        | _ => print_lines [$"Usage: put <key> <value>"]
        end
      else if bool_decide (cmd = $"delete") then
        match args with
        | [] => print_lines [$"Usage: delete <key>"]
        | key :: _ => print_answer (do_request MethodDelete (serverAddr ++ $"/delete?key=" ++ key))
        end
      else if bool_decide (cmd = $"health") then print_answer (http_Get (serverAddr ++ $"/health"))
      else print_lines ($"Unknown command" :: usage_text)
  end.

(** The process, run with its arguments. *)
Definition cli_process (args : list bytes) : Z + CliM :=
  match flag_Parse cli_formal args with
  | inl status => inl status
  | inr (f, args) => inr (cli_main (flag_string f ($"server")) args)
  end.
End cli.

(** ** What the arguments mean *)

(** The arguments that give a server its flags, each in the form [joined] says. *)
Definition server_settings (joined : bytes -> bool) (flags : ServerFlags) : list Setting :=
  (fun nv : bytes * FlagValue => MkSetting (joined nv.1) nv.1 nv.2) <$>
    [($"master", FString (fl_master flags)); ($"port", FInt (fl_port flags)); ($"slaves", FString (fl_slaves flags));
     ($"dbpath", FString (fl_dbpath flags)); ($"sync-key", FString (fl_sync_key flags))].

(** A server gets the flags it is given, whatever they hold: each is one argument
    of the process or two. *)
Theorem server_gets_its_flags joined flags rest : - 2 ^ 63 <= fl_port flags < 2 ^ 63 ->
  match rest with [] => True | s :: _ => argument s = NoFlag end ->
  server_args ((server_settings joined flags ≫= setting_args) ++ rest) = inr flags.
Proof.
  intros Hp Hrest. unfold server_args.
  assert (Hn : forall name, name ∈ [$"master"; $"port"; $"slaves"; $"dbpath"; $"sync-key"] -> name_ok name).
  { apply Forall_forall. apply (bool_decide_unpack _). vm_compute. exact I. }
  rewrite flags_roundtrip; [by destruct flags| |done]. unfold server_settings.
  rewrite Forall_fmap, !Forall_cons. split_and!; try (split; [apply Hn; set_solver|done]). constructor.
Qed.

(** The client talks to the server it is told, and else to port 8080, with the
    arguments that follow. *)
Theorem cli_gets_its_arguments {N : Network} joined url cmd args : argument cmd = NoFlag ->
  cli_process (setting_args (MkSetting joined ($"server") (FString url)) ++ cmd :: args) = inr (cli_main url (cmd :: args)) /\
  cli_process (cmd :: args) = inr (cli_main ($"http://localhost:8080") (cmd :: args)).
Proof.
  intros Hc. unfold cli_process. split.
  - rewrite flag_Parse_setting by (split; [apply (bool_decide_unpack _); vm_compute; exact I|done]).
    cbn [flag_Parse]. by rewrite Hc.
  - cbn [flag_Parse]. by rewrite Hc.
Qed.
