(* ===== verification/ServerSpec.v ===== *)
(** * What the server promises

    The server as a map of live keys behind seven paths: [serve_spec] gives the
    answer to a request, the map after it and the requests sent to the slaves.
    [ServeHTTP_spec] says that the handlers over the database do that, up to a
    write the log refuses. *)
From S2P Require Import Prelude GoBinary Config GoOs Filepath WalLib Record BTreeLib Index Watch.
From S2P Require Import Store Batch DB Open View BatchSpec CommitSpec Recovery OpenSpec DBSpec Traverse.
From S2P Require Import Strs Json Http Replication Server.
Open Scope Z_scope.

(** ** Answers *)
Definition error_response (msg : bytes) (code : Z) : Response :=
  MkResponse code
    (<[$"X-Content-Type-Options" := [$"nosniff"]]> (<[$"Content-Type" := [$"text/plain; charset=utf-8"]]> ∅))
    (msg ++ [x0a]) None.

Definition text_response (body : bytes) : Response := MkResponse StatusOK ∅ body None.

Definition json_response (body : bytes) : Response :=
  MkResponse StatusOK (<[$"Content-Type" := [$"application/json"]]> ∅) body None.

Definition err_response (err : error) (code : Z) : Response := error_response (error_Error err) code.

(** ** The specification of the handlers *)

(** The part of the server that its handlers read and keep. *)
Record ServerConf : Type := MkServerConf {
  cf_replicator : option Replicator;
  cf_startTime : Z;
  cf_syncKey : bytes;
  cf_role : bytes;
}.

(** A write of the map: an empty key is refused. *)
Definition put_spec (key value : bytes) (m : vmap) : option error * vmap :=
  if bool_decide (key = []) then (Some ErrKeyIsEmpty, m) else (None, <[key := (value, 0)]> m).
Definition delete_spec (key : bytes) (m : vmap) : option error * vmap :=
  if bool_decide (key = []) then (Some ErrKeyIsEmpty, m) else (None, delete key m).

Definition tasks_of (cf : ServerConf) (f : Replicator -> list SyncTask) : list SyncTask :=
  match cf_replicator cf with Some rep => f rep | None => [] end.

(** The keys of a map in order, those that pass [P]. *)
Definition live_keys (clock : bytes -> Z) (m : vmap) : list bytes :=
  merge_sort bytes_le (filter (fun k => is_Some (live (clock k) m !! k)) (map_to_list m).*1).

Lemma bytes_lt_sorted_le l : StronglySorted bytes_lt l -> StronglySorted bytes_le l /\ NoDup l.
Proof.
  induction 1 as [|a l H [IH1 IH2] Ha]; [repeat constructor|]. split.
  - constructor; [done|]. eapply Forall_impl; [exact Ha|]. intros b Hb Hba.
    by apply (bytes_lt_irrefl a), (bytes_lt_trans _ b).
  - constructor; [|done]. rewrite Forall_forall in Ha. intros Hin. by apply (bytes_lt_irrefl a), Ha.
Qed.

(** [live_keys] is the only such list. *)
Lemma live_keys_unique clock m l :
  StronglySorted bytes_lt l -> (forall k, k ∈ l <-> is_Some (live (clock k) m !! k)) -> l = live_keys clock m.
Proof.
  intros Hs Hl. apply bytes_lt_sorted_le in Hs as [Hs Hnd].
  apply (StronglySorted_unique bytes_le); [done|apply StronglySorted_merge_sort; apply _|].
  unfold live_keys. rewrite merge_sort_Permutation. apply NoDup_Permutation; [done| |].
  - apply NoDup_filter, NoDup_fst_map_to_list.
  - intros k. rewrite Hl, list_elem_of_filter. split; [|naive_solver]. intros [x Hx].
    split; [by exists x|]. apply list_elem_of_fmap. exists (k, x). split; [done|].
    apply elem_of_map_to_list. unfold live in Hx. by apply map_lookup_filter_Some in Hx as [Hx _].
Qed.

Section serve_spec.
Context {ML : MultipartLib} (t : Moment) (page : bytes) (cf : ServerConf).

Definition serve_result : Type := (Response * vmap * list SyncTask)%type.

Definition put_key (r : Request) : bytes := (FormValue r ($"key")).1.
Definition put_value (r : Request) : bytes := (FormValue (FormValue r ($"key")).2 ($"value")).1.

Definition serve_put (r : Request) (m : vmap) : serve_result :=
  if bool_decide (cf_role cf <> MASTER)
  then (error_response ($"Forbidden: Only MASTER node can accept write requests") StatusForbidden, m, [])
  else if bool_decide (rq_Method r <> MethodPost)
  then (error_response ($"Method not allowed") StatusMethodNotAllowed, m, [])
  else if bool_decide (put_key r = []) || bool_decide (put_value r = [])
  then (error_response ($"Missing key or value") StatusBadRequest, m, [])
  else (text_response ($"OK" ++ [x0a]), <[put_key r := (put_value r, 0)]> m,
        tasks_of cf (fun rep => SyncPut rep (put_key r) (put_value r))).

Definition serve_get (r : Request) (m : vmap) : serve_result :=
  if bool_decide (rq_Method r <> MethodGet)
  then (error_response ($"Method not allowed") StatusMethodNotAllowed, m, [])
  else if bool_decide (Query_Get r ($"key") = []) then (error_response ($"Missing key") StatusBadRequest, m, [])
  else match spec_get (mo_now t) m (Query_Get r ($"key")) with
       | inl err => (err_response err StatusNotFound, m, [])
       | inr val => (text_response (val ++ [x0a]), m, [])
       end.

Definition delete_key (r : Request) : bytes :=
  let key := (FormValue r ($"key")).1 in if bool_decide (key = []) then Query_Get (FormValue r ($"key")).2 ($"key") else key.

Definition serve_delete (r : Request) (m : vmap) : serve_result :=
  if bool_decide (cf_role cf <> MASTER)
  then (error_response ($"Forbidden: Only MASTER node can accept delete requests") StatusForbidden, m, [])
  else if bool_decide (rq_Method r <> MethodDelete) && bool_decide (rq_Method r <> MethodPost)
  then (error_response ($"Method not allowed") StatusMethodNotAllowed, m, [])
  else if bool_decide (delete_key r = []) then (error_response ($"Missing key") StatusBadRequest, m, [])
  else (text_response ($"OK" ++ [x0a]), delete (delete_key r) m,
        tasks_of cf (fun rep => SyncDelete rep (delete_key r))).

Definition sync_spec (req : SyncRequest) (m : vmap) : option error * vmap :=
  if bool_decide (Action req = $"put") then put_spec (Key req) (Value req) m
  else if bool_decide (Action req = $"delete") then delete_spec (Key req) m
  else (None, m).

Definition serve_sync (r : Request) (m : vmap) : serve_result :=
  if bool_decide (rq_Method r <> MethodPost)
  then (error_response ($"Method not allowed") StatusMethodNotAllowed, m, [])
  else if bool_decide (cf_syncKey cf <> []) && bool_decide (Header_Get (rq_Header r) ($"X-Sync-Key") <> cf_syncKey cf)
  then (error_response ($"Unauthorized") StatusUnauthorized, m, [])
  else match ReadAll r with
       | None => (error_response ($"Failed to read body") StatusBadRequest, m, [])
       | Some body =>
           match SyncRequest_Unmarshal body with
           | None => (error_response ($"Invalid JSON") StatusBadRequest, m, [])
           | Some req =>
               match sync_spec req m with
               | (Some err, m) => (err_response err StatusInternalServerError, m, [])
               | (None, m) => (text_response ($"SYNC OK" ++ [x0a]), m, [])
               end
           end
       end.

Definition serve_health (r : Request) (m : vmap) : serve_result :=
  if bool_decide (rq_Method r <> MethodGet)
  then (error_response ($"Method not allowed") StatusMethodNotAllowed, m, [])
  else (json_response (HealthResponse_Encode (MkHealthResponse ($"OK") (cf_role cf)
          (seconds_String ((mo_now t - cf_startTime cf) / 10 ^ 9)) (mo_memory t))), m, []).

Definition serve_keys (r : Request) (m : vmap) : serve_result :=
  if bool_decide (rq_Method r <> MethodGet)
  then (error_response ($"Method not allowed") StatusMethodNotAllowed, m, [])
  else (json_response (json_strings (live_keys (mo_key_clock t) m) ++ [x0a]), m, []).

Definition serve_spec (r : Request) (m : vmap) : serve_result :=
  let path := rq_Path r in
  if bool_decide (path = $"/put") then serve_put r m
  else if bool_decide (path = $"/get") then serve_get r m
  else if bool_decide (path = $"/delete") then serve_delete r m
  else if bool_decide (path = $"/health") then serve_health r m
  else if bool_decide (path = $"/keys") then serve_keys r m
  else if bool_decide (path = $"/admin") then (text_response page, m, [])
  else if bool_decide (path = $"/sync") then serve_sync r m
  else (error_response ($"404 page not found") StatusNotFound, m, []).

(** The keys and values a request carries fit a record of the log. *)
Definition small (key value : bytes) : Prop := maxLogRecordHeaderSize + len key + len value < 2 ^ 32.

Definition request_fits (r : Request) : Prop :=
  small (put_key r) (put_value r) /\ small (delete_key r) [] /\
  forall body req, ReadAll r = Some body -> SyncRequest_Unmarshal body = Some req -> small (Key req) (Value req).
End serve_spec.

Section server_spec.
Context {W : WalLib} {WL : WalLaws W} {B : BTreeLib item item_less} {BL : BTreeLaws B}
  {SF : Snowflake} {SL : SnowflakeLaws SF} {MH : MemHashLib} {RX : Regexp} {ML : MultipartLib}.
Implicit Types (s : Server).

Definition conf_of s : ServerConf := MkServerConf (sv_replicator s) (sv_startTime s) (sv_syncKey s) (sv_role s).

(** A server that works and shows the map [m] from [T] on. *)
Definition server_shows (T : Z) s (m : vmap) : Prop := db_good T (sv_db s) /\ live_eq T (db_view (sv_db s)) m.

(** ** Calls of the database *)

(** The log refused with [e] the batch of the call; index, watcher and map stay. *)
Definition refused_by (e : error) (d d' : Store) : Prop := exists m, refused_batch e m d d'.

Definition call_result (T : Z) (spec : option error * vmap) (d : Store) (res : option error) (d' : Store) : Prop :=
  match spec.1 with
  | Some e => res = Some e /\ db_good T d' /\ live_eq T (db_view d') spec.2
  | None => match res with
            | None => db_good T d' /\ live_eq T (db_view d') spec.2
            | Some e => refused_by e d d'
            end
  end.

Lemma DB_Put_empty T clock now v (d : Store) :
  db_good T d -> T <= now ->
  exists res d', DB_Put clock now [] v d = Ret (res, d') /\
    write_result now now (Some ErrKeyIsEmpty, db_view d) d res d'.
Proof.
  intros Hg HT. apply (write_op_spec _ (fun m => (Some ErrKeyIsEmpty, m)) now clock now T d Hg); [lia|].
  intros b d1 Hw Hp Hnil. exists b, d1. split; [reflexivity|]. split; [done|].
  split; [|done]. by apply reads_as_refl, Hw.
Qed.

Lemma DB_Delete_empty T clock now (d : Store) :
  db_good T d -> T <= now ->
  exists res d', DB_Delete clock now [] d = Ret (res, d') /\
    write_result now now (Some ErrKeyIsEmpty, db_view d) d res d'.
Proof.
  intros Hg HT. apply (write_op_spec _ (fun m => (Some ErrKeyIsEmpty, m)) now clock now T d Hg); [lia|].
  intros b d1 Hw Hp Hnil. exists b, d1. split; [reflexivity|]. split; [done|].
  split; [|done]. by apply reads_as_refl, Hw.
Qed.

Lemma put_call T clock now k v (d : Store) m :
  db_good T d -> live_eq T (db_view d) m -> T <= now -> small k v ->
  exists res d', DB_Put clock now k v d = Ret (res, d') /\ call_result now (put_spec k v m) d res d'.
Proof.
  intros Hg Hm HT Hs. unfold put_spec. case_bool_decide as Hk.
  - subst k. destruct (DB_Put_empty T clock now v d Hg HT) as (res & d' & E & _ & H1 & H2 & H3 & _).
    exists res, d'. split; [done|]. split_and!; try done. etransitivity; [exact H3|]. by apply (live_eq_mono T).
  - destruct (DB_Put_spec T clock now k v d Hg HT) as (res & d' & E & _ & H); [by split_and!|].
    exists res, d'. split; [done|]. unfold call_result. simpl in *. destruct res as [e|]; [by eexists|].
    destruct H as (H1 & H2 & _). split; [done|]. etransitivity; [exact H2|].
    destruct (dop_spec_live_eq T (DPut clock now k v) _ _ Hm HT) as [_ E']; [simpl; lia|]. exact E'.
Qed.

Lemma delete_call T clock now k (d : Store) m :
  db_good T d -> live_eq T (db_view d) m -> T <= now -> small k [] ->
  exists res d', DB_Delete clock now k d = Ret (res, d') /\ call_result now (delete_spec k m) d res d'.
Proof.
  intros Hg Hm HT Hs. unfold delete_spec. case_bool_decide as Hk.
  - subst k. destruct (DB_Delete_empty T clock now d Hg HT) as (res & d' & E & _ & H1 & H2 & H3 & _).
    exists res, d'. split; [done|]. split_and!; try done. etransitivity; [exact H3|]. by apply (live_eq_mono T).
  - destruct (DB_Delete_spec T clock now k d Hg HT) as (res & d' & E & _ & H); [by split_and!|].
    exists res, d'. split; [done|]. unfold call_result. simpl in *. destruct res as [e|]; [by eexists|].
    destruct H as (H1 & H2 & _). split; [done|]. etransitivity; [exact H2|].
    destruct (dop_spec_live_eq T (DDelete clock now k) _ _ Hm HT) as [_ E']; [simpl; lia|]. exact E'.
Qed.

(** ** The handlers *)

(** What a handler writes, and the server it leaves. *)
Definition answers (h : ServerM unit) s (resp : Response) s' : Prop :=
  exists w, h (new_writer, s) = Ret (tt, (w, s')) /\ writer_response w = resp.

(** As specified, or, if the request [writes], a write the specification accepts
    was refused by the log: then nothing is sent to the slaves. *)
Definition served (writes : Prop) (T : Z) (spec : serve_result) s (resp : Response) s' : Prop :=
  conf_of s' = conf_of s /\
  (resp = spec.1.1 /\ server_shows T s' spec.1.2 /\ sv_tasks s' = sv_tasks s ++ spec.2 \/
   writes /\ exists e, rp_StatusCode spec.1.1 = StatusOK /\ resp = err_response e StatusInternalServerError /\
     refused_by e (sv_db s) (sv_db s') /\ sv_tasks s' = sv_tasks s).

Lemma served_weaken (P Q : Prop) T spec s resp s' : (P -> Q) -> served P T spec s resp s' -> served Q T spec s resp s'.
Proof. unfold served. intros HPQ [H1 [H2|[H2 H3]]]; (split; [done|]); [by left|right; by split; [apply HPQ|]]. Qed.

(** The requests that write. *)
Definition is_write (r : Request) : Prop := rq_Path r ∈ [$"/put"; $"/delete"; $"/sync"].

Lemma http_Error_answers msg code s : 200 <= code <= 999 -> answers (http_Error msg code) s (error_response msg code) s.
Proof.
  intros Hc. unfold answers, http_Error, gbind, SetHeader, WriteHeader, Write. simpl.
  rewrite (proj2 (Z.ltb_ge code 100)), (proj2 (Z.ltb_ge 999 code)), (proj2 (Z.ltb_ge code 200)) by lia. simpl.
  eexists. split; [reflexivity|]. reflexivity.
Qed.

Lemma served_same (T T' : Z) (m : vmap) (spec : serve_result) s :
  server_shows T s m -> T <= T' -> spec.1.2 = m -> spec.2 = [] -> served False T' spec s spec.1.1 s.
Proof.
  intros [Hg Hm] HT E1 E2. split; [done|]. left. rewrite E1, E2, app_nil_r. split_and!; try done.
  split; [by apply (db_good_mono T)|by apply (live_eq_mono T)].
Qed.

Lemma error_answers (T T' : Z) (m : vmap) msg code s :
  server_shows T s m -> T <= T' -> 200 <= code <= 999 ->
  exists resp s', answers (http_Error msg code) s resp s' /\ served False T' (error_response msg code, m, []) s resp s'.
Proof.
  intros Hs HT Hc. exists (error_response msg code), s. split; [by apply http_Error_answers|].
  by apply (served_same T T' m (error_response msg code, m, []) s Hs HT).
Qed.

(** The same for a handler that may write. *)
Lemma error_answers_w (T T' : Z) (m : vmap) msg code s :
  server_shows T s m -> T <= T' -> 200 <= code <= 999 ->
  exists resp s', answers (http_Error msg code) s resp s' /\ served True T' (error_response msg code, m, []) s resp s'.
Proof.
  intros Hs HT Hc. destruct (error_answers T T' m msg code s Hs HT Hc) as (resp & s' & H1 & H2).
  exists resp, s'. split; [done|]. by apply (served_weaken False).
Qed.

(** A read of the state of the server at the start of a handler. *)
Lemma answers_read {A} (f : Server -> A) (k : A -> ServerM unit) s resp s' :
  answers (k (f s)) s resp s' -> answers (let! a := in_state (fun s => Ret (f s, s)) in k a) s resp s'.
Proof. intros (w & E & H). exists w. split; [exact E|done]. Qed.

(** A call of the database that returned. *)
Lemma answers_call {A} (f : DbM A) (k : A -> ServerM unit) a d' s resp s' :
  f (sv_db s) = Ret (a, d') -> answers (k a) (set_sv_db d' s) resp s' -> answers (let! a := call_db f in k a) s resp s'.
Proof.
  intros E (w & E' & H). exists w. split; [|done]. unfold gbind, call_db, in_state. rewrite E. exact E'.
Qed.

Lemma text_answers body s : answers (WriteHeader StatusOK ;;; Write body) s (text_response body) s.
Proof. eexists. split; [reflexivity|]. reflexivity. Qed.

(** A write of the database, and what the handler does with its result. *)
Lemma write_answers (T T' : Z) (m : vmap) (f : DbM (option error)) spec msg (tasks : Replicator -> list SyncTask) s :
  T <= T' -> (exists res d', f (sv_db s) = Ret (res, d') /\ call_result T' spec (sv_db s) res d') ->
  spec.1 = None ->
  exists resp s', answers (let! err := call_db f in
      match err with
      | Some err => http_Error (error_Error err) StatusInternalServerError
      | None => call_replicator tasks ;;; WriteHeader StatusOK ;;; Write msg
      end) s resp s' /\
    served True T' (text_response msg, spec.2, tasks_of (conf_of s) tasks) s resp s'.
Proof.
  intros HT (res & d' & E & Hres) Hspec. unfold call_result in Hres. rewrite Hspec in Hres.
  destruct res as [e|].
  - exists (err_response e StatusInternalServerError), (set_sv_db d' s). split.
    + apply (answers_call _ _ _ _ _ _ _ E). apply http_Error_answers. unfold StatusInternalServerError. lia.
    + split; [done|]. right. split; [done|]. exists e. by split_and!.
  - set (s1 := match sv_replicator s with Some rep => add_sv_tasks (tasks rep) (set_sv_db d' s) | None => set_sv_db d' s end).
    exists (text_response msg), s1. split.
    + apply (answers_call _ _ _ _ _ _ _ E). destruct (text_answers msg s1) as (w & Ew & Hw).
      exists w. split; [exact Ew|done].
    + assert (Hdb : sv_db s1 = d') by (unfold s1; by destruct (sv_replicator s)).
      split; [unfold s1, conf_of; destruct (sv_replicator s) eqn:Er; simpl; by rewrite Er|]. left. split; [done|].
      split; [unfold server_shows; by rewrite Hdb|]. unfold s1, tasks_of, conf_of. simpl.
      destruct (sv_replicator s); simpl; [done|by rewrite app_nil_r].
Qed.

Section handlers.
Context (t : Moment) (page : bytes) (T : Z) (HT : T <= mo_now t).

Lemma handlePut_spec r m s : server_shows T s m -> small (put_key r) (put_value r) ->
  exists resp s', answers (handlePut t r) s resp s' /\ served True (mo_now t) (serve_put (conf_of s) r m) s resp s'.
Proof.
  intros Hs Hsmall. unfold handlePut, serve_put, put_key, put_value in *. simpl cf_role.
  destruct (FormValue r ($"key")) as [key r1]. cbn [fst snd] in *.
  destruct (FormValue r1 ($"value")) as [value r2]. cbn [fst snd] in *.
  assert (Hgo : forall spec (k : bytes -> ServerM unit),
    (exists resp s', answers (k (sv_role s)) s resp s' /\ served True (mo_now t) spec s resp s') ->
    exists resp s', answers (let! role := GetRole in k role) s resp s' /\ served True (mo_now t) spec s resp s').
  { intros spec k (resp & s' & H1 & H2). exists resp, s'. split; [|done]. by apply (answers_read sv_role). }
  apply Hgo. case_bool_decide as H1; [by apply (error_answers_w T)|].
  case_bool_decide as H2; [by apply (error_answers_w T)|].
  case_bool_decide as H3; [by apply (error_answers_w T)|]. case_bool_decide as H4; [by apply (error_answers_w T)|]. cbn [orb].
  destruct Hs as [Hg Hm].
  apply (write_answers T (mo_now t) m _ (None, <[key := (value, 0)]> m)); [done| |done].
  pose proof (put_call T (mo_clock t) (mo_now t) key value (sv_db s) m Hg Hm HT Hsmall) as Hcall.
  unfold put_spec in Hcall. by rewrite bool_decide_eq_false_2 in Hcall.
Qed.

Lemma handleDelete_spec r m s : server_shows T s m -> small (delete_key r) [] ->
  exists resp s', answers (handleDelete t r) s resp s' /\ served True (mo_now t) (serve_delete (conf_of s) r m) s resp s'.
Proof.
  intros Hs Hsmall. unfold handleDelete, serve_delete, delete_key in *. simpl cf_role.
  destruct (FormValue r ($"key")) as [key0 r1]. cbn [fst snd] in *. cbv zeta in *.
  set (key := if bool_decide (key0 = []) then Query_Get r1 ($"key") else key0) in *.
  assert (Hgo : forall spec (k : bytes -> ServerM unit),
    (exists resp s', answers (k (sv_role s)) s resp s' /\ served True (mo_now t) spec s resp s') ->
    exists resp s', answers (let! role := GetRole in k role) s resp s' /\ served True (mo_now t) spec s resp s').
  { intros spec k (resp & s' & H1 & H2). exists resp, s'. split; [|done]. by apply (answers_read sv_role). }
  apply Hgo. case_bool_decide as H1; [by apply (error_answers_w T)|].
  destruct (bool_decide (rq_Method r <> MethodDelete) && bool_decide (rq_Method r <> MethodPost)); [by apply (error_answers_w T)|].
  case_bool_decide as H3; [by apply (error_answers_w T)|].
  destruct Hs as [Hg Hm].
  apply (write_answers T (mo_now t) m _ (None, delete key m)); [done| |done].
  pose proof (delete_call T (mo_clock t) (mo_now t) key (sv_db s) m Hg Hm HT Hsmall) as Hcall.
  unfold delete_spec in Hcall. by rewrite bool_decide_eq_false_2 in Hcall.
Qed.

Lemma spec_get_live_eq now m m' k : live_eq now m m' -> spec_get now m k = spec_get now m' k.
Proof. intros E. unfold spec_get. by rewrite E. Qed.

Lemma handleGet_spec r m s : server_shows T s m ->
  exists resp s', answers (handleGet t r) s resp s' /\ served False (mo_now t) (serve_get t r m) s resp s'.
Proof.
  intros Hs. unfold handleGet, serve_get. case_bool_decide as H1; [by apply (error_answers T)|].
  case_bool_decide as H2; [by apply (error_answers T)|]. destruct Hs as [Hg Hm].
  set (key := Query_Get r ($"key")) in *.
  destruct (DB_Get_spec T (mo_now t) key (sv_db s) Hg HT H2) as (d' & E & Hg' & Hv & _).
  rewrite (spec_get_live_eq _ _ m key) in E by by apply (live_eq_mono T).
  assert (Hs' : server_shows (mo_now t) (set_sv_db d' s) m).
  { split; [done|]. etransitivity; [exact Hv|]. by apply (live_eq_mono T). }
  destruct (spec_get (mo_now t) m key) as [e|v].
  - exists (err_response e StatusNotFound), (set_sv_db d' s). split.
    + apply (answers_call _ _ _ _ _ _ _ E). apply http_Error_answers. unfold StatusNotFound. lia.
    + split; [done|]. left. by rewrite app_nil_r.
  - exists (text_response (v ++ [x0a])), (set_sv_db d' s). split.
    + apply (answers_call _ _ _ _ _ _ _ E). eexists. split; [reflexivity|]. reflexivity.
    + split; [done|]. left. by rewrite app_nil_r.
Qed.

Lemma sync_call req m (d : Store) : db_good T d -> live_eq T (db_view d) m -> small (Key req) (Value req) ->
  exists res d', sync_action t req d = Ret (res, d') /\ call_result (mo_now t) (sync_spec req m) d res d'.
Proof.
  intros Hg Hm Hs. unfold sync_action, sync_spec. case_bool_decide; [by apply (put_call T)|].
  case_bool_decide.
  - apply (delete_call T); try done. unfold small, len in *. simpl. lia.
  - exists None, d. split; [done|]. split; [by apply (db_good_mono T)|by apply (live_eq_mono T)].
Qed.

Lemma handleSync_spec r m s : server_shows T s m ->
  (forall body req, ReadAll r = Some body -> SyncRequest_Unmarshal body = Some req -> small (Key req) (Value req)) ->
  exists resp s', answers (handleSync t r) s resp s' /\ served True (mo_now t) (serve_sync (conf_of s) r m) s resp s'.
Proof.
  intros Hs Hfit. unfold handleSync, serve_sync. simpl cf_syncKey. case_bool_decide as H1; [by apply (error_answers_w T)|].
  assert (Hgo : forall spec (k : bytes -> ServerM unit),
    (exists resp s', answers (k (sv_syncKey s)) s resp s' /\ served True (mo_now t) spec s resp s') ->
    exists resp s', answers (let! x := in_state (fun s => Ret (sv_syncKey s, s)) in k x) s resp s' /\ served True (mo_now t) spec s resp s').
  { intros spec k (resp & s' & A1 & A2). exists resp, s'. split; [|done]. by apply (answers_read sv_syncKey). }
  apply Hgo. destruct (bool_decide (sv_syncKey s <> []) && _); [by apply (error_answers_w T)|].
  destruct (ReadAll r) as [body|]; [|by apply (error_answers_w T)].
  destruct (SyncRequest_Unmarshal body) as [req|] eqn:Er; [|by apply (error_answers_w T)].
  destruct Hs as [Hg Hm].
  destruct (sync_call req m (sv_db s) Hg Hm (Hfit body req eq_refl Er)) as (res & d' & E & Hres).
  unfold call_result in Hres. destruct (sync_spec req m) as [[e|] m']; simpl in Hres.
  - destruct Hres as (-> & Hg' & Hm'). exists (err_response e StatusInternalServerError), (set_sv_db d' s). split.
    + apply (answers_call _ _ _ _ _ _ _ E). apply http_Error_answers. unfold StatusInternalServerError. lia.
    + split; [done|]. left. by rewrite app_nil_r.
  - destruct res as [e|].
    + exists (err_response e StatusInternalServerError), (set_sv_db d' s). split.
      * apply (answers_call _ _ _ _ _ _ _ E). apply http_Error_answers. unfold StatusInternalServerError. lia.
      * split; [done|]. right. split; [done|]. exists e. by split_and!.
    + exists (text_response ($"SYNC OK" ++ [x0a])), (set_sv_db d' s). split.
      * apply (answers_call _ _ _ _ _ _ _ E). apply text_answers.
      * split; [done|]. left. by rewrite app_nil_r.
Qed.

Lemma handleHealth_spec r m s : server_shows T s m ->
  exists resp s', answers (handleHealth t r) s resp s' /\ served False (mo_now t) (serve_health t (conf_of s) r m) s resp s'.
Proof.
  intros Hs. unfold handleHealth, serve_health. case_bool_decide as H1; [by apply (error_answers T)|].
  eexists _, s. split.
  - apply (answers_read sv_role), (answers_read sv_startTime). eexists. split; reflexivity.
  - apply (served_same T (mo_now t) m (json_response _, m, [])); done.
Qed.

Lemma walk_append_key (l acc : list bytes) : walk append_key l acc = acc ++ l.
Proof.
  revert acc. induction l as [|k l IH]; intros acc; cbn [walk]; [by rewrite app_nil_r|].
  cbn [append_key]. rewrite IH. by rewrite <- (assoc_L (++)).
Qed.

Lemma filter_pattern_none (l : list bytes) : filter (pattern_ok None) l = l.
Proof. induction l as [|k l IH]; [done|]. by rewrite filter_cons_True, IH. Qed.

Lemma ascend_keys_call (m : vmap) (d : Store) : db_good T d -> live_eq T (db_view d) m -> (forall k, T <= mo_key_clock t k) ->
  DB_AscendKeys (mo_key_clock t) [] true append_key [] d = Ret ((None, live_keys (mo_key_clock t) m), d).
Proof.
  intros Hg Hm Hk. pose proof Hg as Hg'. unfold DB_AscendKeys.
  rewrite (traverse_keys_visit _ _ _ None true append_key d (mt_entries (db_index (st_db d))));
    [|apply Hg|apply Hg|by intros e|intros f o; apply Ascend_visit|done].
  rewrite filter_pattern_none, walk_append_key. do 3 f_equal. apply live_keys_unique; [apply key_of_sorted|].
  intros k. etransitivity; [apply key_of_elem, Hg|]. apply (live_eq_mono T (mo_key_clock t k)) in Hm; [|done].
  unfold live_eq in Hm. by rewrite Hm.
Qed.

Lemma handleKeys_spec r m s : server_shows T s m -> (forall k, T <= mo_key_clock t k) ->
  exists resp s', answers (handleKeys t r) s resp s' /\ served False (mo_now t) (serve_keys t r m) s resp s'.
Proof.
  intros Hs Hk. unfold handleKeys, serve_keys. case_bool_decide as H1; [by apply (error_answers T)|].
  eexists _, s. split.
  - destruct Hs as [Hg Hm]. apply (answers_call _ _ _ _ _ _ _ (ascend_keys_call m (sv_db s) Hg Hm Hk)).
    assert (E : set_sv_db (sv_db s) s = s) by (by destruct s). rewrite E. eexists. split; reflexivity.
  - apply (served_same T (mo_now t) m (json_response _, m, [])); done.
Qed.

(** ** The server *)
Lemma served_write r T' spec s (h : ServerM unit) : is_write r ->
  (exists resp s', answers h s resp s' /\ served True T' spec s resp s') ->
  exists resp s', answers h s resp s' /\ served (is_write r) T' spec s resp s'.
Proof. intros Hr (resp & s' & H1 & H2). exists resp, s'. split; [done|]. by apply (served_weaken True). Qed.

Lemma served_read r T' spec s (h : ServerM unit) :
  (exists resp s', answers h s resp s' /\ served False T' spec s resp s') ->
  exists resp s', answers h s resp s' /\ served (is_write r) T' spec s resp s'.
Proof. intros (resp & s' & H1 & H2). exists resp, s'. split; [done|]. by apply (served_weaken False). Qed.

Ltac write_path := apply served_write; [match goal with E : rq_Path _ = _ |- _ => unfold is_write; rewrite E end; set_solver|].
Ltac read_path := apply served_read.

Lemma ServeHTTP_spec r m s :
  server_shows T s m -> (forall k, T <= mo_key_clock t k) -> request_fits r ->
  exists resp s', ServeHTTP t page r s = Ret (resp, s') /\ served (is_write r) (mo_now t) (serve_spec t page (conf_of s) r m) s resp s'.
Proof.
  intros Hs Hk (Hf1 & Hf2 & Hf3).
  assert (H : exists resp s', answers (mux t page r) s resp s' /\
    served (is_write r) (mo_now t) (serve_spec t page (conf_of s) r m) s resp s').
  { unfold mux, serve_spec. repeat case_bool_decide.
    - write_path. by apply handlePut_spec.
    - read_path. by apply handleGet_spec.
    - write_path. by apply handleDelete_spec.
    - read_path. by apply handleHealth_spec.
    - read_path. by apply handleKeys_spec.
    - read_path. exists (text_response page), s. split; [eexists; split; reflexivity|].
      by apply (served_same T (mo_now t) m (text_response page, m, [])).
    - write_path. by apply handleSync_spec.
    - read_path. by apply (error_answers T). }
  destruct H as (resp & s' & (w & E & <-) & H). exists (writer_response w), s'. split; [|done].
  unfold ServeHTTP. by rewrite E.
Qed.
End handlers.
End server_spec.
