(* ===== verification/ServerProps.v ===== *)
(** * What the server promises

    Histories of requests are histories of a map; a write of a master reaches the
    slaves it is sent to; how often a replica is tried; when a slave takes over. *)
From S2P Require Import Prelude GoBinary Config GoOs Filepath WalLib WalModel Record BTreeLib Index Watch.
From S2P Require Import Store Batch DB Open View BatchSpec CommitSpec Recovery OpenSpec DBSpec Instances.
From S2P Require Import Strs Json Http Urls Replication Server Failover ServerSpec.
Open Scope Z_scope.

(** ** Histories of requests *)
Section histories.
Context {W : WalLib} {B : BTreeLib item item_less} {SF : Snowflake} {MH : MemHashLib} {RX : Regexp}
  {ML : MultipartLib} (page : bytes).

Fixpoint serve_all (evs : list (Moment * Request)) (s : Server) : outcome (list Response * Server) :=
  match evs with
  | [] => Ret ([], s)
  | (t, r) :: evs =>
      '(resp, s) ← ServeHTTP t page r s;
      '(resps, s) ← serve_all evs s;
      Ret (resp :: resps, s)
  end.

Fixpoint serve_all_spec (cf : ServerConf) (evs : list (Moment * Request)) (m : vmap) :
    list Response * vmap * list SyncTask :=
  match evs with
  | [] => ([], m, [])
  | (t, r) :: evs =>
      let '(resp, m, l) := serve_spec t page cf r m in
      let '(resps, m, l') := serve_all_spec cf evs m in
      (resp :: resps, m, l ++ l')
  end.

(** The clock does not go back. *)
Fixpoint moments_ok (T : Z) (evs : list (Moment * Request)) : Prop :=
  match evs with
  | [] => True
  | (t, r) :: evs => T <= mo_now t /\ (forall k, T <= mo_key_clock t k) /\ moments_ok (mo_now t) evs
  end.
Fixpoint moments_end (T : Z) (evs : list (Moment * Request)) : Z :=
  match evs with [] => T | (t, r) :: evs => moments_end (mo_now t) evs end.

Lemma serve_all_app evs1 evs2 s resps s1 :
  serve_all evs1 s = Ret (resps, s1) ->
  serve_all (evs1 ++ evs2) s = ('(resps2, s2) ← serve_all evs2 s1; Ret (resps ++ resps2, s2)).
Proof.
  revert s resps. induction evs1 as [|[t r] evs1 IH]; intros s resps; cbn [serve_all app].
  { intros [= <- ->]. by destruct (serve_all evs2 s1) as [[]| |]. }
  destruct (ServeHTTP t page r s) as [[resp s']| |]; [|done|done]. cbn [mbind outcome_bind].
  destruct (serve_all evs1 s') as [[rs s'']| |] eqn:E; [|done|done]. intros [= <- ->].
  rewrite (IH s' rs E). by destruct (serve_all evs2 s1) as [[]| |].
Qed.
End histories.

Section refinement.
Context {W : WalLib} {WL : WalLaws W} {B : BTreeLib item item_less} {BL : BTreeLaws B}
  {SF : Snowflake} {SL : SnowflakeLaws SF} {MH : MemHashLib} {RX : Regexp} {ML : MultipartLib}.
Implicit Types (s : Server).

(** What a history did, up to a point. *)
Definition history_done (page : bytes) T evs s m s' : Prop :=
  let spec := serve_all_spec page (conf_of s) evs m in
  serve_all page evs s = Ret (spec.1.1, s') /\ server_shows (moments_end T evs) s' spec.1.2 /\
  sv_tasks s' = sv_tasks s ++ spec.2 /\ conf_of s' = conf_of s.

(** The log refused the write of a request the specification accepts: the answer
    is the error of the database, and nothing is sent to the slaves. *)
Definition refused_request (page : bytes) (t : Moment) (r : Request) (m : vmap) s : Prop :=
  exists e s', ServeHTTP t page r s = Ret (err_response e StatusInternalServerError, s') /\
    rp_StatusCode (serve_spec t page (conf_of s) r m).1.1 = StatusOK /\
    is_write r /\ refused_by e (sv_db s) (sv_db s') /\ sv_tasks s' = sv_tasks s.

Lemma history_cons page T t r evs s m s1 s' spec :
  ServeHTTP t page r s = Ret (spec.1.1, s1) -> serve_spec t page (conf_of s) r m = spec ->
  sv_tasks s1 = sv_tasks s ++ spec.2 -> conf_of s1 = conf_of s ->
  history_done page (mo_now t) evs s1 spec.1.2 s' -> history_done page T ((t, r) :: evs) s m s'.
Proof.
  intros E Es Et Ec (H1 & H2 & H3 & H4). unfold history_done. cbn [serve_all serve_all_spec moments_end].
  rewrite Es, E. destruct spec as [[resp m1] l]. cbn [fst snd mbind outcome_bind] in *. rewrite Ec in *. rewrite H1.
  destruct (serve_all_spec page (conf_of s) evs m1) as [[resps m2] l']. cbn [fst snd mbind outcome_bind] in *.
  split; [done|]. split; [done|]. split; [|done]. by rewrite H3, Et, <- (assoc_L (++)).
Qed.

Lemma serve_all_refines page T evs s m :
  server_shows T s m -> moments_ok T evs -> Forall (fun ev => request_fits ev.2) evs ->
  (exists s', history_done page T evs s m s') \/
  (exists evs1 t r evs2 s1, evs = evs1 ++ (t, r) :: evs2 /\ history_done page T evs1 s m s1 /\
     refused_request page t r (serve_all_spec page (conf_of s) evs1 m).1.2 s1).
Proof.
  intros Hs Ht Hf. revert T s m Hs Ht. induction Hf as [|[t r] evs Hr Hf IH]; intros T s m Hs Ht.
  { left. exists s. split_and!; try done. by rewrite app_nil_r. }
  destruct Ht as (Ht1 & Ht2 & Ht3).
  destruct (ServeHTTP_spec t page T Ht1 r m s Hs Ht2 Hr) as (resp & s1 & E & Hc & H).
  destruct H as [(-> & Hs1 & Hl)|(Hwr & e & Hok & -> & Href & Hl)].
  - destruct (IH (mo_now t) s1 _ Hs1 Ht3) as [[s' H]|(evs1 & t' & r' & evs2 & s2 & -> & H & H')].
    + left. exists s'. by eapply history_cons.
    + right. exists ((t, r) :: evs1), t', r', evs2, s2. split; [done|]. split; [by eapply history_cons|].
      cbn [serve_all_spec]. rewrite Hc in H'. destruct (serve_spec t page (conf_of s) r m) as [[resp m1] l].
      cbn [fst snd] in *. by destruct (serve_all_spec page (conf_of s) evs1 m1) as [[resps m2] l'].
  - right. exists [], t, r, evs, s. split; [done|]. split.
    + split_and!; try done. by rewrite app_nil_r.
    + by exists e, s1.
Qed.

(** C6: Any history of requests to a server -- to any of its paths, with any
    method, headers, query and body -- is answered as the same requests to a map
    of keys, and leaves a server whose database shows that map, with one goroutine
    started for each slave and each write a master accepts; no handler panics.
    The one way to depart is that the log refuses a write: the answer is then an
    internal error, the index is as it was and nothing is sent to the slaves; up
    to that request the history is that of the map. *)
Theorem server_refines_map page T evs s m :
  server_shows T s m -> moments_ok T evs -> Forall (fun ev => request_fits ev.2) evs ->
  (exists s', history_done page T evs s m s') \/
  (exists evs1 t r evs2 s1, evs = evs1 ++ (t, r) :: evs2 /\ history_done page T evs1 s m s1 /\
     refused_request page t r (serve_all_spec page (conf_of s) evs1 m).1.2 s1).
Proof. apply serve_all_refines. Qed.
End refinement.

(** ** Attempts of the replicator *)
Section attempts.
Context {N : Network}.

Definition answered_ok (q : OutRequest) (w : World) : bool :=
  match (net_Do q w).1 with inr resp => rp_StatusCode resp =? StatusOK | inl _ => false end.

(** The network after [n] sendings of a request. *)
Definition sent (n : nat) (q : OutRequest) (w : World) : World := Nat.iter n (fun w => (net_Do q w).2) w.

Lemma sent_next n q w : sent n q (net_Do q w).2 = sent (S n) q w.
Proof. unfold sent. by rewrite Nat.iter_succ_r. Qed.

Lemma sync_attempts_sent n task q w : sync_request task = inr q ->
  exists k ok, sync_attempts n task w = (ok, sent k q w) /\ (k <= n)%nat /\
    (forall j, (S j < k)%nat -> answered_ok q (sent j q w) = false) /\
    (if (ok : bool) then exists j, k = S j /\ answered_ok q (sent j q w) = true
     else k = n /\ forall j, (j < n)%nat -> answered_ok q (sent j q w) = false).
Proof.
  intros Eq. revert w. induction n as [|n IH]; intros w; cbn [sync_attempts].
  { exists 0%nat, false. split_and!; try done; intros j Hj; lia. }
  rewrite Eq. assert (E : answered_ok q w = match (net_Do q w).1 with inr resp => rp_StatusCode resp =? StatusOK | inl _ => false end) by done.
  destruct (IH (net_Do q w).2) as (k & ok & Ek & Hk & Hno & Hok).
  assert (Hnext : answered_ok q w = false ->
    exists k ok, sync_attempts n task (net_Do q w).2 = (ok, sent k q w) /\ (k <= S n)%nat /\
      (forall j, (S j < k)%nat -> answered_ok q (sent j q w) = false) /\
      (if (ok : bool) then exists j, k = S j /\ answered_ok q (sent j q w) = true
       else k = S n /\ forall j, (j < S n)%nat -> answered_ok q (sent j q w) = false)).
  { intros Hw. exists (S k), ok. rewrite sent_next in Ek. split; [done|]. split; [lia|]. split.
    - intros [|j] Hj; [exact Hw|]. rewrite <- sent_next. apply Hno. lia.
    - destruct ok; [destruct Hok as (j & -> & Hj)|destruct Hok as (-> & Hj)].
      + exists (S j). split; [done|]. by rewrite <- sent_next.
      + split; [done|]. intros [|j] Hlt; [exact Hw|]. rewrite <- sent_next. apply Hj. lia. }
  destruct (net_Do q w) as [[err|resp] w1] eqn:Ed; cbn [fst snd] in *; [by apply Hnext|].
  destruct (rp_StatusCode resp =? StatusOK) eqn:Es; [|by apply Hnext].
  exists 1%nat, true. split; [unfold sent; simpl; by rewrite Ed|]. split; [lia|]. split; [intros j Hj; lia|].
  by exists 0%nat.
Qed.

(** C37: A goroutine of the replicator sends its request at most three times: it
    stops at the first answer with status 200 and says so, and gives up after
    three sendings without one; when the address of the slave makes no request,
    nothing is sent. *)
Theorem sync_goroutine_bounded task w :
  match sync_request task with
  | inl _ => sync_goroutine task w = (false, w)
  | inr q => exists k ok, sync_goroutine task w = (ok, sent k q w) /\ (1 <= k <= 3)%nat /\
      (forall j, (S j < k)%nat -> answered_ok q (sent j q w) = false) /\
      ok = answered_ok q (sent (k - 1) q w) /\ (ok = false -> k = 3%nat)
  end.
Proof.
  destruct (sync_request task) as [err|q] eqn:Eq.
  { unfold sync_goroutine. change maxRetries with 3%nat. cbn [sync_attempts]. by rewrite Eq. }
  destruct (sync_attempts_sent maxRetries task q w Eq) as (k & ok & E & Hk & Hno & Hok).
  exists k, ok. split; [exact E|]. change maxRetries with 3%nat in *. destruct ok.
  - destruct Hok as (j & -> & Hj). replace (S j - 1)%nat with j by lia. split_and!; try done; lia.
  - destruct Hok as (-> & Hj). split_and!; try done; try lia. symmetry. apply Hj. lia.
Qed.
End attempts.

(** ** Failover *)
Section failover.
Context {W : WalLib} {B : BTreeLib item item_less} {SF : Snowflake} {MH : MemHashLib} {RX : Regexp}
  {ML : MultipartLib} {N : Network}.

(** C13: A node started with the address of a master is a slave.  Whatever
    requests it serves meanwhile, and whatever the network does, it becomes a
    master exactly when the last three answers of the master were failures -- no
    answer, no health report or not a good one -- and then stops asking; until
    then it asks at every tick and stays a slave.  Three failures in a row are
    never passed over. *)
Theorem failover_after_three_failures url envs (s : Server) (w : World) hw' s' w' answers :
  url <> [] -> Forall keeps_role envs ->
  heartbeat_run envs (StartHeartbeatWorker url s).1 (StartHeartbeatWorker url s).2 w = (hw', s', w', answers) ->
  sv_role (StartHeartbeatWorker url s).2 = SLAVE /\
  (sv_role s' = MASTER <-> exists before, answers = before ++ [false; false; false]) /\
  (forall before after, answers = before ++ [false; false; false] ++ after -> after = []) /\
  (if bool_decide (sv_role s' = MASTER) then hw' = None
   else sv_role s' = SLAVE /\ is_Some hw' /\ length answers = length envs).
Proof.
  intros Hu He. unfold StartHeartbeatWorker. rewrite bool_decide_eq_false_2 by done. cbn [fst snd]. intros E.
  pose proof (heartbeat_run_spec envs url 0 (SetRole SLAVE s) w hw' s' w' answers He ltac:(lia) eq_refl E) as H.
  assert (Hlast : forall l1 l2, answers = l1 ++ [false; false; false] ++ l2 -> l2 = []).
  { intros l1 l2.
    exact (heartbeat_run_end envs url 0 (SetRole SLAVE s) w hw' s' w' answers l1 l2 He ltac:(lia) eq_refl E). }
  assert (H3 : three_failures 0 answers = true <-> exists before, answers = before ++ [false; false; false]).
  { rewrite (three_failures_iff 0) by lia. simpl. split; [|intros (l1 & ->); by exists l1, []].
    intros (l1 & l2 & El). pose proof (Hlast l1 l2 El) as ->. by exists l1. }
  split; [done|]. destruct (three_failures 0 answers) eqn:E3.
  - destruct H as (Hr & -> & _). split; [rewrite <- H3; by split|]. split; [exact Hlast|]. by rewrite bool_decide_eq_true_2.
  - destruct H as (Hr & Hh & Hl). split; [|split; [exact Hlast|]].
    + rewrite Hr. split; [discriminate|]. intros Hb. by apply H3 in Hb.
    + rewrite bool_decide_eq_false_2; [done|]. rewrite Hr. discriminate.
Qed.
End failover.

(** ** Concrete servers *)
#[export] Instance NoMultipart : MultipartLib := { multipart_ReadForm _ _ := None }.
#[export] Instance NoRegexp : Regexp := { regexp_Compile p := inl (ErrNew ($"error parsing regexp")) }.

#[export] Instance Response_eq_dec : EqDecision Response.
Proof. solve_decision. Defined.

Definition smallb (key value : bytes) : bool := maxLogRecordHeaderSize + len key + len value <? 2 ^ 32.

Definition request_fitsb {ML : MultipartLib} (r : Request) : bool :=
  smallb (put_key r) (put_value r) && smallb (delete_key r) [] &&
  match ReadAll r with
  | Some body => match SyncRequest_Unmarshal body with Some req => smallb (Key req) (Value req) | None => true end
  | None => true
  end.

Lemma request_fitsb_spec {ML : MultipartLib} r : request_fitsb r = true -> request_fits r.
Proof.
  unfold request_fitsb, request_fits, smallb, small. intros [[H1 H2]%andb_true_iff H3]%andb_true_iff.
  split; [by apply Z.ltb_lt|]. split; [by apply Z.ltb_lt|]. intros body req E1 E2. rewrite E1, E2 in H3. by apply Z.ltb_lt.
Qed.

(** Clocks that stand at [now]. *)
Definition at_time (now : Z) : Moment := MkMoment now now (fun _ => now) ($"1.5").

(** Requests as a client sends them. *)
Definition get_request (path query : bytes) : Request := MkRequest MethodGet path path false query ∅ [] false None None.
Definition form_request (path query body : bytes) : Request :=
  MkRequest MethodPost path path false query (<[$"Content-Type" := [form_type]]> ∅) body false None None.
Definition delete_request (path query : bytes) : Request :=
  MkRequest MethodDelete path path false query ∅ [] false None None.

(** A new server over the database [sample_open] opens, and a history of its own. *)
Definition sample_server (rep : option Replicator) (syncKey : bytes) : outcome Server :=
  match sample_open with Ret (inr db, fs) => Ret (NewServer 5 (MkStore db fs) rep syncKey) | _ => Panic end.

Definition sample_serves (rep : option Replicator) (syncKey page : bytes) (evs : list (Moment * Request)) :
    outcome (list Response * Server) :=
  s ← sample_server rep syncKey; serve_all page evs s.

Definition serves_as_spec (rep : option Replicator) (syncKey page : bytes) (evs : list (Moment * Request)) : bool :=
  match sample_serves rep syncKey page evs with
  | Ret (resps, _) => bool_decide (resps = (serve_all_spec page (MkServerConf rep 5 syncKey MASTER) evs ∅).1.1)
  | _ => false
  end.

Lemma sample_server_shows rep syncKey : exists s, sample_server rep syncKey = Ret s /\
  conf_of s = MkServerConf rep 5 syncKey MASTER /\ sv_tasks s = [] /\ server_shows 5 s ∅.
Proof.
  destruct sample_store as (db & fs & E & Hg & _ & Hv). eexists. unfold sample_server. rewrite E.
  split; [reflexivity|]. split; [done|]. split; [done|]. by split.
Qed.

(** What a history answered when its log did not refuse anything. *)
Lemma err_response_status e : rp_StatusCode (err_response e StatusInternalServerError) = 500.
Proof. done. Qed.

Lemma serve_all_spec_app page cf evs1 evs2 m :
  serve_all_spec page cf (evs1 ++ evs2) m
    = let '(rs1, m1, l1) := serve_all_spec page cf evs1 m in
      let '(rs2, m2, l2) := serve_all_spec page cf evs2 m1 in (rs1 ++ rs2, m2, l1 ++ l2).
Proof.
  revert m. induction evs1 as [|[t r] evs1 IH]; intros m; cbn [serve_all_spec app].
  - by destruct (serve_all_spec page cf evs2 m) as [[]].
  - destruct (serve_spec t page cf r m) as [[resp m1] l]. rewrite IH.
    destruct (serve_all_spec page cf evs1 m1) as [[rs1 m2] l1].
    destruct (serve_all_spec page cf evs2 m2) as [[rs2 m3] l2]. by rewrite <- (assoc_L (++)).
Qed.

Lemma sample_history rep syncKey page evs :
  moments_ok 5 evs -> forallb (fun ev => request_fitsb ev.2) evs = true ->
  serves_as_spec rep syncKey page evs = true ->
  exists s s', sample_server rep syncKey = Ret s /\ conf_of s = MkServerConf rep 5 syncKey MASTER /\
    sv_tasks s = [] /\ server_shows 5 s ∅ /\ history_done page 5 evs s ∅ s'.
Proof.
  intros Ht Hf Hrun. destruct (sample_server_shows rep syncKey) as (s & E & Hc & Hl & Hs).
  unfold serves_as_spec, sample_serves in Hrun. rewrite E in Hrun. cbn [mbind outcome_bind] in Hrun.
  assert (Hfits : Forall (fun ev => request_fits ev.2) evs).
  { rewrite forallb_forall in Hf. apply Forall_forall. intros ev Hev. apply request_fitsb_spec, Hf.
    by apply list_elem_of_In. }
  destruct (serve_all_refines page 5 evs s ∅ Hs Ht Hfits) as [[s' H]|H].
  { exists s, s'. exact (conj E (conj Hc (conj Hl (conj Hs H)))). }
  destruct H as (evs1 & t & r & evs2 & s1 & -> & (E1 & _ & _ & Hc1) & (e & s2 & E2 & Hok & _)). exfalso.
  rewrite (serve_all_app _ _ _ _ _ _ E1), serve_all_spec_app in Hrun. cbn [serve_all serve_all_spec] in Hrun.
  rewrite Hc1 in Hok. rewrite Hc in Hrun, Hok, E1.
  destruct (serve_all_spec page _ evs1 ∅) as [[rs1 m1] l1]. cbn [fst snd] in *. rewrite E2 in Hrun.
  destruct (serve_spec t page _ r m1) as [[resp m2] l]. cbn [fst snd mbind outcome_bind] in *.
  destruct (serve_all_spec page _ evs2 m2) as [[rs2 m3] l2].
  destruct (serve_all page evs2 s2) as [[rs s3]| |]; cbn [mbind outcome_bind] in Hrun; [|discriminate Hrun|discriminate Hrun].
  apply bool_decide_eq_true in Hrun. apply app_inv_head in Hrun. injection Hrun as <- _. discriminate Hok.
Qed.

Definition sample_slaves : Replicator := NewReplicator [$"http://s1:8080"; $"http://s2:8080"] ($"secret").

(** A write with a body and one with a query, reads of both, the keys, a delete. *)
Definition sample_requests : list (Moment * Request) :=
  [(at_time 6, form_request ($"/put") [] ($"key=b&value=x+y%21"));
   (at_time 7, form_request ($"/put") ($"key=a&value=1") []);
   (at_time 8, get_request ($"/get") ($"key=b"));
   (at_time 8, get_request ($"/keys") []);
   (at_time 9, delete_request ($"/delete") ($"key=b"));
   (at_time 9, get_request ($"/get") ($"key=b"));
   (at_time 9, get_request ($"/put") ($"key=c&value=1"));
   (at_time 9, form_request ($"/sync") [] [])].

Definition sample_answers : list (Z * bytes) :=
  [(200, $"OK" ++ [x0a]); (200, $"OK" ++ [x0a]); (200, $"x y!" ++ [x0a]); (200, quoted ($"['a','b']") ++ [x0a]);
   (200, $"OK" ++ [x0a]); (404, $"key not found in database" ++ [x0a]); (405, $"Method not allowed" ++ [x0a]);
   (401, $"Unauthorized" ++ [x0a])].

Definition short (resp : Response) : Z * bytes := (rp_StatusCode resp, rp_Body resp).

Lemma sample_spec :
  let spec := serve_all_spec [] (MkServerConf (Some sample_slaves) 5 ($"secret") MASTER) sample_requests ∅ in
  short <$> spec.1.1 = sample_answers /\ spec.1.2 = <[$"a" := ($"1", 0)]> ∅ /\
  spec.2 = SyncPut sample_slaves ($"b") ($"x y!") ++ SyncPut sample_slaves ($"a") ($"1") ++ SyncDelete sample_slaves ($"b").
Proof. split; [vm_compute; reflexivity|split; [by_deciding|vm_compute; reflexivity]]. Qed.

Lemma sample_requests_ok : moments_ok 5 sample_requests /\
  forallb (fun ev => request_fitsb ev.2) sample_requests = true.
Proof. split; [|vm_compute; reflexivity]. cbn. repeat split; intros; lia. Qed.

Lemma sample_requests_served : serves_as_spec (Some sample_slaves) ($"secret") [] sample_requests = true.
Proof. vm_compute. reflexivity. Qed.

Lemma server_refines_map_witness : exists s s',
  serve_all [] sample_requests s
    = Ret ((serve_all_spec [] (MkServerConf (Some sample_slaves) 5 ($"secret") MASTER) sample_requests ∅).1.1, s') /\
  short <$> (serve_all_spec [] (MkServerConf (Some sample_slaves) 5 ($"secret") MASTER) sample_requests ∅).1.1 = sample_answers /\
  ((exists s', history_done [] 5 sample_requests s ∅ s') \/
   (exists evs1 t r evs2 s1, sample_requests = evs1 ++ (t, r) :: evs2 /\ history_done [] 5 evs1 s ∅ s1 /\
     refused_request [] t r (serve_all_spec [] (conf_of s) evs1 ∅).1.2 s1)).
Proof.
  destruct sample_requests_ok as [H1 H2].
  destruct (sample_history (Some sample_slaves) ($"secret") [] sample_requests H1 H2 sample_requests_served)
    as (s & s' & _ & Hc & _ & Hs & (E & _)).
  exists s, s'. rewrite Hc in E. split; [exact E|]. split; [exact (proj1 sample_spec)|].
  apply (server_refines_map [] 5 sample_requests s ∅ Hs H1).
  apply Forall_forall. intros ev Hev. rewrite forallb_forall in H2. apply request_fitsb_spec, H2.
  by apply list_elem_of_In.
Defined.

(** A network that answers from a list, and then not at all. *)
Definition scripted : Network := {|
  World := list (error + Response);
  net_Do _ w := match w with [] => (inl (ErrNew ($"timeout")), []) | a :: w => (a, w) end;
|}.

Definition health_answer (status : bytes) : error + Response :=
  inr (json_response (HealthResponse_Encode (MkHealthResponse status MASTER ($"10s") ($"1.5")))).

Definition sample_script : list (error + Response) :=
  [health_answer ($"OK"); inl (ErrNew ($"timeout")); health_answer ($"DOWN"); health_answer ($"OK");
   inr (text_response ($"<html>")); inl (ErrNew ($"timeout")); health_answer []].

Section sample_heartbeat.
Context {W : WalLib} {B : BTreeLib item item_less} {SF : Snowflake} {MH : MemHashLib} {RX : Regexp}
  {ML : MultipartLib}.

Definition sample_heartbeat (s : Server) :=
  heartbeat_run (N := scripted) (replicate 9 (fun x => x)) (StartHeartbeatWorker ($"http://m:8080") s).1
    (StartHeartbeatWorker ($"http://m:8080") s).2 sample_script.

Lemma sample_heartbeat_run s :
  sample_heartbeat s = (None, SetRole MASTER (SetRole SLAVE s), [], [true; false; false; true; false; false; false]).
Proof. vm_compute. reflexivity. Qed.

Lemma nothing_keeps_role : Forall (keeps_role (N := scripted)) (replicate 9 (fun x => x)).
Proof. apply Forall_replicate. intros s w. reflexivity. Qed.
End sample_heartbeat.

Lemma failover_after_three_failures_witness : exists (s s' : Server) (answers : list bool),
  sample_heartbeat s = (None, s', [], answers) /\ sv_role s' = MASTER /\
  exists before, answers = before ++ [false; false; false].
Proof.
  destruct (sample_server_shows None []) as (s & _).
  exists s, (SetRole MASTER (SetRole SLAVE s)), [true; false; false; true; false; false; false].
  split; [exact (sample_heartbeat_run s)|]. split; [reflexivity|].
  apply (failover_after_three_failures (N := scripted) ($"http://m:8080") (replicate 9 (fun x => x)) s sample_script _ _ _ _
    ltac:(discriminate) nothing_keeps_role (sample_heartbeat_run s)). reflexivity.
Defined.
