(* ===== verification/ProxySpec.v ===== *)
(** * What the proxy sends on

    The form of a request before and after it is sent on, the headers copied, and
    what the node behind the proxy answers: [forwarded] says that the node serves
    the request it receives as it would serve the request of the client. *)
From S2P Require Import Prelude GoBinary Config GoOs WalLib Record BTreeLib Index Watch Ring.
From S2P Require Import Store Batch DB View DBSpec.
From S2P Require Import Strs Json Http Urls Replication Server ServerSpec Proxy.
Open Scope Z_scope.

(** Only a body of type multipart/form-data is read as one. *)
Class MultipartLaws (ML : MultipartLib) : Prop := {
  multipart_law : forall ct body, media_type ct <> $"multipart/form-data" -> multipart_ReadForm ct body = None;
}.

(** ** Headers *)
Lemma Header_Add_all h k vv :
  fold_left (fun h v => Header_Add h k v) vv h = if decide (vv = []) then h else <[k := default [] (h !! k) ++ vv]> h.
Proof.
  revert h. induction vv as [|v vv IH]; intros h; [done|]. cbn [fold_left]. rewrite IH.
  rewrite (decide_False (P := v :: vv = [])) by done. unfold Header_Add. case_decide as Hv; [by subst|].
  rewrite lookup_insert_eq. cbn [default from_option id]. by rewrite insert_insert_eq, <- (assoc_L (++)).
Qed.

Lemma Header_copy_lookup dst src k :
  Header_copy dst src !! k
    = match src !! k with Some (v :: vv) => Some (default [] (dst !! k) ++ v :: vv) | _ => dst !! k end.
Proof.
  unfold Header_copy. revert k.
  apply (map_fold_weak_ind (fun (h : Header) src => forall k, h !! k
    = match src !! k with Some (v :: vv) => Some (default [] (dst !! k) ++ v :: vv) | _ => dst !! k end)).
  { intros k. by rewrite lookup_empty. }
  intros k' vv src' h Hk' IH k. rewrite Header_Add_all. case_decide as Hv.
  - subst vv. rewrite IH. destruct (decide (k = k')) as [->|Hne]; [by rewrite Hk', lookup_insert_eq|].
    by rewrite lookup_insert_ne.
  - destruct (decide (k = k')) as [->|Hne]; [|by rewrite !lookup_insert_ne, IH].
    rewrite !lookup_insert_eq, IH, Hk'. by destruct vv.
Qed.

Lemma Header_Get_copy src k : Header_Get (Header_copy ∅ src) k = Header_Get src k.
Proof.
  unfold Header_Get. rewrite Header_copy_lookup, lookup_empty. by destruct (src !! k) as [[|v vv]|].
Qed.

(** The headers a writer starts with none of. *)
Lemma Header_copy_all src : (forall k, src !! k <> Some []) -> Header_copy ∅ src = src.
Proof.
  intros H. apply map_eq. intros k. rewrite Header_copy_lookup, lookup_empty. specialize (H k).
  by destruct (src !! k) as [[|v vv]|].
Qed.

(** ** Forms *)
Section forms.
Context {ML : MultipartLib} {MLL : MultipartLaws ML}.

(** A request as a handler gets it, with no body in parts. *)
Record fresh (r : Request) : Prop := {
  fr_method : rq_Method r <> [] /\ forallb token_char (rq_Method r) = true;
  fr_form : rq_Form r = None;
  fr_post : rq_PostForm r = None;
  fr_body : rq_BodyErr r = false;
  fr_type : media_type (Header_Get (rq_Header r) ($"Content-Type")) <> $"multipart/form-data";
}.

Definition is_form (r : Request) : bool :=
  bool_decide (rq_Method r ∈ [MethodPost; MethodPut; MethodPatch]) &&
  bool_decide (media_type (Header_Get (rq_Header r) ($"Content-Type")) = form_type).

(** The pairs of the body, and of the request. *)
Definition posted (r : Request) : Values :=
  if is_form r && (len (rq_Body r) <=? maxFormSize) then url_ParseQuery (rq_Body r) else [].
Definition form_of (r : Request) : Values := posted r ++ url_ParseQuery (rq_RawQuery r).

Definition rest_of_body (r : Request) : bytes :=
  if is_form r then if len (rq_Body r) <=? maxFormSize then [] else drop (Z.to_nat (maxFormSize + 1)) (rq_Body r)
  else rq_Body r.

Definition parsed (r : Request) : Request := set_forms (Some (form_of r)) (Some (posted r)) (set_Body (rest_of_body r) r).

Lemma ParseForm_fresh r : fresh r -> ParseForm r = parsed r.
Proof.
  intros [_ Hf Hp He Ht]. unfold ParseForm, parsed, form_of, posted, rest_of_body, is_form, parsePostForm. rewrite Hp.
  destruct (bool_decide (rq_Method r ∈ _)); simpl; [|rewrite Hf; by destruct r].
  destruct (bool_decide (media_type _ = form_type)); simpl; [|rewrite Hf; by destruct r].
  rewrite He. destruct (maxFormSize <? len (rq_Body r)) eqn:El.
  - rewrite (proj2 (Z.leb_gt _ _)) by by apply Z.ltb_lt. simpl. rewrite Hf. by destruct r.
  - rewrite (proj2 (Z.leb_le _ _)) by by apply Z.ltb_ge. simpl. rewrite Hf. by destruct r.
Qed.

Lemma FormValue_fresh r key : fresh r -> FormValue r key = (Values_Get (form_of r) key, parsed r).
Proof.
  intros H. unfold FormValue. rewrite (fr_form _ H). unfold ParseMultipartForm. rewrite (ParseForm_fresh r H).
  change (rq_Header (parsed r)) with (rq_Header r). rewrite (multipart_law _ _ (fr_type _ H)). done.
Qed.

Lemma FormValue_parsed r key : FormValue (parsed r) key = (Values_Get (form_of r) key, parsed r).
Proof. done. Qed.

Lemma put_key_fresh r : fresh r -> put_key r = Values_Get (form_of r) ($"key").
Proof. intros H. unfold put_key. by rewrite FormValue_fresh. Qed.
Lemma put_value_fresh r : fresh r -> put_value r = Values_Get (form_of r) ($"value").
Proof. intros H. unfold put_value. by rewrite (FormValue_fresh r _ H). Qed.
Lemma delete_key_fresh r : fresh r -> delete_key r =
  let key := Values_Get (form_of r) ($"key") in if bool_decide (key = []) then Query_Get r ($"key") else key.
Proof. intros H. unfold delete_key. by rewrite FormValue_fresh. Qed.

(** ** The request sent on *)

(** Headers the transport sets or reads itself. *)
Definition transport_headers : list bytes :=
  [$"Accept-Encoding"; $"Connection"; $"Content-Length"; $"Host"; $"Keep-Alive"; $"Proxy-Connection"; $"Te"; $"Trailer";
   $"Transfer-Encoding"; $"Upgrade"; $"User-Agent"].

(** The request [r] is what a handler gets when a client sends [q]. *)
Record carries (q : OutRequest) (r : Request) : Prop := {
  ca_method : rq_Method r = oq_Method q;
  ca_path : rq_Path r = u_Path (oq_URL q);
  ca_query : rq_RawQuery r = u_RawQuery (oq_URL q);
  ca_body : rq_Body r = oq_Body q;
  ca_whole : rq_BodyErr r = false;
  ca_form : rq_Form r = None;
  ca_post : rq_PostForm r = None;
  ca_header : forall k, k ∉ transport_headers -> Header_Get (rq_Header r) k = Header_Get (oq_Header q) k;
}.

Lemma both_methods (m : bytes) :
  m ∈ [MethodPost; MethodPut; MethodDelete] -> m ∈ [MethodPost; MethodPut; MethodPatch] -> m ∈ [MethodPost; MethodPut].
Proof.
  intros H1 H2. repeat (apply elem_of_cons in H1 as [->|H1]; [by_deciding || (exfalso; revert H2; by_deciding)|]).
  by apply not_elem_of_nil in H1.
Qed.

Lemma forward_body_fresh r : fresh r ->
  (forward_body (parsed r)).1 = if bool_decide (rq_Method r ∈ [MethodPost; MethodPut]) && (0 <? len (posted r))
                                then Values_Encode (posted r) else rest_of_body r.
Proof.
  intros H. unfold forward_body. change (rq_Method (parsed r)) with (rq_Method r).
  assert (Ep : ParseForm (parsed r) = parsed r).
  { unfold ParseForm. cbn [parsed rq_PostForm rq_Form set_forms]. by destruct r. }
  destruct (bool_decide (rq_Method r ∈ [MethodPost; MethodPut; MethodDelete])) eqn:Em.
  - rewrite Ep. cbv zeta. cbn [parsed rq_PostForm set_forms default from_option id].
    destruct (0 <? len (posted r)) eqn:El; [|by rewrite andb_false_r].
    assert (rq_Method r ∈ [MethodPost; MethodPut]).
    { unfold posted, is_form in El. destruct (bool_decide (rq_Method r ∈ [_; _; MethodPatch])) eqn:E2; [|done].
      apply bool_decide_eq_true in Em, E2. by apply both_methods. }
    by rewrite bool_decide_eq_true_2.
  - rewrite bool_decide_eq_false_2; [done|]. apply bool_decide_eq_false in Em. intros Hin. apply Em.
    by apply (elem_of_app [MethodPost; MethodPut]); left.
Qed.

(** What the proxy may change: the order of the pairs of a form. *)
Definition same_pairs (v v' : Values) : Prop := v' = v \/ v' = sort_values v.

Lemma insert_pair_perm kv v : insert_pair kv v ≡ₚ kv :: v.
Proof.
  induction v as [|kv' v IH]; [done|]. cbn [insert_pair]. destruct (bytes_cmp kv.1 kv'.1); [done..|].
  rewrite IH. apply Permutation_swap.
Qed.

Lemma sort_values_perm v : sort_values v ≡ₚ v.
Proof.
  unfold sort_values. induction v as [|kv v IH]; [done|]. cbn [foldr].
  etransitivity; [apply insert_pair_perm|]. by constructor.
Qed.

Lemma Get_same_pairs v v' w key : same_pairs v v' -> Values_Get (v' ++ w) key = Values_Get (v ++ w) key.
Proof.
  intros [->| ->]; [done|]. rewrite !Get_app, Get_sort.
  assert (E : key ∈ (sort_values v).*1 <-> key ∈ v.*1) by (by rewrite sort_values_perm).
  repeat case_decide; tauto.
Qed.

(** The form fits again once it is encoded. *)
Definition encodes (r : Request) : Prop :=
  len (rq_Body r) <= maxFormSize /\ len (Values_Encode (posted r)) <= maxFormSize.

Lemma posted_forwarded q r r' :
  fresh r -> encodes r -> rq_Method r <> MethodPatch ->
  carries q r' -> oq_Method q = rq_Method r -> oq_Body q = (forward_body (parsed r)).1 ->
  Header_Get (rq_Header r') ($"Content-Type") = Header_Get (rq_Header r) ($"Content-Type") ->
  same_pairs (posted r) (posted r').
Proof.
  intros Hr [Hl1 Hl2] Hm Hc Em Eb Et. rewrite forward_body_fresh in Eb by done.
  assert (Ef : is_form r' = is_form r) by (unfold is_form; by rewrite (ca_method _ _ Hc), Em, Et).
  unfold posted at 2. rewrite Ef, (ca_body _ _ Hc), Eb. destruct (is_form r) eqn:E.
  2: { unfold posted. rewrite E. by left. }
  pose proof E as Ef0. unfold is_form in E. apply andb_true_iff in E as [E1 _]. apply bool_decide_eq_true in E1.
  assert (Hin : rq_Method r ∈ [MethodPost; MethodPut]).
  { apply (elem_of_app [MethodPost; MethodPut]) in E1 as [E1|E1]; [done|]. by apply list_elem_of_singleton in E1. }
  rewrite bool_decide_eq_true_2 by done. cbn [andb]. destruct (0 <? len (posted r)) eqn:El.
  - right. rewrite (proj2 (Z.leb_le _ _)) by done. cbn. apply ParseQuery_Encode.
  - left. assert (Hp : posted r = []) by (apply Z.ltb_ge in El; destruct (posted r); [done|unfold len in El; simpl in El; lia]).
    rewrite Hp. unfold rest_of_body. rewrite Ef0. by rewrite (proj2 (Z.leb_le (len (rq_Body r)) maxFormSize) Hl1).
Qed.

(** The node gets what the client sent: the path, the query, the pairs. *)
Record forwarded (r r' : Request) : Prop := {
  fw_method : rq_Method r' = rq_Method r;
  fw_path : rq_Path r' = rq_Path r;
  fw_query : rq_RawQuery r' = rq_RawQuery r;
  fw_fresh : fresh r';
  fw_pairs : rq_Method r <> MethodPatch -> same_pairs (posted r) (posted r');
}.

Lemma forwarded_value r r' key : forwarded r r' -> rq_Method r <> MethodPatch ->
  Values_Get (form_of r') key = Values_Get (form_of r) key.
Proof. intros H Hm. unfold form_of. rewrite (fw_query _ _ H). by apply Get_same_pairs, H. Qed.

Lemma forwarded_keys r r' : fresh r -> forwarded r r' -> rq_Method r <> MethodPatch ->
  put_key r' = put_key r /\ put_value r' = put_value r /\ delete_key r' = delete_key r.
Proof.
  intros Hr H Hm. pose proof (fw_fresh _ _ H) as Hr'.
  rewrite !put_key_fresh, !put_value_fresh, !delete_key_fresh by done. cbv zeta.
  unfold Query_Get. by rewrite !(forwarded_value r r' _ H Hm), (fw_query _ _ H).
Qed.

Lemma forwarded_served (t : Moment) (page : bytes) (cf : ServerConf) (r r' : Request) (m : vmap) :
  fresh r -> forwarded r r' -> rq_Path r ∈ [$"/get"; $"/put"; $"/delete"] ->
  serve_spec t page cf r' m = serve_spec t page cf r m.
Proof.
  intros Hr H Hp.
  assert (Hk : rq_Method r <> MethodPatch -> put_key r' = put_key r /\ put_value r' = put_value r /\ delete_key r' = delete_key r)
    by (by apply forwarded_keys).
  unfold serve_spec. rewrite (fw_path _ _ H). repeat (apply elem_of_cons in Hp as [Hp|Hp]; [rewrite Hp; cbn|]).
  - change (serve_get t r' m = serve_get t r m). unfold serve_get, Query_Get. by rewrite (fw_method _ _ H), (fw_query _ _ H).
  - change (serve_put cf r' m = serve_put cf r m). unfold serve_put. rewrite (fw_method _ _ H).
    case_bool_decide; [done|]. destruct (decide (rq_Method r = MethodPost)) as [Em|Em].
    + destruct Hk as (-> & -> & _); [by rewrite Em|done].
    + by rewrite (bool_decide_eq_true_2 (rq_Method r <> MethodPost)).
  - change (serve_delete cf r' m = serve_delete cf r m). unfold serve_delete. rewrite (fw_method _ _ H).
    case_bool_decide; [done|]. destruct (decide (rq_Method r = MethodPatch)) as [Em|Em].
    + by rewrite !(bool_decide_eq_true_2 (rq_Method r <> _)) by (by rewrite Em).
    + by destruct (Hk Em) as (_ & _ & ->).
  - by apply not_elem_of_nil in Hp.
Qed.
End forms.

Section forward.
Context {ML : MultipartLib} {MLL : MultipartLaws ML} {N : Network}.

Definition api_paths : list bytes := [$"/get"; $"/put"; $"/delete"].

(** A request of a client for the proxy: its path as it is, its query without a
    fragment mark or a control character. *)
Record routable (r : Request) : Prop := {
  ro_fresh : fresh r;
  ro_encodes : encodes r;
  ro_path : rq_Path r ∈ api_paths;
  ro_escaped : rq_EscapedPath r = rq_Path r;
  ro_query : query_text (rq_RawQuery r);
}.

Lemma api_path_plain p : p ∈ api_paths -> plain_path p.
Proof.
  intros Hp. repeat (apply elem_of_cons in Hp as [->|Hp]; [eexists; split; [reflexivity|by_deciding]|]).
  by apply not_elem_of_nil in Hp.
Qed.

Lemma RequestURI_parse r host : routable r -> plain_host host ->
  exists u, url_Parse (http_url host ++ RequestURI (parsed r)) = Some u /\ u_Host u = host /\ u_Path u = rq_Path r /\
    u_RawQuery u = rq_RawQuery r.
Proof.
  intros [_ _ Hp He Hq] Hh. unfold RequestURI, parsed.
  cbn [rq_EscapedPath rq_ForceQuery rq_RawQuery set_forms set_Body]. rewrite He.
  pose proof (api_path_plain _ Hp) as Hpl. rewrite decide_False by (destruct Hpl as (q & -> & _); done).
  destruct (rq_ForceQuery r || negb (bool_decide (rq_RawQuery r = []))) eqn:Ef.
  - rewrite url_Parse_query by done. eexists. by split_and!.
  - apply orb_false_iff in Ef as [_ Ef]. apply negb_false_iff, bool_decide_eq_true in Ef.
    rewrite app_nil_r, url_Parse_path by done. eexists. by split_and!.
Qed.

(** The answers a client of [net/http] gets. *)
Definition final_response (answer : error + Response) : Prop :=
  match answer with
  | inr resp => 200 <= rp_StatusCode resp <= 999 /\ forall k, rp_Header resp !! k <> Some []
  | inl _ => True
  end.

(** What comes back: the answer, with the part of its body that has arrived. *)
Definition proxied (answer : error + Response) : Response :=
  match answer with
  | inr resp => MkResponse (rp_StatusCode resp) (rp_Header resp) (rp_Body resp) None
  | inl _ => error_response ($"Error forwarding request") StatusBadGateway
  end.

Lemma copy_response_spec resp (st : ProxyState) : final_response (inr resp) ->
  exists wr, copy_response resp (new_writer, st) = Ret (tt, (wr, st)) /\ writer_response wr = proxied (inr resp).
Proof.
  intros [Hc Hh]. unfold copy_response, gbind, WriteHeader, Write. cbn [w_Status w_Header w_Body new_writer].
  rewrite (proj2 (Z.ltb_ge (rp_StatusCode resp) 100)), (proj2 (Z.ltb_ge 999 (rp_StatusCode resp))),
    (proj2 (Z.ltb_ge (rp_StatusCode resp) 200)) by lia.
  eexists. split; [reflexivity|]. unfold writer_response. cbn. rewrite Header_copy_all by done. by destruct resp.
Qed.

Lemma forwardRequest_spec r target host p migs :
  routable r -> strings_TrimRight target x2f = http_url host -> plain_host host ->
  exists q, u_Host (oq_URL q) = host /\ (forall r', carries q r' -> forwarded r r') /\
    forall w answer w', net_Do q w = (answer, w') -> final_response answer ->
      exists wr, forwardRequest target (parsed r) (new_writer, MkProxyState p w migs)
        = Ret (tt, (wr, MkProxyState p w' migs)) /\ writer_response wr = proxied answer.
Proof.
  intros Hr Ht Hh. destruct (RequestURI_parse r host Hr Hh) as (u & Eu & Hu1 & Hu2 & Hu3).
  destruct Hr as [Hf He Hp Hesc Hq]. destruct (fr_method _ Hf) as [Hm1 Hm2].
  set (q := MkOutRequest (rq_Method r) u (Header_copy ∅ (rq_Header r)) (forward_body (parsed r)).1).
  exists q. split; [done|]. split.
  - intros r' Hc. assert (Hct : Header_Get (rq_Header r') ($"Content-Type") = Header_Get (rq_Header r) ($"Content-Type")).
    { rewrite (ca_header _ _ Hc) by by_deciding. apply Header_Get_copy. }
    split; [apply Hc|by rewrite (ca_path _ _ Hc)|by rewrite (ca_query _ _ Hc)| |].
    + split; [by rewrite (ca_method _ _ Hc)|apply Hc|apply Hc|apply Hc|]. rewrite Hct. apply Hf.
    + intros Hm. by eapply posted_forwarded.
  - intros w answer w' Ed Ha. unfold forwardRequest. rewrite Ht.
    destruct (forward_body (parsed r)) as [body r2] eqn:Eb.
    assert (Er2 : rq_Method r2 = rq_Method r /\ rq_Header r2 = rq_Header r).
    { unfold forward_body in Eb. assert (Ep : ParseForm (parsed r) = parsed r) by (unfold ParseForm; by destruct r).
      rewrite Ep in Eb. repeat case_match; simplify_eq/=; done. }
    destruct Er2 as [-> Eh]. unfold http_NewRequest. rewrite decide_False by done. rewrite Hm2. cbn [negb]. rewrite Eu, Eh.
    change (set_oq_Header (Header_copy (oq_Header (MkOutRequest (rq_Method r) u ∅ body)) (rq_Header r)) (MkOutRequest (rq_Method r) u ∅ body)) with q.
    unfold gbind at 1, in_state, px_net. cbn [ps_world]. rewrite Ed. cbn [fst snd]. destruct answer as [err|resp].
    + eexists. split; [reflexivity|]. reflexivity.
    + by apply copy_response_spec.
Qed.

Lemma route_spec r p migs host :
  routable r -> delete_key r <> [] -> strings_TrimRight (Proxy_GetNode p (delete_key r)) x2f = http_url host ->
  plain_host host ->
  exists q, u_Host (oq_URL q) = host /\ (forall r', carries q r' -> forwarded r r') /\
    forall w answer w', net_Do q w = (answer, w') -> final_response answer ->
      proxy_ServeHTTP r (MkProxyState p w migs) = Ret (proxied answer, MkProxyState p w' migs).
Proof.
  intros Hr Hk Ht Hh.
  destruct (forwardRequest_spec r (Proxy_GetNode p (delete_key r)) host p migs Hr Ht Hh) as (q & H1 & H2 & H3).
  exists q. split; [done|]. split; [done|]. intros w answer w' Ed Ha.
  destruct (H3 w answer w' Ed Ha) as (wr & E & <-). unfold proxy_ServeHTTP, proxy_mux.
  rewrite bool_decide_eq_true_2 by apply Hr. unfold route_handler.
  pose proof (delete_key_fresh r (ro_fresh _ Hr)) as Hd. cbv zeta in Hd.
  rewrite (FormValue_fresh r _ (ro_fresh _ Hr)). cbv beta iota zeta.
  change (Query_Get (parsed r) ($"key")) with (Query_Get r ($"key")). rewrite <- Hd.
  rewrite bool_decide_eq_false_2 by done. unfold gbind at 1, in_state at 1, px_get. cbn [fst snd].
  cbn [ps_proxy]. rewrite bool_decide_eq_false_2; [by rewrite E|]. intros E0. rewrite E0 in Ht. discriminate Ht.
Qed.
End forward.
