(* ===== verification/ProxyProps.v ===== *)
(** * What the proxy promises

    Its ring is that of the nodes it lists, under every schedule of requests; a
    node behind it answers as to the client itself; an address that makes no URL
    ends the process. *)
From S2P Require Import Prelude GoBinary Config GoOs WalLib WalModel Record BTreeLib Index Watch Ring.
From S2P Require Import Store Batch DB View DBSpec Instances.
From S2P Require Import Strs Json Http Urls Replication Server ServerSpec ServerProps Proxy ProxySpec.
From Stdlib Require Import Sorted.
Open Scope Z_scope.

(** ** The ring of a list of nodes *)
Definition ring_of (nodes : list bytes) : ConsistentHashRing := fold_left (fun r n => AddNode r [n]) nodes (New 10 None).
Definition proxy_of (nodes : list bytes) : Proxy := MkProxy (ring_of nodes) nodes.

Lemma ring_of_app nodes node : ring_of (nodes ++ [node]) = AddNode (ring_of nodes) [node].
Proof. unfold ring_of. by rewrite fold_left_app. Qed.

Lemma add_proxy_of nodes node : Proxy_AddNode node (proxy_of nodes) = proxy_of (nodes ++ [node]).
Proof. unfold Proxy_AddNode, proxy_of. by rewrite ring_of_app. Qed.

Lemma add_all_proxy_of nodes l : fold_left (fun p node => Proxy_AddNode node p) l (proxy_of nodes) = proxy_of (nodes ++ l).
Proof.
  revert nodes. induction l as [|n l IH]; intros nodes; simpl; [by rewrite app_nil_r|].
  by rewrite add_proxy_of, IH, <- (assoc_L (++)).
Qed.

Lemma proxy_of_flag_nodes flag p : proxy_of_flag flag = Some p ->
  exists nodes, p = proxy_of nodes /\ nodes = strings_TrimSpace <$> strings_Split x2c flag /\ nodes <> [].
Proof.
  unfold proxy_of_flag. case_bool_decide; [done|]. intros [= <-]. eexists. split; [apply (add_all_proxy_of [])|].
  split; [done|]. destruct (Split_cons x2c flag) as (x & xs & ->). done.
Qed.

Lemma ring_of_sorted nodes : StronglySorted Z.le (r_keys (ring_of nodes)) /\ r_replicas (ring_of nodes) = 10.
Proof.
  induction nodes as [|n nodes IH] using rev_ind; [split; [constructor|done]|]. rewrite ring_of_app.
  destruct (AddNode_one_spec n (ring_of nodes)) as (_ & E2 & E3 & _). split; [done|]. rewrite E2. apply IH.
Qed.

(** Every key has a node of the list. *)
Lemma ring_of_routes nodes key : nodes <> [] -> GetNode (ring_of nodes) key ∈ nodes.
Proof.
  induction nodes as [|n nodes IH] using rev_ind; [done|]. intros _. rewrite ring_of_app.
  destruct (ring_of_sorted nodes) as [Hs Hr].
  destruct (decide (nodes = [])) as [->|Hne].
  - destruct (AddNode_one_spec n (ring_of [])) as (E1 & E2 & E3 & E4 & E5). set (r' := AddNode (ring_of []) [n]) in *.
    assert (Hp : r_keys r' <> []).
    { intros E. rewrite E in E4. apply Permutation_length in E4. unfold points, replica_ids in E4.
      rewrite length_app, !length_fmap, length_seq in E4. rewrite Hr in E4. simpl in E4. lia. }
    destruct (GetNode_succ r' key E3 Hp) as (p & [Hp1 _] & ->). rewrite E4 in Hp1. cbn [ring_of fold_left New r_keys app] in Hp1.
    rewrite E5, decide_True by done. apply list_elem_of_here.
  - destruct (GetNode_AddNode (ring_of nodes) [n] key Hs) as [H|H].
    + apply elem_of_app. by right.
    + rewrite H. apply elem_of_app. left. by apply IH.
Qed.

Lemma ring_of_added nodes added key :
  GetNode (ring_of (nodes ++ added)) key ∈ added \/ GetNode (ring_of (nodes ++ added)) key = GetNode (ring_of nodes) key.
Proof.
  induction added as [|n added IH] using rev_ind; [right; by rewrite app_nil_r|].
  rewrite (assoc_L (++)), ring_of_app.
  destruct (GetNode_AddNode (ring_of (nodes ++ added)) [n] key (proj1 (ring_of_sorted _))) as [H| ->].
  - left. apply elem_of_app. by right.
  - destruct IH as [H|H]; [left; apply elem_of_app; by left|by right].
Qed.

(** ** Schedules of requests

    The handlers of the proxy run in goroutines of their own.  A request that adds a
    node reads the nodes in one step and adds its own in another; the number of a
    request in between stands for its goroutine. *)
Inductive px_event : Type :=
| Serves (r : Request)
| Reads (i : nat) (r : Request)
| Adds (i : nat).

(** The node a request adds. *)
Definition added_node (r : Request) : option bytes :=
  if bool_decide (rq_Path r = $"/add-node") && bool_decide (rq_Method r = MethodPost) &&
     bool_decide (Query_Get r ($"node") <> [])
  then Some (strings_TrimRight (strings_TrimSpace (Query_Get r ($"node"))) x2f) else None.

(** The additions of a schedule, each with the nodes it has read: the goroutines it
    starts. *)
Fixpoint migrations_of (evs : list px_event) (nodes : list bytes) (pending : gmap nat (list bytes * bytes)) :
    list (list bytes * bytes) :=
  match evs with
  | [] => []
  | Serves r :: evs =>
      match added_node r with
      | Some n => (nodes, n) :: migrations_of evs (nodes ++ [n]) pending
      | None => migrations_of evs nodes pending
      end
  | Reads i r :: evs =>
      match added_node r, pending !! i with
      | Some n, None => migrations_of evs nodes (<[i := (nodes, n)]> pending)
      | _, _ => migrations_of evs nodes pending
      end
  | Adds i :: evs =>
      match pending !! i with
      | Some (olds, n) => (olds, n) :: migrations_of evs (nodes ++ [n]) (delete i pending)
      | None => migrations_of evs nodes pending
      end
  end.

(** What each addition has read: the nodes there were at the start, and some of
    those added before it, without a gap. *)
Definition read_before (nodes : list bytes) (ms : list (list bytes * bytes)) : Prop :=
  forall j olds n, ms !! j = Some (olds, n) -> olds `prefix_of` nodes ++ take j ms.*2.

Definition pending_read (nodes : list bytes) (pending : gmap nat (list bytes * bytes)) : Prop :=
  map_Forall (fun _ on => on.1 `prefix_of` nodes) pending.

Lemma prefix_app_more {A} (l l1 l2 : list A) : l `prefix_of` l1 -> l `prefix_of` l1 ++ l2.
Proof. intros H. etransitivity; [exact H|by eexists]. Qed.

Lemma read_before_cons nodes olds n ms : olds `prefix_of` nodes -> read_before (nodes ++ [n]) ms ->
  read_before nodes ((olds, n) :: ms).
Proof.
  intros Ho Hms [|j] olds' n' E; [injection E as <- <-; simpl; by rewrite app_nil_r|].
  pose proof (Hms j olds' n' E) as H. rewrite <- (assoc_L (++)) in H. exact H.
Qed.

Lemma pending_read_more nodes l pending : pending_read nodes pending -> pending_read (nodes ++ l) pending.
Proof. intros H i on Hi. by apply prefix_app_more, (H i on). Qed.

Lemma migrations_read_before evs nodes pending : pending_read nodes pending -> read_before nodes (migrations_of evs nodes pending).
Proof.
  revert nodes pending. induction evs as [|ev evs IH]; intros nodes pending Hp; [intros j olds n E; discriminate E|].
  destruct ev as [r|i r|i]; cbn [migrations_of].
  - destruct (added_node r) as [n|]; [|by apply IH]. apply read_before_cons; [done|]. by apply IH, pending_read_more.
  - destruct (added_node r) as [n|]; [|by apply IH]. destruct (pending !! i); [by apply IH|].
    apply IH. by apply map_Forall_insert_2.
  - destruct (pending !! i) as [[olds n]|] eqn:Ei; [|by apply IH]. apply read_before_cons; [exact (Hp i _ Ei)|].
    by apply IH, pending_read_more, map_Forall_delete.
Qed.

(** Without interleaving, each has read all of those before it. *)
Definition alone (ev : px_event) : Prop := exists r, ev = Serves r.

Lemma migrations_alone evs nodes pending : Forall alone evs ->
  forall j olds n, migrations_of evs nodes pending !! j = Some (olds, n) ->
    olds = nodes ++ take j (migrations_of evs nodes pending).*2.
Proof.
  intros H. revert nodes. induction H as [|ev evs [r ->] _ IH]; intros nodes j olds n E; [discriminate E|].
  cbn [migrations_of] in *. destruct (added_node r) as [m|]; [|exact (IH nodes j olds n E)].
  destruct j as [|j]; [injection E as <- <-; simpl; by rewrite app_nil_r|].
  rewrite (IH _ j olds n E). simpl. by rewrite <- (assoc_L (++)).
Qed.

Section histories.
Context {ML : MultipartLib} {N : Network}.

(** The proxy and the requests that have read the nodes and not yet added theirs. *)
Definition Site : Type := ProxyState * gmap nat (list bytes * bytes).

(** One event: the answers it gives, and the proxy after it. *)
Definition px_exec (ev : px_event) (σ : Site) : outcome (list Response * Site) :=
  let '(s, pending) := σ in
  match ev with
  | Serves r => '(resp, s) ← proxy_ServeHTTP r s; Ret ([resp], (s, pending))
  | Reads i r =>
      if bool_decide (is_Some (pending !! i)) || negb (bool_decide (rq_Path r = $"/add-node")) then Ret ([], σ) else
      '(read, (w, s)) ← add_node_reads r (new_writer, s);
      match read with
      | None => Ret ([writer_response w], (s, pending))
      | Some on => Ret ([], (s, <[i := on]> pending))
      end
  | Adds i =>
      match pending !! i with
      | None => Ret ([], σ)
      | Some (oldNodes, newNode) =>
          '(_, (w, s)) ← add_node_adds oldNodes newNode (new_writer, s);
          Ret ([writer_response w], (s, delete i pending))
      end
  end.

Fixpoint px_exec_all (evs : list px_event) (σ : Site) : outcome (list Response * Site) :=
  match evs with
  | [] => Ret ([], σ)
  | ev :: evs =>
      '(resps, σ) ← px_exec ev σ;
      '(resps', σ) ← px_exec_all evs σ;
      Ret (resps ++ resps', σ)
  end.

(** A handler that returns and keeps the ring and the goroutines. *)
Definition leaves_nodes (h : HttpM ProxyState unit) : Prop := forall wr p w migs,
  exists wr' w', h (wr, MkProxyState p w migs) = Ret (tt, (wr', MkProxyState p w' migs)).

Lemma http_Error_leaves msg code : 200 <= code <= 999 -> leaves_nodes (http_Error msg code).
Proof.
  intros Hc wr p w migs. unfold http_Error, gbind, SetHeader, WriteHeader, Write. simpl.
  rewrite (proj2 (Z.ltb_ge code 100)), (proj2 (Z.ltb_ge 999 code)), (proj2 (Z.ltb_ge code 200)) by lia. simpl.
  destruct (w_Status wr); by eexists _, w.
Qed.

Hypothesis final : forall q w, final_response (net_Do q w).1.

Lemma forwardRequest_leaves target r : leaves_nodes (forwardRequest target r).
Proof.
  unfold forwardRequest. destruct (forward_body r) as [body r'].
  destruct (http_NewRequest _ _ _) as [err|q]; [by apply http_Error_leaves|].
  intros wr p w migs. set (q' := set_oq_Header _ q). specialize (final q' w).
  unfold gbind at 1, in_state, px_net. cbn [ps_world]. destruct (net_Do q' w) as [[err|resp] w']; cbn [fst snd ps_proxy ps_migrations].
  - destruct (http_Error_leaves ($"Error forwarding request") StatusBadGateway) with wr p w' migs as (wr2 & w2 & ->);
      [done|by eexists _, _].
  - destruct final as [Hc _]. unfold copy_response, gbind, WriteHeader, Write.
    cbn [w_Status w_Header w_Body fst snd].
    rewrite (proj2 (Z.ltb_ge (rp_StatusCode resp) 100)), (proj2 (Z.ltb_ge 999 (rp_StatusCode resp))),
      (proj2 (Z.ltb_ge (rp_StatusCode resp) 200)) by lia.
    destruct (w_Status wr); by eexists _, _.
Qed.

Lemma route_handler_leaves r : leaves_nodes (route_handler r).
Proof.
  unfold route_handler. destruct (FormValue r ($"key")) as [key0 r']. cbv zeta.
  set (key := if bool_decide (key0 = []) then _ else _). clearbody key.
  case_bool_decide; [by apply http_Error_leaves|]. intros wr p w migs.
  unfold gbind at 1, in_state at 1, px_get. cbn [fst snd ps_proxy].
  case_bool_decide; [by apply http_Error_leaves|]. by apply forwardRequest_leaves.
Qed.

(** The first half of an addition: it answers and stops, or has read the nodes. *)
Lemma add_node_reads_step r nodes w migs : rq_Path r = $"/add-node" ->
  match added_node r with
  | Some n => add_node_reads r (new_writer, MkProxyState (proxy_of nodes) w migs)
      = Ret (Some (nodes, n), (new_writer, MkProxyState (proxy_of nodes) w migs))
  | None => exists wr, add_node_reads r (new_writer, MkProxyState (proxy_of nodes) w migs)
      = Ret (None, (wr, MkProxyState (proxy_of nodes) w migs))
  end.
Proof.
  intros Ep. assert (Herr : forall msg code, 200 <= code <= 999 ->
    exists wr, (http_Error msg code ;;; gret None) (new_writer, MkProxyState (proxy_of nodes) w migs)
      = Ret (None (A := list bytes * bytes), (wr, MkProxyState (proxy_of nodes) w migs))).
  { intros msg code Hc. unfold http_Error, gbind, gret, SetHeader, WriteHeader, Write. cbn [w_Status w_Header w_Body fst snd new_writer].
    rewrite (proj2 (Z.ltb_ge code 100)), (proj2 (Z.ltb_ge 999 code)), (proj2 (Z.ltb_ge code 200)) by lia. by eexists. }
  unfold added_node, add_node_reads. rewrite (bool_decide_eq_true_2 _ Ep). cbn [andb].
  destruct (decide (rq_Method r = MethodPost)) as [Em|Em].
  2: { rewrite (bool_decide_eq_false_2 (rq_Method r = _)) by done. cbn [andb]. rewrite bool_decide_eq_true_2 by done. by apply Herr. }
  rewrite (bool_decide_eq_true_2 (rq_Method r = _)) by done. rewrite (bool_decide_eq_false_2 (rq_Method r <> _)) by (intros H; by apply H).
  cbn [andb]. destruct (decide (Query_Get r ($"node") = [])) as [En|En].
  { rewrite (bool_decide_eq_false_2 (Query_Get r _ <> [])) by (intros H; by apply H). rewrite bool_decide_eq_true_2 by done. by apply Herr. }
  rewrite (bool_decide_eq_true_2 (Query_Get r _ <> [])) by done. rewrite bool_decide_eq_false_2 by done. reflexivity.
Qed.

(** The second half. *)
Lemma add_node_adds_step olds n nodes w migs : exists wr,
  add_node_adds olds n (new_writer, MkProxyState (proxy_of nodes) w migs)
    = Ret (tt, (wr, MkProxyState (proxy_of (nodes ++ [n])) w (migs ++ [(olds, n)]))).
Proof.
  unfold add_node_adds, gbind, in_state, px_modify, px_go_migrate. cbn [fst snd ps_proxy ps_world ps_migrations].
  rewrite add_proxy_of. eexists. reflexivity.
Qed.

(** One request, served alone. *)
Lemma proxy_step r nodes w migs :
  exists resp w', proxy_ServeHTTP r (MkProxyState (proxy_of nodes) w migs) =
    Ret (resp, match added_node r with
               | Some n => MkProxyState (proxy_of (nodes ++ [n])) w' (migs ++ [(nodes, n)])
               | None => MkProxyState (proxy_of nodes) w' migs
               end).
Proof.
  assert (Hkeep : forall h : HttpM ProxyState unit, leaves_nodes h -> exists resp w',
    ('(_, (wr, s)) ← h (new_writer, MkProxyState (proxy_of nodes) w migs); Ret (writer_response wr, s))
      = Ret (resp, MkProxyState (proxy_of nodes) w' migs)).
  { intros h Hh. destruct (Hh new_writer (proxy_of nodes) w migs) as (wr' & w' & ->). by eexists _, _. }
  unfold proxy_ServeHTTP, proxy_mux. case_bool_decide as Hp.
  { assert (E : added_node r = None).
    { unfold added_node. rewrite (bool_decide_eq_false_2 (rq_Path r = _)); [done|]. intros E. rewrite E in Hp. revert Hp. by_deciding. }
    rewrite E. apply Hkeep, route_handler_leaves. }
  case_bool_decide as Ep.
  2: { assert (E : added_node r = None) by (unfold added_node; by rewrite (bool_decide_eq_false_2 (rq_Path r = _))).
       rewrite E. by apply Hkeep, http_Error_leaves. }
  unfold add_node_handler. pose proof (add_node_reads_step r nodes w migs Ep) as Hr. destruct (added_node r) as [n|].
  - rewrite (gbind_Ret _ _ _ _ _ Hr). destruct (add_node_adds_step nodes n nodes w migs) as [wr E]. eexists _, w. by rewrite E.
  - destruct Hr as [wr Hr]. rewrite (gbind_Ret _ _ _ _ _ Hr). by eexists _, w.
Qed.

(** Served alone, each request is answered. *)
Ltac answers_all :=
  let H := fresh in let H1 := fresh in let H2 := fresh in
  intros H; destruct (Forall_cons_1 _ _ _ H) as [[H1 H2] ?]; simplify_eq; simpl; rewrite ?length_app; simpl; auto.

Lemma proxy_run evs nodes w migs pending :
  exists resps w' pending', px_exec_all evs (MkProxyState (proxy_of nodes) w migs, pending)
    = Ret (resps, (MkProxyState (proxy_of (nodes ++ (migrations_of evs nodes pending).*2)) w'
                     (migs ++ migrations_of evs nodes pending), pending')) /\
    (Forall alone evs -> length resps = length evs).
Proof.
  revert nodes w migs pending. induction evs as [|ev evs IH]; intros nodes w migs pending; cbn [px_exec_all].
  { exists [], w, pending. by rewrite !app_nil_r. }
  assert (Hadd : forall olds n w pending, exists resps w' pending',
    px_exec_all evs (MkProxyState (proxy_of (nodes ++ [n])) w (migs ++ [(olds, n)]), pending)
      = Ret (resps, (MkProxyState (proxy_of (nodes ++ n :: (migrations_of evs (nodes ++ [n]) pending).*2)) w'
                       (migs ++ (olds, n) :: migrations_of evs (nodes ++ [n]) pending), pending')) /\
      (Forall alone evs -> length resps = length evs)).
  { intros olds n w1 pending1. destruct (IH (nodes ++ [n]) w1 (migs ++ [(olds, n)]) pending1) as (resps & w2 & pending2 & E & Hn).
    rewrite <- !(assoc_L (++)) in E. by exists resps, w2, pending2. }
  destruct ev as [r|i r|i]; cbn [px_exec migrations_of].
  - destruct (proxy_step r nodes w migs) as (resp & w1 & ->). cbn [mbind outcome_bind]. destruct (added_node r) as [n|].
    + destruct (Hadd nodes n w1 pending) as (resps & w2 & pending2 & -> & Hn). eexists _, w2, pending2. split; [reflexivity|by answers_all].
    + destruct (IH nodes w1 migs pending) as (resps & w2 & pending2 & -> & Hn). eexists _, w2, pending2. split; [reflexivity|by answers_all].
  - destruct (pending !! i) as [on|] eqn:Ei.
    + rewrite bool_decide_eq_true_2 by by eexists. cbn [orb mbind outcome_bind]. replace (match added_node r with Some _ | _ => _ end)
        with (migrations_of evs nodes pending) by (by destruct (added_node r)).
      destruct (IH nodes w migs pending) as (resps & w2 & pending2 & -> & Hn). eexists _, w2, pending2. split; [reflexivity|by answers_all].
    + rewrite bool_decide_eq_false_2 by (by intros [? ?]). cbn [orb]. case_bool_decide as Ep; cbn [negb].
      2: { replace (added_node r) with (@None bytes) by (unfold added_node; by rewrite (bool_decide_eq_false_2 (rq_Path r = _))).
           cbn [mbind outcome_bind]. destruct (IH nodes w migs pending) as (resps & w2 & pending2 & -> & Hn). eexists _, w2, pending2. split; [reflexivity|by answers_all]. }
      pose proof (add_node_reads_step r nodes w migs Ep) as Hr. destruct (added_node r) as [n|].
      * rewrite Hr. cbn [mbind outcome_bind]. destruct (IH nodes w migs (<[i := (nodes, n)]> pending)) as (resps & w2 & pending2 & -> & Hn).
        eexists _, w2, pending2. split; [reflexivity|by answers_all].
      * destruct Hr as [wr ->]. cbn [mbind outcome_bind]. destruct (IH nodes w migs pending) as (resps & w2 & pending2 & -> & Hn).
        eexists _, w2, pending2. split; [reflexivity|by answers_all].
  - destruct (pending !! i) as [[olds n]|]; cbn [mbind outcome_bind].
    + destruct (add_node_adds_step olds n nodes w migs) as [wr ->]. cbn [mbind outcome_bind].
      destruct (Hadd olds n w (delete i pending)) as (resps & w2 & pending2 & -> & Hn). eexists _, w2, pending2. split; [reflexivity|by answers_all].
    + destruct (IH nodes w migs pending) as (resps & w2 & pending2 & -> & Hn). eexists _, w2, pending2. split; [reflexivity|by answers_all].
Qed.
End histories.

Section props.
Context {ML : MultipartLib} {N : Network}.

Lemma gbind_Panic {S A C} (m : GoM S A) (k : A -> GoM S C) s : m s = Panic -> gbind m k s = Panic.
Proof. intros E. unfold gbind. by rewrite E. Qed.

(** C39: The nodes of a proxy are those of its flag and then those that requests
    to /add-node have added, in order, whatever else it is asked, however the
    requests interleave and whatever the network answers; no request panics.  Each
    node added starts one migration, from the nodes its request has read: all that
    were there before it when nothing came in between, and else the nodes of the
    flag and those added before some earlier moment.  Every key is routed to a node
    of the list, and an addition moves a key only to a node added. *)
Theorem proxy_routes_to_listed_nodes flag p evs w migs :
  (forall q w, final_response (net_Do q w).1) -> proxy_of_flag flag = Some p ->
  let nodes := strings_TrimSpace <$> strings_Split x2c flag in
  let started := migrations_of evs nodes ∅ in
  let added := started.*2 in
  px_nodes p = nodes /\
  (exists resps p' w' pending, px_exec_all evs (MkProxyState p w migs, ∅)
      = Ret (resps, (MkProxyState p' w' (migs ++ started), pending)) /\
    (Forall alone evs -> length resps = length evs) /\ px_nodes p' = nodes ++ added /\
    forall key, Proxy_GetNode p' key ∈ px_nodes p' /\
      (Proxy_GetNode p' key ∈ added \/ Proxy_GetNode p' key = Proxy_GetNode p key)) /\
  (forall j olds n, started !! j = Some (olds, n) ->
     olds `prefix_of` nodes ++ take j added /\ (Forall alone evs -> olds = nodes ++ take j added)).
Proof.
  intros Hfinal Hp nodes started added. destruct (proxy_of_flag_nodes flag p Hp) as (nodes' & -> & -> & Hne).
  split; [done|]. split.
  - destruct (proxy_run Hfinal evs nodes w migs ∅) as (resps & w' & pending & E & Hn).
    exists resps, (proxy_of (nodes ++ added)), w', pending. split; [done|]. split; [done|]. split; [done|]. intros key. split.
    + apply ring_of_routes. intros E0. apply app_nil in E0 as [E0 _]. exact (Hne E0).
    + apply ring_of_added.
  - intros j olds n Hj. split; [|intros Ha; by eapply migrations_alone].
    eapply migrations_read_before; [apply map_Forall_empty|exact Hj].
Qed.

(** C12: A request for a key sent to the proxy is sent on, once, to the node of
    the key, and what the node answers comes back as it is -- status, headers and
    body; no answer is a bad gateway.  The node serves the request that arrives
    exactly as it would serve the client's own, whatever map it holds, its role
    and the method: the form the proxy has read and written again has the same
    keys and values. *)
Theorem proxy_is_transparent {MLL : MultipartLaws ML} r p migs host :
  routable r -> delete_key r <> [] -> strings_TrimRight (Proxy_GetNode p (delete_key r)) x2f = http_url host ->
  plain_host host ->
  exists q, u_Host (oq_URL q) = host /\
    (forall w answer w', net_Do q w = (answer, w') -> final_response answer ->
       proxy_ServeHTTP r (MkProxyState p w migs) = Ret (proxied answer, MkProxyState p w' migs)) /\
    (forall r' t page cf m, carries q r' -> serve_spec t page cf r' m = serve_spec t page cf r m).
Proof.
  intros Hr Hk Ht Hh. destruct (route_spec r p migs host Hr Hk Ht Hh) as (q & H1 & H2 & H3).
  exists q. split; [done|]. split; [done|]. intros r' t page cf m Hc.
  apply forwarded_served; [apply Hr|by apply H2|apply Hr].
Qed.

(** A node whose address makes no URL is accepted by /add-node; the first
    key that belongs to it and that an old node gives away then makes the
    migration set a header of no request, which ends the process. *)
Theorem malformed_node_crashes p w migs oldNode oldNodes bad key keys resp w1 got w2 :
  url_Parse (bad ++ $"/put") = None ->
  http_Get (oldNode ++ $"/keys") w = (inr resp, w1) ->
  json_Decode (rp_Body resp) ≫= json_to_strings = Some (key :: keys) ->
  Proxy_GetNode p key = bad ->
  http_Get (oldNode ++ $"/get?key=" ++ key) w1 = (inr got, w2) -> rp_StatusCode got = StatusOK ->
  migrateData (gret tt) (oldNode :: oldNodes) bad (MkProxyState p w migs) = Panic.
Proof.
  intros Hbad Hkeys Hdec Hnode Hget Hok.
  set (s1 := MkProxyState p w1 migs).
  assert (E1 : fetch_keys oldNode (MkProxyState p w migs) = Ret (Some (key :: keys), s1)).
  { unfold fetch_keys, gbind, px_net. cbn [ps_world]. rewrite Hkeys. unfold gret. by rewrite Hdec. }
  assert (E2 : migrate_key oldNode bad key s1 = Panic).
  { unfold migrate_key, gbind, px_get. cbn [ps_proxy s1]. rewrite bool_decide_eq_false_2 by (intros H; by apply H).
    unfold px_net. cbn [ps_world s1]. rewrite Hget. cbn [ok_response]. rewrite Hok. cbn [Z.eqb StatusOK Pos.eqb].
    unfold post_form, http_NewRequest. by rewrite Hbad. }
  cbn [migrateData]. rewrite (gbind_Ret _ _ _ _ _ E1). cbn [migrate_keys].
  apply gbind_Panic. rewrite (gbind_Ret (gret tt) _ s1 tt s1 eq_refl). by apply gbind_Panic.
Qed.
End props.

(** ** Witnesses *)
#[export] Instance NoMultipart_laws : MultipartLaws NoMultipart.
Proof. split. done. Qed.

Lemma plain_sample name port : forallb unreserved name = true -> forallb is_digit port = true -> name <> [] ->
  plain_host (name ++ x3a :: port).
Proof.
  intros H1 H2 H3. rewrite forallb_forall in H1, H2. exists name, (x3a :: port). split; [done|]. split; [done|]. split.
  - apply Forall_forall. intros c Hc. by apply H1, list_elem_of_In.
  - right. exists port. split; [done|]. apply Forall_forall. intros c Hc. by apply H2, list_elem_of_In.
Qed.

(** A network on which everything is well. *)
Definition all_well : Network := {| World := unit; net_Do _ w := (inr (text_response ($"OK")), w) |}.

Lemma all_well_final : forall q w, final_response (net_Do (Network := all_well) q w).1.
Proof. intros q w. split; [cbn; unfold StatusOK; lia|]. intros k H. change ((∅ : Header) !! k = Some []) in H. by rewrite lookup_empty in H. Qed.

Definition sample_flag : bytes := $"http://n1:8080, http://n2:8080".

(** Two requests add a node, the second one while the first is under way: its
    migration does not look at the first one's node. *)
Definition sample_proxy_events : list px_event :=
  let add node := form_request ($"/add-node") ($"node=" ++ node) [] in
  [Serves (get_request ($"/get") ($"key=a")); Reads 1 (add ($"http://n3:8080/")); Reads 2 (add ($"http://n4:8080")); Adds 1;
   Serves (get_request ($"/add-node") ($"node=x")); Adds 2; Serves (form_request ($"/put") [] ($"key=a&value=1"));
   Serves (add ($"http://n5:8080")); Serves (get_request ($"/keys") [])].

Lemma sample_flag_nodes : strings_TrimSpace <$> strings_Split x2c sample_flag = [$"http://n1:8080"; $"http://n2:8080"].
Proof. vm_compute. reflexivity. Qed.

Lemma sample_flag_proxy : proxy_of_flag sample_flag = Some (proxy_of (strings_TrimSpace <$> strings_Split x2c sample_flag)).
Proof. unfold proxy_of_flag. rewrite bool_decide_eq_false_2 by discriminate. exact (f_equal Some (add_all_proxy_of [] _)). Qed.

Definition sample_started : list (list bytes * bytes) :=
  let nodes := [$"http://n1:8080"; $"http://n2:8080"] in
  [(nodes, $"http://n3:8080"); (nodes, $"http://n4:8080"); (nodes ++ [$"http://n3:8080"; $"http://n4:8080"], $"http://n5:8080")].

Lemma sample_added : migrations_of sample_proxy_events [$"http://n1:8080"; $"http://n2:8080"] ∅ = sample_started.
Proof. vm_compute. reflexivity. Qed.

Lemma proxy_routes_to_listed_nodes_witness : exists p resps p' w' pending,
  proxy_of_flag sample_flag = Some p /\
  px_exec_all (N := all_well) sample_proxy_events (MkProxyState (N := all_well) p tt [], ∅)
    = Ret (resps, (MkProxyState (N := all_well) p' w' sample_started, pending)) /\
  px_nodes p' = [$"http://n1:8080"; $"http://n2:8080"; $"http://n3:8080"; $"http://n4:8080"; $"http://n5:8080"] /\
  forall key, Proxy_GetNode p' key ∈ px_nodes p'.
Proof.
  pose proof sample_flag_proxy as Ep. set (p := proxy_of _) in Ep. clearbody p.
  destruct (proxy_routes_to_listed_nodes (N := all_well) sample_flag p sample_proxy_events tt [] all_well_final Ep)
    as (_ & (resps & p' & w' & pending & E & _ & En & H) & _).
  rewrite sample_flag_nodes, sample_added in E. rewrite sample_flag_nodes, sample_added in En.
  exists p, resps, p', w', pending. split; [exact Ep|]. split; [exact E|]. split; [exact En|]. intros key. exact (proj1 (H key)).
Defined.

(** A form in another order, to a node with a slash at its end. *)
Definition sample_put : Request := form_request ($"/put") [] ($"value=x+y%21&key=b").

Lemma sample_put_routable : routable sample_put.
Proof.
  split; [|split; vm_compute; discriminate|by_deciding|reflexivity|constructor].
  split; [split; [discriminate|vm_compute; reflexivity]|reflexivity|reflexivity|reflexivity|vm_compute; discriminate].
Qed.

Lemma sample_put_served : serve_spec (at_time 6) [] (MkServerConf None 5 [] MASTER) sample_put ∅
  = (text_response ($"OK" ++ [x0a]), <[$"b" := ($"x y!", 0)]> ∅, []).
Proof. change ((text_response ($"OK" ++ [x0a]), <[put_key sample_put := (put_value sample_put, 0)]> (∅ : vmap), @nil SyncTask)
  = (text_response ($"OK" ++ [x0a]), <[$"b" := ($"x y!", 0)]> ∅, [])).
  assert (E : put_key sample_put = $"b" /\ put_value sample_put = $"x y!") by (split; vm_compute; reflexivity).
  by destruct E as [-> ->].
Qed.

Lemma proxy_is_transparent_witness : exists q,
  proxy_ServeHTTP (N := all_well) sample_put (MkProxyState (N := all_well) (proxy_of [$"http://n1:8080/"]) tt [])
    = Ret (text_response ($"OK"), MkProxyState (N := all_well) (proxy_of [$"http://n1:8080/"]) tt []) /\
  u_Host (oq_URL q) = $"n1:8080" /\
  forall r', carries q r' -> serve_spec (at_time 6) [] (MkServerConf None 5 [] MASTER) r' ∅
    = (text_response ($"OK" ++ [x0a]), <[$"b" := ($"x y!", 0)]> ∅, []).
Proof.
  destruct (proxy_is_transparent (N := all_well) sample_put (proxy_of [$"http://n1:8080/"]) [] ($"n1:8080") sample_put_routable)
    as (q & H1 & H2 & H3).
  - vm_compute. discriminate.
  - vm_compute. reflexivity.
  - apply (plain_sample ($"n1") ($"8080")); [vm_compute; reflexivity..|discriminate].
  - exists q. split; [exact (H2 tt (inr (text_response ($"OK"))) tt eq_refl (all_well_final q tt))|]. split; [exact H1|].
    intros r' Hc. rewrite (H3 r' (at_time 6) [] (MkServerConf None 5 [] MASTER) ∅ Hc). exact sample_put_served.
Defined.

(** An address without a scheme; the key [c] is its own. *)
Definition bad_node : bytes := $"127.0.0.1:8082".
Definition bad_proxy : Proxy := proxy_of [$"http://n1:8080"; bad_node].
Definition bad_script : list (error + Response) :=
  [inr (json_response (json_strings [$"c"; $"a"] ++ [x0a])); inr (text_response ($"1" ++ [x0a]))].

Lemma malformed_node_crashes_witness :
  migrateData (N := scripted) (gret tt) [$"http://n1:8080"] bad_node (MkProxyState (N := scripted) bad_proxy bad_script []) = Panic.
Proof.
  apply (malformed_node_crashes (N := scripted) bad_proxy bad_script [] ($"http://n1:8080") [] bad_node ($"c") [$"a"]
    (json_response (json_strings [$"c"; $"a"] ++ [x0a])) [inr (text_response ($"1" ++ [x0a]))] (text_response ($"1" ++ [x0a])) []);
    vm_compute; reflexivity.
Defined.

(** ** The setup of the documentation *)

(** The nodes of README-VI.md are a master and its slave; the keys of its examples
    all belong to the slave, which refuses to write them. *)
Definition readme_proxy : Proxy := proxy_of [$"http://localhost:8080"; $"http://localhost:8081"].

Example readme_keys_belong_to_the_slave :
  Forall (fun key => Proxy_GetNode readme_proxy key = $"http://localhost:8081") [$"ten"; $"tuoi"; $"city"] /\
  forall m, serve_spec (at_time 6) [] (MkServerConf None 5 [] SLAVE) (form_request ($"/put") [] ($"key=city&value=HaNoi")) m
    = (error_response ($"Forbidden: Only MASTER node can accept write requests") StatusForbidden, m, []).
Proof. split; [by_deciding|]. intros m. reflexivity. Qed.

(** Its call of /add-node has the node in the body, where it is not looked for. *)
Example readme_add_node_is_refused :
  added_node (form_request ($"/add-node") [] ($"node=http://localhost:8082")) = None.
Proof. vm_compute. reflexivity. Qed.
