(* ===== verification/Migration.v ===== *)
(** * Migration over nodes that keep maps

    What the proxy needs of the nodes: the class [KVNodes] says what the requests
    of a migration do to the maps that the nodes of a network show, answered or
    not.  Against it, [migrateData] loses no key.  [CutNodes] gives the class to a
    network whose connections break off, over any network that has it. *)
From S2P Require Import Prelude GoBinary Config WalLib View Ring Strs Json Http Urls Proxy.
Open Scope Z_scope.

(** ** The requests *)
Definition out_get (host path query : bytes) : OutRequest :=
  MkOutRequest MethodGet (MkURL ($"http") [] host path false query) ∅ [].
Definition out_form (host path body : bytes) : OutRequest :=
  MkOutRequest MethodPost (MkURL ($"http") [] host path false []) (Header_Set ∅ ($"Content-Type") form_type) body.

Definition key_query (key : bytes) : bytes := $"key=" ++ key.
Definition put_body (key value : bytes) : bytes := $"key=" ++ key ++ $"&value=" ++ value.

(** What a server reads of a value put into a form unescaped. *)
Definition form_value (value : bytes) : bytes := Values_Get (url_ParseQuery ($"value=" ++ value)) ($"value").

Lemma form_value_plain value : plain value -> form_value value = value.
Proof.
  intros Hv. unfold form_value. change ($"value=" ++ value) with ($"value" ++ x3d :: value).
  by rewrite ParseQuery_plain by (done || by_deciding || discriminate).
Qed.

Definition all_plain (m : vmap) : Prop := forall k, is_Some (m !! k) -> plain k.

(** Was the request answered with [StatusOK]? *)
Definition answered (answer : error + Response) (resp : Response) : Prop := ok_response answer = Some resp.

(** ** The interface *)
Class KVNodes (N : Network) : Type := {
  (** Each host shows its map. *)
  kv_shows : World -> gmap bytes vmap -> Prop;
  (** The keys that nodes can hold. *)
  kv_key : bytes -> Prop;
  kv_key_held : forall w ms host m k, kv_shows w ms -> ms !! host = Some m -> is_Some (m !! k) -> kv_key k;
  (** The log of a node has refused a write. *)
  kv_failed : World -> Prop;
  kv_failed_stays : forall q w, kv_failed w -> kv_failed (net_Do q w).2;
  (** An answer has broken off before the end of its body. *)
  kv_cut : World -> Prop;
  kv_cut_stays : forall q w, kv_cut w -> kv_cut (net_Do q w).2;

  kv_keys : forall w ms host m, kv_shows w ms -> ms !! host = Some m -> all_plain m ->
    forall answer w', net_Do (out_get host ($"/keys") []) w = (answer, w') -> kv_shows w' ms /\
      forall resp l, answer = inr resp -> json_Decode (rp_Body resp) ≫= json_to_strings = Some l ->
        Forall (fun k => is_Some (m !! k)) l;
  kv_get : forall w ms host m key, kv_shows w ms -> ms !! host = Some m -> plain key -> kv_key key ->
    forall answer w', net_Do (out_get host ($"/get") (key_query key)) w = (answer, w') -> kv_shows w' ms /\
      forall resp, answered answer resp -> exists v e, m !! key = Some (v, e) /\
        match rp_BodyErr resp with
        | None => rp_Body resp = v ++ [x0a]
        | Some _ => kv_cut w' /\ rp_Body resp `prefix_of` v ++ [x0a]
        end;
  kv_put : forall w ms host m key value, kv_shows w ms -> ms !! host = Some m -> plain key ->
    forall answer w', net_Do (out_form host ($"/put") (put_body key value)) w = (answer, w') ->
      kv_failed w' \/ exists m', kv_shows w' (<[host := m']> ms) /\
        (m' = m /\ (forall resp, ~ answered answer resp) \/
         m' = <[key := (form_value value, 0)]> m);
  kv_delete : forall w ms host m key, kv_shows w ms -> ms !! host = Some m -> plain key -> kv_key key ->
    forall answer w', net_Do (out_form host ($"/delete") (key_query key)) w = (answer, w') ->
      kv_failed w' \/ exists m', kv_shows w' (<[host := m']> ms) /\ (m' = m \/ m' = delete key m);
}.

(** ** The requests the proxy makes *)
Section client.
Context {N : Network}.

Lemma plain_query key : plain key -> query_text (key_query key).
Proof.
  intros Hk. apply Forall_app. split; [by_deciding|]. eapply Forall_impl; [exact Hk|].
  intros c Hc. apply unreserved_not_special in Hc as (H1 & H2 & _). split; [done|]. intros ->. apply H2. by_deciding.
Qed.

Ltac plain_path_tac := eexists; split; [reflexivity|by_deciding].

Lemma get_keys_request host w : plain_host host ->
  http_Get (http_url host ++ $"/keys") w = net_Do (out_get host ($"/keys") []) w.
Proof. intros Hh. unfold http_Get, http_NewRequest. by rewrite url_Parse_path by (done || plain_path_tac). Qed.

Lemma get_key_request host key w : plain_host host -> plain key ->
  http_Get (http_url host ++ $"/get?key=" ++ key) w = net_Do (out_get host ($"/get") (key_query key)) w.
Proof.
  intros Hh Hk. change (http_url host ++ $"/get?key=" ++ key) with (http_url host ++ $"/get" ++ x3f :: key_query key).
  unfold http_Get, http_NewRequest.
  rewrite url_Parse_query; [done|done|plain_path_tac|by apply plain_query].
Qed.

Lemma post_request host path body : plain_host host -> plain_path path ->
  post_form (http_url host ++ path) body = px_net (net_Do (out_form host path body)).
Proof. intros Hh Hp. unfold post_form, http_NewRequest. by rewrite url_Parse_path. Qed.

Lemma put_path : plain_path ($"/put").
Proof. plain_path_tac. Qed.
Lemma delete_path : plain_path ($"/delete").
Proof. plain_path_tac. Qed.
End client.

(** ** A migration goes on to its end, whatever is answered *)
Section total.
Context {N : Network} {KV : KVNodes N}.

(** A computation of the proxy that returns and touches only the network. *)
Definition goes_on {A} (c : PxM A) : Prop := forall p w migs, exists a w',
  c (MkProxyState p w migs) = Ret (a, MkProxyState p w' migs) /\ (kv_failed w -> kv_failed w') /\ (kv_cut w -> kv_cut w').

Lemma goes_on_ret {A} (a : A) : goes_on (gret a).
Proof. intros p w migs. by exists a, w. Qed.

Lemma goes_on_bind {A C} (c : PxM A) (k : A -> PxM C) : goes_on c -> (forall a, goes_on (k a)) -> goes_on (gbind c k).
Proof.
  intros Hc Hk p w migs. destruct (Hc p w migs) as (a & w1 & E & H1 & H3). rewrite (gbind_Ret _ _ _ _ _ E).
  destruct (Hk a p w1 migs) as (b & w2 & E2 & H2 & H4). exists b, w2. split; [done|]. auto.
Qed.

Lemma goes_on_get : goes_on px_get.
Proof. intros p w migs. by exists p, w. Qed.

Lemma goes_on_Do q : goes_on (px_net (net_Do q)).
Proof.
  intros p w migs. unfold px_net. cbn [ps_world]. pose proof (kv_failed_stays q w) as H. pose proof (kv_cut_stays q w) as H'.
  destruct (net_Do q w) as [a w']. by exists a, w'.
Qed.

Lemma goes_on_Get url : goes_on (px_net (http_Get url)).
Proof.
  destruct (http_NewRequest MethodGet url []) as [err|q] eqn:E.
  - intros p w migs. exists (inl err), w. unfold px_net, http_Get. by rewrite E.
  - intros p w migs. destruct (goes_on_Do q p w migs) as (a & w' & E' & H). exists a, w'. split; [|done].
    rewrite <- E'. unfold px_net, http_Get. by rewrite E.
Qed.

Lemma migrate_key_goes_on old new key : plain_host old -> plain_host new -> goes_on (migrate_key (http_url old) (http_url new) key).
Proof.
  intros Ho Hn. unfold migrate_key. apply goes_on_bind; [apply goes_on_get|]. intros p'.
  case_bool_decide; [apply goes_on_ret|]. apply goes_on_bind; [apply goes_on_Get|]. intros res.
  destruct (ok_response res); [|apply goes_on_ret]. cbn [io_ReadAll]. rewrite post_request by (done || apply put_path).
  apply goes_on_bind; [apply goes_on_Do|]. intros res'. destruct (ok_response res'); [|apply goes_on_ret].
  rewrite post_request by (done || apply delete_path). apply goes_on_bind; [apply goes_on_Do|]. intros _. apply goes_on_ret.
Qed.

Lemma migrate_keys_goes_on old new keys : plain_host old -> plain_host new ->
  goes_on (migrate_keys (gret tt) (http_url old) (http_url new) keys).
Proof.
  intros Ho Hn. induction keys as [|key keys IH]; [apply goes_on_ret|]. cbn [migrate_keys].
  apply goes_on_bind; [apply goes_on_ret|]. intros _. apply goes_on_bind; [by apply migrate_key_goes_on|]. done.
Qed.

Lemma fetch_keys_goes_on url : goes_on (fetch_keys url).
Proof. unfold fetch_keys. apply goes_on_bind; [apply goes_on_Get|]. intros [err|resp]; apply goes_on_ret. Qed.

Lemma migrateData_goes_on olds new : Forall plain_host olds -> plain_host new ->
  goes_on (migrateData (gret tt) (http_url <$> olds) (http_url new)).
Proof.
  intros Ho Hn. induction Ho as [|old olds Hold Ho IH]; [apply goes_on_ret|]. rewrite fmap_cons. cbn [migrateData].
  apply goes_on_bind; [apply fetch_keys_goes_on|]. intros [keys|]; [|done].
  apply goes_on_bind; [by apply migrate_keys_goes_on|done].
Qed.
End total.

(** ** No key is lost *)

(** The value a migration writes: what has arrived of the answer, without the white
    space around it. *)
Definition moved (v : bytes) : bytes := strings_TrimSpace (v ++ [x0a]).

(** ... when all of it has arrived; a part of it, if the answer broke off. *)
Definition moved_part (v v1 : bytes) : Prop := exists l, l `prefix_of` v ++ [x0a] /\ v1 = strings_TrimSpace l.

Section safety.
Context {N : Network} {KV : KVNodes N}.
Context (p : Proxy) (olds : list bytes) (new : bytes) (ms0 : gmap bytes vmap).

(** The value [v'] on the new node of the value [v]: what a form that carries it
    without the white space around it says; a part of it only when some answer was
    cut. *)
Definition arrived (cut : Prop) (v v' : bytes) : Prop :=
  exists v1, (v1 = moved v \/ cut /\ moved_part v v1) /\ v' = form_value v1.

Lemma arrived_mono (cut cut' : Prop) v v' : (cut -> cut') -> arrived cut v v' -> arrived cut' v v'.
Proof. intros H (v1 & H1 & H2). exists v1. split; [|done]. destruct H1 as [H1|[H1 H3]]; [by left|right; auto]. Qed.

(** The key [k] of the old node [h], with its value [v]: still there, or on the
    new node, where it belongs. *)
Definition kept (cut : Prop) (ms : gmap bytes vmap) (h k : bytes) (ve : bytes * Z) : Prop :=
  (exists m, ms !! h = Some m /\ m !! k = Some ve) \/
  (Proxy_GetNode p k = http_url new /\ exists m v', ms !! new = Some m /\ m !! k = Some (v', 0) /\
     arrived cut ve.1 v').

Record safe (cut : Prop) (ms : gmap bytes vmap) : Prop := {
  sf_new : is_Some (ms !! new);
  sf_old : forall h m0, h ∈ olds -> ms0 !! h = Some m0 -> exists m, ms !! h = Some m /\ m ⊆ m0;
  sf_kept : forall h m0 k ve, h ∈ olds -> ms0 !! h = Some m0 -> m0 !! k = Some ve -> kept cut ms h k ve;
}.

Lemma safe_mono (cut cut' : Prop) ms : (cut -> cut') -> safe cut ms -> safe cut' ms.
Proof.
  intros H [H1 H2 H3]. split; [done|done|]. intros h m0 k ve Hh Hm Hk.
  destruct (H3 h m0 k ve Hh Hm Hk) as [Hl|(Hg & m & v' & E1 & E2 & E3)]; [by left|right]. split; [done|].
  exists m, v'. split; [done|]. split; [done|]. by apply (arrived_mono cut).
Qed.

Hypothesis plain_hosts : Forall plain_host (new :: olds).
Hypothesis new_is_new : new ∉ olds.
Hypothesis old_maps : forall h, h ∈ olds -> exists m, ms0 !! h = Some m /\ all_plain m.
Hypothesis disjoint_maps : forall h h' m m', h ∈ olds -> h' ∈ olds -> ms0 !! h = Some m -> ms0 !! h' = Some m' ->
  h <> h' -> m ##ₘ m'.

(** A write of [key], which the old node [h] still has, on the new node. *)
Lemma safe_put cut ms h m key ve v : safe cut ms -> h ∈ olds -> ms !! h = Some m -> m !! key = Some ve ->
  forall mn, ms !! new = Some mn -> safe cut (<[new := <[key := (v, 0)]> mn]> ms).
Proof.
  intros [H1 H2 H3] Hh Hm Hk mn Hmn. assert (Hne : forall h', h' ∈ olds -> new <> h') by (by intros h' Hh' ->).
  split.
  - rewrite lookup_insert_eq. by eexists.
  - intros h' m0 Hh' Hm0. rewrite lookup_insert_ne by auto. by apply H2.
  - intros h' m0 k ve' Hh' Hm0 Hk0. destruct (H3 h' m0 k ve' Hh' Hm0 Hk0) as [(m1 & E1 & E2)|(Hg & m1 & v1 & E1 & E2 & E3)].
    + left. exists m1. by rewrite lookup_insert_ne by auto.
    + destruct (decide (k = key)) as [->|Hkk].
      * left. destruct (old_maps h Hh) as (m0h & Em0h & _). destruct (H2 h m0h Hh Em0h) as (m2 & E4 & Hsub).
        rewrite Hm in E4. injection E4 as <-. pose proof (lookup_weaken _ _ _ _ Hk Hsub) as Hk0h.
        destruct (decide (h = h')) as [<-|Hhh].
        -- exists m. rewrite lookup_insert_ne by auto. split; [done|].
           rewrite Hm0 in Em0h. injection Em0h as <-. rewrite Hk. congruence.
        -- pose proof (disjoint_maps h h' m0h m0 Hh Hh' Em0h Hm0 Hhh) as Hd.
           by destruct (map_disjoint_spec m0h m0) as [Hd' _]; destruct (Hd' Hd key _ _ Hk0h Hk0).
      * right. split; [done|]. exists (<[key := (v, 0)]> mn), v1. rewrite lookup_insert_eq.
        rewrite Hmn in E1. injection E1 as <-. by rewrite lookup_insert_ne.
Qed.

(** A deletion of [key] on the old node [h], once the new node has it. *)
Lemma safe_delete (cut : Prop) ms h m key ve v mn : safe cut ms -> h ∈ olds -> ms !! h = Some m -> m !! key = Some ve ->
  Proxy_GetNode p key = http_url new -> ms !! new = Some mn -> mn !! key = Some (v, 0) ->
  arrived cut ve.1 v -> safe cut (<[h := delete key m]> ms).
Proof.
  intros [H1 H2 H3] Hh Hm Hk Hg Hmn Hv Hpl. assert (Hne : h <> new) by (by intros ->). split.
  - by rewrite lookup_insert_ne.
  - intros h' m0 Hh' Hm0. destruct (H2 h' m0 Hh' Hm0) as (m1 & E1 & Hsub). destruct (decide (h = h')) as [<-|Hhh].
    + rewrite lookup_insert_eq. eexists. split; [done|]. rewrite Hm in E1. injection E1 as <-.
      etransitivity; [apply delete_subseteq|done].
    + rewrite lookup_insert_ne by done. by exists m1.
  - intros h' m0 k ve' Hh' Hm0 Hk0. destruct (H3 h' m0 k ve' Hh' Hm0 Hk0) as [(m1 & E1 & E2)|Hr].
    + destruct (decide (h = h')) as [<-|Hhh].
      * rewrite Hm in E1. injection E1 as <-. destruct (decide (k = key)) as [->|Hkk].
        -- right. split; [done|]. exists mn, v. rewrite lookup_insert_ne by done. rewrite Hk in E2. injection E2 as <-. done.
        -- left. eexists. rewrite lookup_insert_eq. split; [done|]. by rewrite lookup_delete_ne.
      * left. exists m1. by rewrite lookup_insert_ne.
    + right. destruct Hr as (Hg' & m1 & v1 & E1 & E2 & E3). split; [done|]. exists m1, v1. by rewrite lookup_insert_ne.
Qed.

Definition good (w : World) : Prop := kv_failed w \/ exists ms, kv_shows w ms /\ safe (kv_cut w) ms.

(** What happens after a failure is not looked at. *)
Lemma good_goes_on {A} (c : PxM A) w migs (Q : A -> World -> Prop) : goes_on c ->
  (forall ms, kv_shows w ms -> safe (kv_cut w) ms -> exists a w', c (MkProxyState p w migs) = Ret (a, MkProxyState p w' migs) /\
     (kv_failed w' \/ Q a w')) ->
  good w -> exists a w', c (MkProxyState p w migs) = Ret (a, MkProxyState p w' migs) /\ (kv_failed w' \/ Q a w').
Proof.
  intros Hc H [Hf|(ms & Hs & Hsafe)]; [|by apply (H ms)]. destruct (Hc p w migs) as (a & w' & E & Hw & _).
  exists a, w'. split; [done|]. left. auto.
Qed.

Definition old_key (h k : bytes) : Prop := plain k /\ kv_key k.

Lemma plain_new : plain_host new.
Proof. by apply Forall_cons in plain_hosts as [? _]. Qed.
Lemma plain_old h : h ∈ olds -> plain_host h.
Proof. intros Hh. apply Forall_cons in plain_hosts as [_ H]. rewrite Forall_forall in H. by apply H. Qed.

(** The end of a key, when the put was answered: the deletion on the old node, if
    the new one took the key. *)
Definition finish (h key : bytes) (put : error + Response) : PxM unit :=
  match ok_response put with
  | Some _ => let! _ := px_net (net_Do (out_form h ($"/delete") (key_query key))) in gret tt
  | None => gret tt
  end.

Lemma finish_key h key v e w2 migs ms m mn put ms' :
  h ∈ olds -> plain key -> kv_key key -> Proxy_GetNode p key = http_url new ->
  ms !! h = Some m -> m !! key = Some (v, e) -> ms !! new = Some mn ->
  kv_shows w2 ms' -> safe (kv_cut w2) ms' ->
  (forall resp, answered put resp -> exists v', <[new := <[key := (v', 0)]> mn]> ms = ms' /\ arrived (kv_cut w2) v v') ->
  exists a w', finish h key put (MkProxyState p w2 migs) = Ret (a, MkProxyState p w' migs) /\ (kv_failed w' \/ good w').
Proof.
  intros Hh Hp Hk Hroute Em Ev Emn Hs' Hsafe' Hput. unfold finish.
  destruct (ok_response put) as [putResp|] eqn:Eput.
  2: { exists tt, w2. split; [done|]. right; right. by exists ms'. }
  destruct (Hput putResp Eput) as (v' & <- & Hv'). set (ms' := <[new := _]> ms) in *.
  assert (Em' : ms' !! h = Some m) by (unfold ms'; rewrite lookup_insert_ne; [done|by intros ->]).
  destruct (net_Do (out_form h ($"/delete") (key_query key)) w2) as [del w3] eqn:E3.
  assert (S3 : px_net (net_Do (out_form h ($"/delete") (key_query key))) (MkProxyState p w2 migs)
    = Ret (del, MkProxyState p w3 migs)) by (unfold px_net; cbn [ps_world]; by rewrite E3).
  rewrite (gbind_Ret _ _ _ _ _ S3). exists tt, w3. split; [done|].
  assert (Hcut : kv_cut w2 -> kv_cut w3).
  { pose proof (kv_cut_stays (out_form h ($"/delete") (key_query key)) w2) as Hc. by rewrite E3 in Hc. }
  destruct (kv_delete w2 ms' h m key Hs' Em' Hp Hk del w3 E3) as [Hf|(m' & Hs3 & Hm')]; [by left|].
  right; right. exists (<[h := m']> ms'). split; [done|]. apply (safe_mono (kv_cut w2)); [done|].
  destruct Hm' as [->| ->]; [by rewrite insert_id|].
  eapply (safe_delete _ ms' h m key (v, e) v'); try done; [unfold ms'; by rewrite lookup_insert_eq|by rewrite lookup_insert_eq].
Qed.

Lemma finish_goes_on h key put : goes_on (finish h key put).
Proof.
  unfold finish. destruct (ok_response put); [|apply goes_on_ret].
  apply goes_on_bind; [apply goes_on_Do|]. intros _. apply goes_on_ret.
Qed.

Lemma migrate_key_good h key w migs : h ∈ olds -> plain key -> kv_key key -> good w ->
  exists w', migrate_key (http_url h) (http_url new) key (MkProxyState p w migs) = Ret (tt, MkProxyState p w' migs) /\ good w'.
Proof.
  intros Hh Hp Hk Hg. pose proof (plain_old h Hh) as Hho. pose proof plain_new as Hnew.
  destruct (good_goes_on (migrate_key (http_url h) (http_url new) key) w migs (fun _ w' => good w')) as ([] & w' & E & H);
    [by apply migrate_key_goes_on| |done|exists w'; split; [done|]; destruct H as [H|H]; [by left|done]].
  intros ms Hs Hsafe. unfold migrate_key. rewrite (gbind_Ret px_get _ (MkProxyState p w migs) p (MkProxyState p w migs) eq_refl).
  case_bool_decide as Hroute; [exists tt, w; split; [done|]; right; right; by exists ms|].
  destruct (old_maps h Hh) as (m0 & Em0 & _). destruct (sf_old _ _ Hsafe h m0 Hh Em0) as (m & Em & Hsub).
  destruct (net_Do (out_get h ($"/get") (key_query key)) w) as [got w1] eqn:E1.
  destruct (kv_get w ms h m key Hs Em Hp Hk got w1 E1) as [Hs1 Hget].
  assert (Hcut1 : kv_cut w -> kv_cut w1) by (pose proof (kv_cut_stays (out_get h ($"/get") (key_query key)) w) as Hc; by rewrite E1 in Hc).
  assert (S1 : px_net (http_Get (http_url h ++ $"/get?key=" ++ key)) (MkProxyState p w migs) = Ret (got, MkProxyState p w1 migs)).
  { unfold px_net. cbn [ps_world]. by rewrite get_key_request, E1. }
  rewrite (gbind_Ret _ _ _ _ _ S1). destruct (ok_response got) as [getResp|] eqn:Eok.
  2: { exists tt, w1. split; [done|]. right; right. exists ms. split; [done|]. by apply (safe_mono (kv_cut w)). }
  destruct (Hget getResp Eok) as (v & e & Ev & Eb). cbn [io_ReadAll].
  rewrite post_request by (done || apply put_path). set (v1 := strings_TrimSpace (rp_Body getResp)).
  change ($"key=" ++ key ++ $"&value=" ++ v1) with (put_body key v1).
  assert (Hv1 : v1 = moved v \/ kv_cut w1 /\ moved_part v v1).
  { destruct (rp_BodyErr getResp); [right|left; unfold v1; by rewrite Eb]. destruct Eb as [? Eb]. split; [done|]. by eexists. }
  clearbody v1. destruct (sf_new _ _ Hsafe) as [mn Emn].
  destruct (net_Do (out_form new ($"/put") (put_body key v1)) w1) as [put w2] eqn:E2.
  assert (Hcut2 : kv_cut w1 -> kv_cut w2) by (pose proof (kv_cut_stays (out_form new ($"/put") (put_body key v1)) w1) as Hc; by rewrite E2 in Hc).
  assert (S2 : px_net (net_Do (out_form new ($"/put") (put_body key v1))) (MkProxyState p w1 migs)
    = Ret (put, MkProxyState p w2 migs)) by (unfold px_net; cbn [ps_world]; by rewrite E2).
  rewrite (gbind_Ret _ _ _ _ _ S2). rewrite (post_request h) by (done || apply delete_path).
  apply (safe_mono _ (kv_cut w2)) in Hsafe; [|auto].
  pose proof (fun ms' => finish_key h key v e w2 migs ms m mn put ms' Hh Hp Hk Hroute Em Ev Emn) as Hlast.
  destruct (kv_put w1 ms new mn key v1 Hs1 Emn Hp put w2 E2) as [Hf|(mn' & Hs2 & Hmn')].
  - destruct (finish_goes_on h key put p w2 migs) as (a & w3 & E3 & H3 & _). exists a, w3. split; [exact E3|]. left. auto.
  - destruct Hmn' as [[-> Hno]| ->].
    + rewrite insert_id in Hs2 by done. apply (Hlast ms Hs2 Hsafe). intros resp Hr. by destruct (Hno resp).
    + apply (Hlast _ Hs2); [by eapply safe_put|]. intros resp _. exists (form_value v1). split; [done|]. exists v1. split; [|done].
      destruct Hv1 as [?|[? ?]]; [by left|right; auto].
Qed.

Lemma migrate_keys_good h keys w migs : h ∈ olds -> Forall (fun k => plain k /\ kv_key k) keys -> good w ->
  exists w', migrate_keys (gret tt) (http_url h) (http_url new) keys (MkProxyState p w migs) = Ret (tt, MkProxyState p w' migs) /\
    good w'.
Proof.
  intros Hh Hkeys. revert w. induction Hkeys as [|key keys [Hp Hk] _ IH]; intros w Hg; [by exists w|].
  cbn [migrate_keys]. destruct (migrate_key_good h key w migs Hh Hp Hk Hg) as (w1 & E1 & Hg1).
  destruct (IH w1 Hg1) as (w2 & E2 & Hg2). exists w2. split; [|done].
  rewrite (gbind_Ret (gret tt) _ _ tt _ eq_refl), (gbind_Ret _ _ _ _ _ E1). exact E2.
Qed.

(** What an old node answers to /keys: keys it holds. *)
Lemma fetch_keys_good h w migs : h ∈ olds -> good w ->
  exists res w', fetch_keys (http_url h) (MkProxyState p w migs) = Ret (res, MkProxyState p w' migs) /\
    (kv_failed w' \/ good w' /\ forall keys, res = Some keys -> Forall (fun k => plain k /\ kv_key k) keys).
Proof.
  intros Hh Hg. apply good_goes_on; [apply fetch_keys_goes_on| |done]. intros ms Hs Hsafe.
  destruct (old_maps h Hh) as (m0 & Em0 & Hpl). destruct (sf_old _ _ Hsafe h m0 Hh Em0) as (m & Em & Hsub).
  assert (Hplm : all_plain m) by (intros k [ve Hk]; apply Hpl; exists ve; by eapply lookup_weaken).
  destruct (net_Do (out_get h ($"/keys") []) w) as [answer w1] eqn:E1.
  destruct (kv_keys w ms h m Hs Em Hplm answer w1 E1) as [Hs1 Hkeys].
  assert (S1 : px_net (http_Get (http_url h ++ $"/keys")) (MkProxyState p w migs) = Ret (answer, MkProxyState p w1 migs)).
  { unfold px_net. cbn [ps_world]. by rewrite get_keys_request, E1 by by apply plain_old. }
  unfold fetch_keys. rewrite (gbind_Ret _ _ _ _ _ S1).
  assert (Hg1 : good w1).
  { right. exists ms. split; [done|]. apply (safe_mono (kv_cut w)); [|done].
    pose proof (kv_cut_stays (out_get h ($"/keys") []) w) as Hc. by rewrite E1 in Hc. }
  destruct answer as [err|resp]; [exists None, w1; split; [done|by right]|].
  eexists _, w1. split; [reflexivity|]. right. split; [done|]. intros keys Ek.
  eapply Forall_impl; [by apply (Hkeys resp keys)|]. intros k Hk. cbn beta in Hk. split; [by apply Hplm|].
  by apply (kv_key_held w ms h m).
Qed.

Lemma migrateData_good hosts w migs : (forall h, h ∈ hosts -> h ∈ olds) -> good w ->
  exists w', migrateData (gret tt) (http_url <$> hosts) (http_url new) (MkProxyState p w migs) = Ret (tt, MkProxyState p w' migs) /\
    good w'.
Proof.
  revert w. induction hosts as [|h hosts IH]; intros w Hin Hg; [by exists w|]. rewrite fmap_cons. cbn [migrateData].
  assert (Hh : h ∈ olds) by (apply Hin, list_elem_of_here).
  assert (Hin' : forall h, h ∈ hosts -> h ∈ olds) by (intros h' H'; apply Hin; by right).
  destruct (fetch_keys_good h w migs Hh Hg) as (res & w1 & E1 & H1). rewrite (gbind_Ret _ _ _ _ _ E1).
  destruct res as [keys|]; [|apply IH; [done|]; destruct H1 as [H1|[H1 _]]; [by left|done]].
  assert (exists w2, migrate_keys (gret tt) (http_url h) (http_url new) keys (MkProxyState p w1 migs)
    = Ret (tt, MkProxyState p w2 migs) /\ good w2) as (w2 & E2 & H2).
  { destruct H1 as [Hf|[Hg1 Hkeys]]; [|by apply migrate_keys_good; [..|apply Hkeys|]].
    destruct (migrate_keys_goes_on h new keys (plain_old h Hh) plain_new p w1 migs) as ([] & w2 & E2 & H2 & _).
    exists w2. split; [done|]. left. auto. }
  rewrite (gbind_Ret _ _ _ _ _ E2). by apply IH.
Qed.
End safety.

(** ** Answers that break off

    Over any network, one on which the connection may break while the value of a key
    is answered, after as many bytes as a list says. *)
Definition cut_response (n : nat) (resp : Response) : Response :=
  if (n <? length (rp_Body resp))%nat
  then MkResponse (rp_StatusCode resp) (rp_Header resp) (take n (rp_Body resp)) (Some (ErrNew ($"unexpected EOF")))
  else resp.

Definition is_get (q : OutRequest) : bool := bool_decide (u_Path (oq_URL q) = $"/get").

Section cuts.
Context {N : Network}.

(** The network, the lengths that get through, and whether an answer has been cut. *)
Record CutWorld : Type := MkCutWorld { cw_world : World; cw_lengths : list nat; cw_cut : bool }.

Definition cut_Do (q : OutRequest) (w : CutWorld) : (error + Response) * CutWorld :=
  let '(answer, w1) := net_Do q (cw_world w) in
  match answer, cw_lengths w, is_get q with
  | inr resp, n :: lengths, true =>
      (inr (cut_response n resp), MkCutWorld w1 lengths (cw_cut w || (n <? length (rp_Body resp))%nat))
  | _, lengths, _ => (answer, MkCutWorld w1 lengths (cw_cut w))
  end.

Definition CutNet : Network := {| World := CutWorld; net_Do := cut_Do |}.

Lemma cut_Do_other q w answer w' : is_get q = false -> cut_Do q w = (answer, w') ->
  net_Do q (cw_world w) = (answer, cw_world w').
Proof. unfold cut_Do. intros ->. destruct (net_Do q (cw_world w)) as [[err|resp] w1]; by destruct (cw_lengths w); intros [= <- <-]. Qed.

(** An answer arrives as it was, or cut. *)
Lemma cut_Do_answer q w answer w' : cut_Do q w = (answer, w') -> exists answer0,
  net_Do q (cw_world w) = (answer0, cw_world w') /\
  (answer = answer0 \/
   exists resp n, answer0 = inr resp /\ answer = inr (cut_response n resp) /\
     (cw_cut w' = true \/ (n <? length (rp_Body resp))%nat = false)).
Proof.
  unfold cut_Do. destruct (net_Do q (cw_world w)) as [[err|resp] w1].
  { by intros [= <- <-]; eexists; split; [|left]. }
  destruct (cw_lengths w) as [|n lengths]; [by intros [= <- <-]; eexists; split; [|left]|].
  destruct (is_get q); intros [= <- <-]; (eexists; split; [reflexivity|]); [right|by left].
  exists resp, n. split; [done|]. split; [done|]. cbn [cw_cut]. destruct (n <? _)%nat; [left; apply orb_true_r|by right].
Qed.

Context {KV : KVNodes N}.

Definition CutNodes : KVNodes CutNet.
Proof.
  refine {| kv_shows := (fun w ms => kv_shows (cw_world w) ms) : @World CutNet -> _ -> Prop; kv_key := kv_key;
    kv_failed := (fun w => kv_failed (cw_world w)) : @World CutNet -> Prop;
    kv_cut := (fun w => cw_cut w = true \/ kv_cut (cw_world w)) : @World CutNet -> Prop |}.
  - intros w ms host m k. apply kv_key_held.
  - intros q w H. destruct (net_Do (Network := CutNet) q w) as [answer w'] eqn:E.
    destruct (cut_Do_answer q w answer w' E) as (a0 & E0 & _). pose proof (kv_failed_stays q _ H) as H'. by rewrite E0 in H'.
  - intros q w H. destruct (net_Do (Network := CutNet) q w) as [answer w'] eqn:E. cbn [snd].
    destruct H as [H|H]; [left|right].
    + cbn [net_Do CutNet] in E. unfold cut_Do in E. destruct (net_Do q (cw_world w)) as [[err|resp] w1]; [by injection E as _ <-|].
      destruct (cw_lengths w), (is_get q); injection E as _ <-; cbn [cw_cut]; by rewrite ?H.
    + destruct (cut_Do_answer q w answer w' E) as (a0 & E0 & _). pose proof (kv_cut_stays q _ H) as H'. by rewrite E0 in H'.
  - intros w ms host m Hs Hm Hp answer w' E. apply cut_Do_other in E; [|done]. by eapply kv_keys.
  - intros w ms host m key Hs Hm Hp Hk answer w' E. destruct (cut_Do_answer _ w answer w' E) as (a0 & E0 & Ha).
    destruct (kv_get _ ms host m key Hs Hm Hp Hk a0 _ E0) as [Hs' H]. split; [done|].
    destruct Ha as [->|(resp0 & n & -> & -> & Hcut)].
    + intros resp Hr. destruct (H resp Hr) as (v & e & Hv & Hb). exists v, e. split; [done|].
      destruct (rp_BodyErr resp); [|done]. destruct Hb as [? ?]. split; [by right|done].
    + intros resp Hr. assert (Hr0 : answered (inr resp0) resp0 /\ resp = cut_response n resp0).
      { unfold answered, ok_response, cut_response in *. destruct (n <? _)%nat; cbn [rp_StatusCode] in *;
          destruct (rp_StatusCode resp0 =? StatusOK); split; congruence. }
      destruct Hr0 as [Hr0 ->]. destruct (H resp0 Hr0) as (v & e & Hv & Hb). exists v, e. split; [done|].
      unfold cut_response in *. destruct (n <? _)%nat eqn:En; cbn [rp_BodyErr rp_Body].
      * destruct Hcut as [Hcut|?]; [|done]. split; [by left|].
        assert (Hpre : rp_Body resp0 `prefix_of` v ++ [x0a]) by (destruct (rp_BodyErr resp0); [by destruct Hb|by rewrite Hb]).
        etransitivity; [|exact Hpre]. eexists. symmetry. apply take_drop.
      * destruct (rp_BodyErr resp0); [|done]. destruct Hb as [? ?]. split; [by right|done].
  - intros w ms host m key value Hs Hm Hp answer w' E. apply cut_Do_other in E; [|done]. by eapply kv_put.
  - intros w ms host m key Hs Hm Hp Hk answer w' E. apply cut_Do_other in E; [|done]. by eapply kv_delete.
Defined.
End cuts.
