(* ===== verification/Cluster.v ===== *)
(** * Servers on a network

    A network whose hosts are servers of [Server.v]: a request is lost, or served
    and its answer lost, or answered, as a plan says.  [cluster_step] says what a
    request does to the maps of the servers; [ClusterNodes] discharges [KVNodes]
    with it, so what is proved against that interface holds of servers. *)
From S2P Require Import Prelude GoBinary Config GoOs WalLib Record BTreeLib Index Watch Ring.
From S2P Require Import Store Batch DB Open View BatchSpec CommitSpec Recovery OpenSpec DBSpec.
From S2P Require Import Strs Json Http Urls Replication Server ServerSpec Proxy ProxySpec Migration.
Open Scope Z_scope.

(** ** The transport

    What is answered arrives whole; [CutNodes] of [Migration.v] is the same network
    with connections that break. *)

(** What becomes of a request, and when it is served. *)
Inductive fate : Type :=
| RequestLost
| AnswerLost (t : Moment)
| Answered (t : Moment).

(** The values of header fields that can be sent, and what arrives of them. *)
Definition field_ok (v : bytes) : bool := forallb (fun c => negb (is_ctl c) || bool_decide (c = x09)) v.
Definition field_space (c : byte) : bool := bool_decide (c ∈ [x20; x09; x0a; x0d]).
Definition trim_field (v : bytes) : bytes := rev (drop_while field_space (rev (drop_while field_space v))).
Definition header_ok (h : Header) : bool := bool_decide (map_Forall (fun _ vv => Forall (fun v => field_ok v = true) vv) h).

(** The request a handler gets. *)
Definition deliver (q : OutRequest) : Request :=
  let u := oq_URL q in
  MkRequest (oq_Method q) (u_Path u) (u_Path u) (u_ForceQuery u) (u_RawQuery u)
    ((fmap (M := list) trim_field) <$> oq_Header q) (oq_Body q) false None None.

Definition routes : list bytes := [$"/put"; $"/get"; $"/delete"; $"/health"; $"/keys"; $"/admin"; $"/sync"].

Section cluster.
Context {W : WalLib} {B : BTreeLib item item_less} {SF : Snowflake} {MH : MemHashLib} {RX : Regexp} {ML : MultipartLib}.
Context (page : bytes).
(** What a host answers for a path that is not one of its routes. *)
Context (elsewhere : OutRequest -> error + Response).

Record Cluster : Type := MkCluster {
  cl_nodes : gmap bytes Server;
  cl_plan : list fate;
  cl_answers : list Response;
}.

Definition timeout : error := ErrNew ($"Client.Timeout exceeded while awaiting headers").

(** A request that arrives at its host.  A handler that panics takes its node out. *)
Definition serve_at (t : Moment) (q : OutRequest) (c : Cluster) : (error + Response) * Cluster :=
  if bool_decide (u_Scheme (oq_URL q) <> $"http") then (inl (ErrNew ($"unsupported protocol scheme")), c)
  else if negb (header_ok (oq_Header q)) then (inl (ErrNew ($"net/http: invalid header field value")), c)
  else match cl_nodes c !! u_Host (oq_URL q) with
       | None => (inl (ErrNew ($"connection refused")), c)
       | Some s =>
           if bool_decide (u_Path (oq_URL q) ∈ routes) then
             match ServeHTTP t page (deliver q) s with
             | Ret (resp, s) =>
                 (inr resp, MkCluster (<[u_Host (oq_URL q) := s]> (cl_nodes c)) (cl_plan c) (cl_answers c ++ [resp]))
             | _ => (inl io_EOF, MkCluster (delete (u_Host (oq_URL q)) (cl_nodes c)) (cl_plan c) (cl_answers c))
             end
           else (elsewhere q, c)
       end.

Definition cluster_Do (q : OutRequest) (c : Cluster) : (error + Response) * Cluster :=
  match cl_plan c with
  | [] => (inl timeout, c)
  | f :: plan =>
      let c := MkCluster (cl_nodes c) plan (cl_answers c) in
      match f with
      | RequestLost => (inl timeout, c)
      | AnswerLost t => (inl timeout, (serve_at t q c).2)
      | Answered t => serve_at t q c
      end
  end.

Definition ClusterNet : Network := {| World := Cluster; net_Do := cluster_Do |}.
End cluster.

Lemma carries_deliver q : (forall k, Header_Get ((fmap (M := list) trim_field) <$> oq_Header q) k = Header_Get (oq_Header q) k) ->
  carries q (deliver q).
Proof. intros H. split; try done; intros k _; apply H. Qed.

Lemma small_form (k v : bytes) : len k <= maxFormSize -> len v <= maxFormSize -> small k v.
Proof. unfold small, maxFormSize, MB, KB, maxLogRecordHeaderSize, MaxVarintLen32, MaxVarintLen64. lia. Qed.

Section maps.
Context {W : WalLib} {WL : WalLaws W} {B : BTreeLib item item_less} {BL : BTreeLaws B}
  {SF : Snowflake} {SL : SnowflakeLaws SF} {MH : MemHashLib} {RX : Regexp} {ML : MultipartLib} {MLL : MultipartLaws ML}.
Context (page : bytes) (elsewhere : OutRequest -> error + Response).
Implicit Types (s : Server) (c : Cluster).

(** ** Clusters that show maps *)
Fixpoint plan_ok (T : Z) (plan : list fate) : Prop :=
  match plan with
  | [] => True
  | RequestLost :: plan => plan_ok T plan
  | AnswerLost t :: plan | Answered t :: plan =>
      T <= mo_now t /\ (forall k, T <= mo_key_clock t k) /\ plan_ok (mo_now t) plan
  end.

Definition small_map (m : vmap) : Prop := map_Forall (fun k ve => small k []) m.

(** How each host is set up. *)
Context (confs : bytes -> ServerConf).

(** A node that is set up so and shows the map [m]. *)
Definition node_shows (T : Z) c (host : bytes) (m : vmap) : Prop :=
  exists s, cl_nodes c !! host = Some s /\ server_shows T s m /\ conf_of s = confs host /\ small_map m.

Definition cluster_shows c (ms : gmap bytes vmap) : Prop := exists T, plan_ok T (cl_plan c) /\ map_Forall (node_shows T c) ms.

(** A server has answered an internal error. *)
Definition cluster_failed c : Prop := Exists (fun resp => rp_StatusCode resp = StatusInternalServerError) (cl_answers c).

Lemma server_shows_mono T T' s m : T <= T' -> server_shows T s m -> server_shows T' s m.
Proof. intros HT [H1 H2]. split; [by apply (db_good_mono T)|by apply (live_eq_mono T)]. Qed.

Lemma failed_stays q c : cluster_failed c -> cluster_failed (cluster_Do page elsewhere q c).2.
Proof.
  intros H. assert (Hs : forall t c, cluster_failed c -> cluster_failed (serve_at page elsewhere t q c).2).
  { intros t c' H'. unfold serve_at. repeat case_match; try done. unfold cluster_failed in *. cbn.
    apply Exists_app. by left. }
  unfold cluster_Do. destruct (cl_plan c) as [|[|t|t] plan]; [done|done|by apply Hs|by apply Hs].
Qed.

(** ** One request *)

(** It does not arrive, or is served as specified -- the answer perhaps lost --
    or its write is refused. *)
Definition served_on c' (ms : gmap bytes vmap) (host : bytes) (spec : serve_result) (answer : error + Response) : Prop :=
  small_map spec.1.2 -> cluster_shows c' (<[host := spec.1.2]> ms) /\ (answer = inr spec.1.1 \/ exists e, answer = inl e).

Lemma cluster_step q c ms m answer c' :
  cluster_shows c ms -> ms !! u_Host (oq_URL q) = Some m ->
  u_Scheme (oq_URL q) = $"http" -> u_Path (oq_URL q) ∈ routes -> header_ok (oq_Header q) = true -> request_fits (deliver q) ->
  cluster_Do page elsewhere q c = (answer, c') ->
  (cluster_shows c' ms /\ exists e, answer = inl e) \/
  (exists t, served_on c' ms (u_Host (oq_URL q)) (serve_spec t page (confs (u_Host (oq_URL q))) (deliver q) m) answer) \/
  (is_write (deliver q) /\ cluster_failed c' /\ forall resp, answer = inr resp -> rp_StatusCode resp <> StatusOK).
Proof.
  intros (T & Hplan & Hms) Hm Hscheme Hpath Hhdr Hfit.
  assert (Hat : forall t plan, T <= mo_now t -> (forall k, T <= mo_key_clock t k) -> plan_ok (mo_now t) plan ->
    exists resp c', serve_at page elsewhere t q (MkCluster (cl_nodes c) plan (cl_answers c)) = (inr resp, c') /\
      ((resp = (serve_spec t page (confs (u_Host (oq_URL q))) (deliver q) m).1.1 /\
         (small_map (serve_spec t page (confs (u_Host (oq_URL q))) (deliver q) m).1.2 ->
          cluster_shows c' (<[u_Host (oq_URL q) := (serve_spec t page (confs (u_Host (oq_URL q))) (deliver q) m).1.2]> ms))) \/
       is_write (deliver q) /\ cluster_failed c' /\ rp_StatusCode resp <> StatusOK)).
  { intros t plan H1 H2 H3. unfold serve_at. rewrite bool_decide_eq_false_2 by (intros H; by apply H).
    rewrite Hhdr. cbn [negb cl_nodes cl_plan cl_answers].
    destruct (Hms _ _ Hm) as (s & Es & Hs & Hcf & Hsmall). rewrite Es, bool_decide_eq_true_2 by done.
    destruct (ServeHTTP_spec t page T H1 (deliver q) m s Hs H2 Hfit) as (resp & s' & E & Hc & H). rewrite E.
    eexists resp, _. split; [reflexivity|].
    destruct H as [(-> & Hs' & _)|(Hw & e & Hok & -> & _)].
    - left. rewrite <- Hcf in *. split; [done|]. intros Hsm. exists (mo_now t). split; [done|].
      intros h m' [[<- <-]|[Hne Hh]]%lookup_insert_Some.
      + exists s'. cbn. rewrite lookup_insert_eq. split_and!; [done|done|by rewrite Hc|done].
      + destruct (Hms h m' Hh) as (s2 & Es2 & Hs2 & Hr2 & Hsm2). exists s2. cbn. rewrite lookup_insert_ne by done.
        split_and!; try done. by apply (server_shows_mono T).
    - right. split; [done|]. split; [|done]. unfold cluster_failed. cbn. apply Exists_app. right. by constructor. }
  unfold cluster_Do. destruct (cl_plan c) as [|f plan] eqn:Ep.
  { intros [= <- <-]. left. split; [|by eexists]. exists T. by rewrite Ep. }
  cbn [plan_ok] in Hplan. destruct f as [|t|t].
  - intros [= <- <-]. left. split; [|by eexists]. by exists T.
  - destruct Hplan as (H1 & H2 & H3). destruct (Hat t plan H1 H2 H3) as (resp & c2 & E & H). rewrite E. cbn [snd].
    intros [= <- <-]. destruct H as [[-> H]|(H4 & H5 & _)].
    + right; left. exists t. intros Hsm. split; [by apply H|]. right. by eexists.
    + right; right. done.
  - destruct Hplan as (H1 & H2 & H3). destruct (Hat t plan H1 H2 H3) as (resp & c2 & E & H). rewrite E.
    intros [= <- <-]. destruct H as [[-> H]|(H4 & H5 & H6)].
    + right; left. exists t. intros Hsm. split; [by apply H|]. by left.
    + right; right. split; [done|]. split; [done|]. by intros resp' [= <-].
Qed.

(** A request that arrives is answered. *)
Definition arrives (f : fate) : bool := match f with Answered _ => true | _ => false end.

Lemma cluster_arrives q c ms m answer c' :
  cluster_shows c ms -> ms !! u_Host (oq_URL q) = Some m ->
  u_Scheme (oq_URL q) = $"http" -> u_Path (oq_URL q) ∈ routes -> header_ok (oq_Header q) = true -> request_fits (deliver q) ->
  cluster_Do page elsewhere q c = (answer, c') -> arrives (default RequestLost (head (cl_plan c))) = true ->
  exists resp, answer = inr resp.
Proof.
  intros (T & Hplan & Hms) Hm Hscheme Hpath Hhdr Hfit E Ha. destruct (Hms _ _ Hm) as (s & Es & Hs & _).
  unfold cluster_Do in E. destruct (cl_plan c) as [|[|t|t] plan]; [done..|].
  cbn [plan_ok] in Hplan. destruct Hplan as (H1 & H2 & _). unfold serve_at in E.
  rewrite bool_decide_eq_false_2 in E by (intros H; by apply H). rewrite Hhdr in E. cbn [negb cl_nodes] in E.
  rewrite Es, bool_decide_eq_true_2 in E by done.
  destruct (ServeHTTP_spec t page T H1 _ m s Hs H2 Hfit) as (resp & s' & E' & _). rewrite E' in E.
  injection E as <- _. by exists resp.
Qed.

(** ** The requests of a migration *)
Lemma fresh_get host path query : fresh (deliver (out_get host path query)).
Proof. split; [split; [discriminate|vm_compute; reflexivity]|reflexivity|reflexivity|reflexivity|vm_compute; discriminate]. Qed.

Lemma fresh_form host path body : fresh (deliver (out_form host path body)).
Proof. split; [split; [discriminate|vm_compute; reflexivity]|reflexivity|reflexivity|reflexivity|vm_compute; discriminate]. Qed.

Lemma form_of_get host path query : form_of (deliver (out_get host path query)) = url_ParseQuery query.
Proof. done. Qed.

Lemma is_form_form host path body : is_form (deliver (out_form host path body)) = true.
Proof. vm_compute. reflexivity. Qed.

Lemma form_of_form host path body :
  form_of (deliver (out_form host path body)) = if len body <=? maxFormSize then url_ParseQuery body else [].
Proof.
  unfold form_of, posted. rewrite is_form_form. cbn [andb deliver rq_Body out_form oq_Body].
  change (url_ParseQuery (rq_RawQuery _)) with (@nil (bytes * bytes)). by rewrite app_nil_r.
Qed.

Lemma form_value_len host path body key :
  len (Values_Get (form_of (deliver (out_form host path body))) key) <= maxFormSize.
Proof.
  rewrite form_of_form. destruct (len body <=? maxFormSize) eqn:E; [|by vm_compute].
  apply Z.leb_le in E. pose proof (ParseQuery_len body key). unfold len in *. lia.
Qed.

(** A body that is no JSON. *)
Lemma no_json_nil : json_Unmarshal [] = None.
Proof. reflexivity. Qed.
Lemma no_json_key (t : bytes) : json_Unmarshal ($"key=" ++ t) = None.
Proof. unfold json_Unmarshal, json_fuel. rewrite Nat.add_comm. reflexivity. Qed.


Lemma no_unmarshal body : json_Unmarshal body = None -> SyncRequest_Unmarshal body = None.
Proof. unfold SyncRequest_Unmarshal. by intros ->. Qed.

Lemma small_nil k : small k [] -> small [] [].
Proof. unfold small, len. simpl. lia. Qed.

(** A query with one plain key. *)
Lemma key_query_pairs key : plain key -> url_ParseQuery (key_query key) = [($"key", key)].
Proof. intros Hk. apply (ParseQuery_plain ($"key") key); [by_deciding|discriminate|done]. Qed.

Lemma put_body_pairs key value : plain key ->
  url_ParseQuery (put_body key value) = ($"key", key) :: url_ParseQuery ($"value=" ++ value).
Proof. intros Hk. apply (ParseQuery_plain_cons ($"key") key ($"value=" ++ value)); [by_deciding|discriminate|done]. Qed.

Lemma value_pairs value : plain value -> url_ParseQuery ($"value=" ++ value) = [($"value", value)].
Proof. intros Hk. apply (ParseQuery_plain ($"value") value); [by_deciding|discriminate|done]. Qed.

Lemma fits_intro r : fresh r -> json_Unmarshal (rq_Body r) = None ->
  small (Values_Get (form_of r) ($"key")) (Values_Get (form_of r) ($"value")) ->
  small (Values_Get (form_of r) ($"key")) [] -> small (Query_Get r ($"key")) [] -> request_fits r.
Proof.
  intros Hr Hj H1 H2 H3. split_and!.
  - by rewrite put_key_fresh, put_value_fresh.
  - rewrite delete_key_fresh by done. cbv zeta. by case_bool_decide.
  - intros body req E. unfold ReadAll in E. destruct (rq_BodyErr r); [done|]. injection E as <-.
    by rewrite (no_unmarshal _ Hj).
Qed.

Lemma get_fits host path key : plain key -> small key [] -> request_fits (deliver (out_get host path (key_query key))).
Proof.
  intros Hk Hs. apply fits_intro; [apply fresh_get|apply no_json_nil|..];
    rewrite ?form_of_get; unfold Query_Get; cbn [deliver rq_RawQuery oq_URL out_get u_RawQuery]; by rewrite key_query_pairs.
Qed.

Lemma keys_fits host : request_fits (deliver (out_get host ($"/keys") [])).
Proof. apply fits_intro; [apply fresh_get|apply no_json_nil|..]; by vm_compute. Qed.

Lemma form_fits host path (t : bytes) : request_fits (deliver (out_form host path ($"key=" ++ t))).
Proof.
  apply fits_intro; [apply fresh_form|apply no_json_key|..].
  - apply small_form; apply form_value_len.
  - apply small_form; [apply form_value_len|by vm_compute].
  - by vm_compute.
Qed.

Lemma get_spec_key t cf host key m : plain key ->
  serve_spec t page cf (deliver (out_get host ($"/get") (key_query key))) m =
    if bool_decide (key = []) then (error_response ($"Missing key") StatusBadRequest, m, [])
    else match spec_get (mo_now t) m key with
         | inl err => (err_response err StatusNotFound, m, [])
         | inr val => (text_response (val ++ [x0a]), m, [])
         end.
Proof.
  intros Hk. change (serve_spec t page cf (deliver (out_get host ($"/get") (key_query key))) m)
    with (serve_get t (deliver (out_get host ($"/get") (key_query key))) m).
  unfold serve_get. rewrite bool_decide_eq_false_2 by (intros H; by apply H).
  assert (E : Query_Get (deliver (out_get host ($"/get") (key_query key))) ($"key") = key).
  { unfold Query_Get. cbn [deliver rq_RawQuery oq_URL out_get u_RawQuery]. by rewrite key_query_pairs. }
  by rewrite E.
Qed.

Lemma keys_spec t cf host m :
  serve_spec t page cf (deliver (out_get host ($"/keys") [])) m =
    (json_response (json_strings (live_keys (mo_key_clock t) m) ++ [x0a]), m, []).
Proof. reflexivity. Qed.

Lemma put_spec_key t cf host key value m : plain key -> cf_role cf = MASTER ->
  let v := form_value value in
  let spec := serve_spec t page cf (deliver (out_form host ($"/put") (put_body key value))) m in
  (spec.1.2 = m /\ rp_StatusCode spec.1.1 = StatusBadRequest) \/
  (len key <= maxFormSize /\ spec.1.2 = <[key := (v, 0)]> m).
Proof.
  intros Hk Hr v spec. subst spec. change (serve_spec t page cf (deliver (out_form host ($"/put") (put_body key value))) m)
    with (serve_put cf (deliver (out_form host ($"/put") (put_body key value))) m).
  unfold serve_put. rewrite Hr. rewrite bool_decide_eq_false_2 by (intros H; by apply H).
  rewrite bool_decide_eq_false_2 by (intros H; by apply H).
  rewrite put_key_fresh, put_value_fresh by apply fresh_form. rewrite form_of_form.
  destruct (len (put_body key value) <=? maxFormSize) eqn:El; [|by left].
  rewrite put_body_pairs by done. rewrite !Get_cons. rewrite decide_True by done. rewrite decide_False by discriminate.
  fold (form_value value) v. destruct (bool_decide (key = []) || bool_decide (v = [])); [by left|]. right. split; [|done].
  apply Z.leb_le in El. unfold put_body, len in *. rewrite !length_app in El. lia.
Qed.

Lemma delete_spec_key t cf host key m : plain key -> cf_role cf = MASTER ->
  let spec := serve_spec t page cf (deliver (out_form host ($"/delete") (key_query key))) m in
  spec.1.2 = m \/ spec.1.2 = delete key m.
Proof.
  intros Hk Hr spec. subst spec. change (serve_spec t page cf (deliver (out_form host ($"/delete") (key_query key))) m)
    with (serve_delete cf (deliver (out_form host ($"/delete") (key_query key))) m).
  unfold serve_delete. rewrite Hr. rewrite bool_decide_eq_false_2 by (intros H; by apply H).
  rewrite (bool_decide_eq_false_2 (rq_Method _ <> MethodPost)) by (intros H; by apply H). rewrite andb_false_r.
  rewrite delete_key_fresh by apply fresh_form. cbv zeta. rewrite form_of_form.
  change (Query_Get (deliver (out_form host ($"/delete") (key_query key))) ($"key")) with (@nil byte).
  destruct (len (key_query key) <=? maxFormSize); [|by left].
  rewrite key_query_pairs by done. rewrite Get_cons, decide_True by done.
  destruct (decide (key = [])) as [->|H1]; [by left|]. rewrite !(bool_decide_eq_false_2 (key = [])) by done. by right.
Qed.

(** ** The instance *)
Lemma small_map_insert m key v : small_map m -> len key <= maxFormSize -> small_map (<[key := (v, 0)]> m).
Proof. intros Hm Hk. apply map_Forall_insert_2; [|done]. apply small_form; [done|by vm_compute]. Qed.

Lemma cluster_small c ms host m : cluster_shows c ms -> ms !! host = Some m -> small_map m.
Proof. intros (T & _ & Hms) Hm. by destruct (Hms host m Hm) as (s & _ & _ & _ & ?). Qed.

Lemma live_keys_dom clock m : Forall (fun k => is_Some (m !! k)) (live_keys clock m).
Proof.
  apply Forall_forall. intros k Hk. unfold live_keys in Hk. rewrite merge_sort_Permutation in Hk.
  apply list_elem_of_filter in Hk as [[ve Hk] _]. exists ve. unfold live in Hk. by apply map_lookup_filter_Some in Hk as [Hk _].
Qed.

Lemma spec_get_held now m key v : spec_get now m key = inr v -> exists e, m !! key = Some (v, e).
Proof.
  unfold spec_get, live. destruct (filter _ m !! key) as [[v' e]|] eqn:E; [|done]. intros [= <-].
  apply map_lookup_filter_Some in E as [E _]. by exists e.
Qed.

Lemma form_header_ok host path body : header_ok (oq_Header (out_form host path body)) = true.
Proof. vm_compute. reflexivity. Qed.
Lemma get_header_ok host path query : header_ok (oq_Header (out_get host path query)) = true.
Proof. vm_compute. reflexivity. Qed.
Lemma put_route : $"/put" ∈ routes.
Proof. by_deciding. Qed.
Lemma get_route : $"/get" ∈ routes.
Proof. by_deciding. Qed.
Lemma keys_route : $"/keys" ∈ routes.
Proof. by_deciding. Qed.
Lemma delete_route : $"/delete" ∈ routes.
Proof. by_deciding. Qed.
Lemma get_no_write : $"/get" ∉ [$"/put"; $"/delete"; $"/sync"].
Proof. by_deciding. Qed.
Lemma keys_no_write : $"/keys" ∉ [$"/put"; $"/delete"; $"/sync"].
Proof. by_deciding. Qed.

(** A request that does not write is not refused, and keeps the maps. *)
Lemma cluster_read q c ms m answer c' :
  cluster_shows c ms -> ms !! u_Host (oq_URL q) = Some m ->
  u_Scheme (oq_URL q) = $"http" -> u_Path (oq_URL q) ∈ routes -> header_ok (oq_Header q) = true -> request_fits (deliver q) ->
  ~ is_write (deliver q) -> (forall t cf, (serve_spec t page cf (deliver q) m).1.2 = m) ->
  cluster_Do page elsewhere q c = (answer, c') ->
  cluster_shows c' ms /\ ((exists e, answer = inl e) \/ exists t cf, answer = inr (serve_spec t page cf (deliver q) m).1.1).
Proof.
  intros Hs Hm H1 H2 H3 H4 Hw Hsame E.
  destruct (cluster_step q c ms m answer c' Hs Hm H1 H2 H3 H4 E) as [[Hs' He]|[(t & H)|(Hw' & _)]]; [by split; [|left]| |done].
  destruct H as [Hs' Ha]; [rewrite Hsame; by eapply cluster_small|]. rewrite Hsame, insert_id in Hs' by done.
  split; [done|]. destruct Ha as [Ha|Ha]; [|by left]. right. by exists t, (confs (u_Host (oq_URL q))).
Qed.

(** The nodes of a migration are masters. *)
Definition masters (ms : gmap bytes vmap) : Prop := forall h, is_Some (ms !! h) -> cf_role (confs h) = MASTER.
Definition master_shows c ms : Prop := masters ms /\ cluster_shows c ms.

Lemma masters_insert c ms host m m' : masters ms -> ms !! host = Some m -> cluster_shows c (<[host := m']> ms) ->
  master_shows c (<[host := m']> ms).
Proof.
  intros Hr Hm Hs. split; [|done]. intros h Hh. apply Hr. destruct (decide (h = host)) as [->|Hne]; [by exists m|].
  by rewrite lookup_insert_ne in Hh.
Qed.

#[export] Instance ClusterNodes : KVNodes (ClusterNet page elsewhere).
Proof.
  refine {| kv_shows := master_shows : @World (ClusterNet page elsewhere) -> _ -> Prop; kv_key key := small key [];
    kv_failed := cluster_failed : @World (ClusterNet page elsewhere) -> Prop; kv_cut _ := False |}.
  - intros c ms host m k [Hr Hs] Hm [ve Hk]. exact (cluster_small c ms host m Hs Hm k ve Hk).
  - intros q c. apply failed_stays.
  - done.
  - intros c ms host m [Hr Hs] Hm Hpl answer c' E.
    destruct (cluster_read (out_get host ($"/keys") []) c ms m answer c' Hs Hm eq_refl keys_route (get_header_ok _ _ _)
      (keys_fits host) keys_no_write (fun _ _ => eq_refl) E) as [Hs' Ha].
    split; [by split|]. intros resp l -> Hl. destruct Ha as [[e Ha]|(t & cf & Ha)]; [done|].
    assert (resp = (serve_spec t page cf (deliver (out_get host ($"/keys") [])) m).1.1) as -> by congruence.
    rewrite keys_spec in Hl. cbn [fst snd json_response rp_Body] in Hl. rewrite json_strings_roundtrip in Hl.
    + injection Hl as <-. apply live_keys_dom.
    + eapply Forall_impl; [apply live_keys_dom|]. intros k Hk. cbn beta in Hk. by apply ascii_valid, plain_ascii, Hpl.
  - intros c ms host m key [Hr Hs] Hm Hp Hk answer c' E.
    assert (Hsame : forall t cf, (serve_spec t page cf (deliver (out_get host ($"/get") (key_query key))) m).1.2 = m).
    { intros t cf. rewrite get_spec_key by done. case_bool_decide; [done|]. by destruct (spec_get _ _ _). }
    destruct (cluster_read (out_get host ($"/get") (key_query key)) c ms m answer c' Hs Hm eq_refl get_route
      (get_header_ok _ _ _) (get_fits _ _ _ Hp Hk) get_no_write Hsame E) as [Hs' Ha].
    split; [by split|]. intros resp Hresp. destruct Ha as [[e ->]|(t & cf & ->)]; [done|].
    rewrite get_spec_key in Hresp by done. case_bool_decide; [done|].
    destruct (spec_get (mo_now t) m key) as [e|v] eqn:Eg; [done|]. injection Hresp as <-.
    destruct (spec_get_held _ _ _ _ Eg) as [e Ee]. by exists v, e.
  - intros c ms host m key value [Hr Hs] Hm Hp answer c' E.
    destruct (cluster_step (out_form host ($"/put") (put_body key value)) c ms m answer c' Hs Hm eq_refl put_route
      (form_header_ok _ _ _) (form_fits _ _ _) E) as [[Hs' [e ->]]|[(t & H)|(_ & Hf & _)]]; [| |by left].
    { right. exists m. rewrite insert_id by done. split; [by split|]. left. split; [done|]. intros resp H. discriminate H. }
    right. pose proof (cluster_small c ms host m Hs Hm) as Hsm. unfold served_on in H.
    change (u_Host (oq_URL (out_form host ($"/put") (put_body key value)))) with host in H.
    destruct (put_spec_key t (confs host) host key value m Hp (Hr host (mk_is_Some _ _ Hm))) as [[Em Ec]|[Hl Em]].
    + destruct H as [Hs' Ha]; [by rewrite Em|]. exists m. rewrite Em in Hs'. split; [by eapply masters_insert|]. left. split; [done|].
      intros resp Hresp. destruct Ha as [->|[e ->]]; [|done]. unfold answered, ok_response in Hresp. rewrite Ec in Hresp. done.
    + destruct H as [Hs' Ha]; [rewrite Em; by apply small_map_insert|]. rewrite Em in Hs'. eexists. split; [by eapply masters_insert|].
      by right.
  - intros c ms host m key [Hr Hs] Hm Hp Hk answer c' E.
    destruct (cluster_step (out_form host ($"/delete") (key_query key)) c ms m answer c' Hs Hm eq_refl delete_route
      (form_header_ok _ _ _) (form_fits _ _ _) E) as [[Hs' _]|[(t & H)|(_ & Hf & _)]]; [| |by left].
    { right. exists m. rewrite insert_id by done. split; [by split|by left]. }
    right. pose proof (cluster_small c ms host m Hs Hm) as Hsm. unfold served_on in H.
    change (u_Host (oq_URL (out_form host ($"/delete") (key_query key)))) with host in H.
    destruct (delete_spec_key t (confs host) host key m Hp (Hr host (mk_is_Some _ _ Hm))) as [Em|Em].
    + destruct H as [Hs' _]; [by rewrite Em|]. exists m. rewrite Em in Hs'. split; [by eapply masters_insert|by left].
    + destruct H as [Hs' _]; [rewrite Em; by apply map_Forall_delete|]. rewrite Em in Hs'. eexists. split; [by eapply masters_insert|by right].
Defined.
End maps.
