(* ===== verification/ClusterProps.v ===== *)
(** * What the servers of a cluster promise each other

    A write a master has accepted reaches its slaves; nothing orders two of them;
    a migration between servers loses no key (the witness of [Migration.v] on
    servers). *)
From S2P Require Import Prelude GoBinary Config GoOs WalLib WalModel Record BTreeLib Index Watch Ring.
From S2P Require Import Store Batch DB Open View BatchSpec CommitSpec Recovery OpenSpec DBSpec Instances.
From S2P Require Import Strs Flags Json Http Urls Replication Server Failover Cmd ServerSpec ServerProps Proxy ProxySpec ProxyProps Migration Cluster.
Open Scope Z_scope.

(** ** Migration *)
(** C9: Moving keys to a new node loses none of them, whatever requests fail and
    wherever an answer is lost or broken off, as long as the log of no node refuses
    a write: the migration ends, and then every key of an old node is still on that
    node with its value and expiry time, or it belongs to the new node and the new
    node has it, with no expiry time.  Its value there is what a form reads of the
    old value without the white space around it -- the same text, if it is one that
    needs no escape -- and a part of it only if some answer has broken off.  This is
    for nodes that keep maps ([KVNodes]) and are asked by nobody else meanwhile,
    hosts and keys that a URL carries unchanged, a new node that is none of the old
    ones, and no key on two old nodes. *)
Theorem migration_loses_no_key {N : Network} {KV : KVNodes N} p w migs ms olds new :
  kv_shows w ms -> Forall plain_host (new :: olds) -> new ∉ olds -> is_Some (ms !! new) ->
  (forall h, h ∈ olds -> exists m, ms !! h = Some m /\ all_plain m) ->
  (forall h h' m m', h ∈ olds -> h' ∈ olds -> ms !! h = Some m -> ms !! h' = Some m' -> h <> h' -> m ##ₘ m') ->
  exists w', migrateData (gret tt) (http_url <$> olds) (http_url new) (MkProxyState p w migs) = Ret (tt, MkProxyState p w' migs) /\
    (kv_failed w' \/ exists ms', kv_shows w' ms' /\ forall h m k v e, h ∈ olds -> ms !! h = Some m -> m !! k = Some (v, e) ->
       (exists m', ms' !! h = Some m' /\ m' !! k = Some (v, e)) \/
       (Proxy_GetNode p k = http_url new /\ exists m' v1, ms' !! new = Some m' /\ m' !! k = Some (form_value v1, 0) /\
          (v1 = moved v \/ kv_cut w' /\ moved_part v v1) /\ (plain v1 -> form_value v1 = v1))).
Proof.
  intros Hs Hhosts Hnew Hn Hmaps Hdis.
  destruct (migrateData_good p olds new ms Hhosts Hnew Hmaps Hdis olds w migs) as (w' & E & H).
  - done.
  - right. exists ms. split; [done|]. split; [done| |].
    + intros h m0 _ Hm. by exists m0.
    + intros h m0 k ve _ Hm Hk. left. by exists m0.
  - exists w'. split; [done|]. destruct H as [H|(ms' & Hs' & [_ _ H])]; [by left|]. right. exists ms'. split; [done|].
    intros h m k v e Hh Hm Hk. destruct (H h m k (v, e) Hh Hm Hk) as [Hl|(Hg & m' & v' & E1 & E2 & v1 & Hv1 & ->)]; [by left|].
    right. split; [done|]. exists m', v1. split_and!; try done. apply form_value_plain.
Qed.

(** ** Sync requests *)
Definition out_sync (host key data : bytes) : OutRequest :=
  let h := Header_Set ∅ ($"Content-Type") ($"application/json") in
  MkOutRequest MethodPost (MkURL ($"http") [] host ($"/sync") false [])
    (if decide (key = []) then h else Header_Set h ($"X-Sync-Key") key) data.

(** A key that a header field carries as it is. *)
Definition field_text (k : bytes) : Prop := field_ok k = true /\ trim_field k = k.

Lemma sync_path : plain_path ($"/sync").
Proof. eexists. split; [reflexivity|by_deciding]. Qed.

Lemma sync_request_out host key data : plain_host host ->
  sync_request (MkSyncTask (http_url host) data key) = inr (out_sync host key data).
Proof.
  intros Hh. unfold sync_request, http_NewRequest. cbn [t_url t_data t_syncKey].
  by rewrite url_Parse_path by (done || apply sync_path).
Qed.

Lemma sync_headers host key data : field_text key ->
  header_ok (oq_Header (out_sync host key data)) = true /\
  Header_Get (rq_Header (deliver (out_sync host key data))) ($"X-Sync-Key") = key /\
  Header_Get (rq_Header (deliver (out_sync host key data))) ($"Content-Type") = $"application/json".
Proof.
  intros [Hk Ht]. unfold out_sync. cbv zeta. cbn [oq_Header deliver rq_Header].
  assert (Hne : $"Content-Type" <> $"X-Sync-Key") by by_deciding.
  assert (Htrim : trim_field ($"application/json") = $"application/json") by (vm_compute; reflexivity).
  unfold header_ok, Header_Get, Header_Set. rewrite bool_decide_eq_true, !lookup_fmap. case_decide as Hd.
  - subst key. split_and!.
    + apply map_Forall_insert_2; [|apply map_Forall_empty]. by_deciding.
    + by rewrite lookup_insert_ne, lookup_empty by done.
    + rewrite lookup_insert_eq. exact Htrim.
  - split_and!.
    + apply map_Forall_insert_2; [by constructor|]. apply map_Forall_insert_2; [by_deciding|apply map_Forall_empty].
    + rewrite lookup_insert_eq. exact Ht.
    + rewrite lookup_insert_ne, lookup_insert_eq by done. exact Htrim.
Qed.

(** What a write that is replicated does to a map. *)
Definition write_req (req : SyncRequest) : Prop :=
  (Action req = $"put" \/ Action req = $"delete") /\ Key req <> [] /\ small (Key req) (Value req).

Definition effect (req : SyncRequest) (m : vmap) : vmap :=
  if bool_decide (Action req = $"put") then <[Key req := (Value req, 0)]> m else delete (Key req) m.

Lemma effect_spec req m : write_req req -> sync_spec req m = (None, effect req m).
Proof.
  intros (Ha & Hk & _). unfold sync_spec, effect, put_spec, delete_spec.
  rewrite (bool_decide_eq_false_2 (Key req = [])) by done. case_bool_decide; [done|].
  destruct Ha as [?|Ha]; [done|]. by rewrite (bool_decide_eq_true_2 (Action req = $"delete")).
Qed.

Lemma effect_twice req m : effect req (effect req m) = effect req m.
Proof. unfold effect. case_bool_decide; [apply insert_insert_eq|apply delete_delete_eq]. Qed.

Lemma effect_small req m : write_req req -> small_map m -> small_map (effect req m).
Proof.
  intros (_ & _ & Hs) Hm. unfold effect. case_bool_decide; [|by apply map_Forall_delete].
  apply map_Forall_insert_2; [|done]. unfold small, len in *. simpl. lia.
Qed.

Section sync.
Context {W : WalLib} {WL : WalLaws W} {B : BTreeLib item item_less} {BL : BTreeLaws B}
  {SF : Snowflake} {SL : SnowflakeLaws SF} {MH : MemHashLib} {RX : Regexp} {ML : MultipartLib} {MLL : MultipartLaws ML}.
Context (page : bytes) (elsewhere : OutRequest -> error + Response) (confs : bytes -> ServerConf).
Implicit Types (c : Cluster).

Lemma sync_fresh host key data : field_text key -> fresh (deliver (out_sync host key data)).
Proof.
  intros Hk. destruct (sync_headers host key data Hk) as (_ & _ & Ht).
  split; [split; [discriminate|vm_compute; reflexivity]|reflexivity|reflexivity|reflexivity|].
  rewrite Ht. by_deciding.
Qed.

Lemma sync_form host key data : field_text key -> form_of (deliver (out_sync host key data)) = [].
Proof.
  intros Hk. destruct (sync_headers host key data Hk) as (_ & _ & Ht).
  unfold form_of, posted, is_form. rewrite Ht.
  rewrite (bool_decide_eq_false_2 (media_type _ = form_type)) by by_deciding. rewrite andb_false_r. reflexivity.
Qed.

Lemma write_req_utf8 req : write_req req -> utf8_valid (Action req) = true.
Proof. intros ([E|E] & _); rewrite E; vm_compute; reflexivity. Qed.

Lemma sync_fits host key req : field_text key -> write_req req ->
  request_fits (deliver (out_sync host key (SyncRequest_Marshal req))).
Proof.
  intros Hk Hw. pose proof (sync_fresh host key (SyncRequest_Marshal req) Hk) as Hf.
  pose proof (sync_form host key (SyncRequest_Marshal req) Hk) as He. split_and!.
  - rewrite put_key_fresh, put_value_fresh, He by done. by vm_compute.
  - rewrite delete_key_fresh, He by done. by vm_compute.
  - intros body req'. unfold ReadAll. cbn [deliver rq_BodyErr rq_Body out_sync oq_Body]. intros [= <-].
    rewrite SyncRequest_roundtrip by by apply write_req_utf8. intros [= <-]. apply Hw.
Qed.

(** A slave lets the request in. *)
Definition lets_in (cf : ServerConf) (key : bytes) : Prop := cf_syncKey cf = [] \/ cf_syncKey cf = key.

Lemma sync_served t cf host key req m : field_text key -> lets_in cf key -> write_req req ->
  serve_spec t page cf (deliver (out_sync host key (SyncRequest_Marshal req))) m
    = (text_response ($"SYNC OK" ++ [x0a]), effect req m, []).
Proof.
  intros Hk Hl Hw. change (serve_spec t page cf (deliver (out_sync host key (SyncRequest_Marshal req))) m)
    with (serve_sync cf (deliver (out_sync host key (SyncRequest_Marshal req))) m).
  unfold serve_sync. rewrite bool_decide_eq_false_2 by (intros H; by apply H).
  destruct (sync_headers host key (SyncRequest_Marshal req) Hk) as (_ & -> & _).
  assert (E : bool_decide (cf_syncKey cf <> []) && bool_decide (key <> cf_syncKey cf) = false).
  { destruct Hl as [->| ->]; [by rewrite bool_decide_eq_false_2 by (intros H; by apply H)|].
    rewrite (bool_decide_eq_false_2 (key <> key)) by (intros H; by apply H). apply andb_false_r. }
  rewrite E. unfold ReadAll. cbn [deliver rq_BodyErr rq_Body out_sync oq_Body].
  rewrite SyncRequest_roundtrip by by apply write_req_utf8. by rewrite effect_spec.
Qed.

Lemma sync_route : $"/sync" ∈ routes.
Proof. by_deciding. Qed.

(** One attempt. *)
Lemma sync_step host key req c ms m answer c' :
  cluster_shows confs c ms -> ms !! host = Some m -> field_text key -> lets_in (confs host) key -> write_req req ->
  cluster_Do page elsewhere (out_sync host key (SyncRequest_Marshal req)) c = (answer, c') ->
  (cluster_shows confs c' ms /\ exists e, answer = inl e) \/
  (cluster_shows confs c' (<[host := effect req m]> ms) /\
     (answer = inr (text_response ($"SYNC OK" ++ [x0a])) \/ exists e, answer = inl e)) \/
  cluster_failed c'.
Proof.
  intros Hs Hm Hk Hl Hw E. destruct (sync_headers host key (SyncRequest_Marshal req) Hk) as (Hh & _).
  destruct (cluster_step page elsewhere confs (out_sync host key (SyncRequest_Marshal req)) c ms m answer c' Hs Hm eq_refl
    sync_route Hh (sync_fits host key req Hk Hw) E) as [H|[(t & H)|(_ & Hf & _)]]; [by left| |by right; right].
  right; left. unfold served_on in H.
  change (u_Host (oq_URL (out_sync host key (SyncRequest_Marshal req)))) with host in H.
  rewrite sync_served in H by done. apply H. apply effect_small; [done|]. by eapply cluster_small.
Qed.

(** ** The goroutine of a task *)

(** The attempts of a replicator on this network. *)
Definition attempts (n : nat) (task : SyncTask) c : bool * Cluster := sync_attempts (N := ClusterNet page elsewhere) n task c.

Lemma attempts_S n host key data c : plain_host host ->
  attempts (S n) (MkSyncTask (http_url host) data key) c =
    let '(answer, c1) := cluster_Do page elsewhere (out_sync host key data) c in
    match answer with
    | inr resp => if rp_StatusCode resp =? StatusOK then (true, c1)
                  else attempts n (MkSyncTask (http_url host) data key) c1
    | inl _ => attempts n (MkSyncTask (http_url host) data key) c1
    end.
Proof.
  intros Hh. unfold attempts. cbn [sync_attempts]. rewrite sync_request_out by done. cbn [net_Do ClusterNet].
  by destruct (cluster_Do page elsewhere _ c) as [[err|resp] c1].
Qed.

Lemma attempts_failed n task c : cluster_failed c -> cluster_failed (attempts n task c).2.
Proof.
  unfold attempts. revert c. induction n as [|n IH]; intros c Hf; cbn [sync_attempts]; [done|].
  destruct (sync_request task) as [err|q]; [done|]. pose proof (failed_stays page elsewhere q c Hf) as H.
  cbn [net_Do ClusterNet]. destruct (cluster_Do page elsewhere q c) as [[err|resp] c1]; cbn [snd] in H; [by apply IH|].
  destruct (rp_StatusCode resp =? StatusOK); [done|by apply IH].
Qed.

Lemma cluster_Do_plan q c answer c' : cluster_Do page elsewhere q c = (answer, c') -> cl_plan c' = tail (cl_plan c).
Proof.
  assert (Hat : forall t c, cl_plan (serve_at page elsewhere t q c).2 = cl_plan c).
  { intros t c0. unfold serve_at. repeat case_match; done. }
  unfold cluster_Do. destruct (cl_plan c) as [|[|t|t] plan] eqn:Ep.
  - by intros [= <- <-].
  - by intros [= <- <-].
  - intros [= <- <-]. by rewrite Hat.
  - intros E. apply (f_equal snd) in E. cbn [snd] in E. rewrite <- E. by rewrite Hat.
Qed.

(** An answer that arrives is one of a server. *)
Lemma sync_answered host key req c ms m answer c' :
  cluster_shows confs c ms -> ms !! host = Some m -> field_text key -> lets_in (confs host) key -> write_req req ->
  cluster_Do page elsewhere (out_sync host key (SyncRequest_Marshal req)) c = (answer, c') ->
  arrives (default RequestLost (head (cl_plan c))) = true ->
  cluster_shows confs c' (<[host := effect req m]> ms) /\ answer = inr (text_response ($"SYNC OK" ++ [x0a])) \/ cluster_failed c'.
Proof.
  intros Hs Hm Hk Hl Hw E Ha. destruct (sync_headers host key (SyncRequest_Marshal req) Hk) as (Hh & _).
  destruct (cluster_arrives page elsewhere confs (out_sync host key (SyncRequest_Marshal req)) c ms m answer c' Hs Hm eq_refl
    sync_route Hh (sync_fits host key req Hk Hw) E Ha) as [resp ->].
  destruct (sync_step host key req c ms m (inr resp) c' Hs Hm Hk Hl Hw E) as [[_ [e He]]|[[Hs' Hok]|Hf]];
    [done| |by right].
  destruct Hok as [->|[e He]]; [by left|done].
Qed.

(** All the attempts. *)
Lemma attempts_spec n host key req c ms m m0 ok c' :
  cluster_shows confs c ms -> ms !! host = Some m -> field_text key -> lets_in (confs host) key -> write_req req ->
  plain_host host -> m = m0 \/ m = effect req m0 ->
  attempts n (MkSyncTask (http_url host) (SyncRequest_Marshal req) key) c = (ok, c') ->
  cluster_failed c' \/
  (exists m', cluster_shows confs c' (<[host := m']> ms) /\ (m' = effect req m0 \/ m' = m0 /\ ok = false) /\
     (existsb arrives (take n (cl_plan c)) = true -> ok = true)).
Proof.
  intros Hs Hm Hk Hl Hw Hh Hm0 E. assert (Heff : effect req m = effect req m0) by (destruct Hm0 as [->| ->]; [done|apply effect_twice]).
  unfold attempts in E. revert c ms m Hs Hm Hm0 Heff E.
  induction n as [|n IH]; intros c ms m Hs Hm Hm0 Heff; cbn [sync_attempts].
  { intros [= <- <-]. right. exists m. rewrite insert_id by done. split; [done|]. split; [tauto|]. by rewrite take_0. }
  rewrite sync_request_out by done. cbn [net_Do ClusterNet].
  destruct (cluster_Do page elsewhere (out_sync host key (SyncRequest_Marshal req)) c) as [answer c1] eqn:E1.
  pose proof (cluster_Do_plan _ _ _ _ E1) as Hplan.
  pose proof (sync_answered host key req c ms m answer c1 Hs Hm Hk Hl Hw E1) as Hans.
  assert (Hfail : cluster_failed c1 ->
    (match answer with inl _ => attempts n (MkSyncTask (http_url host) (SyncRequest_Marshal req) key) c1
     | inr resp => if rp_StatusCode resp =? StatusOK then (true, c1) else attempts n (MkSyncTask (http_url host) (SyncRequest_Marshal req) key) c1 end) = (ok, c') ->
    cluster_failed c').
  { intros Hf E. pose proof (attempts_failed n (MkSyncTask (http_url host) (SyncRequest_Marshal req) key) c1 Hf) as Hf'.
    destruct answer as [err|resp]; [rewrite E in Hf'; exact Hf'|]. destruct (rp_StatusCode resp =? StatusOK); [injection E as <- <-; exact Hf|rewrite E in Hf'; exact Hf']. }
  assert (Htake : existsb arrives (take (S n) (cl_plan c))
    = arrives (default RequestLost (head (cl_plan c))) || existsb arrives (take n (cl_plan c1))).
  { rewrite Hplan. destruct (cl_plan c) as [|f plan]; [|done]. cbn [tail]. by rewrite !take_nil. }
  destruct (sync_step host key req c ms m answer c1 Hs Hm Hk Hl Hw E1) as [[Hs1 [e ->]]|[[Hs1 Hok]|Hf]].
  - intros E. assert (Hn : arrives (default RequestLost (head (cl_plan c))) = false \/ cluster_failed c1).
    { destruct (arrives _) eqn:Ea; [|by left]. destruct (Hans eq_refl) as [[_ ?]|?]; [done|by right]. }
    destruct Hn as [Hn|Hf]; [|left; by apply Hfail]. rewrite Htake, Hn. by apply (IH c1 ms m).
  - destruct Hok as [->|[e ->]].
    + cbn [rp_StatusCode text_response Z.eqb StatusOK Pos.eqb]. intros [= <- <-]. right. exists (effect req m).
      split; [done|]. split; [by left|done].
    + intros E. assert (Hn : arrives (default RequestLost (head (cl_plan c))) = false \/ cluster_failed c1).
      { destruct (arrives _) eqn:Ea; [|by left]. destruct (Hans eq_refl) as [[_ ?]|?]; [done|by right]. }
      destruct Hn as [Hn|Hf]; [|left; by apply Hfail]. rewrite Htake, Hn.
      destruct (IH c1 (<[host := effect req m]> ms) (effect req m) Hs1) as [H|(m' & H1 & H2)]; try done.
      * by rewrite lookup_insert_eq.
      * right. by rewrite Heff.
      * by rewrite effect_twice.
      * by left.
      * right. exists m'. by rewrite insert_insert_eq in H1.
  - intros E. left. by apply Hfail.
Qed.

Definition goroutine (task : SyncTask) c : bool * Cluster := sync_goroutine (N := ClusterNet page elsewhere) task c.

Lemma broadcast_task rep req task : task ∈ broadcast rep req ->
  task = MkSyncTask (t_url task) (SyncRequest_Marshal req) (rep_syncKey rep).
Proof.
  unfold broadcast. case_decide; [by intros ?%not_elem_of_nil|]. intros (url & -> & _)%list_elem_of_fmap. done.
Qed.

Lemma goroutine_spec rep req task host c ms m ok c' :
  write_req req -> task ∈ broadcast rep req -> t_url task = http_url host -> plain_host host ->
  field_text (rep_syncKey rep) -> lets_in (confs host) (rep_syncKey rep) ->
  cluster_shows confs c ms -> ms !! host = Some m -> goroutine task c = (ok, c') ->
  cluster_failed c' \/
  exists m', cluster_shows confs c' (<[host := m']> ms) /\ (m' = effect req m \/ m' = m /\ ok = false) /\
    (existsb arrives (take 3 (cl_plan c)) = true -> ok = true).
Proof.
  intros Hw Ht Hu Hh Hk Hl Hs Hm. rewrite (broadcast_task rep req task Ht), Hu. unfold goroutine, sync_goroutine.
  intros E. eapply (attempts_spec 3); try done. by left.
Qed.

(** C10: A write that a master has accepted reaches each slave of its replicator.
    The goroutine of the slave either says it was answered, and the slave then
    shows the write, byte for byte, whatever the key and the value are; or it gives
    up, and the slave shows the write or shows nothing of it; nothing else changes
    on any node.  If one of the three requests arrives and its answer comes back,
    it is answered.  The slave must have the key of the master or none, and its
    log must not refuse the write. *)
Theorem replicated_write_arrives rep req task host c ms m ok c' :
  write_req req -> task ∈ broadcast rep req -> t_url task = http_url host -> plain_host host ->
  field_text (rep_syncKey rep) -> lets_in (confs host) (rep_syncKey rep) ->
  cluster_shows confs c ms -> ms !! host = Some m -> goroutine task c = (ok, c') ->
  cluster_failed c' \/
  exists m', cluster_shows confs c' (<[host := m']> ms) /\ (m' = effect req m \/ m' = m /\ ok = false) /\
    (existsb arrives (take 3 (cl_plan c)) = true -> ok = true).
Proof. apply goroutine_spec. Qed.

(** Two goroutines, one after the other. *)
Lemma goroutine_arrives rep req task host t plan c ms m :
  write_req req -> task ∈ broadcast rep req -> t_url task = http_url host -> plain_host host ->
  field_text (rep_syncKey rep) -> lets_in (confs host) (rep_syncKey rep) ->
  cluster_shows confs c ms -> ms !! host = Some m -> cl_plan c = Answered t :: plan ->
  cluster_failed (goroutine task c).2 \/
  cluster_shows confs (goroutine task c).2 (<[host := effect req m]> ms) /\ cl_plan (goroutine task c).2 = plan.
Proof.
  intros Hw Ht Hu Hh Hk Hl Hs Hm Hp.
  change (goroutine task c) with (attempts 3 task c). rewrite (broadcast_task rep req task Ht), Hu, attempts_S by done.
  destruct (cluster_Do page elsewhere _ c) as [answer c1] eqn:E1.
  assert (Ha : arrives (default RequestLost (head (cl_plan c))) = true) by (by rewrite Hp).
  pose proof (cluster_Do_plan _ _ _ _ E1) as Hp1. rewrite Hp in Hp1. cbn [tail] in Hp1.
  destruct (sync_answered host (rep_syncKey rep) req c ms m answer c1 Hs Hm Hk Hl Hw E1 Ha) as [[Hs1 ->]|Hf].
  - right. by split.
  - left. destruct answer as [err|resp]; [by apply attempts_failed|].
    destruct (rp_StatusCode resp =? StatusOK); [done|by apply attempts_failed].
Qed.

(** C38: Nothing orders the goroutines of two writes.  When a master writes a key
    twice, and both requests reach a slave at once, the slave ends with the first
    value if the goroutine of the second write happens to run first, and stays so:
    master and slave differ for good. *)
Theorem replication_can_reorder rep key v1 v2 first second host t1 t2 plan c ms m :
  key <> [] -> small key v1 -> small key v2 ->
  first ∈ SyncPut rep key v1 -> second ∈ SyncPut rep key v2 -> t_url first = http_url host -> t_url second = http_url host ->
  plain_host host -> field_text (rep_syncKey rep) -> lets_in (confs host) (rep_syncKey rep) ->
  cluster_shows confs c ms -> ms !! host = Some m -> cl_plan c = Answered t1 :: Answered t2 :: plan ->
  let in_order := (goroutine second (goroutine first c).2).2 in
  let reordered := (goroutine first (goroutine second c).2).2 in
  (cluster_failed in_order \/ cluster_shows confs in_order (<[host := <[key := (v2, 0)]> m]> ms)) /\
  (cluster_failed reordered \/ cluster_shows confs reordered (<[host := <[key := (v1, 0)]> m]> ms)).
Proof.
  intros Hkey Hs1 Hs2 Hf Hsd Hu1 Hu2 Hh Hk Hl Hs Hm Hp.
  assert (Hw : forall v, small key v -> write_req (MkSyncRequest ($"put") key v)) by (intros v Hv; split; [by left|done]).
  assert (Hrun : forall a b va vb, small key va -> small key vb -> a ∈ SyncPut rep key va -> b ∈ SyncPut rep key vb ->
    t_url a = http_url host -> t_url b = http_url host ->
    cluster_failed (goroutine b (goroutine a c).2).2 \/
    cluster_shows confs (goroutine b (goroutine a c).2).2 (<[host := <[key := (vb, 0)]> m]> ms)).
  { intros a b va vb Hva Hvb Ha Hb Hua Hub.
    destruct (goroutine_arrives rep _ a host t1 (Answered t2 :: plan) c ms m (Hw va Hva) Ha Hua Hh Hk Hl Hs Hm Hp)
      as [Hfail|[Hs' Hp']].
    { left. by apply (attempts_failed 3). }
    destruct (goroutine_arrives rep _ b host t2 plan _ _ _ (Hw vb Hvb) Hb Hub Hh Hk Hl Hs' (lookup_insert_eq _ _ _) Hp')
      as [Hfail|[Hs'' _]]; [by left|right].
    rewrite insert_insert_eq in Hs''. unfold effect in Hs''. cbn [Action Key Value] in Hs''.
    rewrite bool_decide_eq_true_2 in Hs'' by done. by rewrite insert_insert_eq in Hs''. }
  split; [by apply (Hrun first second v1 v2)|by apply (Hrun second first v2 v1)].
Qed.
End sync.

(** ** The client of the command line *)
Section cli.
Context {W : WalLib} {WL : WalLaws W} {B : BTreeLib item item_less} {BL : BTreeLaws B}
  {SF : Snowflake} {SL : SnowflakeLaws SF} {MH : MemHashLib} {RX : Regexp} {ML : MultipartLib} {MLL : MultipartLaws ML}.
Context (page : bytes) (elsewhere : OutRequest -> error + Response) (confs : bytes -> ServerConf).
Implicit Types (c : Cluster).

Definition cli_values (key value : bytes) : Values := [($"key", key); ($"value", value)].

(** What is sent, escaped, fits a form. *)
Definition cli_fits (key value : bytes) : Prop :=
  len (Values_Encode (cli_values key value)) <= maxFormSize /\ len key <= maxFormSize /\ len value <= maxFormSize.

Lemma cli_form key value name : cli_fits key value ->
  Values_Get (form_of (deliver (out_form name ($"/put") (Values_Encode (cli_values key value))))) ($"key") = key /\
  Values_Get (form_of (deliver (out_form name ($"/put") (Values_Encode (cli_values key value))))) ($"value") = value.
Proof.
  intros [Hl _]. rewrite form_of_form, (proj2 (Z.leb_le _ _) Hl), ParseQuery_Encode, !Get_sort. done.
Qed.

Lemma cli_put_served t cf host key value m : cli_fits key value -> key <> [] -> value <> [] -> cf_role cf = MASTER ->
  serve_spec t page cf (deliver (out_form host ($"/put") (Values_Encode (cli_values key value)))) m
    = (text_response ($"OK" ++ [x0a]), <[key := (value, 0)]> m, tasks_of cf (fun rep => SyncPut rep key value)).
Proof.
  intros Hf Hk Hv Hr. destruct (cli_form key value host Hf) as [Ek Ev].
  change (serve_spec t page cf (deliver (out_form host ($"/put") (Values_Encode (cli_values key value)))) m)
    with (serve_put cf (deliver (out_form host ($"/put") (Values_Encode (cli_values key value)))) m).
  unfold serve_put. rewrite put_key_fresh, put_value_fresh, Ek, Ev by apply fresh_form.
  rewrite bool_decide_eq_false_2 by (intros H; by apply H). rewrite bool_decide_eq_false_2 by (intros H; by apply H).
  by rewrite !bool_decide_eq_false_2.
Qed.

Lemma cli_put_fits host key value : cli_fits key value ->
  request_fits (deliver (out_form host ($"/put") (Values_Encode (cli_values key value)))).
Proof.
  intros Hf. destruct (cli_form key value host Hf) as [Ek Ev]. destruct Hf as (_ & H1 & H2).
  apply fits_intro; [apply fresh_form|apply no_json_key|..]; rewrite ?Ek, ?Ev.
  - apply small_form; [exact H1|exact H2].
  - apply small_form; [exact H1|vm_compute; discriminate].
  - vm_compute. reflexivity.
Qed.

(** The request of a put. *)
Definition out_put (host key value : bytes) : OutRequest := out_form host ($"/put") (Values_Encode (cli_values key value)).

Lemma cli_put_request host key value c : plain_host host ->
  cli_main (N := ClusterNet page elsewhere) (http_url host) [$"put"; key; value] c =
    let '(answer, c1) := cluster_Do page elsewhere (out_put host key value) c in
    (answer_lines answer, c1).
Proof.
  intros Hh. unfold cli_main. rewrite bool_decide_eq_false_2 by discriminate. rewrite bool_decide_eq_true_2 by done.
  unfold print_answer, http_PostForm, http_NewRequest. by rewrite url_Parse_path by (done || apply put_path).
Qed.

Lemma cli_put_stores host key value c ms m lines c' :
  plain_host host -> cli_fits key value -> key <> [] -> value <> [] -> cf_role (confs host) = MASTER ->
  cluster_shows confs c ms -> ms !! host = Some m ->
  cli_main (N := ClusterNet page elsewhere) (http_url host) [$"put"; key; value] c = (lines, c') ->
  cluster_failed c' \/
  (lines = [$"OK" ++ [x0a]] /\ cluster_shows confs c' (<[host := <[key := (value, 0)]> m]> ms)) \/
  (exists e, lines = [$"Error: " ++ error_Error e]) /\
    (cluster_shows confs c' ms \/ cluster_shows confs c' (<[host := <[key := (value, 0)]> m]> ms)).
Proof.
  intros Hh Hf Hk Hv Hr Hs Hm. rewrite cli_put_request by done. set (q := out_put host key value).
  destruct (cluster_Do page elsewhere q c) as [answer c1] eqn:E1. intros [= <- <-].
  destruct (cluster_step page elsewhere confs q c ms m answer c1 Hs Hm eq_refl put_route (form_header_ok _ _ _)
    (cli_put_fits host key value Hf) E1) as [[Hs' [e ->]]|[(t & H)|(_ & Hfail & _)]]; [| |by left].
  - right; right. split; [by exists e|by left].
  - right. unfold served_on in H. change (u_Host (oq_URL q)) with host in H.
    unfold q, out_put in H. rewrite cli_put_served in H by done. cbn [fst snd] in H.
    destruct H as [Hs' Ha]; [apply small_map_insert; [by eapply cluster_small|apply Hf]|].
    destruct Ha as [->|[e ->]]; [by left|right]. split; [by exists e|by right].
Qed.

(** The arguments of the process for a server at [host]. *)
Definition cli_arguments (joined : bool) (host : bytes) (args : list bytes) : list bytes :=
  setting_args (MkSetting joined ($"server") (FString (http_url host))) ++ args.

(** C40: What the command line puts is what the server stores: any key and any
    value among the arguments of the process, byte for byte.  When the master
    answers, the client prints its OK and the map has the pair; when it prints an
    error the map has the pair or is as it was. *)
Theorem cli_put_stores_its_arguments joined host key value c ms m :
  plain_host host -> cli_fits key value -> key <> [] -> value <> [] -> cf_role (confs host) = MASTER ->
  cluster_shows confs c ms -> ms !! host = Some m ->
  exists main, cli_process (N := ClusterNet page elsewhere) (cli_arguments joined host [$"put"; key; value]) = inr main /\
  forall lines c', main c = (lines, c') ->
    cluster_failed c' \/
    (lines = [$"OK" ++ [x0a]] /\ cluster_shows confs c' (<[host := <[key := (value, 0)]> m]> ms)) \/
    (exists e, lines = [$"Error: " ++ error_Error e]) /\
      (cluster_shows confs c' ms \/ cluster_shows confs c' (<[host := <[key := (value, 0)]> m]> ms)).
Proof.
  intros Hh Hf Hk Hv Hr Hs Hm. eexists. split; [by apply cli_gets_its_arguments|].
  intros lines c' E. by apply (cli_put_stores host key value c ms m).
Qed.
End cli.

(** ** Witnesses *)
Definition no_page : bytes := [].
Definition not_found (q : OutRequest) : error + Response := inr (error_response ($"404 page not found") StatusNotFound).

(** A slave with the key of [sample_slaves], alone on its network. *)
Definition slave_host : bytes := $"s1:8080".
Definition slave_confs (h : bytes) : ServerConf := MkServerConf None 5 ($"secret") SLAVE.
Definition one_slave (plan : list fate) (s : Server) : Cluster := MkCluster {[slave_host := SetRole SLAVE s]} plan [].

Lemma slave_plain : plain_host slave_host.
Proof. apply (plain_sample ($"s1") ($"8080")); [vm_compute; reflexivity..|discriminate]. Qed.

Lemma one_slave_shows plan s : plan_ok 5 plan -> conf_of s = MkServerConf None 5 ($"secret") MASTER -> server_shows 5 s ∅ ->
  cluster_shows slave_confs (one_slave plan s) {[slave_host := ∅]}.
Proof.
  intros Hp Hc Hs. exists 5. split; [exact Hp|]. apply map_Forall_singleton. exists (SetRole SLAVE s).
  split; [apply lookup_singleton_eq|]. split; [exact Hs|]. split; [|apply map_Forall_empty].
  unfold conf_of in *. injection Hc as H1 H2 H3 H4. unfold slave_confs. cbn. by rewrite H1, H2, H3.
Qed.

(** What a computation on the cluster answers, with the statuses of its servers. *)
Definition statuses (c : Cluster) : list Z := rp_StatusCode <$> cl_answers c.

Lemma not_failed c l : statuses c = l -> forallb (fun z => negb (z =? 500)) l = true -> ~ cluster_failed c.
Proof.
  intros <- Hl Hf. unfold cluster_failed in Hf. apply Exists_exists in Hf as (resp & Hin & E).
  rewrite forallb_forall in Hl. specialize (Hl (rp_StatusCode resp)). rewrite E in Hl.
  assert (H : In StatusInternalServerError (statuses c)); [|by specialize (Hl H)].
  apply list_elem_of_In. unfold statuses. apply list_elem_of_fmap. by exists resp.
Qed.

Definition on_slave {A} (plan : list fate) (f : Cluster -> A) : option A :=
  match sample_server None ($"secret") with Ret s => Some (f (one_slave plan s)) | _ => None end.

(** The first request is lost, the answer to the second too; the third arrives. *)
Definition sample_plan : list fate := [RequestLost; AnswerLost (at_time 6); Answered (at_time 7)].
Definition sample_task : SyncTask :=
  MkSyncTask ($"http://s1:8080") (SyncRequest_Marshal (MkSyncRequest ($"put") ($"k") ($"v"))) ($"secret").

Definition sync_statuses (c : Cluster) : bool * list Z :=
  let '(ok, c) := goroutine no_page not_found sample_task c in (ok, statuses c).

Lemma sample_sync : on_slave sample_plan sync_statuses = Some (true, [200; 200]).
Proof. vm_compute. reflexivity. Qed.

Lemma on_slave_run {A} plan (f : Cluster -> A) a : plan_ok 5 plan -> on_slave plan f = Some a ->
  exists c, f c = a /\ cl_plan c = plan /\ cluster_shows slave_confs c {[slave_host := ∅]}.
Proof.
  intros Hp H. destruct (sample_server_shows None ($"secret")) as (s & E & Hc & _ & Hs). unfold on_slave in H. rewrite E in H.
  exists (one_slave plan s). split; [congruence|]. split; [reflexivity|]. exact (one_slave_shows plan s Hp Hc Hs).
Qed.

Lemma sample_plan_ok : plan_ok 5 sample_plan.
Proof. cbn. repeat split; intros; lia. Qed.

Definition put_k (v : bytes) : SyncRequest := MkSyncRequest ($"put") ($"k") v.

Lemma put_k_write v : small ($"k") v -> write_req (put_k v).
Proof. intros Hv. split; [by left|]. split; [discriminate|exact Hv]. Qed.

Lemma sample_key : field_text (rep_syncKey sample_slaves) /\ lets_in (slave_confs slave_host) (rep_syncKey sample_slaves).
Proof. split; [split; vm_compute; reflexivity|right; reflexivity]. Qed.

Lemma replicated_write_arrives_witness : exists c c',
  goroutine no_page not_found sample_task c = (true, c') /\
  cluster_shows slave_confs c {[slave_host := ∅]} /\
  cluster_shows slave_confs c' {[slave_host := <[$"k" := ($"v", 0)]> ∅]}.
Proof.
  destruct (on_slave_run sample_plan sync_statuses _ sample_plan_ok sample_sync) as (c & Ec & Hp & Hs).
  unfold sync_statuses in Ec. destruct (goroutine no_page not_found sample_task c) as [ok c'] eqn:E.
  injection Ec as Eok Est. subst ok. exists c, c'. split; [exact E|]. split; [exact Hs|].
  destruct (replicated_write_arrives no_page not_found slave_confs sample_slaves (put_k ($"v")) sample_task slave_host c
    {[slave_host := ∅]} ∅ true c' (put_k_write ($"v") eq_refl) (list_elem_of_here _ _) eq_refl slave_plain (proj1 sample_key)
    (proj2 sample_key) Hs (lookup_singleton_eq _ _) E) as [Hf|(m' & H1 & [->|[_ ?]] & _)].
  - destruct (not_failed c' _ Est eq_refl Hf).
  - rewrite insert_singleton_eq in H1. exact H1.
  - discriminate.
Defined.

Definition task_k (v : bytes) : SyncTask := MkSyncTask ($"http://s1:8080") (SyncRequest_Marshal (put_k v)) ($"secret").

Definition two_plan : list fate := [Answered (at_time 6); Answered (at_time 7)].
Definition reordered_statuses (c : Cluster) : list Z :=
  statuses (goroutine no_page not_found (task_k ($"1")) (goroutine no_page not_found (task_k ($"2")) c).2).2.

Lemma two_plan_ok : plan_ok 5 two_plan.
Proof. cbn. repeat split; intros; lia. Qed.

Lemma sample_reordered : on_slave two_plan reordered_statuses = Some [200; 200].
Proof. vm_compute. reflexivity. Qed.

(** The master has put 1 and then 2; the slave keeps 1. *)
Lemma replication_can_reorder_witness : exists c,
  cluster_shows slave_confs c {[slave_host := ∅]} /\
  cluster_shows slave_confs (goroutine no_page not_found (task_k ($"1")) (goroutine no_page not_found (task_k ($"2")) c).2).2
    {[slave_host := <[$"k" := ($"1", 0)]> ∅]}.
Proof.
  destruct (on_slave_run two_plan reordered_statuses _ two_plan_ok sample_reordered) as (c & Ec & Hp & Hs).
  exists c. split; [exact Hs|].
  destruct (replication_can_reorder no_page not_found slave_confs sample_slaves ($"k") ($"1") ($"2") (task_k ($"1")) (task_k ($"2"))
    slave_host (at_time 6) (at_time 7) [] c {[slave_host := ∅]} ∅ ltac:(discriminate) eq_refl eq_refl
    (list_elem_of_here _ _) (list_elem_of_here _ _) eq_refl eq_refl slave_plain (proj1 sample_key) (proj2 sample_key) Hs
    (lookup_singleton_eq _ _) Hp) as [_ [Hf|H]].
  - destruct (not_failed _ _ Ec eq_refl Hf).
  - rewrite insert_singleton_eq in H. exact H.
Defined.

(** The values of some keys on a node, as a client reads them. *)
Definition node_value (c : Cluster) (host key : bytes) : Z * bytes :=
  match cl_nodes c !! host with
  | Some s => match ServeHTTP (at_time 9) no_page (get_request ($"/get") ($"key=" ++ url_QueryEscape key)) s with
              | Ret (resp, _) => (rp_StatusCode resp, rp_Body resp) | _ => (0, []) end
  | None => (0, [])
  end.

Definition missing : Z * bytes := (404, $"key not found in database" ++ [x0a]).

(** A node with two keys and a new one, behind a proxy that lists both. *)
Definition old_host : bytes := $"n1:8080".
Definition new_host : bytes := $"n2:8080".
Definition two_nodes_proxy : Proxy := proxy_of (http_url <$> [old_host; new_host]).

Definition old_requests : list (Moment * Request) :=
  [(at_time 6, form_request ($"/put") [] ($"key=a&value=1")); (at_time 7, form_request ($"/put") [] ($"key=e&value=2"))].
Definition old_map : vmap := <[$"e" := ($"2", 0)]> (<[$"a" := ($"1", 0)]> ∅).

Definition master_confs (h : bytes) : ServerConf := MkServerConf None 5 [] MASTER.
Definition migration_plan : list fate :=
  [Answered (at_time 8); Answered (at_time 9); Answered (at_time 10); AnswerLost (at_time 11)].
Definition two_nodes (old new : Server) : Cluster := MkCluster {[old_host := old; new_host := new]} migration_plan [].
Definition two_maps : gmap bytes vmap := {[old_host := old_map; new_host := ∅]}.

Abbreviation ServersNet := (ClusterNet no_page not_found).
Definition migrate_two (c : Cluster) : outcome (unit * ProxyState (N := ServersNet)) :=
  migrateData (N := ServersNet) (gret tt) (http_url <$> [old_host]) (http_url new_host)
    (MkProxyState (N := ServersNet) two_nodes_proxy c []).

(** What the servers answered, and the key [e] on the old node and the new one. *)
Definition migrated (c : Cluster) : list Z * (Z * bytes) * (Z * bytes) :=
  (statuses c, node_value c old_host ($"e"), node_value c new_host ($"e")).
Definition migrate_statuses (c : Cluster) : list Z * (Z * bytes) * (Z * bytes) :=
  match migrate_two c with Ret (_, st) => migrated (ps_world st) | _ => ([], missing, missing) end.

Definition on_nodes {A} (f : Cluster -> A) : option A :=
  match sample_server None [] with
  | Ret s => match serve_all [] old_requests s with Ret (_, s') => Some (f (two_nodes s' s)) | _ => None end
  | _ => None
  end.

Definition sample_migrated : list Z * (Z * bytes) * (Z * bytes) := ([200; 200; 200; 200], missing, (200, $"2" ++ [x0a])).

Lemma sample_migration : on_nodes migrate_statuses = Some sample_migrated.
Proof. vm_cast_no_check (eq_refl (Some sample_migrated)). Qed.

Lemma old_requests_served : serves_as_spec None [] [] old_requests = true.
Proof. vm_compute. reflexivity. Qed.

Lemma old_requests_map : (serve_all_spec [] (MkServerConf None 5 [] MASTER) old_requests ∅).1.2 = old_map.
Proof. by_deciding. Qed.

Lemma old_requests_ok : moments_ok 5 old_requests.
Proof. cbn. repeat split; intros; lia. Qed.

Lemma hosts_differ : old_host <> new_host.
Proof. discriminate. Qed.

Lemma two_nodes_shows : exists c, on_nodes migrate_statuses = Some (migrate_statuses c) /\ master_shows master_confs c two_maps.
Proof.
  destruct (sample_history None [] [] old_requests old_requests_ok) as (s & s' & E & Hc & _ & Hs & Hh);
    [vm_compute; reflexivity|exact old_requests_served|].
  destruct Hh as (E' & Hs' & _ & Hc'). rewrite Hc, old_requests_map in Hs'. exists (two_nodes s' s). split.
  { unfold on_nodes. rewrite E, E'. reflexivity. }
  assert (Hsm : small_map old_map).
  { apply map_Forall_insert_2; [vm_compute; reflexivity|]. apply map_Forall_insert_2; [vm_compute; reflexivity|apply map_Forall_empty]. }
  split; [intros h _; reflexivity|]. exists 7. split; [cbn; repeat split; intros; lia|].
  apply map_Forall_insert_2; [|apply map_Forall_singleton].
  - exists s'. split; [apply lookup_insert_eq|]. split; [exact Hs'|]. split; [rewrite Hc', Hc; reflexivity|exact Hsm].
  - exists s. split; [apply lookup_insert_Some; right; split; [exact hosts_differ|apply lookup_singleton_eq]|].
    split; [apply (server_shows_mono 5 7); [lia|exact Hs]|]. split; [rewrite Hc; reflexivity|apply map_Forall_empty].
Qed.

Lemma two_maps_plain m : m = old_map -> all_plain m.
Proof.
  intros -> k [ve Hk]. unfold old_map in Hk. apply lookup_insert_Some in Hk as [[<- _]|[_ Hk]]; [by_deciding|].
  apply lookup_insert_Some in Hk as [[<- _]|[_ Hk]]; [by_deciding|]. discriminate Hk.
Qed.

Lemma migration_loses_no_key_witness : exists c w' ms',
  master_shows master_confs c two_maps /\
  migrate_two c = Ret (tt, MkProxyState (N := ServersNet) two_nodes_proxy w' []) /\
  master_shows master_confs w' ms' /\ migrated w' = sample_migrated /\
  ((exists m', ms' !! old_host = Some m' /\ m' !! ($"e") = Some ($"2", 0)) \/
   exists m' v', ms' !! new_host = Some m' /\ m' !! ($"e") = Some (v', 0) /\ v' = $"2").
Proof.
  destruct two_nodes_shows as (c & E & Hs). rewrite sample_migration in E.
  destruct (migration_loses_no_key (KV := ClusterNodes no_page not_found master_confs) two_nodes_proxy c [] two_maps [old_host] new_host Hs)
    as (w' & Ew & H).
  - apply Forall_cons. split; [apply (plain_sample ($"n2") ($"8080")); [vm_compute; reflexivity..|discriminate]|].
    apply Forall_singleton, (plain_sample ($"n1") ($"8080")); [vm_compute; reflexivity..|discriminate].
  - by_deciding.
  - exists ∅. apply lookup_insert_Some. right. split; [exact hosts_differ|apply lookup_singleton_eq].
  - intros h ->%list_elem_of_singleton. exists old_map. split; [apply lookup_insert_eq|by apply two_maps_plain].
  - intros h h' m m' ->%list_elem_of_singleton ->%list_elem_of_singleton _ _ Hne. destruct (Hne eq_refl).
  - unfold migrate_statuses, migrate_two in E. rewrite Ew in E. cbn [ps_world] in E.
    assert (Eout : migrated w' = sample_migrated) by congruence.
    assert (Est : statuses w' = [200; 200; 200; 200]) by exact (f_equal (fun x => x.1.1) Eout).
    destruct H as [Hf|(ms' & Hs' & H)]; [destruct (not_failed w' _ Est eq_refl Hf)|].
    exists c, w', ms'. split; [exact Hs|]. split; [exact Ew|]. split; [exact Hs'|]. split; [exact Eout|].
    destruct (H old_host old_map ($"e") ($"2") 0 (list_elem_of_here _ _) (lookup_insert_eq _ _ _) (lookup_insert_eq _ _ _))
      as [Ho|(_ & m' & v1 & H1 & H2 & [Hv|[[] _]] & H3)]; [left; exact Ho|right].
    assert (E2 : form_value v1 = $"2") by (rewrite Hv; vm_compute; reflexivity).
    exists m', (form_value v1). split; [exact H1|]. split; [exact H2|exact E2].
Defined.

(** One master, and the client. *)
Definition one_master (s : Server) : Cluster := MkCluster {[new_host := s]} [Answered (at_time 6)] [].
Definition cli_key : bytes := $"a b&c".
Definition cli_value : bytes := $"x=y%".

Definition cli_run (c : Cluster) : list bytes * list Z :=
  match cli_process (N := ServersNet) (cli_arguments false new_host [$"put"; cli_key; cli_value]) with
  | inr main => let '(lines, c) := main c in (lines, statuses c)
  | inl _ => ([], [])
  end.

Definition on_master {A} (f : Cluster -> A) : option A :=
  match sample_server None [] with Ret s => Some (f (one_master s)) | _ => None end.

Lemma sample_cli : on_master cli_run = Some ([$"OK" ++ [x0a]], [200]).
Proof. vm_compute. reflexivity. Qed.

Lemma cli_put_stores_its_arguments_witness : exists c main c',
  master_shows master_confs c {[new_host := ∅]} /\
  cli_process (N := ServersNet) [$"-server"; $"http://n2:8080"; $"put"; cli_key; cli_value] = inr main /\
  main c = ([$"OK" ++ [x0a]], c') /\
  cluster_shows master_confs c' {[new_host := <[cli_key := (cli_value, 0)]> ∅]}.
Proof.
  destruct (sample_server_shows None []) as (s & E & Hc & _ & Hs). pose proof sample_cli as Hrun.
  unfold on_master in Hrun. rewrite E in Hrun. set (c := one_master s) in *.
  assert (Hshow : cluster_shows master_confs c {[new_host := ∅]}).
  { exists 5. split; [cbn; repeat split; intros; lia|]. apply map_Forall_singleton. exists s.
    split; [apply lookup_singleton_eq|]. split; [exact Hs|]. split; [rewrite Hc; reflexivity|apply map_Forall_empty]. }
  destruct (cli_put_stores_its_arguments no_page not_found master_confs false new_host cli_key cli_value c {[new_host := ∅]} ∅
    (plain_sample ($"n2") ($"8080") eq_refl eq_refl ltac:(discriminate)) ltac:(split; [|split]; vm_compute; discriminate)
    ltac:(discriminate) ltac:(discriminate) eq_refl Hshow (lookup_singleton_eq _ _)) as (main & Em & Hall).
  unfold cli_run in Hrun.
  assert (Em' : cli_process (N := ServersNet) (cli_arguments false new_host [$"put"; cli_key; cli_value]) = inr main) by exact Em.
  rewrite Em' in Hrun. destruct (main c) as [lines c'] eqn:Er.
  injection Hrun as Hl Hst. exists c, main, c'. split; [split; [intros h _; reflexivity|exact Hshow]|].
  split; [exact Em|]. split; [rewrite Hl in Er; exact Er|].
  destruct (Hall lines c' eq_refl) as [Hf|[[_ H]|[[e He] _]]].
  - destruct (not_failed c' _ Hst eq_refl Hf).
  - rewrite insert_singleton_eq in H. exact H.
  - rewrite Hl in He. discriminate He.
Defined.

(** ** What a migration can do to keys

    Runs of the proxy and two servers; the plan answers every request. *)
Definition always (n : nat) : list fate := replicate n (Answered (at_time 9)).

Definition migrate_history (evs : list (Moment * Request)) (olds : list bytes) (new : bytes) (p : Proxy) (keys : list bytes) :
    option (list (Z * bytes) * list (Z * bytes)) :=
  match sample_server None [] with
  | Ret s =>
      match serve_all [] evs s with
      | Ret (_, s') =>
          match migrateData (N := ServersNet) (gret tt) (http_url <$> olds) (http_url new)
                  (MkProxyState (N := ServersNet) p (MkCluster {[old_host := s'; new_host := s]} (always 20) []) []) with
          | Ret (_, st) => Some (node_value (ps_world st) old_host <$> keys, node_value (ps_world st) new_host <$> keys)
          | _ => None
          end
      | _ => None
      end
  | _ => None
  end.

(** A node added again: its keys are put back on it and then deleted from it. *)
Example readding_a_node_loses_its_keys :
  migrate_history old_requests [old_host] old_host (proxy_of (http_url <$> [old_host; old_host])) [$"a"; $"e"]
    = Some ([missing; missing], [missing; missing]).
Proof. vm_compute. reflexivity. Qed.

(** Values are neither escaped nor kept to their last byte. *)
Definition odd_requests : list (Moment * Request) :=
  [(at_time 6, form_request ($"/put") [] ($"key=e&value=x%2By")); (at_time 6, form_request ($"/put") [] ($"key=f&value=1%262"));
   (at_time 6, form_request ($"/put") [] ($"key=h&value=1+"))].

Example migration_changes_values :
  migrate_history odd_requests [old_host] new_host two_nodes_proxy [$"e"; $"f"; $"h"]
    = Some ([missing; missing; missing],
            [(200, $"x y" ++ [x0a]); (200, $"1" ++ [x0a]); (200, $"1" ++ [x0a])]).
Proof. vm_compute. reflexivity. Qed.

(** A key that is not plain is not found, and another one is moved in its place. *)
Definition odd_keys : list (Moment * Request) :=
  [(at_time 6, form_request ($"/put") [] ($"key=a&value=1")); (at_time 6, form_request ($"/put") [] ($"key=a%26x%3D1&value=2"))].

Example migration_moves_another_key :
  Proxy_GetNode two_nodes_proxy ($"a") = http_url old_host /\ Proxy_GetNode two_nodes_proxy ($"a&x=1") = http_url new_host /\
  migrate_history odd_keys [old_host] new_host two_nodes_proxy [$"a"; $"a&x=1"]
    = Some ([missing; (200, $"2" ++ [x0a])], [(200, $"1" ++ [x0a]); missing]).
Proof. split; [|split]; vm_compute; reflexivity. Qed.

(** The answer with the value breaks off after three bytes: they are put on the new
    node, and the value is deleted from the old one. *)
Abbreviation BreakingNet := (CutNet (N := ServersNet)).

Definition migrate_cut (s s' : Server) : list (Z * bytes) :=
  match migrateData (N := BreakingNet) (gret tt) (http_url <$> [old_host]) (http_url new_host)
          (MkProxyState (N := BreakingNet) two_nodes_proxy
             (MkCutWorld (N := ServersNet) (MkCluster {[old_host := s'; new_host := s]} (always 20) []) [3%nat] false) []) with
  | Ret (_, st) => [node_value (cw_world (ps_world st)) old_host ($"e"); node_value (cw_world (ps_world st)) new_host ($"e")]
  | _ => []
  end.

Example migration_moves_part_of_a_value :
  match sample_server None [] with
  | Ret s => match serve_all [] [(at_time 6, form_request ($"/put") [] ($"key=e&value=12345"))] s with
             | Ret (_, s') => migrate_cut s s' | _ => [] end
  | _ => []
  end = [missing; (200, $"123" ++ [x0a])].
Proof. vm_compute. reflexivity. Qed.

(** A client that writes the key on its new node while it is being moved: what
    [others] do before the key is moved is a put that the proxy would route there. *)
Definition newer_put : PxM (N := ServersNet) unit :=
  let! _ := px_net (N := ServersNet) (net_Do (Network := ServersNet) (out_form new_host ($"/put") (put_body ($"e") ($"9")))) in gret tt.

Definition migrate_with_newer (c : Cluster) : list (Z * bytes) :=
  match migrateData (N := ServersNet) newer_put (http_url <$> [old_host]) (http_url new_host)
          (MkProxyState (N := ServersNet) two_nodes_proxy (MkCluster (cl_nodes c) (always 20) []) []) with
  | Ret (_, st) => [node_value (ps_world st) old_host ($"e"); node_value (ps_world st) new_host ($"e")]
  | _ => []
  end.

Example migration_overwrites_a_newer_value : on_nodes migrate_with_newer = Some [missing; (200, $"2" ++ [x0a])].
Proof. vm_compute. reflexivity. Qed.
