(* ===== verification/Takeover.v ===== *)
(** * A write survives its master

    The path of a write from the client through a master to a slave, and of a
    read after the master is gone and the slave has taken over. *)
From S2P Require Import Prelude GoBinary Config GoOs WalLib WalModel Record BTreeLib Index Watch Ring.
From S2P Require Import Store Batch DB Open View BatchSpec CommitSpec Recovery OpenSpec DBSpec Instances.
From S2P Require Import Strs Json Http Urls Replication Server Failover Cmd ServerSpec ServerProps Proxy ProxySpec ProxyProps Migration Cluster ClusterProps.
Open Scope Z_scope.

(** ** Plans *)
Lemma plan_ok_mono T T' plan : T' <= T -> plan_ok T plan -> plan_ok T' plan.
Proof.
  intros HT. induction plan as [|[|t|t] plan IH]; cbn [plan_ok]; [done|done|..];
    intros (H1 & H2 & H3); (split; [lia|split; [intros k; specialize (H2 k); lia|done]]).
Qed.

Lemma plan_ok_tail T plan : plan_ok T plan -> plan_ok T (tail plan).
Proof.
  destruct plan as [|[|t|t] plan]; [done|done|..]; intros (H1 & _ & H3); by apply (plan_ok_mono (mo_now t)).
Qed.

Section takeover.
Context {W : WalLib} {WL : WalLaws W} {B : BTreeLib item item_less} {BL : BTreeLaws B}
  {SF : Snowflake} {SL : SnowflakeLaws SF} {MH : MemHashLib} {RX : Regexp} {ML : MultipartLib} {MLL : MultipartLaws ML}.
Context (page : bytes) (elsewhere : OutRequest -> error + Response).
Implicit Types (s : Server) (c : Cluster).

Abbreviation Net := (ClusterNet page elsewhere).

(** The node [host] is lost. *)
Definition crash (host : bytes) c : Cluster := MkCluster (delete host (cl_nodes c)) (cl_plan c) (cl_answers c).

(** The heartbeat goroutine of the slave [host], which has seen no failure yet,
    runs for [n] ticks. *)
Definition heartbeats (n : nat) (host url : bytes) c : Cluster :=
  match cl_nodes c !! host with
  | Some s =>
      let '(_, s, c, _) := heartbeat_run (N := Net) (replicate n (fun x => x)) (Some (MkHeartbeatWorker url 0)) s c in
      MkCluster (<[host := s]> (cl_nodes c)) (cl_plan c) (cl_answers c)
  | None => c
  end.

(** The set-up of the servers after [host] has become a master. *)
Definition promoted (host : bytes) (confs : bytes -> ServerConf) (h : bytes) : ServerConf :=
  if decide (h = host)
  then MkServerConf (cf_replicator (confs h)) (cf_startTime (confs h)) (cf_syncKey (confs h)) MASTER
  else confs h.

(** ** The goroutines a write starts *)
Lemma cluster_tasks confs q c ms m resp c' :
  cluster_shows confs c ms -> ms !! u_Host (oq_URL q) = Some m ->
  u_Path (oq_URL q) ∈ routes -> header_ok (oq_Header q) = true -> request_fits (deliver q) ->
  cluster_Do page elsewhere q c = (inr resp, c') -> rp_StatusCode resp = StatusOK ->
  exists t s s', cl_nodes c !! u_Host (oq_URL q) = Some s /\ cl_nodes c' !! u_Host (oq_URL q) = Some s' /\
    sv_tasks s' = sv_tasks s ++ (serve_spec t page (confs (u_Host (oq_URL q))) (deliver q) m).2.
Proof.
  intros (T & Hplan & Hms) Hm Hpath Hhdr Hfit E Hok. destruct (Hms _ _ Hm) as (s & Es & Hs & Hcf & _).
  unfold cluster_Do in E. destruct (cl_plan c) as [|[|t|t] plan]; [done..|].
  cbn [plan_ok] in Hplan. destruct Hplan as (H1 & H2 & _). unfold serve_at in E.
  case_bool_decide as Hsch; [done|]. rewrite Hhdr in E. cbn [negb cl_nodes] in E.
  rewrite Es, bool_decide_eq_true_2 in E by done.
  destruct (ServeHTTP_spec t page T H1 _ m s Hs H2 Hfit) as (resp' & s' & E' & _ & H). rewrite E' in E.
  injection E as <- <-. exists t, s, s'. cbn [cl_nodes]. rewrite lookup_insert_eq. split; [done|]. split; [done|].
  destruct H as [(_ & _ & H)|(_ & e & _ & -> & _)]; [|discriminate Hok]. by rewrite <- Hcf.
Qed.

(** ** The loss of a node *)
Lemma crash_shows confs host c ms : cluster_shows confs c ms -> cluster_shows confs (crash host c) (delete host ms).
Proof.
  intros (T & Hp & Hms). exists T. split; [done|]. intros h m [Hne Hh]%lookup_delete_Some.
  destruct (Hms h m Hh) as (s & Es & H). exists s. split; [|done]. cbn. by rewrite lookup_delete_ne.
Qed.

(** ** The slave takes over *)

(** A request to a host that is not there. *)
Lemma no_host q c : cl_nodes c !! u_Host (oq_URL q) = None ->
  exists e, cluster_Do page elsewhere q c = (inl e, MkCluster (cl_nodes c) (tail (cl_plan c)) (cl_answers c)).
Proof.
  intros Hn. assert (Hat : forall t plan, exists e, serve_at page elsewhere t q (MkCluster (cl_nodes c) plan (cl_answers c))
    = (inl e, MkCluster (cl_nodes c) plan (cl_answers c))).
  { intros t plan. unfold serve_at. case_bool_decide; [by eexists|]. destruct (header_ok _); [|by eexists].
    cbn [negb cl_nodes]. rewrite Hn. by eexists. }
  unfold cluster_Do. destruct (cl_plan c) as [|[|t|t] plan] eqn:Ep; cbn [tail].
  - eexists. f_equal. rewrite <- Ep. by destruct c.
  - by eexists.
  - destruct (Hat t plan) as [e ->]. by eexists.
  - apply Hat.
Qed.

Lemma health_path : plain_path ($"/health").
Proof. eexists. split; [reflexivity|by_deciding]. Qed.

Lemma lost_tick url n s c (host : bytes) : plain_host host -> url = http_url host -> cl_nodes c !! host = None -> sv_role s = SLAVE ->
  heartbeat_tick (N := Net) (MkHeartbeatWorker url n) s c =
    (let '(hw, s) := heartbeat_failed (MkHeartbeatWorker url n) s in
     (hw, s, MkCluster (cl_nodes c) (tail (cl_plan c)) (cl_answers c), Some false)).
Proof.
  intros Hh -> Hn Hr. unfold heartbeat_tick. rewrite bool_decide_eq_false_2 by (rewrite Hr; discriminate). cbn [hw_masterURL].
  assert (E : @http_Get Net (http_url host ++ $"/health") c = cluster_Do page elsewhere (out_get host ($"/health") []) c).
  { unfold http_Get, http_NewRequest. by rewrite url_Parse_path by (done || apply health_path). }
  destruct (no_host (out_get host ($"/health") []) c Hn) as [e Ee]. rewrite Ee in E.
  rewrite E. reflexivity.
Qed.

(** Three ticks after its master is gone the slave is a master. *)
Lemma three_heartbeats host master c s : plain_host master -> cl_nodes c !! master = None ->
  cl_nodes c !! host = Some s -> sv_role s = SLAVE ->
  heartbeats 3 host (http_url master) c =
    MkCluster (<[host := SetRole MASTER s]> (cl_nodes c)) (tail (tail (tail (cl_plan c)))) (cl_answers c).
Proof.
  intros Hh Hn Hs Hr. unfold heartbeats. rewrite Hs. cbn [replicate heartbeat_run].
  rewrite (lost_tick (http_url master) 0 s c master) by done.
  change (heartbeat_failed (MkHeartbeatWorker (http_url master) 0) s) with (Some (MkHeartbeatWorker (http_url master) 1), s).
  cbv iota. cbn [heartbeat_run]. rewrite (lost_tick (http_url master) 1 s _ master) by done.
  change (heartbeat_failed (MkHeartbeatWorker (http_url master) 1) s) with (Some (MkHeartbeatWorker (http_url master) 2), s).
  cbv iota. cbn [heartbeat_run]. rewrite (lost_tick (http_url master) 2 s _ master) by done. reflexivity.
Qed.
(** It shows what it showed. *)
Lemma promoted_shows confs host master c s ms : cluster_shows confs c ms -> cl_nodes c !! host = Some s ->
  cluster_shows (promoted host confs)
    (MkCluster (<[host := SetRole MASTER s]> (cl_nodes c)) (tail (tail (tail (cl_plan c)))) (cl_answers c)) (delete master ms).
Proof.
  intros (T & Hp & Hms) Hs. exists T. split; [by do 3 apply plan_ok_tail|]. intros h m [_ Hh]%lookup_delete_Some.
  destruct (Hms h m Hh) as (s1 & Es & Hg & Hc & Hsm). unfold node_shows, promoted. cbn [cl_nodes]. case_decide as Hd.
  - subst h. rewrite Hs in Es. injection Es as <-. exists (SetRole MASTER s). rewrite lookup_insert_eq.
    split_and!; [done|done| |done]. by rewrite <- Hc.
  - exists s1. rewrite lookup_insert_ne by done. by split_and!.
Qed.

Lemma takes_over confs host master c ms m : plain_host master -> host <> master ->
  cluster_shows confs c ms -> ms !! host = Some m -> cf_role (confs host) = SLAVE ->
  cluster_shows (promoted host confs) (heartbeats 3 host (http_url master) (crash master c)) (delete master ms).
Proof.
  intros Hh Hne Hs Hm Hr. pose proof (crash_shows confs master c ms Hs) as Hc.
  assert (Hm' : delete master ms !! host = Some m) by by rewrite lookup_delete_ne.
  pose proof Hc as (T & _ & Hms). destruct (Hms host m Hm') as (s & Es & _ & Ec & _).
  rewrite (three_heartbeats host master _ s); [|done|cbn; by rewrite lookup_delete_eq|done|by rewrite <- Ec in Hr].
  pose proof (promoted_shows confs host master _ s _ Hc Es) as H. by rewrite delete_delete_eq in H.
Qed.

(** The goroutine of a put for the slave at [url]. *)
Definition put_task (rep : Replicator) (key value url : bytes) : SyncTask :=
  MkSyncTask url (SyncRequest_Marshal (MkSyncRequest ($"put") key value)) (rep_syncKey rep).

Lemma SyncPut_to rep key value url : url ∈ slaves rep -> put_task rep key value url ∈ SyncPut rep key value.
Proof.
  intros Hin. unfold SyncPut, broadcast. rewrite decide_False by (intros H; rewrite H in Hin; by apply not_elem_of_nil in Hin).
  apply list_elem_of_fmap. by exists url.
Qed.

(** A put has no expiry time. *)
Lemma spec_get_put (now : Z) (m : vmap) (key value : bytes) : spec_get now (<[key := (value, 0)]> m) key = inr value.
Proof. unfold spec_get. by rewrite live_lookup, lookup_insert_eq. Qed.

(** ** Reading through the client *)
Lemma cli_get_spec confs host key c ms m lines c' : plain_host host -> plain key -> small key [] -> key <> [] ->
  cluster_shows confs c ms -> ms !! host = Some m ->
  cli_main (N := Net) (http_url host) [$"get"; key] c = (lines, c') ->
  cluster_shows confs c' ms /\
  ((exists e, lines = [$"Error: " ++ error_Error e]) \/
   exists now, match spec_get now m key with
     | inr v => lines = [v ++ [x0a]]
     | inl e => lines = [error_Error e ++ [x0a]]
     end).
Proof.
  intros Hh Hp Hsm Hk Hs Hm. unfold cli_main. rewrite bool_decide_eq_true_2 by done. unfold print_answer.
  rewrite get_key_request by done. cbn [net_Do ClusterNet].
  destruct (cluster_Do page elsewhere (out_get host ($"/get") (key_query key)) c) as [answer c1] eqn:E. intros [= <- <-].
  assert (Hsame : forall t cf, (serve_spec t page cf (deliver (out_get host ($"/get") (key_query key))) m).1.2 = m).
  { intros t cf. rewrite get_spec_key by done. case_bool_decide; [done|]. by destruct (spec_get _ _ _). }
  destruct (cluster_read page elsewhere confs (out_get host ($"/get") (key_query key)) c ms m answer c1 Hs Hm eq_refl get_route
    (get_header_ok _ _ _) (get_fits _ _ _ Hp Hsm) get_no_write Hsame E) as [Hs' Ha].
  split; [done|]. destruct Ha as [[e ->]|(t & cf & ->)]; [left; by exists e|right]. exists (mo_now t).
  rewrite get_spec_key, bool_decide_eq_false_2 by done. by destruct (spec_get (mo_now t) m key).
Qed.

(** ** The whole path *)

(** The put of a client that was answered OK: the master has the pair, and has
    started a goroutine for each of its slaves. *)
Lemma cli_put_tasks confs host key value c ms m c' :
  plain_host host -> cli_fits key value -> key <> [] -> value <> [] -> cf_role (confs host) = MASTER ->
  cluster_shows confs c ms -> ms !! host = Some m ->
  cli_main (N := Net) (http_url host) [$"put"; key; value] c = ([$"OK" ++ [x0a]], c') ->
  cluster_failed c' \/
  cluster_shows confs c' (<[host := <[key := (value, 0)]> m]> ms) /\
  exists s', cl_nodes c' !! host = Some s' /\
    forall task, task ∈ tasks_of (confs host) (fun rep => SyncPut rep key value) -> task ∈ sv_tasks s'.
Proof.
  intros Hh Hf Hk Hv Hr Hs Hm. rewrite cli_put_request by done.
  destruct (cluster_Do page elsewhere (out_put host key value) c) as [answer c1] eqn:E. intros [= Ea <-].
  destruct answer as [err|resp]; [discriminate Ea|].
  set (q := out_put host key value) in *.
  destruct (cluster_step page elsewhere confs q c ms m _ c1 Hs Hm eq_refl put_route (form_header_ok _ _ _)
    (cli_put_fits host key value Hf) E) as [[_ [e He]]|[(t & H)|(_ & Hfail & _)]]; [done| |].
  - right. unfold served_on in H. change (u_Host (oq_URL q)) with host in H. unfold q, out_put in H.
    rewrite cli_put_served in H by done. cbn [fst snd] in H.
    destruct H as [Hs' [[= ->]|[e He]]]; [apply small_map_insert; [by eapply cluster_small|apply Hf]| |done].
    split; [done|].
    destruct (cluster_tasks confs q c ms m _ c1 Hs Hm put_route (form_header_ok _ _ _) (cli_put_fits host key value Hf) E eq_refl)
      as (t' & s & s' & _ & Es' & Et). exists s'. split; [done|]. intros task Ht. rewrite Et. apply elem_of_app. right.
    change (u_Host (oq_URL q)) with host. unfold q, out_put. by rewrite cli_put_served.
  - by left.
Qed.

(** C11: A put that the client saw answered OK is on the master, which has started
    a goroutine for each slave.  Once the goroutine of a slave has been answered,
    the write outlives the master: if the master is lost, three ticks later the
    slave is a master that shows all it showed, the pair included, and a get of
    the client answers the value. *)
Theorem acknowledged_write_survives_failover confs rep master slave key value c ms m ms' c1 :
  plain_host master -> plain_host slave -> slave <> master -> cli_fits key value -> plain key -> key <> [] -> value <> [] ->
  cf_role (confs master) = MASTER -> cf_role (confs slave) = SLAVE ->
  cf_replicator (confs master) = Some rep -> http_url slave ∈ slaves rep ->
  field_text (rep_syncKey rep) -> lets_in (confs slave) (rep_syncKey rep) ->
  cluster_shows confs c ms -> ms !! master = Some m -> ms !! slave = Some ms' ->
  cli_main (N := Net) (http_url master) [$"put"; key; value] c = ([$"OK" ++ [x0a]], c1) ->
  cluster_failed c1 \/
  let task := put_task rep key value (http_url slave) in
  exists s1, cl_nodes c1 !! master = Some s1 /\ task ∈ sv_tasks s1 /\
    forall c2, goroutine page elsewhere task c1 = (true, c2) ->
      cluster_failed c2 \/
      let c3 := heartbeats 3 slave (http_url master) (crash master c2) in
      cluster_shows (promoted slave confs) c3 (delete master (<[slave := <[key := (value, 0)]> ms']> ms)) /\
      forall lines c4, cli_main (N := Net) (http_url slave) [$"get"; key] c3 = (lines, c4) ->
        lines = [value ++ [x0a]] \/ exists e, lines = [$"Error: " ++ error_Error e].
Proof.
  intros Hhm Hhs Hne Hf Hp Hk Hv Hrm Hrs Hrep Hin Hkey Hlets Hs Hm Hms' E.
  destruct (cli_put_tasks confs master key value c ms m c1 Hhm Hf Hk Hv Hrm Hs Hm E) as [Hfail|(Hs1 & s1 & Es1 & Ht)];
    [by left|right].
  pose proof (SyncPut_to rep key value (http_url slave) Hin) as Htask. set (task := put_task rep key value (http_url slave)) in *.
  exists s1. split; [done|]. split; [apply Ht; unfold tasks_of; by rewrite Hrep|]. intros c2 Eg.
  assert (Hsm : small key value) by (destruct Hf as (_ & ? & ?); by apply small_form).
  assert (Hms1 : <[master := <[key := (value, 0)]> m]> ms !! slave = Some ms') by by rewrite lookup_insert_ne.
  destruct (goroutine_spec page elsewhere confs rep (MkSyncRequest ($"put") key value) task slave c1 _ ms' true c2
    (conj (or_introl eq_refl) (conj Hk Hsm)) Htask eq_refl Hhs Hkey Hlets Hs1 Hms1 Eg) as [Hfail|(m' & Hs2 & [->|[_ ?]] & _)];
    [by left|right|done].
  unfold effect in Hs2. rewrite bool_decide_eq_true_2 in Hs2 by done. cbn [Key Value] in Hs2. cbv zeta.
  assert (Hs3 := takes_over confs slave master c2 _ _ Hhm Hne Hs2 (lookup_insert_eq _ _ _) Hrs).
  rewrite insert_insert_ne, delete_insert_eq in Hs3 by done.
  split; [done|]. intros lines c4 Eget.
  assert (Hms3 : delete master (<[slave := <[key := (value, 0)]> ms']> ms) !! slave = Some (<[key := (value, 0)]> ms')).
  { rewrite lookup_delete_ne by done. apply lookup_insert_eq. }
  assert (Hsk : small key []) by (unfold small, len in *; simpl; lia).
  destruct (cli_get_spec _ slave key _ _ _ lines c4 Hhs Hp Hsk Hk Hs3 Hms3 Eget) as [_ [He|[now Hget]]]; [by right|left].
  by rewrite spec_get_put in Hget.
Qed.
End takeover.

(** ** A master and its slave

    The client puts a pair on the master; the first sync request is lost, the
    second arrives; the master is lost; the slave takes over and is read. *)
Definition master_host : bytes := $"m1:8080".
Definition one_slave_rep : Replicator := NewReplicator [http_url slave_host] ($"secret").
Definition pair_confs (h : bytes) : ServerConf :=
  if decide (h = slave_host) then MkServerConf None 5 ($"secret") SLAVE else MkServerConf (Some one_slave_rep) 5 ($"secret") MASTER.

(** The put, two sync requests of which the first is lost, three heartbeats, the get. *)
Definition takeover_plan : list fate :=
  [Answered (at_time 6); RequestLost; Answered (at_time 7); Answered (at_time 8); RequestLost; Answered (at_time 8); Answered (at_time 9)].

Definition pair_maps : gmap bytes vmap := {[master_host := ∅; slave_host := ∅]}.

Definition a_pair (m s : Server) : Cluster :=
  MkCluster {[master_host := m; slave_host := SetRole SLAVE s]} takeover_plan [].

Definition after_put (c : Cluster) : list bytes * Cluster :=
  cli_main (N := ServersNet) (http_url master_host) [$"put"; $"name"; $"a b"] c.
Definition after_sync (c : Cluster) : bool * Cluster :=
  goroutine no_page not_found (put_task one_slave_rep ($"name") ($"a b") (http_url slave_host)) (after_put c).2.
Definition after_failover (c : Cluster) : Cluster :=
  heartbeats no_page not_found 3 slave_host (http_url master_host) (crash master_host (after_sync c).2).
Definition after_get (c : Cluster) : list bytes * Cluster :=
  cli_main (N := ServersNet) (http_url slave_host) [$"get"; $"name"] (after_failover c).

(** What is printed, and the statuses the servers have answered by the end. *)
Definition takeover_run (c : Cluster) : list bytes * bool * list Z * list Z :=
  ((after_put c).1, (after_sync c).1, statuses (after_put c).2, statuses (after_sync c).2).

Definition on_pair {A} (f : Cluster -> A) : option A :=
  match sample_server (Some one_slave_rep) ($"secret"), sample_server None ($"secret") with
  | Ret m, Ret s => Some (f (a_pair m s)) | _, _ => None end.

Lemma sample_takeover : on_pair takeover_run = Some ([$"OK" ++ [x0a]], true, [200], [200; 200]).
Proof. vm_compute. reflexivity. Qed.

Lemma master_plain : plain_host master_host.
Proof. apply (plain_sample ($"m1") ($"8080")); [vm_compute; reflexivity..|discriminate]. Qed.

Lemma takeover_plan_ok : plan_ok 5 takeover_plan.
Proof. cbn. repeat split; intros; lia. Qed.

Lemma pair_hosts : slave_host <> master_host.
Proof. discriminate. Qed.

Lemma on_pair_run {A} (f : Cluster -> A) a : on_pair f = Some a -> exists c, f c = a /\ cluster_shows pair_confs c pair_maps.
Proof.
  destruct (sample_server_shows (Some one_slave_rep) ($"secret")) as (m & Em & Hcm & _ & Hm).
  destruct (sample_server_shows None ($"secret")) as (s & Es & Hcs & _ & Hs).
  unfold on_pair. rewrite Em, Es. intros [= E]. exists (a_pair m s). split; [exact E|]. exists 5. split; [exact takeover_plan_ok|].
  apply map_Forall_insert_2; [|apply map_Forall_singleton].
  - exists m. split; [apply lookup_insert_eq|]. split; [exact Hm|]. split; [exact Hcm|apply map_Forall_empty].
  - exists (SetRole SLAVE s). split; [apply lookup_insert_Some; right; split; [exact (not_eq_sym pair_hosts)|apply lookup_singleton_eq]|].
    split; [exact Hs|]. split; [|apply map_Forall_empty].
    unfold conf_of in *. injection Hcs as H1 H2 H3 _. cbn. by rewrite H1, H2, H3.
Qed.

Lemma sample_fits : cli_fits ($"name") ($"a b").
Proof. split; [|split]; vm_compute; discriminate. Qed.
Lemma sample_plain : plain ($"name").
Proof. by_deciding. Qed.
Lemma pair_key : field_text (rep_syncKey one_slave_rep).
Proof. split; vm_compute; reflexivity. Qed.
Lemma pair_lookups : pair_maps !! master_host = Some ∅ /\ pair_maps !! slave_host = Some ∅.
Proof. split; by_deciding. Qed.
Lemma put_ran c : (after_put c).1 = [$"OK" ++ [x0a]] -> after_put c = ([$"OK" ++ [x0a]], (after_put c).2).
Proof. destruct (after_put c). intros H. by rewrite <- H. Qed.

Lemma sync_ran c : (after_sync c).1 = true ->
  goroutine no_page not_found (put_task one_slave_rep ($"name") ($"a b") (http_url slave_host)) (after_put c).2 = (true, (after_sync c).2).
Proof. unfold after_sync. destruct (goroutine _ _ _ _) as [ok c']. by intros <-. Qed.
Lemma get_ran c : cli_main (N := ServersNet) (http_url slave_host) [$"get"; $"name"] (after_failover c) = ((after_get c).1, (after_get c).2).
Proof. unfold after_get. by destruct (cli_main _ _ _). Qed.

Lemma acknowledged_write_survives_failover_witness : exists c,
  cluster_shows pair_confs c pair_maps /\
  (after_put c).1 = [$"OK" ++ [x0a]] /\ (after_sync c).1 = true /\
  ((after_get c).1 = [$"a b" ++ [x0a]] \/ exists e, (after_get c).1 = [$"Error: " ++ error_Error e]).
Proof.
  destruct (on_pair_run takeover_run _ sample_takeover) as (c & Hrun & Hs). exists c.
  pose proof (f_equal (fun x => x.1.1.1) Hrun) as H1. pose proof (f_equal (fun x => x.1.1.2) Hrun) as H2.
  pose proof (f_equal (fun x => x.1.2) Hrun) as H3.
  pose proof (f_equal snd Hrun) as H4. cbn [fst snd takeover_run] in H1, H2, H3, H4.
  split; [exact Hs|]. split; [exact H1|]. split; [exact H2|].
  destruct (acknowledged_write_survives_failover no_page not_found pair_confs one_slave_rep master_host slave_host ($"name") ($"a b")
    c pair_maps ∅ ∅ (after_put c).2 master_plain slave_plain pair_hosts sample_fits sample_plain ltac:(discriminate) ltac:(discriminate)
    eq_refl eq_refl eq_refl (list_elem_of_here _ _) pair_key (or_intror eq_refl) Hs (proj1 pair_lookups) (proj2 pair_lookups)
    (put_ran c H1)) as [Hf|(s1 & _ & _ & Hgo)]; [destruct (not_failed _ _ H3 eq_refl Hf)|].
  destruct (Hgo (after_sync c).2 (sync_ran c H2)) as [Hf|[_ Hget]]; [destruct (not_failed _ _ H4 eq_refl Hf)|].
  exact (Hget (after_get c).1 (after_get c).2 (get_ran c)).
Defined.

Example the_slave_answers : on_pair (fun c => (after_get c).1) = Some [$"a b" ++ [x0a]].
Proof. vm_compute. reflexivity. Qed.

(** ** A master that is cut off

    The slave takes over from a master it cannot reach but clients can: both are
    masters and both accept a put of the same key; the goroutine of the old master
    then writes its value over that of the new one, which takes sync requests
    whatever its role. *)
Definition cut_off_plan : list fate :=
  [RequestLost; RequestLost; RequestLost; Answered (at_time 8); Answered (at_time 8); Answered (at_time 9)].

Definition put_on (host value : bytes) (c : Cluster) : list bytes * Cluster :=
  cli_main (N := ServersNet) (http_url host) [$"put"; $"name"; value] c.

Definition role_of (c : Cluster) (host : bytes) : option bytes := sv_role <$> cl_nodes c !! host.

Definition split_run (c : Cluster) : list (option bytes) * list bytes * list bytes * bool * list (Z * bytes) :=
  let c := MkCluster (cl_nodes c) cut_off_plan [] in
  let c := heartbeats no_page not_found 3 slave_host (http_url master_host) c in
  let roles := role_of c <$> [master_host; slave_host] in
  let '(new_lines, c) := put_on slave_host ($"2") c in
  let '(old_lines, c) := put_on master_host ($"1") c in
  let '(ok, c) := goroutine no_page not_found (put_task one_slave_rep ($"name") ($"1") (http_url slave_host)) c in
  (roles, new_lines, old_lines, ok, (fun h => node_value c h ($"name")) <$> [master_host; slave_host]).

Example two_masters : on_pair split_run =
  Some ([Some MASTER; Some MASTER], [$"OK" ++ [x0a]], [$"OK" ++ [x0a]], true, [(200, $"1" ++ [x0a]); (200, $"1" ++ [x0a])]).
Proof. vm_compute. reflexivity. Qed.
